(* ===== verification/_CoqProject ===== *)
-Q . S2P
Prelude.v
Geometry.v
Layout.v
Grid.v
Solver.v
Input.v
Style.v
Error.v
Terminal.v
Screen.v
Widget.v
Label.v
Button.v
Dispatch.v
Render.v
Display.v
Loop.v
Await.v
Focus.v
App.v
Shown.v
Pen.v
