(* ===== verification/Prelude.v ===== *)
(** * A verification development for semtext (terminal UI toolkit, Rust)

    This file is the root of the library: its header documents the whole
    development, and the file holds what every component shares.

    ** The program

    semtext places widgets in a rectangular grid of text cells, draws
    them and routes keyboard and mouse input back to them.  The sources
    under [src/src/] are:

    - [area.rs]: [Edge] (a bit set of the four sides), [Dim] and [Area],
      with [split] and [trim], the rectangle algebra of the layout;
    - [widget/button.rs]: the [Button] widget and its five-state
      interaction state machine ([focus], [mouse_event], [style],
      [border], [draw]);
    - [widget/label.rs]: the [Label] widget, its size preference
      ([bounds]) and [render];
    - [screen.rs]: [Screen], the frame loop: [new] and [cleanup] switch
      the terminal's modes, [set_style] and the other output methods
      queue commands, [draw] renders a frame, [step] draws and waits for
      an action, [event_action] routes one event, [mouse_action] does
      the hit testing and the focus notifications;
    - [text/style.rs]: [Weight], [Appearance], [TextStyle];
    - [error.rs]: the [Error] enum wrapping the failures of the
      terminal library and of I/O.

    and under [src/examples/] the two programs [grid_futures.rs] and
    [grid.rs], which make a screen, build a spacer, a border and two
    labels, place them with a grid template and draw frames until the
    user asks to leave.  [lib.rs] and [text/mod.rs] declare modules.

    The modules [layout], [input], [widget/mod], [text/color],
    [text/theme] and [widget/border] that these files use are not in the
    repository snapshot; their types are modelled from the
    specification and from the way the sources above use them, and what
    cannot be known of them is a parameter (a class): [Themes],
    [KeyMaps], [CellsText].  The grid template ([grid_area!]) and the
    layout solver ([GridArea::widget_boxes]) are not in the snapshot
    either; they are modelled from the specification, in files of their
    own ([Grid], [Solver]), so that what rests on the specification's
    words is apart from what is translated from code.  The libraries
    the sources call are parameters as well: [StrWidth]
    (unicode_width), [TextWrap] (textwrap); crossterm and standard
    output are modelled in [Terminal].

    ** Files, in dependency order

    - [Prelude] (this file): outcomes of Rust evaluation ([outcome],
      [panic]), [u16] arithmetic under both build profiles ([Overflow],
      [add16], [sub16], [div16]), [Option::or], the [u16] hint database
      and the tactics [u16_lia], [u16_cases], [inv_bind], lemmas on
      lists.
    - [Geometry]: [area.rs].  [Module Edge], [Module Dim], [Module Area]
      with one definition per function of [impl Area]; mutation of
      [self] is a chain of [let]s.  Theorems: [split] partitions the
      cells of the area, in closed form and with well-formedness kept;
      it panics exactly on the edge sets that are not a side or an
      opposite pair; where the two build profiles differ; [trim] equals
      the reference [Area.trimmed], saturates at zero, removes exactly
      the cells near the requested edges and composes; [Area.same_cells]
      is the equivalence "covers the same cells", with [Proper]
      instances.  These are stated for well-formed areas ([Area.wf]);
      the areas that touch the last column or row
      ([Area.addressable]) have theorems of their own
      ([area_split_addressable], [area_trim_addressable]): the cells
      are right without overflow checks, and with them the operations
      panic exactly where [Area.split_overflows] and
      [Area.trim_overflows] say.  [test.area_trim] is the unit test of
      the file.  [Edge] keeps its bits as a [Z] where the source has
      [u8]: [contains] reads the four low bits only, and a theorem
      stated for every edge covers more values than the source has.
    - [Layout]: [Pos], [BBox] ([within], [clip]), [AreaBound]; from the
      specification.
    - [Grid]: the grid template, from the specification.  A template
      is a matrix of cells ([matrix]), a label or the empty cell; [scan]
      takes the bounding rectangle of each label in one row-major pass,
      [check_spans] rejects a label that does not fill its rectangle
      ([RaggedSpan]), [rectangular] rows of unequal length
      ([RaggedRows]), [resolve] a label with no widget ([Unmapped]);
      [parse] composes them into a [GridArea.t].  Theorems: a validated
      template is sound ([parse_sound]: every label covers exactly its
      rectangle, rectangles of two labels are disjoint, labels are in
      the order of first appearance) and can be painted back
      ([parse_paint]); validation is complete ([parse_complete]) and
      each error is returned exactly for its cause.
    - [Solver]: the layout solver, from the specification, on exact
      integers.  [tracks] gives each column and row its minimum (the
      largest share of a widget's minimum over the tracks it spans),
      its flexibility and its maximum; [solve_axis] gives the sizes:
      the minimums scaled by available over total when they do not fit
      ([scale_down]: floors, and the cells left to the leftmost
      tracks), and otherwise the minimums with the rest poured into the
      flexible tracks in equal shares until none has room ([fill]);
      [place] turns a grid rectangle into an [Area] by the running sums
      ([offset], [extent]); [solve] is the whole.  Theorems: the sizes
      add up to what is available, or no flexible track has room; each
      is within the bounds of its track; the boxes are well-formed
      areas inside the bounding box, disjoint for different labels, and
      at least the widgets' minimums when the minimums fit.
    - [Input]: [Action], [FocusEvent], [MouseEvent], [ModKeys], [Event],
      [KeyMap] (a [gmap]); from the specification.
    - [Style]: [text/style.rs].  [Module Weight], [Module Appearance]
      ([with_*], [changed]), [Module TextStyle]; crossterm's
      [Attributes] as a finite set ([gset]).  Theorems: what each
      [with_*] switches, and what [changed] emits, clause by clause.
    - [Error]: [error.rs] ([source], the conversions, [fmt]), and
      [result], the model of [Result<T, Error>], as a monad.
    - [Terminal]: the terminal as the screen observes it ([Term.t]: the
      commands queued and written, raw mode, the size, and a list of
      faults that decides which operations fail), the commands [Cmd],
      and [io S A], the monad of code that takes [&mut self] and
      returns [Result<A>]; its bind is the [?] operator.
    - [Screen]: [screen.rs], the state ([Screen.t], with the terminal
      as its field [out]) and every method that does not walk the
      widgets, as [io Screen.t] code; [Cells], the view of a box.
      Theorems: what [set_style] sends ([style_cmds]) and records, on
      success, on failure and when the style is already current;
      [new] followed by [Drop] restores the terminal's modes
      ([modes_after]) when nothing fails, and what is left behind when
      something does; [cells] is the part of a box on the screen.
      The event stream is an argument of [step] and not a field of
      [Screen.t], so [EventStream::new] in [Screen::new] has no
      counterpart; [Drop] discards the error of [cleanup], which the
      code logs with [dbg!].
    - [Widget]: the trait as the classes [Widget] (input) and
      [WidgetDraw] (output), the contract widgets keep as the class
      [WidgetLaws] (no action means no change; events do not change
      the size preference), and [spy_widget], an instance that records
      the calls it receives.
    - [Label]: [widget/label.rs], [bounds] and [render].  Theorems:
      [bounds] cannot panic, its closed form, and that the bound is
      well typed ([Solver.bound_wf], what the solver asks of a
      widget).
    - [Button]: [widget/button.rs].  The state lives in a [Cell] and is
      changed behind [&self]: here [focus] and [mouse_event] return the
      button they leave.  The state machine is stated on its own as the
      relation [Button.step]; the handlers are shown to refine it (take
      the step and return [Redraw], or no step exists and nothing
      changes), [Button.run] folds the handlers over a list of inputs,
      and reachability is by rule induction over [rtc Button.moves].
      [Button_widget_laws] discharges the contract of [Widget].
    - [Dispatch]: [screen.rs], input.  The slice
      [&[(&dyn Widget, BBox)]] is a list of indices into a store of
      widgets ([widget_boxes] and a [list W]), so that one widget may
      stand in the layout twice, as a shared reference may.  [deliver]
      is the loop body of [mouse_action] for one widget,
      [mouse_action_body] the body with the store, [mouse_action] the
      fold; [event_action] routes an event; [wait_action] is the loop
      of [step] over the items the event stream yields.  The theorems
      are proved for every instance of [Widget] (and [WidgetLaws] where
      stated), and the calls a pass makes are read off the recording
      instance.
    - [Render]: [screen.rs], output.  [draw], [step], the drawing
      contract [WidgetDrawLaws] and its instances for [Label] and
      [Button].  Theorems: what a frame sends and in which order, that
      it is flushed and switches no mode; [step] is a frame followed by
      the event loop ([step_ok], [step_consumes]); where
      [Label::render] moves the cursor.
    - [Display]: what the terminal shows.  [Display.t] is the cursor
      and the character of each cell (a [gmap]); [Display.exec] gives a
      command its effect on it, [Display.run] a list of commands.  The
      vocabulary: [confined] (commands that change no cell outside a
      box), [local] (what they leave on a cell depends on the cell
      only), [same_display] (two lists of commands with the same
      effect, an equivalence with [Proper] instances), [line_shown].
      The painting contract of widgets is the class [WidgetPaintLaws]:
      drawing has the effect of [paint], which is confined to the view
      and local; [Label] keeps it when the line breaker gives lines no
      wider than asked ([TextWrapFits]; [hard_wrap], defined with
      Equations, is such a breaker), and [Button] when [print_text]
      does ([CellsTextPaintLaws]).  Theorems: what [Label::render]
      shows ([label_shows]); what a frame shows ([draw_frame_shown]:
      nothing outside the boxes, and in a box that no other overlaps
      what its widget paints on an empty screen); boxes that overlap
      are painted in the order of the layout ([frame_paint_over]).
      A cell that holds no character reads as a space
      ([Display.char_at]): clearing fills the screen with spaces, and
      leaves the empty map.
    - [Loop]: the frame loop of the specification as a state machine:
      the phases [Idle], [Rendering], [AwaitingInput], [Done],
      [Crashed], configurations (phase, screen, widgets, pending items
      of the stream) and the transition relation [moves], with its
      function [next].  Theorems: the relation is deterministic and
      strongly normalising (the measure [weight]); a configuration is
      at rest exactly when no transition is left; [step] implements the
      machine ([step_refines]); invariants by induction on the
      relation (the stream is read front to back, the layout is solved
      once a step).
    - [Await]: the loop of [step] as an interaction tree ([await],
      an [ITree.iter] over [await_body]), with one event, [Poll], for
      the await on the event stream, so that the model needs no list
      and no bound.  [fed] feeds a tree the items of a list.
      Fed a list, [await] returns what [wait_action] returns on it
      ([await_wait_action], a lemma on the adequacy of the list model,
      which relates two models of the same lines of [step]).  The
      theorem: while the events are quiet the loop never returns
      ([await_keeps_polling], by coinduction with Paco).
    - [Focus]: [mouse_action] over a layout of buttons: the state of
      every button after a pass in the closed form [button_after], focus
      after a press, and redraw exactly on change.
    - [App]: [examples/grid_futures.rs] ([Module GridFutures]:
      [async_main], its [while] loop [step_loop], [main]) and
      [examples/grid.rs] ([Module GridRs]: [main], its [loop]
      [main_loop], [layout]), on top of all the files above.
      [grid.rs] matches on crossterm's [Event::Key] and
      [KeyCode::Esc]; the model has the key event of [Input] and the
      code 27 for the escape key ([GridRs.Esc]).  A run
      takes the terminal as found and the items its event source will
      yield, and gives how the program ends ([exit]: returned, template
      rejected, unwound from a panic, or blocked on a stream that has
      nothing more) and the terminal it leaves; [leave] is the end of
      [main]'s scope, where the screen is dropped.  Theorems: a run
      ends; it leaves at a [Quit] key (at the escape key for [grid.rs])
      after any events that are no such key; however it ends, the
      terminal is left in the modes it was found in.  The invariant of
      the loops is [frames]: some frames later the terminal has not
      failed, raw mode and the key map are as they were, and nothing
      sent in between switches a mode.
    - [Shown]: the parts of a frame put together, for labels: the
      template is validated ([Grid.parse]), the labels give their
      bounds ([Label.bounds]), the solver gives the boxes
      ([Solver.solve]), which lie apart and within the screen, [draw]
      draws them, the wait for input sends nothing more, and so the
      display shows every label in its box when a step of the program
      is left ([grid_labels_shown]).
    - [Pen]: the style the terminal writes with.  [Pen.t] is the two
      colors and the attributes that are on, [Pen.exec] the effect of
      a style command ([SetAttributes] writes the attributes of its
      set in the order of crossterm's enumeration, the switches before
      the resets; [NormalIntensity] resets bold and dim).  [synced]
      says that the pen is the one of the style [Screen] remembers,
      which [set_style] takes for granted when it sends only what
      [Appearance::changed] gives.  Theorems: [set_style] keeps the
      pen in step exactly for [compatible] appearances
      ([set_style_shows]); a switch that is on in both styles is lost
      ([set_style_loses_switch]); frames and the loop of the program
      keep the pen in step for themes with [steady] styles
      ([draw_synced], [step_loop_synced]), proved by composing the
      operations of the screen with the rules of [keeps], with the
      widgets behind the contract [WidgetPenLaws] ([Label], and
      [Button] over [CellsTextPenLaws]); every character of a frame
      is written with the pen of the style of a widget of the layout
      ([draw_written], over [WidgetInkLaws]: a label writes in the
      style of its group, a button in the style of its state).
      Examples run the code where the pen is lost: an italic theme,
      bold followed by thin, a [set_style] that fails between the two
      colors.

    ** Machine integers

    A [u16] is a [Z] in [0, 65535] ([is_u16]).  Rust's [+] and [-] on
    [u16] panic on overflow when overflow checks are on (the debug
    profile) and wrap modulo 65536 when they are off (release).  Both are
    modelled: every arithmetic operation takes the profile as the
    typeclass argument [Overflow] and returns an [outcome], [Ok] of the
    value or [Panic].  Theorems are stated for all profiles where the
    code cannot overflow, and per profile where the profiles differ.
    An area is well formed ([Area.wf]) when its fields are [u16] and its
    far edges are at most 65535; this is the hypothesis of most
    theorems on [split] and [trim], and both preserve it.  An area
    whose last cell is in column or row 65535 has its far edge at
    65536: it is [Area.addressable] and not well formed, and on it
    the code forms sums that leave [u16]
    ([area_split_addressable], [area_trim_addressable],
    [area_split_right_profiles]).  The positions the
    output methods are given ([move_to]) are not computed by the
    modelled code and are kept as they come; [Cells.move_to] and
    [BBox.within], whose sources are not in the snapshot, are over
    [Z] with no bound.

    ** Failure

    A panic is a value of [outcome]; an error is a value of [result].
    Every operation of the terminal consumes one entry of [Term.faults]
    and fails if the entry holds an error: a theorem stated for every
    terminal covers every pattern of failures, and a theorem with the
    hypothesis [Term.reliable] is about the runs in which nothing
    fails.

    ** Loops and termination

    Every function of the model is total.  The loops of [mouse_action]
    and [draw] run over the layout, a list.  The loop of [step] waits on
    an event stream that may never yield an action: [wait_action] runs
    it over a finite prefix of the stream and says whether the loop has
    returned (with what, and what is left unread), has panicked, or is
    still waiting; the theorem on it says at which item the loop
    returns.  [Await.await] is the same loop with no bound, as an
    interaction tree; [await_wait_action] shows that the list model
    loses nothing of it, and [await_keeps_polling] that the loop does
    not return while the events have no action.  In both, an item is
    what one poll of the stream gives after the conversion of the
    crossterm event ([.into()], the identity here), and [Waiting] is
    an answer of the model, not a value of the program: it says that
    the list ran out before the loop returned.

    [Loop.run] iterates the transition function of the state machine;
    [Loop.weight], two for each pending item and three for the phases,
    bounds the transitions left, and that much fuel reaches the rest
    ([run_at_rest]).

    Two definitions of the model take fuel.  [Solver.fill] repeats its
    pass while a flexible track has room and something is left to hand
    out; every
    pass that does not end the filling brings a track to its maximum, so
    one unit of fuel per track is enough, which is what [solve_axis]
    passes and what [fill_settles] proves (more fuel changes nothing).
    The loops of the examples draw a frame and then read at least one
    item of the event stream, so they end within one frame per item and
    one more: [step_loop_fuel] and [main_loop_fuel] show that this much
    fuel gives a result, [step_loop_more] and [main_loop_more] that
    more fuel gives the same.

    ** Not modelled

    - The code of [grid_area!] and of [GridArea::widget_boxes]: [Grid]
      and [Solver] model what the specification says of them, not a
      source.  The specification speaks of ratios; the model keeps
      exact integers (floors and remainders), and does not subtract
      widget borders from the boxes.
    - [Spacer] and [Border] (their sources are not in the snapshot):
      the examples take them as widgets of any type that keeps the
      widget contract.
    - How [Cells::print_text] lays text out, how textwrap breaks lines
      and what width unicode_width gives a string: parameters.  Which
      characters a button shows is therefore not stated, only that it
      stays in its box when [print_text] does ([CellsTextPaintLaws],
      of which [cut_text] is an instance); what a label shows is
      stated for line breakers that keep to the width, with one column
      for each character (printable ASCII).
    - The capacity of standard output's buffer: in the model what is
      queued reaches the terminal when it is flushed, and not before.
    - Of the terminal's display, the colors and attributes each cell
      keeps ([Pen] has those the terminal writes with, [Display] the
      characters), and what the terminal does with a character printed
      past its last column (line wrap is switched off by
      [Screen::new]) or with a cursor moved off the screen: [Display]
      has an unbounded grid, and the theorems show that the writes
      stay within boxes that are within the screen.  The pen a
      terminal has before the screen is made is a parameter ([p0]);
      [synced] asks that it has no attribute on, which the code
      assumes and does not establish.
    - The bytes crossterm writes for a command, the text the wrapped
      errors format to ([Error.fmt] takes it as a parameter), and how
      the event stream is polled ([EvStreamFut::poll]): what the model
      has of it is the item each poll gives, the answer to [Poll] in
      [Await] and the next item of a list elsewhere.
    - The inline Markdown styling that the documentation of [Label]
      announces ([widget/label.rs], lines 11 to 20): the code does
      not implement it, [render] prints the text as it is, and so
      does the model.
    - [crate::text::Style], which [Button::style] returns: no file of
      the snapshot defines it; the model takes it to be [TextStyle],
      whose [with_background] and [with_foreground] the method calls.
      [Button_widget] drops the dimension that [screen.rs] passes to
      [mouse_event] and [Button::mouse_event] does not take.
    - [lib.rs] and [text/mod.rs]: module declarations and re-exports,
      with nothing to run ([text/mod.rs] does not declare [style],
      which the model reads as [text::style] all the same); the
      getters of [Area] and [Screen] are the projections of the
      records.

    Every function of the six source files and of the two examples
    has its definition here.  The lines of the sources that no
    definition translates are imports, attributes and closing braces,
    the getters named above, [Area::inset], which is commented out in
    the source, and the scaffolding of the test module. *)

From Stdlib Require Import ZArith Lia.
From stdpp Require Import base option list.

#[local] Open Scope Z_scope.

(** ** Outcomes of evaluation *)

(** The ways the modelled code can panic. *)
Inductive panic : Type :=
| ArithOverflow
| DivideByZero
| InvalidEdges
| UnwrapNone.

(** The result of evaluating a Rust expression: a value, or a panic. *)
Inductive outcome (A : Type) : Type :=
| Ok (a : A)
| Panic (p : panic).

Arguments Ok {A} a.
Arguments Panic {A} p.

#[export] Instance panic_eq_dec : EqDecision panic.
Proof. solve_decision. Defined.

#[export] Instance outcome_eq_dec {A} `{EqDecision A} : EqDecision (outcome A).
Proof. solve_decision. Defined.

#[export] Instance outcome_ret : MRet outcome := fun A a => Ok a.

#[export] Instance outcome_bind : MBind outcome := fun A B f m =>
  match m with
  | Ok a => f a
  | Panic p => Panic p
  end.

#[export] Instance outcome_fmap : FMap outcome := fun A B f m =>
  match m with
  | Ok a => Ok (f a)
  | Panic p => Panic p
  end.

(** [is_Ok m]: evaluation of [m] does not panic. *)
Definition is_Ok {A} (m : outcome A) : Prop := exists a, m = Ok a.

(** ** Build profiles and [u16] arithmetic *)

(** Whether arithmetic overflow is checked (debug) or wraps (release). *)
Class Overflow := overflow_checks : bool.

Definition Debug : Overflow := true.
Definition Release : Overflow := false.

Definition u16_max : Z := 65535.

Definition is_u16 (z : Z) : Prop := 0 <= z <= u16_max.

(** Truncation to 16 bits, as [as u16] and wrapping arithmetic do. *)
Definition wrap16 (z : Z) : Z := z mod 65536.

(** The [u16] result of an operation whose exact result is [z]. *)
Definition arith16 `{Overflow} (z : Z) : outcome Z :=
  if decide (0 <= z <= u16_max) then Ok z
  else if overflow_checks then Panic ArithOverflow
  else Ok (wrap16 z).

Definition add16 `{Overflow} (a b : Z) : outcome Z := arith16 (a + b).

Definition sub16 `{Overflow} (a b : Z) : outcome Z := arith16 (a - b).

(** Division panics on a zero divisor under every profile. *)
Definition div16 (a b : Z) : outcome Z :=
  if decide (b = 0) then Panic DivideByZero else Ok (a / b).

(** [Option::or]: the first [Some], if any. *)
Definition or {A} (a b : option A) : option A :=
  match a with
  | Some x => Some x
  | None => b
  end.

(** ** Automation *)

Create HintDb u16 discriminated.
Create Rewrite HintDb u16.

#[export] Hint Unfold is_u16 u16_max wrap16 : u16.

(** Unfold the [u16] vocabulary and let [lia] finish. *)
Ltac u16_lia := autounfold with u16 in *; Z.div_mod_to_equations; lia.

(** Split on every range test of [arith16] in the goal. *)
Ltac u16_cases :=
  unfold add16, sub16, arith16 in *;
  repeat case_decide; try u16_lia.

(** Invert a hypothesis [m ≫= f = Ok b]. *)
Ltac inv_bind H :=
  match type of H with
  | mbind _ ?m = Ok _ =>
      let E := fresh "E" in
      destruct m eqn:E; simpl in H; [| discriminate H]
  end.

(** ** Logic *)

Lemma and_iff_both {A B C D : Prop} :
  (A <-> B) -> (C <-> D) -> (A /\ C <-> B /\ D).
Proof. tauto. Qed.

(** ** Lemmas on outcomes *)

Lemma is_Ok_Ok {A} (a : A) : is_Ok (Ok a).
Proof. by exists a. Qed.

Lemma is_Ok_Panic {A} (p : panic) : ~ is_Ok (@Panic A p).
Proof. by intros [a Ha]. Qed.

Lemma bind_Ok {A B} (f : A -> outcome B) (m : outcome A) (b : B) :
  m ≫= f = Ok b <-> exists a, m = Ok a /\ f a = Ok b.
Proof.
  destruct m as [a|p]; simpl; split.
  - eauto.
  - by intros (a' & [= ->] & ?).
  - discriminate.
  - by intros (a' & ? & ?).
Qed.

Lemma bind_is_Ok {A B} (f : A -> outcome B) (m : outcome A) :
  is_Ok (m ≫= f) <-> exists a, m = Ok a /\ is_Ok (f a).
Proof.
  unfold is_Ok. split.
  - intros [b Hb]. apply bind_Ok in Hb as (a & ? & ?). eauto.
  - intros (a & -> & b & Hb). eauto.
Qed.

#[export] Hint Resolve is_Ok_Ok : u16.

(** ** Lemmas on [u16] arithmetic *)

Lemma wrap16_is_u16 z : is_u16 (wrap16 z).
Proof. u16_lia. Qed.

Lemma wrap16_small z : is_u16 z -> wrap16 z = z.
Proof. intros. unfold wrap16. apply Z.mod_small. u16_lia. Qed.

Lemma wrap16_idemp_sub a b : wrap16 (wrap16 a - b) = wrap16 (a - b).
Proof. unfold wrap16. by rewrite Zminus_mod_idemp_l. Qed.

Section arith16.
Context `{O : Overflow}.

Lemma arith16_exact z : is_u16 z -> arith16 z = Ok z.
Proof. intros. by u16_cases. Qed.

Lemma arith16_is_u16 z r : arith16 z = Ok r -> is_u16 r.
Proof.
  unfold arith16. case_decide; [by intros [= <-]|].
  destruct overflow_checks; [done|]. intros [= <-]. apply wrap16_is_u16.
Qed.

Lemma arith16_wrap z r : arith16 z = Ok r -> r = wrap16 z.
Proof.
  unfold arith16. case_decide.
  - intros [= <-]. by rewrite wrap16_small.
  - destruct overflow_checks; [done|]. by intros [= <-].
Qed.

Lemma add16_exact a b : is_u16 (a + b) -> add16 a b = Ok (a + b).
Proof. apply arith16_exact. Qed.

Lemma sub16_exact a b : is_u16 (a - b) -> sub16 a b = Ok (a - b).
Proof. apply arith16_exact. Qed.

End arith16.

Lemma arith16_debug z r : @arith16 Debug z = Ok r -> r = z /\ is_u16 z.
Proof. unfold arith16. case_decide; [by intros [= <-]|done]. Qed.

Lemma arith16_debug_panic z : ~ is_u16 z -> @arith16 Debug z = Panic ArithOverflow.
Proof. intros. unfold arith16. by case_decide. Qed.

Lemma arith16_release z : @arith16 Release z = Ok (wrap16 z).
Proof.
  unfold arith16. case_decide; [|done]. by rewrite wrap16_small.
Qed.

(** Whatever the checked profile computes, every profile computes. *)
Lemma arith16_debug_any `{O : Overflow} z r :
  @arith16 Debug z = Ok r -> arith16 z = Ok r.
Proof. intros [-> ?]%arith16_debug. by apply arith16_exact. Qed.

#[export] Hint Resolve wrap16_is_u16 arith16_is_u16 : u16.
#[export] Hint Rewrite @arith16_release : u16.

(** ** Lemmas on [or] *)

Lemma or_None_r {A} (a : option A) : or a None = a.
Proof. by destruct a. Qed.

Lemma or_assoc {A} (a b c : option A) : or (or a b) c = or a (or b c).
Proof. by destruct a. Qed.

Lemma or_is_None {A} (a b : option A) : or a b = None <-> a = None /\ b = None.
Proof. destruct a, b; simpl; intuition congruence. Qed.

(** ** Lemmas on lists *)

Lemma flat_map_ext_in {A B} (f g : A -> list B) (l : list A) :
  (forall a, a ∈ l -> f a = g a) -> flat_map f l = flat_map g l.
Proof.
  induction l as [|a l IH]; [done|]. intros Hfg. cbn.
  rewrite (Hfg a) by apply list_elem_of_here. f_equal. apply IH.
  intros. by apply Hfg, list_elem_of_further.
Qed.

Lemma elem_of_flat_map {A B} (f : A -> list B) (l : list A) (y : B) :
  y ∈ flat_map f l <-> exists x, x ∈ l /\ y ∈ f x.
Proof.
  rewrite list_elem_of_In, in_flat_map.
  by setoid_rewrite list_elem_of_In.
Qed.
