(* ===== verification/Geometry.v ===== *)
(** * Geometry: edges, dimensions and rectangular areas ([src/area.rs])

    [Edge] is the bit set generated by [bitflags!] over [u8]; [Dim] a
    width and a height; [Area] a rectangle of text cells anchored at its
    top-left cell.  One definition per function of [impl Area]; the
    [u16] additions and subtractions go through [add16] and [sub16], so
    each operation returns an [outcome] under a build profile.

    The abstract reading of an area is the set of cells it covers
    ([cell_in]); the theorems relate [split] and [trim] to it, show the
    well-formedness invariant [wf] preserved, and say exactly when the
    two build profiles disagree.  A well-formed area has its far edges
    at most 65535; an area whose last cell is in column or row 65535
    is [addressable] only, and the last section says what [split] and
    [trim] do there: the right cells without overflow checks, a panic
    with them where [split_overflows] and [trim_overflows] hold.
    [test.area_trim] is the unit test at the end of the source file,
    which passes under both profiles.

    The bits of an [Edge] are a [Z] where the source has [u8]:
    [contains] reads the bits of the flag it is asked for, so the
    theorems stated for every edge cover the 256 values of the source
    and more. *)

From Stdlib Require Import ZArith Lia.
From stdpp Require Import base option.
From S2P Require Import Prelude.

#[local] Open Scope Z_scope.

(** ** Edge: [bitflags! { pub struct Edge: u8 { .. } }] *)

Module Edge.

Record t : Type := mk { bits : Z }.

Definition NONE : t := mk 0x00.
Definition TOP : t := mk 0x01.
Definition BOTTOM : t := mk 0x02.
Definition LEFT : t := mk 0x04.
Definition RIGHT : t := mk 0x08.
Definition TOP_LEFT : t := mk (Z.lor (bits TOP) (bits LEFT)).
Definition TOP_RIGHT : t := mk (Z.lor (bits TOP) (bits RIGHT)).
Definition BOTTOM_LEFT : t := mk (Z.lor (bits BOTTOM) (bits LEFT)).
Definition BOTTOM_RIGHT : t := mk (Z.lor (bits BOTTOM) (bits RIGHT)).
Definition TOP_BOTTOM : t := mk (Z.lor (bits TOP) (bits BOTTOM)).
Definition LEFT_RIGHT : t := mk (Z.lor (bits LEFT) (bits RIGHT)).
Definition ALL : t := mk (Z.lor (bits TOP_BOTTOM) (bits LEFT_RIGHT)).

(** [#[derive(Default)]]: the empty set. *)
Definition default : t := mk 0.

(** The method [contains] that [bitflags!] generates:
    [(self.bits & other.bits) == other.bits]. *)
Definition contains (self other : t) : bool :=
  bool_decide (Z.land (bits self) (bits other) = bits other).

(** The values [bitflags!] lets safe code build: subsets of [ALL]. *)
Definition valid (e : t) : Prop := 0 <= bits e <= 15.

End Edge.

#[export] Instance Edge_eq_dec : EqDecision Edge.t.
Proof. solve_decision. Defined.

(** ** Dim *)

Module Dim.

Record t : Type := mk { width : Z; height : Z }.

Definition new (width height : Z) : t := mk width height.

End Dim.

#[export] Instance Dim_eq_dec : EqDecision Dim.t.
Proof. solve_decision. Defined.

(** ** Area *)

Module Area.

Record t : Type := mk {
  col : Z;
  row : Z;
  dim : Dim.t;
}.

Definition new (col row width height : Z) : t :=
  let dim := Dim.new width height in
  mk col row dim.

Definition width (self : t) : Z := Dim.width (dim self).

Definition height (self : t) : Z := Dim.height (dim self).

(** Field assignment: [a.col = c], [a.row = r], [a.dim.width = w],
    [a.dim.height = h]. *)
Definition set_col (a : t) (c : Z) : t := mk c (row a) (dim a).
Definition set_row (a : t) (r : Z) : t := mk (col a) r (dim a).
Definition set_width (a : t) (w : Z) : t :=
  mk (col a) (row a) (Dim.mk w (height a)).
Definition set_height (a : t) (h : Z) : t :=
  mk (col a) (row a) (Dim.mk (width a) h).

Section ops.
Context `{O : Overflow}.

Definition split_left (self : t) (w : Z) : outcome (t * t) :=
  let left := set_width self (Z.min (width self) w) in
  c ← add16 (col self) (width left);
  let right := set_col self c in
  rw ← sub16 (width self) (width left);
  let right := set_width right rw in
  mret (left, right).

Definition split_right (self : t) (w : Z) : outcome (t * t) :=
  let right := set_width self (Z.min (width self) w) in
  s ← add16 (col self) (width self);
  c ← sub16 s (width right);
  let right := set_col right c in
  lw ← sub16 (width self) (width right);
  let left := set_width self lw in
  mret (right, left).

Definition split_horiz (self : t) : outcome (t * t) :=
  split_left self (width self / 2).

Definition split_top (self : t) (h : Z) : outcome (t * t) :=
  let top := set_height self (Z.min (height self) h) in
  bh ← sub16 (height self) (height top);
  let bottom := set_height self bh in
  r ← add16 (row self) (height top);
  let bottom := set_row bottom r in
  mret (top, bottom).

Definition split_bottom (self : t) (h : Z) : outcome (t * t) :=
  let bottom := set_height self (Z.min (height self) h) in
  s ← add16 (row self) (height self);
  r ← sub16 s (height bottom);
  let bottom := set_row bottom r in
  th ← sub16 (height self) (height bottom);
  let top := set_height self th in
  mret (bottom, top).

Definition split_vert (self : t) : outcome (t * t) :=
  split_top self (height self / 2).

Definition split (self : t) (edge : Edge.t) (cells : Z) : outcome (t * t) :=
  if decide (edge = Edge.LEFT) then split_left self cells
  else if decide (edge = Edge.RIGHT) then split_right self cells
  else if decide (edge = Edge.LEFT_RIGHT) then split_horiz self
  else if decide (edge = Edge.TOP) then split_top self cells
  else if decide (edge = Edge.BOTTOM) then split_bottom self cells
  else if decide (edge = Edge.TOP_BOTTOM) then split_vert self
  else Panic InvalidEdges.

Definition trim_left (self : t) (cells : Z) : outcome t :=
  let cells := Z.min (width self) cells in
  c ← add16 (col self) cells;
  let self := set_col self c in
  w ← sub16 (width self) cells;
  mret (set_width self w).

Definition trim_right (self : t) (cells : Z) : outcome t :=
  let cells := Z.min (width self) cells in
  w ← sub16 (width self) cells;
  mret (set_width self w).

Definition trim_top (self : t) (cells : Z) : outcome t :=
  let cells := Z.min (height self) cells in
  r ← add16 (row self) cells;
  let self := set_row self r in
  h ← sub16 (height self) cells;
  mret (set_height self h).

Definition trim_bottom (self : t) (cells : Z) : outcome t :=
  let cells := Z.min (height self) cells in
  h ← sub16 (height self) cells;
  mret (set_height self h).

Definition trim (self : t) (edge : Edge.t) (cells : Z) : outcome t :=
  let area := self in
  area ← (if Edge.contains edge Edge.LEFT
          then trim_left area cells else mret area);
  area ← (if Edge.contains edge Edge.RIGHT
          then trim_right area cells else mret area);
  area ← (if Edge.contains edge Edge.TOP
          then trim_top area cells else mret area);
  area ← (if Edge.contains edge Edge.BOTTOM
          then trim_bottom area cells else mret area);
  mret area.

End ops.

(** *** Specification vocabulary *)

(** The type invariant: four [u16] fields. *)
Definition is_area (a : t) : Prop :=
  is_u16 (col a) /\ is_u16 (row a) /\ is_u16 (width a) /\ is_u16 (height a).

(** Well-formed areas: the far edges are representable too, so that no
    coordinate of a cell of the area, and no sum the operations form,
    leaves [u16]. *)
Definition wf (a : t) : Prop :=
  is_area a /\ col a + width a <= u16_max /\ row a + height a <= u16_max.

(** The cell at column [c] and row [r] lies in the area. *)
Definition cell_in (a : t) (c r : Z) : Prop :=
  col a <= c < col a + width a /\ row a <= r < row a + height a.

(** Every cell of [a] is a cell of [b]. *)
Definition inside (a b : t) : Prop :=
  forall c r, cell_in a c r -> cell_in b c r.

(** Two areas with the same cells; coarser than equality, since an
    empty area may be anchored anywhere. *)
Definition same_cells (a b : t) : Prop :=
  forall c r, cell_in a c r <-> cell_in b c r.

(** What [trim] removes at one edge: [cells], clamped to the extent
    that is left, when the edge is requested. *)
Definition cut (requested : bool) (extent cells : Z) : Z :=
  if requested then Z.min extent cells else 0.

(** [trim] in one step: the reference the code is compared with. *)
Definition trimmed (a : t) (edge : Edge.t) (cells : Z) : t :=
  let l := cut (Edge.contains edge Edge.LEFT) (width a) cells in
  let r := cut (Edge.contains edge Edge.RIGHT) (width a - l) cells in
  let t := cut (Edge.contains edge Edge.TOP) (height a) cells in
  let b := cut (Edge.contains edge Edge.BOTTOM) (height a - t) cells in
  mk (col a + l) (row a + t) (Dim.mk (width a - l - r) (height a - t - b)).

(** The edge combinations [split] accepts. *)
Definition split_edge (e : Edge.t) : Prop :=
  e = Edge.LEFT \/ e = Edge.RIGHT \/ e = Edge.LEFT_RIGHT \/
  e = Edge.TOP \/ e = Edge.BOTTOM \/ e = Edge.TOP_BOTTOM.

(** Areas whose cells all have [u16] coordinates: the far edges may be
    one past the last column and the last row.  These are the
    well-formed areas and those that touch the last column or row. *)
Definition addressable (a : t) : Prop :=
  is_area a /\ col a + width a <= u16_max + 1 /\
  row a + height a <= u16_max + 1.

(** Where [split] forms a sum that leaves [u16] on an addressable
    area: the area ends at the last column and is split from the
    right, or from the left by its whole width; likewise for rows. *)
Definition split_overflows (a : t) (e : Edge.t) (n : Z) : Prop :=
  (col a + width a = u16_max + 1 /\
   (e = Edge.RIGHT \/ (e = Edge.LEFT /\ width a <= n))) \/
  (row a + height a = u16_max + 1 /\
   (e = Edge.BOTTOM \/ (e = Edge.TOP /\ height a <= n))).

(** Where [trim] does: the area ends at the last column and its whole
    width is trimmed from the left; likewise from the top. *)
Definition trim_overflows (a : t) (e : Edge.t) (n : Z) : Prop :=
  (Edge.contains e Edge.LEFT = true /\
   col a + width a = u16_max + 1 /\ width a <= n) \/
  (Edge.contains e Edge.TOP = true /\
   row a + height a = u16_max + 1 /\ height a <= n).

End Area.

#[export] Instance Area_eq_dec : EqDecision Area.t.
Proof. solve_decision. Defined.

#[export] Instance Area_wf_dec (a : Area.t) : Decision (Area.wf a).
Proof. unfold Area.wf, Area.is_area, is_u16. apply _. Defined.

#[export] Instance Area_cell_in_dec a c r : Decision (Area.cell_in a c r).
Proof. unfold Area.cell_in. apply _. Defined.

#[export] Instance Area_split_edge_dec e : Decision (Area.split_edge e).
Proof. unfold Area.split_edge. apply _. Defined.

#[export] Instance Area_addressable_dec a : Decision (Area.addressable a).
Proof. unfold Area.addressable, Area.is_area, is_u16. apply _. Defined.

#[export] Instance Area_split_overflows_dec a e n :
  Decision (Area.split_overflows a e n).
Proof. unfold Area.split_overflows. apply _. Defined.

#[export] Instance Area_trim_overflows_dec a e n :
  Decision (Area.trim_overflows a e n).
Proof. unfold Area.trim_overflows. apply _. Defined.

#[export] Hint Unfold Area.wf Area.is_area Area.cell_in Area.inside
  Area.same_cells Area.cut Area.trimmed Area.width Area.height Area.set_col Area.set_row Area.set_width
  Area.set_height : u16.

(** ** The unit test of the file: [mod test] *)

Module test.

(** [assert_eq!(area.trim(Edge::LEFT, 1), Area::new(1, 0, 4, 7))]:
    whether the assertion holds, when [trim] returns. *)
Definition area_trim `{O : Overflow} : outcome bool :=
  let area := Area.new 0 0 5 7 in
  trimmed ← Area.trim area Edge.LEFT 1;
  mret (bool_decide (trimmed = Area.new 1 0 4 7)).

End test.


(** ** Proof automation *)

Ltac area_simpl :=
  cbn [Area.col Area.row Area.dim Area.width Area.height Dim.width Dim.height
       Dim.new Area.new Area.set_col Area.set_row Area.set_width
       Area.set_height fst snd] in *.

(** Replace every area of the context by its four components. *)
Ltac area_destruct :=
  repeat match goal with
  | a : Area.t |- _ => destruct a as [? ? [? ?]]
  end; area_simpl.

(** Linear arithmetic over the fields of areas. *)
Ltac area_lia :=
  autounfold with u16 in *; area_simpl; Z.div_mod_to_equations; lia.

(** Evaluate the [u16] operations whose results are in range. *)
Ltac run16 :=
  area_simpl; unfold add16, sub16;
  cbn [mbind outcome_bind mret outcome_ret]; area_simpl;
  repeat (rewrite arith16_exact by area_lia;
          cbn [mbind outcome_bind mret outcome_ret]; area_simpl).

(** From a run under the checked profile to a run under any profile. *)
Ltac debug_any H :=
  unfold add16, sub16 in *;
  repeat match type of H with
  | context [@arith16 Debug ?z] =>
      let E := fresh "E" in
      destruct (@arith16 Debug z) eqn:E;
      [apply arith16_debug_any in E; rewrite E
      |discriminate H];
      cbn [mbind outcome_bind mret outcome_ret] in *
  end.

(** Decide every comparison of edge constants in the context. *)
Ltac edge_decide :=
  cbv zeta in *;
  repeat match goal with
  | H : context [decide ?P] |- _ =>
      first [rewrite (decide_True (P:=P)) in H by compute_done
            |rewrite (decide_False (P:=P)) in H by compute_done]
  end.

(** The same in the goal. *)
Ltac edge_decide_goal :=
  repeat match goal with
  | |- context [decide ?P] =>
      first [rewrite (decide_True (P:=P)) by compute_done
            |rewrite (decide_False (P:=P)) by compute_done]
  end.

(** ** Edge *)

Lemma edge_contains_bit e k :
  0 <= k -> Edge.contains e (Edge.mk (2 ^ k)) = Z.testbit (Edge.bits e) k.
Proof.
  intros Hk. unfold Edge.contains. cbn [Edge.bits].
  destruct (Z.testbit (Edge.bits e) k) eqn:Hbit.
  - apply bool_decide_eq_true. apply Z.bits_inj'. intros n Hn.
    rewrite Z.land_spec, Z.pow2_bits_eqb by done.
    destruct (Z.eqb_spec k n) as [->|]; [by rewrite Hbit|apply andb_false_r].
  - apply bool_decide_eq_false. intros Heq.
    apply (f_equal (fun z => Z.testbit z k)) in Heq.
    rewrite Z.land_spec, Z.pow2_bits_eqb, Z.eqb_refl, Hbit in Heq by done.
    done.
Qed.

Lemma edge_contains_NONE e : Edge.contains e Edge.NONE = true.
Proof. apply bool_decide_eq_true. apply Z.land_0_r. Qed.

Lemma edge_valid_cases e :
  Edge.valid e ->
  exists t b l r : bool,
    Edge.bits e = Z.b2z t + 2 * Z.b2z b + 4 * Z.b2z l + 8 * Z.b2z r.
Proof.
  intros He. exists (Z.testbit (Edge.bits e) 0), (Z.testbit (Edge.bits e) 1),
    (Z.testbit (Edge.bits e) 2), (Z.testbit (Edge.bits e) 3).
  unfold Edge.valid in He. destruct e as [b]; cbn [Edge.bits] in *.
  assert (Hb : In b [0;1;2;3;4;5;6;7;8;9;10;11;12;13;14;15]) by (simpl; lia).
  simpl in Hb. by repeat destruct Hb as [<-|Hb].
Qed.

(** [ALL] contains every valid edge set, and only those. *)
Lemma edge_ALL_contains e :
  0 <= Edge.bits e -> Edge.contains Edge.ALL e = true <-> Edge.valid e.
Proof.
  intros Hpos. unfold Edge.contains, Edge.valid.
  rewrite bool_decide_eq_true. change (Edge.bits Edge.ALL) with (Z.ones 4).
  rewrite Z.land_comm, Z.land_ones by done. split.
  - intros <-. Z.div_mod_to_equations. lia.
  - intros. apply Z.mod_small. lia.
Qed.

(** ** Area: each operation in closed form on well-formed areas *)

Section area_closed_forms.
Context `{O : Overflow}.
Implicit Types (a : Area.t) (n w h : Z) (e : Edge.t).

Lemma area_split_left_eq a w :
  Area.wf a -> is_u16 w ->
  Area.split_left a w =
    Ok (Area.mk (Area.col a) (Area.row a)
          (Dim.mk (Z.min (Area.width a) w) (Area.height a)),
        Area.mk (Area.col a + Z.min (Area.width a) w) (Area.row a)
          (Dim.mk (Area.width a - Z.min (Area.width a) w) (Area.height a))).
Proof. intros. unfold Area.split_left. area_destruct. by run16. Qed.

Lemma area_split_right_eq a w :
  Area.wf a -> is_u16 w ->
  Area.split_right a w =
    Ok (Area.mk (Area.col a + Area.width a - Z.min (Area.width a) w)
          (Area.row a) (Dim.mk (Z.min (Area.width a) w) (Area.height a)),
        Area.mk (Area.col a) (Area.row a)
          (Dim.mk (Area.width a - Z.min (Area.width a) w) (Area.height a))).
Proof. intros. unfold Area.split_right. area_destruct. by run16. Qed.

Lemma area_split_top_eq a h :
  Area.wf a -> is_u16 h ->
  Area.split_top a h =
    Ok (Area.mk (Area.col a) (Area.row a)
          (Dim.mk (Area.width a) (Z.min (Area.height a) h)),
        Area.mk (Area.col a) (Area.row a + Z.min (Area.height a) h)
          (Dim.mk (Area.width a) (Area.height a - Z.min (Area.height a) h))).
Proof. intros. unfold Area.split_top. area_destruct. by run16. Qed.

Lemma area_split_bottom_eq a h :
  Area.wf a -> is_u16 h ->
  Area.split_bottom a h =
    Ok (Area.mk (Area.col a)
          (Area.row a + Area.height a - Z.min (Area.height a) h)
          (Dim.mk (Area.width a) (Z.min (Area.height a) h)),
        Area.mk (Area.col a) (Area.row a)
          (Dim.mk (Area.width a) (Area.height a - Z.min (Area.height a) h))).
Proof. intros. unfold Area.split_bottom. area_destruct. by run16. Qed.

Lemma area_split_horiz_eq a :
  Area.wf a -> Area.split_horiz a = Area.split_left a (Area.width a / 2)
               /\ is_u16 (Area.width a / 2).
Proof. intros. split; [done|area_lia]. Qed.

Lemma area_split_vert_eq a :
  Area.wf a -> Area.split_vert a = Area.split_top a (Area.height a / 2)
               /\ is_u16 (Area.height a / 2).
Proof. intros. split; [done|area_lia]. Qed.

Lemma area_trim_left_eq a n :
  Area.wf a -> is_u16 n ->
  Area.trim_left a n =
    Ok (Area.mk (Area.col a + Z.min (Area.width a) n) (Area.row a)
          (Dim.mk (Area.width a - Z.min (Area.width a) n) (Area.height a))).
Proof. intros. unfold Area.trim_left. area_destruct. by run16. Qed.

Lemma area_trim_right_eq a n :
  Area.wf a -> is_u16 n ->
  Area.trim_right a n =
    Ok (Area.mk (Area.col a) (Area.row a)
          (Dim.mk (Area.width a - Z.min (Area.width a) n) (Area.height a))).
Proof. intros. unfold Area.trim_right. area_destruct. by run16. Qed.

Lemma area_trim_top_eq a n :
  Area.wf a -> is_u16 n ->
  Area.trim_top a n =
    Ok (Area.mk (Area.col a) (Area.row a + Z.min (Area.height a) n)
          (Dim.mk (Area.width a) (Area.height a - Z.min (Area.height a) n))).
Proof. intros. unfold Area.trim_top. area_destruct. by run16. Qed.

Lemma area_trim_bottom_eq a n :
  Area.wf a -> is_u16 n ->
  Area.trim_bottom a n =
    Ok (Area.mk (Area.col a) (Area.row a)
          (Dim.mk (Area.width a) (Area.height a - Z.min (Area.height a) n))).
Proof. intros. unfold Area.trim_bottom. area_destruct. by run16. Qed.

End area_closed_forms.

(** ** Area: [split] *)

Section area_split.
Context `{O : Overflow}.
Implicit Types (a near far : Area.t) (n w h : Z) (e : Edge.t).

(** [split] dispatches on the six accepted edge values. *)
Lemma area_split_dispatch a n :
  Area.split a Edge.LEFT n = Area.split_left a n /\
  Area.split a Edge.RIGHT n = Area.split_right a n /\
  Area.split a Edge.LEFT_RIGHT n = Area.split_horiz a /\
  Area.split a Edge.TOP n = Area.split_top a n /\
  Area.split a Edge.BOTTOM n = Area.split_bottom a n /\
  Area.split a Edge.TOP_BOTTOM n = Area.split_vert a.
Proof. done. Qed.

(** On a well-formed area every accepted edge gives a result, in closed
    form: the near part has extent [k] along the split axis. *)
Lemma area_split_eq a e n :
  Area.wf a -> is_u16 n -> Area.split_edge e ->
  exists near far, Area.split a e n = Ok (near, far) /\
    let kw := if decide (e = Edge.LEFT_RIGHT) then Area.width a / 2
              else Z.min (Area.width a) n in
    let kh := if decide (e = Edge.TOP_BOTTOM) then Area.height a / 2
              else Z.min (Area.height a) n in
    if decide (e = Edge.LEFT \/ e = Edge.LEFT_RIGHT) then
      near = Area.mk (Area.col a) (Area.row a) (Dim.mk kw (Area.height a)) /\
      far = Area.mk (Area.col a + kw) (Area.row a)
              (Dim.mk (Area.width a - kw) (Area.height a))
    else if decide (e = Edge.RIGHT) then
      near = Area.mk (Area.col a + Area.width a - kw) (Area.row a)
               (Dim.mk kw (Area.height a)) /\
      far = Area.mk (Area.col a) (Area.row a)
              (Dim.mk (Area.width a - kw) (Area.height a))
    else if decide (e = Edge.TOP \/ e = Edge.TOP_BOTTOM) then
      near = Area.mk (Area.col a) (Area.row a) (Dim.mk (Area.width a) kh) /\
      far = Area.mk (Area.col a) (Area.row a + kh)
              (Dim.mk (Area.width a) (Area.height a - kh))
    else
      near = Area.mk (Area.col a) (Area.row a + Area.height a - kh)
               (Dim.mk (Area.width a) kh) /\
      far = Area.mk (Area.col a) (Area.row a)
              (Dim.mk (Area.width a) (Area.height a - kh)).
Proof.
  intros Hwf Hn He.
  destruct (area_split_horiz_eq a Hwf) as [Hh Hh16].
  destruct (area_split_vert_eq a Hwf) as [Hv Hv16].
  destruct (area_split_dispatch a n) as (D1 & D2 & D3 & D4 & D5 & D6).
  destruct He as [->|[->|[->|[->|[->| ->]]]]]; eexists _, _;
    rewrite ?D1, ?D2, ?D3, ?D4, ?D5, ?D6, ?Hh, ?Hv, ?area_split_left_eq,
      ?area_split_right_eq, ?area_split_top_eq, ?area_split_bottom_eq by done;
    rewrite ?Z.min_r by area_lia; done.
Qed.

End area_split.

(** The six cases of a closed form [Heq] of [split] on the edge that
    [He] accepts, with the two parts substituted. *)
Ltac split_cases Heq He :=
  let near := fresh "near" in
  let far := fresh "far" in
  let Hs := fresh "Hs" in
  let Hnf := fresh "Hnf" in
  destruct Heq as (near & far & Hs & Hnf);
  exists near, far; split; [exact Hs|]; clear Hs;
  destruct He as [->|[->|[->|[->|[->| ->]]]]]; edge_decide;
  destruct Hnf as [-> ->]; area_destruct.

Section area_split_props.
Context `{O : Overflow}.
Implicit Types (a near far : Area.t) (n w h : Z) (e : Edge.t).

(** C3. Splitting a well-formed area from its left edge by [w] cells
    gives two parts whose widths add up to the area's width, the near
    part anchored at the area's column with width [min(width, w)] and
    the far part starting right after it; rows and heights are kept. *)
Theorem area_split_left_spec a w :
  Area.wf a -> is_u16 w ->
  exists near far, Area.split a Edge.LEFT w = Ok (near, far) /\
    Area.width near + Area.width far = Area.width a /\
    Area.col near = Area.col a /\
    Area.col far = Area.col near + Area.width near /\
    Area.width near = Z.min (Area.width a) w /\
    Area.row near = Area.row a /\ Area.row far = Area.row a /\
    Area.height near = Area.height a /\ Area.height far = Area.height a.
Proof.
  intros Hwf Hw. rewrite (proj1 (area_split_dispatch a w)).
  rewrite area_split_left_eq by done. eexists _, _. split; [done|].
  area_simpl. repeat split; lia.
Qed.

(** C2. Splitting a well-formed area from any accepted edge partitions
    its cells: every cell of the area lies in exactly one of the two
    parts, and the parts have no other cells. *)
Theorem area_split_partition a e n :
  Area.wf a -> is_u16 n -> Area.split_edge e ->
  exists near far, Area.split a e n = Ok (near, far) /\
    (forall c r, Area.cell_in a c r <->
                 Area.cell_in near c r \/ Area.cell_in far c r) /\
    (forall c r, ~ (Area.cell_in near c r /\ Area.cell_in far c r)).
Proof.
  intros Hwf Hn He. split_cases (area_split_eq a e n Hwf Hn He) He.
  all: split; intros c r; area_lia.
Qed.

(** C36. [split] preserves well-formedness: both parts of a well-formed
    area are well-formed, so they can be split and trimmed again
    without overflow. *)
Theorem area_split_wf a e n :
  Area.wf a -> is_u16 n -> Area.split_edge e ->
  exists near far, Area.split a e n = Ok (near, far) /\
    Area.wf near /\ Area.wf far.
Proof.
  intros Hwf Hn He. split_cases (area_split_eq a e n Hwf Hn He) He; area_lia.
Qed.

(** The opposite-pair edges split in halves: the near part gets
    [extent / 2] and the far part the rest, at most one cell more. *)
Theorem area_split_halves a n :
  Area.wf a -> is_u16 n ->
  (exists near far, Area.split a Edge.LEFT_RIGHT n = Ok (near, far) /\
     Area.width near = Area.width a / 2 /\
     Area.width near <= Area.width far <= Area.width near + 1) /\
  (exists near far, Area.split a Edge.TOP_BOTTOM n = Ok (near, far) /\
     Area.height near = Area.height a / 2 /\
     Area.height near <= Area.height far <= Area.height near + 1).
Proof.
  intros Hwf Hn. split.
  - assert (He : Area.split_edge Edge.LEFT_RIGHT) by (red; auto).
    destruct (area_split_eq a _ n Hwf Hn He) as (near & far & Hs & Hnf).
    exists near, far. edge_decide.
    destruct Hnf as [-> ->]. split; [done|]. area_destruct. area_lia.
  - assert (He : Area.split_edge Edge.TOP_BOTTOM) by (red; auto 7).
    destruct (area_split_eq a _ n Hwf Hn He) as (near & far & Hs & Hnf).
    exists near, far. edge_decide.
    destruct Hnf as [-> ->]. split; [done|]. area_destruct. area_lia.
Qed.

End area_split_props.

(** ** Area: panics and build profiles *)

Lemma arith16_panic `{O : Overflow} z p :
  arith16 z = Panic p -> p = ArithOverflow.
Proof.
  unfold arith16. case_decide; [done|].
  destruct overflow_checks; congruence.
Qed.

(** Unfold an operation down to its [arith16] steps. *)
Ltac unfold_ops :=
  unfold Area.split_horiz, Area.split_vert, Area.split_left,
    Area.split_right, Area.split_top, Area.split_bottom, Area.trim_left,
    Area.trim_right, Area.trim_top, Area.trim_bottom, add16, sub16 in *.

(** The only panic of a chain of [arith16] steps is the overflow. *)
Ltac panic_cases :=
  repeat match goal with
  | |- context [@arith16 ?O ?z] =>
      let E := fresh "E" in
      destruct (@arith16 O z) eqn:E;
      [|apply arith16_panic in E];
      cbn [mbind outcome_bind mret outcome_ret]
  end; first [done|congruence].

Section area_panics.
Context `{O : Overflow}.
Implicit Types (a : Area.t) (n : Z) (e : Edge.t).

(** C34. [split] panics with "Invalid Edges" exactly on the edge sets
    that are neither a single edge nor an opposite pair, whatever the
    area and the build profile. *)
Theorem area_split_invalid_edges a e n :
  Area.split a e n = Panic InvalidEdges <-> ~ Area.split_edge e.
Proof.
  unfold Area.split, Area.split_edge. repeat case_decide; subst.
  7: by intuition.
  all: split; [|by intuition]; unfold_ops; panic_cases.
Qed.

End area_panics.

(** Without overflow checks [split] returns a pair for every
    accepted edge and every area: it cannot panic. *)
Theorem area_split_release_total a e n :
  Area.split_edge e -> is_Ok (@Area.split Release a e n).
Proof.
  intros [->|[->|[->|[->|[->| ->]]]]]; unfold Area.split;
    edge_decide_goal; unfold_ops; autorewrite with u16;
    cbn [mbind outcome_bind mret outcome_ret]; autorewrite with u16;
    cbn [mbind outcome_bind mret outcome_ret]; autorewrite with u16;
    apply is_Ok_Ok.
Qed.

(** C35. [split] from the right edge forms [col + width] before it
    subtracts: when that sum leaves [u16] the checked profile panics,
    although the right part's column is representable and the
    unchecked profile returns it after wrapping twice. *)
Theorem area_split_right_profiles a w :
  Area.is_area a -> is_u16 w ->
  u16_max < Area.col a + Area.width a ->
  Area.col a + Area.width a - Z.min (Area.width a) w <= u16_max ->
  @Area.split Debug a Edge.RIGHT w = Panic ArithOverflow /\
  @Area.split Release a Edge.RIGHT w =
    Ok (Area.mk (Area.col a + Area.width a - Z.min (Area.width a) w)
          (Area.row a) (Dim.mk (Z.min (Area.width a) w) (Area.height a)),
        Area.mk (Area.col a) (Area.row a)
          (Dim.mk (Area.width a - Z.min (Area.width a) w) (Area.height a))).
Proof.
  intros Ha Hw Hover Hfit.
  rewrite !(proj1 (proj2 (area_split_dispatch a w))).
  unfold Area.split_right, add16, sub16. split.
  - by rewrite arith16_debug_panic by area_lia.
  - autorewrite with u16. cbn [mbind outcome_bind mret outcome_ret].
    autorewrite with u16. cbn [mbind outcome_bind mret outcome_ret].
    autorewrite with u16. cbn [mbind outcome_bind mret outcome_ret].
    area_destruct. rewrite wrap16_idemp_sub, !wrap16_small by area_lia.
    done.
Qed.

Section area_profiles.
Context `{O : Overflow}.
Implicit Types (a : Area.t) (n : Z) (e : Edge.t).

(** A [split] that succeeds with overflow checks gives the same
    pair under every build profile. *)
Theorem area_split_debug_any a e n r :
  @Area.split Debug a e n = Ok r -> Area.split a e n = Ok r.
Proof.
  unfold Area.split. repeat case_decide; intros Hrun; try done;
    unfold_ops; by debug_any Hrun.
Qed.

(** A [trim] that succeeds with overflow checks gives the same
    area under every build profile. *)
Theorem area_trim_debug_any a e n r :
  @Area.trim Debug a e n = Ok r -> Area.trim a e n = Ok r.
Proof.
  unfold Area.trim.
  destruct (Edge.contains e Edge.LEFT), (Edge.contains e Edge.RIGHT),
    (Edge.contains e Edge.TOP), (Edge.contains e Edge.BOTTOM);
    intros Hrun; unfold_ops; cbn [mbind outcome_bind mret outcome_ret] in *;
    by debug_any Hrun.
Qed.

End area_profiles.

(** ** Area: [trim] *)

Section area_trim.
Context `{O : Overflow}.
Implicit Types (a b : Area.t) (n : Z) (e : Edge.t).

(** Running the four steps of [trim] on a well-formed area: the form
    the lemmas of this section rewrite with. *)
Lemma area_trim_run a e n :
  Area.wf a -> is_u16 n -> Area.trim a e n = Ok (Area.trimmed a e n).
Proof.
  intros Hwf Hn. unfold Area.trim, Area.trimmed.
  destruct (Edge.contains e Edge.LEFT), (Edge.contains e Edge.RIGHT),
    (Edge.contains e Edge.TOP), (Edge.contains e Edge.BOTTOM);
    unfold_ops; area_destruct; run16; cbn [Area.cut];
    by rewrite ?Z.sub_0_r, ?Z.add_0_r.
Qed.

(** The reference [trimmed] of a well-formed area is well formed and
    lies inside the area. *)
Lemma area_trimmed_wf a e n :
  Area.wf a -> is_u16 n ->
  Area.wf (Area.trimmed a e n) /\ Area.inside (Area.trimmed a e n) a.
Proof.
  intros Hwf Hn. unfold Area.trimmed.
  destruct (Edge.contains e Edge.LEFT), (Edge.contains e Edge.RIGHT),
    (Edge.contains e Edge.TOP), (Edge.contains e Edge.BOTTOM);
    area_destruct; (split; [area_lia|intros c r; area_lia]).
Qed.

(** C33. On a well-formed area [trim] cannot panic, and its four
    in-place steps amount to the one-step reference [trimmed]: each
    requested edge removes [cells] cells, clamped to what is left. *)
Theorem area_trim_eq a e n :
  Area.wf a -> is_u16 n -> Area.trim a e n = Ok (Area.trimmed a e n).
Proof. exact (area_trim_run a e n). Qed.

(** C4. [trim] never produces a negative extent, and saturates at
    zero: the width left is [max 0 (width - cells * k)] for [k]
    horizontal edges requested, and likewise for the height. *)
Theorem area_trim_saturates a e n :
  Area.wf a -> is_u16 n ->
  exists b, Area.trim a e n = Ok b /\
    Area.width b =
      Z.max 0 (Area.width a - n * (Z.b2z (Edge.contains e Edge.LEFT) +
                                   Z.b2z (Edge.contains e Edge.RIGHT))) /\
    Area.height b =
      Z.max 0 (Area.height a - n * (Z.b2z (Edge.contains e Edge.TOP) +
                                    Z.b2z (Edge.contains e Edge.BOTTOM))).
Proof.
  intros Hwf Hn. eexists. split; [by apply area_trim_run|].
  unfold Area.trimmed.
  destruct (Edge.contains e Edge.LEFT), (Edge.contains e Edge.RIGHT),
    (Edge.contains e Edge.TOP), (Edge.contains e Edge.BOTTOM);
    area_destruct; cbn [Z.b2z]; area_lia.
Qed.

(** The cells of a trimmed area are the cells of the area that
    are at least [cells] away from every requested edge. *)
Theorem area_trim_cells a e n :
  Area.wf a -> is_u16 n ->
  exists b, Area.trim a e n = Ok b /\
    forall c r, Area.cell_in b c r <->
      Area.cell_in a c r /\
      (Edge.contains e Edge.LEFT = true -> Area.col a + n <= c) /\
      (Edge.contains e Edge.RIGHT = true ->
         c < Area.col a + Area.width a - n) /\
      (Edge.contains e Edge.TOP = true -> Area.row a + n <= r) /\
      (Edge.contains e Edge.BOTTOM = true ->
         r < Area.row a + Area.height a - n).
Proof.
  intros Hwf Hn. eexists. split; [by apply area_trim_run|].
  intros c r. unfold Area.trimmed.
  destruct (Edge.contains e Edge.LEFT), (Edge.contains e Edge.RIGHT),
    (Edge.contains e Edge.TOP), (Edge.contains e Edge.BOTTOM);
    area_destruct; area_lia.
Qed.

(** [trim] preserves well-formedness and only removes cells. *)
Theorem area_trim_wf a e n :
  Area.wf a -> is_u16 n ->
  exists b, Area.trim a e n = Ok b /\ Area.wf b /\ Area.inside b a.
Proof.
  intros Hwf Hn. eexists. split; [by apply area_trim_run|].
  by apply area_trimmed_wf.
Qed.

End area_trim.

(** ** Area: the last column and the last row

    An area may end at the last column that [u16] can address: its
    far edge, [col + width], is then 65536.  Such an area is not
    well formed in the sense of [Area.wf], and the theorems above do
    not speak of it.  The operations still give the right cells when
    overflow checks are off, and panic in two places when they are
    on. *)

(** Run an operation without overflow checks. *)
Ltac release16 :=
  unfold_ops; repeat (autorewrite with u16;
                      cbn [mbind outcome_bind mret outcome_ret]).

(** Split on every range test of an operation under both profiles. *)
Ltac profiles16 :=
  unfold_ops; unfold arith16; cbn [overflow_checks Debug Release];
  repeat (case_decide; cbn [mbind outcome_bind mret outcome_ret]).

Section area_edge_of_u16.
Implicit Types (a b near far : Area.t) (n : Z) (e : Edge.t).

Lemma split_overflows_cases a n :
  (Area.split_overflows a Edge.LEFT n <->
     Area.col a + Area.width a = u16_max + 1 /\ Area.width a <= n) /\
  (Area.split_overflows a Edge.RIGHT n <->
     Area.col a + Area.width a = u16_max + 1) /\
  (Area.split_overflows a Edge.LEFT_RIGHT n <-> False) /\
  (Area.split_overflows a Edge.TOP n <->
     Area.row a + Area.height a = u16_max + 1 /\ Area.height a <= n) /\
  (Area.split_overflows a Edge.BOTTOM n <->
     Area.row a + Area.height a = u16_max + 1) /\
  (Area.split_overflows a Edge.TOP_BOTTOM n <-> False).
Proof. unfold Area.split_overflows. split_and!; intuition done. Qed.

(** Without overflow checks [split] partitions the cells of every
    addressable area: a far part that would start past the last
    column is empty, and wraps to column 0. *)
Lemma area_split_release_cells a e n :
  Area.addressable a -> is_u16 n -> Area.split_edge e ->
  exists near far, @Area.split Release a e n = Ok (near, far) /\
    (forall c r, Area.cell_in a c r <->
                 Area.cell_in near c r \/ Area.cell_in far c r) /\
    (forall c r, ~ (Area.cell_in near c r /\ Area.cell_in far c r)).
Proof.
  intros Ha Hn [->|[->|[->|[->|[->| ->]]]]]; unfold Area.split;
    edge_decide_goal; release16; eexists _, _; (split; [reflexivity|]);
    unfold Area.addressable in Ha; area_destruct; split; intros c r; area_lia.
Qed.

(** With overflow checks [split] panics exactly where a sum leaves
    [u16], and agrees with the unchecked profile elsewhere. *)
Lemma area_split_debug_panics a e n :
  Area.addressable a -> is_u16 n -> Area.split_edge e ->
  (Area.split_overflows a e n ->
   @Area.split Debug a e n = Panic ArithOverflow) /\
  (~ Area.split_overflows a e n ->
   @Area.split Debug a e n = @Area.split Release a e n).
Proof.
  intros Ha Hn He.
  destruct (split_overflows_cases a n) as (L & R & LR & T & B & TB).
  destruct He as [->|[->|[->|[->|[->| ->]]]]];
    rewrite ?L, ?R, ?LR, ?T, ?B, ?TB; clear L R LR T B TB; unfold Area.split;
    edge_decide_goal; unfold Area.addressable in Ha; area_destruct.
  all: split; intros Hov.
  all: profiles16; try done; exfalso; area_lia.
Qed.

(** The same of [trim]: the cells of the reference without overflow
    checks. *)
Lemma area_trim_release_cells a e n :
  Area.addressable a -> is_u16 n ->
  exists b, @Area.trim Release a e n = Ok b /\
    Area.same_cells b (Area.trimmed a e n).
Proof.
  intros Ha Hn. unfold Area.trim, Area.trimmed.
  destruct (Edge.contains e Edge.LEFT), (Edge.contains e Edge.RIGHT),
    (Edge.contains e Edge.TOP), (Edge.contains e Edge.BOTTOM);
    cbn [mbind outcome_bind mret outcome_ret]; release16;
    (eexists; split; [reflexivity|]);
    unfold Area.addressable in Ha; area_destruct; intros c r; area_lia.
Qed.

Lemma area_trim_debug_panics a e n :
  Area.addressable a -> is_u16 n ->
  (Area.trim_overflows a e n ->
   @Area.trim Debug a e n = Panic ArithOverflow) /\
  (~ Area.trim_overflows a e n ->
   @Area.trim Debug a e n = @Area.trim Release a e n).
Proof.
  intros Ha Hn. unfold Area.trim_overflows, Area.trim.
  destruct (Edge.contains e Edge.LEFT), (Edge.contains e Edge.RIGHT),
    (Edge.contains e Edge.TOP), (Edge.contains e Edge.BOTTOM);
    cbn [mbind outcome_bind mret outcome_ret];
    unfold Area.addressable in Ha; area_destruct.
  all: split; intros Hov.
  all: profiles16; try done; exfalso; area_lia.
Qed.

(** A well-formed area is addressable, and nothing overflows on it. *)
Lemma area_wf_addressable a e n :
  Area.wf a ->
  Area.addressable a /\ ~ Area.split_overflows a e n /\
  ~ Area.trim_overflows a e n.
Proof.
  unfold Area.addressable, Area.split_overflows, Area.trim_overflows.
  intros Hwf. area_destruct. split_and!; area_lia.
Qed.

(** C37. [split] on an area that may touch the last column or row.
    Without overflow checks it returns two parts that partition the
    cells of the area, for every accepted edge.  With overflow checks
    it panics exactly when the area ends at the last column and is
    split from the right, or from the left by its whole width (and
    likewise for rows), and returns the same parts otherwise. *)
Theorem area_split_addressable a e n :
  Area.addressable a -> is_u16 n -> Area.split_edge e ->
  exists near far, @Area.split Release a e n = Ok (near, far) /\
    (forall c r, Area.cell_in a c r <->
                 Area.cell_in near c r \/ Area.cell_in far c r) /\
    (forall c r, ~ (Area.cell_in near c r /\ Area.cell_in far c r)) /\
    (Area.split_overflows a e n ->
     @Area.split Debug a e n = Panic ArithOverflow) /\
    (~ Area.split_overflows a e n ->
     @Area.split Debug a e n = Ok (near, far)).
Proof.
  intros Ha Hn He.
  destruct (area_split_release_cells a e n Ha Hn He)
    as (near & far & Hr & Hcover & Hapart).
  destruct (area_split_debug_panics a e n Ha Hn He) as [Hp Hq].
  exists near, far. split_and!; try done. intros Hov. by rewrite Hq.
Qed.

(** C38. [trim] on an area that may touch the last column or row.
    Without overflow checks it returns an area with the cells of the
    reference [trimmed].  With overflow checks it panics exactly when
    the area ends at the last column and its whole width is trimmed
    from the left (and likewise from the top), and returns the same
    area otherwise. *)
Theorem area_trim_addressable a e n :
  Area.addressable a -> is_u16 n ->
  exists b, @Area.trim Release a e n = Ok b /\
    Area.same_cells b (Area.trimmed a e n) /\
    (Area.trim_overflows a e n ->
     @Area.trim Debug a e n = Panic ArithOverflow) /\
    (~ Area.trim_overflows a e n -> @Area.trim Debug a e n = Ok b).
Proof.
  intros Ha Hn.
  destruct (area_trim_release_cells a e n Ha Hn) as (b & Hr & Hcells).
  destruct (area_trim_debug_panics a e n Ha Hn) as [Hp Hq].
  exists b. split_and!; try done. intros Hov. by rewrite Hq.
Qed.

End area_edge_of_u16.

(** ** Areas up to their cells *)

#[export] Instance area_same_cells_equiv : Equivalence Area.same_cells.
Proof.
  unfold Area.same_cells. split.
  - by intros a c r.
  - intros a b H c r. by symmetry.
  - intros a b c Hab Hbc x y. by rewrite Hab.
Qed.

#[export] Instance area_cell_in_proper :
  Proper (Area.same_cells ==> eq ==> eq ==> iff) Area.cell_in.
Proof. intros a b Hab c ? <- r ? <-. apply Hab. Qed.

#[export] Instance area_inside_proper :
  Proper (Area.same_cells ==> Area.same_cells ==> iff) Area.inside.
Proof.
  intros a a' Ha b b' Hb. unfold Area.inside.
  split; intros H c r Hc.
  - rewrite <- Hb. apply H. by rewrite Ha.
  - rewrite Hb. apply H. by rewrite <- Ha.
Qed.

#[export] Instance area_inside_preorder : PreOrder Area.inside.
Proof. unfold Area.inside. split; [by intros a|intros a b c; eauto]. Qed.

(** An area with a cell is determined by its cells: [same_cells] is
    coarser than equality on empty areas only. *)
Lemma area_same_cells_eq a b c r :
  Area.cell_in a c r -> Area.same_cells a b -> a = b.
Proof.
  intros Hc Hab.
  pose proof (proj1 (Hab c r) Hc) as Hcb.
  pose proof (Hab (Area.col a) r) as H1.
  pose proof (Hab (Area.col b) r) as H2.
  pose proof (Hab c (Area.row a)) as H3.
  pose proof (Hab c (Area.row b)) as H4.
  pose proof (Hab (Area.col a + Area.width a - 1) r) as H5.
  pose proof (Hab (Area.col b + Area.width b - 1) r) as H6.
  pose proof (Hab c (Area.row a + Area.height a - 1)) as H7.
  pose proof (Hab c (Area.row b + Area.height b - 1)) as H8.
  area_destruct. f_equal; [| |f_equal]; area_lia.
Qed.

Section area_trim_twice.
Context `{O : Overflow}.
Implicit Types (a b : Area.t) (n : Z) (e : Edge.t).

(** Trimming twice from the same edges covers the cells that
    trimming once by the sum covers. *)
Theorem area_trim_compose a e n1 n2 :
  Area.wf a -> is_u16 n1 -> is_u16 n2 -> is_u16 (n1 + n2) ->
  exists b1 b2 b12,
    Area.trim a e n1 = Ok b1 /\ Area.trim b1 e n2 = Ok b2 /\
    Area.trim a e (n1 + n2) = Ok b12 /\ Area.same_cells b2 b12.
Proof.
  intros Hwf H1 H2 H12.
  destruct (area_trimmed_wf a e n1 Hwf H1) as [Hwf1 _].
  exists (Area.trimmed a e n1), (Area.trimmed (Area.trimmed a e n1) e n2),
    (Area.trimmed a e (n1 + n2)).
  rewrite !area_trim_run by done. do 3 (split; [done|]).
  clear Hwf1. intros x y. unfold Area.trimmed, Area.cell_in.
  area_destruct. apply and_iff_both.
  - destruct (Edge.contains e Edge.LEFT), (Edge.contains e Edge.RIGHT);
      area_lia.
  - destruct (Edge.contains e Edge.TOP), (Edge.contains e Edge.BOTTOM);
      area_lia.
Qed.

End area_trim_twice.

(** The two areas need not be equal: an area
    trimmed to nothing keeps the anchor the last step left it. *)
Example area_trim_compose_not_eq :
  (@Area.trim Debug (Area.new 0 0 10 1) Edge.LEFT_RIGHT 4
     ≫= fun b => @Area.trim Debug b Edge.LEFT_RIGHT 4)
  <> @Area.trim Debug (Area.new 0 0 10 1) Edge.LEFT_RIGHT 8.
Proof. by vm_compute. Qed.

(** The unit test of [src/area.rs], under both profiles. *)
Example area_trim_test `{O : Overflow} :
  Area.trim (Area.new 0 0 5 7) Edge.LEFT 1 = Ok (Area.new 1 0 4 7).
Proof. by rewrite area_trim_run by compute_done. Qed.

(** The unit test passes under both build profiles. *)
Example test_area_trim_passes `{O : Overflow} : test.area_trim = Ok true.
Proof. by destruct O. Qed.


(** ** Concrete instances

    Each theorem above that has hypotheses, applied at a concrete area
    where the hypotheses hold by evaluation. *)

Lemma area_split_left_spec_witness :
  Area.wf (Area.new 2 3 10 4) /\ is_u16 4 /\
  exists near far,
    @Area.split Debug (Area.new 2 3 10 4) Edge.LEFT 4 = Ok (near, far) /\
    Area.width near + Area.width far = Area.width (Area.new 2 3 10 4) /\
    Area.col near = Area.col (Area.new 2 3 10 4) /\
    Area.col far = Area.col near + Area.width near /\
    Area.width near = Z.min (Area.width (Area.new 2 3 10 4)) 4 /\
    Area.row near = Area.row (Area.new 2 3 10 4) /\
    Area.row far = Area.row (Area.new 2 3 10 4) /\
    Area.height near = Area.height (Area.new 2 3 10 4) /\
    Area.height far = Area.height (Area.new 2 3 10 4).
Proof.
  split; [compute_done|]. split; [compute_done|].
  apply (@area_split_left_spec Debug (Area.new 2 3 10 4) 4); compute_done.
Defined.

Lemma area_split_partition_witness :
  Area.wf (Area.new 2 3 10 4) /\ is_u16 20 /\ Area.split_edge Edge.BOTTOM /\
  exists near far,
    @Area.split Release (Area.new 2 3 10 4) Edge.BOTTOM 20 = Ok (near, far) /\
    (forall c r, Area.cell_in (Area.new 2 3 10 4) c r <->
                 Area.cell_in near c r \/ Area.cell_in far c r) /\
    (forall c r, ~ (Area.cell_in near c r /\ Area.cell_in far c r)).
Proof.
  split; [compute_done|]. split; [compute_done|]. split; [compute_done|].
  apply (@area_split_partition Release (Area.new 2 3 10 4) Edge.BOTTOM 20);
    compute_done.
Defined.

Lemma area_split_wf_witness :
  Area.wf (Area.new 65000 0 535 7) /\ is_u16 1 /\
  Area.split_edge Edge.LEFT_RIGHT /\
  exists near far,
    @Area.split Debug (Area.new 65000 0 535 7) Edge.LEFT_RIGHT 1
      = Ok (near, far) /\ Area.wf near /\ Area.wf far.
Proof.
  split; [compute_done|]. split; [compute_done|]. split; [compute_done|].
  apply (@area_split_wf Debug (Area.new 65000 0 535 7) Edge.LEFT_RIGHT 1);
    compute_done.
Defined.

Lemma area_split_release_total_witness :
  Area.split_edge Edge.RIGHT /\
  is_Ok (@Area.split Release (Area.new 65535 65535 65535 65535) Edge.RIGHT 7).
Proof.
  split; [compute_done|].
  apply (area_split_release_total
           (Area.new 65535 65535 65535 65535) Edge.RIGHT 7); compute_done.
Defined.

Lemma area_split_right_profiles_witness :
  Area.is_area (Area.new 65535 0 1 7) /\ is_u16 1 /\
  u16_max < Area.col (Area.new 65535 0 1 7) + Area.width (Area.new 65535 0 1 7) /\
  @Area.split Debug (Area.new 65535 0 1 7) Edge.RIGHT 1 = Panic ArithOverflow /\
  @Area.split Release (Area.new 65535 0 1 7) Edge.RIGHT 1 =
    Ok (Area.new 65535 0 1 7, Area.new 65535 0 0 7).
Proof.
  split; [compute_done|]. split; [compute_done|]. split; [compute_done|].
  apply (area_split_right_profiles (Area.new 65535 0 1 7) 1); compute_done.
Defined.

Lemma area_split_debug_any_witness :
  @Area.split Debug (Area.new 2 3 10 4) Edge.TOP 1
    = Ok (Area.new 2 3 10 1, Area.new 2 4 10 3) /\
  @Area.split Release (Area.new 2 3 10 4) Edge.TOP 1
    = Ok (Area.new 2 3 10 1, Area.new 2 4 10 3).
Proof.
  split; [compute_done|].
  apply (@area_split_debug_any Release (Area.new 2 3 10 4) Edge.TOP 1).
  compute_done.
Defined.

Lemma area_trim_debug_any_witness :
  @Area.trim Debug (Area.new 2 3 10 4) Edge.ALL 1 = Ok (Area.new 3 4 8 2) /\
  @Area.trim Release (Area.new 2 3 10 4) Edge.ALL 1 = Ok (Area.new 3 4 8 2).
Proof.
  split; [compute_done|].
  apply (@area_trim_debug_any Release (Area.new 2 3 10 4) Edge.ALL 1).
  compute_done.
Defined.

Lemma area_trim_eq_witness :
  Area.wf (Area.new 3 4 11 7) /\ is_u16 4 /\
  @Area.trim Debug (Area.new 3 4 11 7) Edge.ALL 4 =
    Ok (Area.trimmed (Area.new 3 4 11 7) Edge.ALL 4).
Proof.
  split; [compute_done|]. split; [compute_done|].
  apply (@area_trim_eq Debug (Area.new 3 4 11 7) Edge.ALL 4); compute_done.
Defined.

Lemma area_trim_saturates_witness :
  Area.wf (Area.new 3 4 11 7) /\ is_u16 4 /\
  exists b, @Area.trim Debug (Area.new 3 4 11 7) Edge.ALL 4 = Ok b /\
    Area.width b =
      Z.max 0 (11 - 4 * (Z.b2z (Edge.contains Edge.ALL Edge.LEFT) +
                         Z.b2z (Edge.contains Edge.ALL Edge.RIGHT))) /\
    Area.height b =
      Z.max 0 (7 - 4 * (Z.b2z (Edge.contains Edge.ALL Edge.TOP) +
                        Z.b2z (Edge.contains Edge.ALL Edge.BOTTOM))).
Proof.
  split; [compute_done|]. split; [compute_done|].
  apply (@area_trim_saturates Debug (Area.new 3 4 11 7) Edge.ALL 4);
    compute_done.
Defined.

Lemma area_trim_cells_witness :
  Area.wf (Area.new 3 4 11 7) /\ is_u16 2 /\
  exists b, @Area.trim Debug (Area.new 3 4 11 7) Edge.TOP_LEFT 2 = Ok b /\
    forall c r, Area.cell_in b c r <->
      Area.cell_in (Area.new 3 4 11 7) c r /\
      (Edge.contains Edge.TOP_LEFT Edge.LEFT = true -> 3 + 2 <= c) /\
      (Edge.contains Edge.TOP_LEFT Edge.RIGHT = true -> c < 3 + 11 - 2) /\
      (Edge.contains Edge.TOP_LEFT Edge.TOP = true -> 4 + 2 <= r) /\
      (Edge.contains Edge.TOP_LEFT Edge.BOTTOM = true -> r < 4 + 7 - 2).
Proof.
  split; [compute_done|]. split; [compute_done|].
  apply (@area_trim_cells Debug (Area.new 3 4 11 7) Edge.TOP_LEFT 2);
    compute_done.
Defined.

Lemma area_trim_wf_witness :
  Area.wf (Area.new 3 4 11 7) /\ is_u16 9 /\
  exists b, @Area.trim Release (Area.new 3 4 11 7) Edge.ALL 9 = Ok b /\
    Area.wf b /\ Area.inside b (Area.new 3 4 11 7).
Proof.
  split; [compute_done|]. split; [compute_done|].
  apply (@area_trim_wf Release (Area.new 3 4 11 7) Edge.ALL 9); compute_done.
Defined.

Lemma area_trim_compose_witness :
  Area.wf (Area.new 0 0 10 1) /\ is_u16 4 /\ is_u16 (4 + 4) /\
  exists b1 b2 b12,
    @Area.trim Debug (Area.new 0 0 10 1) Edge.LEFT_RIGHT 4 = Ok b1 /\
    @Area.trim Debug b1 Edge.LEFT_RIGHT 4 = Ok b2 /\
    @Area.trim Debug (Area.new 0 0 10 1) Edge.LEFT_RIGHT (4 + 4) = Ok b12 /\
    Area.same_cells b2 b12.
Proof.
  split; [compute_done|]. split; [compute_done|]. split; [compute_done|].
  apply (@area_trim_compose Debug (Area.new 0 0 10 1) Edge.LEFT_RIGHT 4 4);
    compute_done.
Defined.

Lemma area_split_halves_witness :
  Area.wf (Area.new 3 4 11 7) /\ is_u16 0 /\
  (exists near far,
     @Area.split Debug (Area.new 3 4 11 7) Edge.LEFT_RIGHT 0 = Ok (near, far) /\
     Area.width near = 11 / 2 /\
     Area.width near <= Area.width far <= Area.width near + 1) /\
  (exists near far,
     @Area.split Debug (Area.new 3 4 11 7) Edge.TOP_BOTTOM 0 = Ok (near, far) /\
     Area.height near = 7 / 2 /\
     Area.height near <= Area.height far <= Area.height near + 1).
Proof.
  split; [compute_done|]. split; [compute_done|].
  apply (@area_split_halves Debug (Area.new 3 4 11 7) 0); compute_done.
Defined.

(** An area of six cells that ends at the last column. *)
Definition last_columns : Area.t := Area.new 65530 0 6 1.

Lemma area_split_addressable_witness :
  Area.addressable last_columns /\ is_u16 6 /\ Area.split_edge Edge.LEFT /\
  Area.split_overflows last_columns Edge.LEFT 6 /\
  exists near far,
    @Area.split Release last_columns Edge.LEFT 6 = Ok (near, far) /\
    (forall c r, Area.cell_in last_columns c r <->
                 Area.cell_in near c r \/ Area.cell_in far c r) /\
    (forall c r, ~ (Area.cell_in near c r /\ Area.cell_in far c r)) /\
    (Area.split_overflows last_columns Edge.LEFT 6 ->
     @Area.split Debug last_columns Edge.LEFT 6 = Panic ArithOverflow) /\
    (~ Area.split_overflows last_columns Edge.LEFT 6 ->
     @Area.split Debug last_columns Edge.LEFT 6 = Ok (near, far)).
Proof.
  do 4 (split; [compute_done|]).
  apply (area_split_addressable last_columns Edge.LEFT 6); compute_done.
Defined.

Lemma area_trim_addressable_witness :
  Area.addressable last_columns /\ is_u16 6 /\
  Area.trim_overflows last_columns Edge.LEFT 6 /\
  exists b, @Area.trim Release last_columns Edge.LEFT 6 = Ok b /\
    Area.same_cells b (Area.trimmed last_columns Edge.LEFT 6) /\
    (Area.trim_overflows last_columns Edge.LEFT 6 ->
     @Area.trim Debug last_columns Edge.LEFT 6 = Panic ArithOverflow) /\
    (~ Area.trim_overflows last_columns Edge.LEFT 6 ->
     @Area.trim Debug last_columns Edge.LEFT 6 = Ok b).
Proof.
  do 3 (split; [compute_done|]).
  apply (area_trim_addressable last_columns Edge.LEFT 6); compute_done.
Defined.

(** Trimming the whole width of that area from the left: the column
    wraps to 0 without overflow checks, and the area is empty. *)
Example area_trim_last_columns :
  @Area.trim Release last_columns Edge.LEFT 6 = Ok (Area.new 0 0 0 1) /\
  @Area.trim Debug last_columns Edge.LEFT 6 = Panic ArithOverflow /\
  @Area.split Debug last_columns Edge.LEFT 6 = Panic ArithOverflow /\
  @Area.split Debug last_columns Edge.LEFT 5
    = Ok (Area.new 65530 0 5 1, Area.new 65535 0 1 1).
Proof. by vm_compute. Qed.
