(* ===== verification/Layout.v ===== *)
(** * Layout: positions, bounding boxes and size bounds

    [src/screen.rs], [src/widget/button.rs] and [src/widget/label.rs]
    use [Pos], [BBox] and [AreaBound] of the crate's layout module, whose
    source is not part of the repository snapshot.  [BBox] is the later
    name of [Area] ([src/lib.rs] re-exports [bbox::{BBox, Edge}]); it is
    modelled as the same type.  The operations below are modelled from
    the specification and from the way the sources call them. *)

From Stdlib Require Import ZArith Lia.
From stdpp Require Import base option.
From S2P Require Import Prelude Geometry.

#[local] Open Scope Z_scope.

(** ** Pos: a cell position *)

Module Pos.

Record t : Type := mk { col : Z; row : Z }.

(** [Pos::default()]: the top-left cell. *)
Definition default : t := mk 0 0.

End Pos.

#[export] Instance Pos_eq_dec : EqDecision Pos.t.
Proof. solve_decision. Defined.

(** ** BBox *)

Module BBox.

Definition t : Type := Area.t.

Definition new (col row width height : Z) : t := Area.new col row width height.

Definition dim (self : t) : Dim.t := Area.dim self.

(** [Dim::is_empty]: no cell at all. *)
Definition is_empty (d : Dim.t) : bool :=
  bool_decide (Dim.width d = 0 \/ Dim.height d = 0).

(** [within]: the position relative to the box, when the box contains it. *)
Definition within (self : t) (pos : Pos.t) : option Pos.t :=
  if decide (Area.cell_in self (Pos.col pos) (Pos.row pos))
  then Some (Pos.mk (Pos.col pos - Area.col self) (Pos.row pos - Area.row self))
  else None.

(** [clip]: the intersection of two boxes. *)
Definition clip (self other : t) : t :=
  let c := Z.max (Area.col self) (Area.col other) in
  let r := Z.max (Area.row self) (Area.row other) in
  let c' := Z.min (Area.col self + Area.width self)
                  (Area.col other + Area.width other) in
  let r' := Z.min (Area.row self + Area.height self)
                  (Area.row other + Area.height other) in
  Area.mk c r (Dim.mk (Z.max 0 (c' - c)) (Z.max 0 (r' - r))).

End BBox.

(** ** AreaBound: a widget's acceptable columns and rows *)

Module AreaBound.

(** An inclusive range [lo ..= hi]. *)
Record range : Type := mk_range { lo : Z; hi : Z }.

Record t : Type := mk { cols : range; rows : range }.

(** [AreaBound::default()]: any size. *)
Definition default : t := mk (mk_range 0 u16_max) (mk_range 0 u16_max).

Definition with_columns (self : t) (r : range) : t := mk r (rows self).

Definition with_rows (self : t) (r : range) : t := mk (cols self) r.

(** A size the bound accepts. *)
Definition accepts (self : t) (d : Dim.t) : Prop :=
  lo (cols self) <= Dim.width d <= hi (cols self) /\
  lo (rows self) <= Dim.height d <= hi (rows self).

End AreaBound.

#[export] Instance AreaBound_range_eq_dec : EqDecision AreaBound.range.
Proof. solve_decision. Defined.

#[export] Instance AreaBound_eq_dec : EqDecision AreaBound.t.
Proof. solve_decision. Defined.

#[export] Hint Unfold BBox.clip BBox.dim BBox.new : u16.

(** ** Facts *)

Lemma bbox_within_Some b pos p :
  BBox.within b pos = Some p <->
  Area.cell_in b (Pos.col pos) (Pos.row pos) /\
  p = Pos.mk (Pos.col pos - Area.col b) (Pos.row pos - Area.row b).
Proof.
  unfold BBox.within. case_decide as Hc; split.
  - by intros [= <-].
  - by intros [_ ->].
  - done.
  - by intros [? _].
Qed.

Lemma bbox_within_None b pos :
  BBox.within b pos = None <-> ~ Area.cell_in b (Pos.col pos) (Pos.row pos).
Proof. unfold BBox.within. case_decide as Hc; by split. Qed.

Lemma bbox_within_is_Some b pos :
  is_Some (BBox.within b pos) <-> Area.cell_in b (Pos.col pos) (Pos.row pos).
Proof.
  unfold BBox.within. case_decide as Hc; split; try done.
Qed.

(** The relative position lies inside the box's dimension. *)
Lemma bbox_within_bound b pos p :
  BBox.within b pos = Some p ->
  0 <= Pos.col p < Area.width b /\ 0 <= Pos.row p < Area.height b.
Proof.
  intros [Hc ->]%bbox_within_Some. cbn [Pos.col Pos.row].
  unfold Area.cell_in in Hc. lia.
Qed.

(** Hit testing sees the cells of a box only. *)
#[export] Instance bbox_within_proper :
  Proper (Area.same_cells ==> eq ==> iff)
    (fun b pos => is_Some (BBox.within b pos)).
Proof. intros a b Hab pos ? <-. rewrite !bbox_within_is_Some. apply Hab. Qed.

Lemma bbox_clip_cells a b c r :
  Area.cell_in (BBox.clip a b) c r <-> Area.cell_in a c r /\ Area.cell_in b c r.
Proof. area_destruct. area_lia. Qed.

Lemma bbox_clip_wf a b : Area.wf a -> Area.wf b -> Area.wf (BBox.clip a b).
Proof. intros. area_destruct. area_lia. Qed.

Lemma bbox_is_empty_cells b :
  0 <= Area.width b -> 0 <= Area.height b ->
  BBox.is_empty (BBox.dim b) = true <-> forall c r, ~ Area.cell_in b c r.
Proof.
  intros Hw Hh. unfold BBox.is_empty, BBox.dim.
  rewrite bool_decide_eq_true. area_destruct. split.
  - intros; area_lia.
  - intros H. pose proof (H col row). area_lia.
Qed.
