(* ===== verification/Grid.v ===== *)
(** * Grid: the grid template and its validation

    The application describes where its widgets go as a matrix of
    labels ([grid_area!] in [examples/grid_futures.rs], [layout!] in
    [examples/grid.rs]); [.] is the filler.  The source of the macro
    and of [GridArea] is not part of the repository snapshot: this file
    models them from the specification (section 4.3).

    [scan] finds the bounding rectangle of every label in one pass over
    the cells, in the order of first occurrence; [check_spans] rejects a
    label that does not fill its rectangle, [rectangular] a matrix with
    rows of different lengths, [resolve] a label without a widget.

    The theorems: a template that [parse] accepts has every label on
    exactly the cells of its rectangle ([parse_sound]), painting the
    rectangles gives the matrix back ([parse_paint]), every well-formed
    template is accepted ([parse_complete]), and each error names what
    is wrong ([parse_ragged_span], [parse_ragged_rows],
    [parse_unmapped]). *)

From Stdlib Require Import ZArith Lia String.
From stdpp Require Import base option list strings gmap.
From S2P Require Import Prelude.

#[local] Set Warnings "-clear-no-such-hyp".

(** ** Rectangles of cells of the template *)

Module Rect.

(** The four sides are inclusive: the rectangle of one cell has
    [left = right] and [top = bottom]. *)
Record t : Type := mk { left : nat; top : nat; right : nat; bottom : nat }.

Definition point (row col : nat) : t := mk col row col row.

(** The smallest rectangle that holds [self] and the cell. *)
Definition extend (self : t) (row col : nat) : t :=
  mk (left self `min` col) (top self `min` row)
     (right self `max` col) (bottom self `max` row).

Definition inside (self : t) (row col : nat) : bool :=
  bool_decide (top self <= row <= bottom self /\
               left self <= col <= right self).

Definition width (self : t) : nat := S (right self) - left self.

Definition height (self : t) : nat := S (bottom self) - top self.

Definition rows (self : t) : list nat := seq (top self) (height self).

Definition cols (self : t) : list nat := seq (left self) (width self).

End Rect.

#[export] Instance Rect_eq_dec : EqDecision Rect.t.
Proof. solve_decision. Defined.

(** ** The template *)

(** A cell is a label or the filler. *)
Definition cell : Type := option string.

Definition matrix : Type := list (list cell).

(** A row as the application writes it: labels, [.] for the filler. *)
Definition cell_of_token (tok : string) : cell :=
  if decide (tok = ".") then None else Some tok.

Definition of_tokens (rows : list (list string)) : matrix :=
  fmap (M := list) cell_of_token <$> rows.

(** The cell at a row and a column, when the matrix has one there. *)
Definition cell_at (m : matrix) (row col : nat) : option cell :=
  m !! row ≫= (.!! col).

(** The labelled cells of a row from column [col] on, and of the rows
    of a matrix from row [row] on, in reading order. *)
Fixpoint row_occurrences (row col : nat) (cells : list cell)
    : list (string * nat * nat) :=
  match cells with
  | [] => []
  | None :: cells => row_occurrences row (S col) cells
  | Some l :: cells => (l, row, col) :: row_occurrences row (S col) cells
  end.

Fixpoint occurrences (row : nat) (m : matrix) : list (string * nat * nat) :=
  match m with
  | [] => []
  | cells :: m => row_occurrences row 0 cells ++ occurrences (S row) m
  end.

(** *** Step 1: the bounding rectangle of every label *)

(** Record one more cell of label [l]: its rectangle grows, or a new
    entry is added after the labels seen before. *)
Fixpoint note (spans : list (string * Rect.t)) (l : string) (row col : nat)
    : list (string * Rect.t) :=
  match spans with
  | [] => [(l, Rect.point row col)]
  | (l', rect) :: spans =>
      if decide (l' = l) then (l', Rect.extend rect row col) :: spans
      else (l', rect) :: note spans l row col
  end.

Definition scan_cells (occs : list (string * nat * nat))
    : list (string * Rect.t) :=
  foldl (fun spans '(l, row, col) => note spans l row col) [] occs.

Definition scan (m : matrix) : list (string * Rect.t) :=
  scan_cells (occurrences 0 m).

(** The rectangle recorded for a label. *)
Fixpoint span_of (spans : list (string * Rect.t)) (l : string)
    : option Rect.t :=
  match spans with
  | [] => None
  | (l', rect) :: spans => if decide (l' = l) then Some rect else span_of spans l
  end.

(** *** Steps 2 to 4: validation *)

Inductive error : Type :=
| RaggedSpan (l : string)
| RaggedRows
| Unmapped (l : string).

#[export] Instance error_eq_dec : EqDecision error.
Proof. solve_decision. Defined.

Inductive checked (A : Type) : Type :=
| Valid (a : A)
| Invalid (e : error).
Arguments Valid {A} a.
Arguments Invalid {A} e.

#[export] Instance checked_ret : MRet checked := fun A a => Valid a.

#[export] Instance checked_bind : MBind checked := fun A B f m =>
  match m with
  | Valid a => f a
  | Invalid e => Invalid e
  end.

(** Every cell of the rectangle carries the label. *)
Definition span_ok (m : matrix) (l : string) (rect : Rect.t) : bool :=
  forallb (fun row =>
    forallb (fun col => bool_decide (cell_at m row col = Some (Some l)))
      (Rect.cols rect))
    (Rect.rows rect).

Fixpoint check_spans (m : matrix) (spans : list (string * Rect.t))
    : checked unit :=
  match spans with
  | [] => Valid tt
  | (l, rect) :: spans =>
      if span_ok m l rect then check_spans m spans
      else Invalid (RaggedSpan l)
  end.

(** Every row has as many cells as the first. *)
Definition columns (m : matrix) : nat :=
  match m with
  | [] => 0
  | cells :: _ => length cells
  end.

Definition rectangular (m : matrix) : bool :=
  forallb (fun cells => bool_decide (length cells = columns m)) m.

(** A label of the template with the widget it stands for, as an index
    of the application's widgets, and the cells it covers. *)
Record placement : Type := mk_placement {
  label : string;
  widget : nat;
  rect : Rect.t;
}.

#[export] Instance placement_eq_dec : EqDecision placement.
Proof. solve_decision. Defined.

Fixpoint resolve (mapping : gmap string nat) (spans : list (string * Rect.t))
    : checked (list placement) :=
  match spans with
  | [] => Valid []
  | (l, rect) :: spans =>
      match mapping !! l with
      | None => Invalid (Unmapped l)
      | Some w =>
          ps ← resolve mapping spans;
          mret (mk_placement l w rect :: ps)
      end
  end.

(** ** GridArea: a validated template *)

Module GridArea.

Record t : Type := mk {
  rows : nat;
  cols : nat;
  placements : list placement;
}.

(** The labels and their rectangles. *)
Definition spans (self : t) : list (string * Rect.t) :=
  (fun p => (label p, rect p)) <$> placements self.

End GridArea.

#[export] Instance GridArea_eq_dec : EqDecision GridArea.t.
Proof. solve_decision. Defined.

Definition parse (m : matrix) (mapping : gmap string nat)
    : checked GridArea.t :=
  let spans := scan m in
  _ ← check_spans m spans;
  if rectangular m then
    ps ← resolve mapping spans;
    mret (GridArea.mk (length m) (columns m) ps)
  else Invalid RaggedRows.

(** ** Painting a template from its rectangles *)

(** The label of the first rectangle that holds the cell. *)
Definition paint_cell (spans : list (string * Rect.t)) (row col : nat) : cell :=
  fst <$> List.find (fun s => Rect.inside s.2 row col) spans.

Definition paint (g : GridArea.t) : matrix :=
  (fun row => paint_cell (GridArea.spans g) row <$> seq 0 (GridArea.cols g))
    <$> seq 0 (GridArea.rows g).

(** ** Specification vocabulary *)

(** Label [l] is on exactly the cells of [rect]. *)
Definition covers (m : matrix) (l : string) (rect : Rect.t) : Prop :=
  forall row col,
    cell_at m row col = Some (Some l) <-> Rect.inside rect row col = true.

(** Label [l] occurs in the matrix. *)
Definition occurs (m : matrix) (l : string) : Prop :=
  exists row col, cell_at m row col = Some (Some l).

(** The labels of a list in the order of their first occurrence. *)
Fixpoint nub (ls : list string) : list string :=
  match ls with
  | [] => []
  | l :: ls => l :: filter (fun l' => l' <> l) (nub ls)
  end.

(** The labels of a matrix in reading order, with repetitions. *)
Definition labels (m : matrix) : list string :=
  (fun o => o.1.1) <$> occurrences 0 m.

(** ** Rectangles *)

Lemma rect_inside_iff rect row col :
  Rect.inside rect row col = true <->
  Rect.top rect <= row <= Rect.bottom rect /\
  Rect.left rect <= col <= Rect.right rect.
Proof. unfold Rect.inside. by rewrite bool_decide_eq_true. Qed.

Lemma rect_inside_point row col r c :
  Rect.inside (Rect.point row col) r c = true <-> r = row /\ c = col.
Proof. rewrite rect_inside_iff. cbn. lia. Qed.

Lemma rect_inside_extend rect row col r c :
  Rect.inside rect r c = true \/ (r = row /\ c = col) ->
  Rect.inside (Rect.extend rect row col) r c = true.
Proof. rewrite !rect_inside_iff. cbn. lia. Qed.

Lemma elem_of_rect_rows rect row :
  row ∈ Rect.rows rect <-> Rect.top rect <= row <= Rect.bottom rect.
Proof. unfold Rect.rows, Rect.height. rewrite elem_of_seq. lia. Qed.

Lemma elem_of_rect_cols rect col :
  col ∈ Rect.cols rect <-> Rect.left rect <= col <= Rect.right rect.
Proof. unfold Rect.cols, Rect.width. rewrite elem_of_seq. lia. Qed.

(** A rectangle whose sides are attained inside another lies inside it. *)
Lemma rect_inside_hull rect rect' r c :
  (exists c', Rect.inside rect' (Rect.top rect) c' = true) ->
  (exists c', Rect.inside rect' (Rect.bottom rect) c' = true) ->
  (exists r', Rect.inside rect' r' (Rect.left rect) = true) ->
  (exists r', Rect.inside rect' r' (Rect.right rect) = true) ->
  Rect.inside rect r c = true -> Rect.inside rect' r c = true.
Proof.
  intros [? Ht] [? Hb] [? Hl] [? Hr]. revert Ht Hb Hl Hr.
  rewrite !rect_inside_iff. lia.
Qed.

(** ** The cells of a matrix *)

Lemma elem_of_row_occurrences l r c row col cells :
  (l, r, c) ∈ row_occurrences row col cells <->
  r = row /\ col <= c /\ cells !! (c - col) = Some (Some l).
Proof.
  revert col. induction cells as [|x cells IH]; intros col; cbn.
  { rewrite elem_of_nil. naive_solver. }
  assert (Hx : forall y : cell,
    (r = row /\ col <= c /\ (y :: cells) !! (c - col) = Some (Some l)) <->
    (r = row /\ c = col /\ y = Some l) \/
    (r = row /\ S col <= c /\ cells !! (c - S col) = Some (Some l))).
  { intros y. destruct (decide (c = col)) as [->|Hne].
    - rewrite Nat.sub_diag. cbn. split; [naive_solver|].
      intros [?|?]; [naive_solver|lia].
    - destruct (decide (col <= c)); [|lia].
      replace (c - col) with (S (c - S col)) by lia. cbn. naive_solver lia. }
  rewrite Hx. destruct x as [l'|]; [rewrite elem_of_cons|]; rewrite IH;
    naive_solver.
Qed.

Lemma elem_of_occurrences l r c row m :
  (l, r, c) ∈ occurrences row m <->
  row <= r /\ cell_at m (r - row) c = Some (Some l).
Proof.
  unfold cell_at. revert row. induction m as [|cells m IH]; intros row; cbn.
  { rewrite elem_of_nil. naive_solver. }
  rewrite elem_of_app, elem_of_row_occurrences, IH, Nat.sub_0_r.
  destruct (decide (r = row)) as [->|Hne].
  - rewrite Nat.sub_diag. cbn. split.
    + intros [?|?]; [naive_solver|lia].
    + naive_solver lia.
  - destruct (decide (row <= r)); [|lia].
    replace (r - row) with (S (r - S row)) by lia. cbn. naive_solver lia.
Qed.

Lemma occurs_iff m l : occurs m l <-> exists r c, (l, r, c) ∈ occurrences 0 m.
Proof.
  unfold occurs. setoid_rewrite elem_of_occurrences.
  setoid_rewrite Nat.sub_0_r.
  split; intros (r & c & Hc); exists r, c; [split; [lia|done]|tauto].
Qed.

Lemma occurs_labels m l : occurs m l <-> l ∈ labels m.
Proof.
  rewrite occurs_iff. unfold labels. rewrite list_elem_of_fmap. split.
  - intros (r & c & Hin). by exists (l, r, c).
  - intros ([[l' r] c] & -> & Hin). by exists r, c.
Qed.

(** ** The scan *)

Lemma scan_cells_snoc occs l r c :
  scan_cells (occs ++ [(l, r, c)]) = note (scan_cells occs) l r c.
Proof. unfold scan_cells. by rewrite foldl_app. Qed.

Lemma span_of_note spans l r c l' :
  span_of (note spans l r c) l' =
  if decide (l = l')
  then Some (from_option (fun rect => Rect.extend rect r c) (Rect.point r c)
               (span_of spans l))
  else span_of spans l'.
Proof.
  induction spans as [|[k rect] spans IH]; cbn.
  { repeat case_decide; naive_solver. }
  repeat (case_decide; cbn; subst); try done; rewrite IH;
    repeat case_decide; naive_solver.
Qed.

Lemma note_keys spans l r c :
  (note spans l r c).*1 =
  if decide (l ∈ spans.*1) then spans.*1 else spans.*1 ++ [l].
Proof.
  induction spans as [|[k rect] spans IH]; cbn.
  { by rewrite decide_False by apply not_elem_of_nil. }
  destruct (decide (k = l)) as [->|Hk]; cbn.
  - by rewrite decide_True by left.
  - rewrite IH. destruct (decide (l ∈ spans.*1)).
    + by rewrite decide_True by by right.
    + by rewrite decide_False by (rewrite elem_of_cons; naive_solver).
Qed.

Lemma span_of_elem spans l rect :
  span_of spans l = Some rect -> (l, rect) ∈ spans.
Proof.
  induction spans as [|[k rect'] spans IH]; cbn; [done|].
  case_decide; subst; [intros [= ->]; left|right; auto].
Qed.

Lemma span_of_None spans l : span_of spans l = None <-> l ∉ spans.*1.
Proof.
  induction spans as [|[k rect'] spans IH]; cbn.
  { split; [intros _; apply not_elem_of_nil|done]. }
  rewrite not_elem_of_cons. case_decide; naive_solver.
Qed.

Lemma elem_span_of spans l rect :
  NoDup spans.*1 -> (l, rect) ∈ spans -> span_of spans l = Some rect.
Proof.
  induction spans as [|[k rect'] spans IH]; cbn; [by intros _ ?%elem_of_nil|].
  intros [Hk Hnd]%NoDup_cons [[= -> ->]|Hin]%elem_of_cons.
  { by rewrite decide_True. }
  rewrite decide_False; [auto|].
  intros ->. apply Hk, list_elem_of_fmap. by exists (l, rect).
Qed.

(** *** The order of the labels *)

Lemma elem_of_nub ls l : l ∈ nub ls <-> l ∈ ls.
Proof.
  induction ls as [|k ls IH]; cbn; [done|].
  rewrite !elem_of_cons, list_elem_of_filter, IH.
  destruct (decide (l = k)); naive_solver.
Qed.

Lemma NoDup_nub ls : NoDup (nub ls).
Proof.
  induction ls as [|k ls IH]; cbn; [constructor|].
  apply NoDup_cons. split; [|by apply NoDup_filter].
  rewrite list_elem_of_filter. naive_solver.
Qed.

Lemma nub_snoc ls l :
  nub (ls ++ [l]) = if decide (l ∈ ls) then nub ls else nub ls ++ [l].
Proof.
  induction ls as [|k ls IH]; cbn.
  { by rewrite decide_False by apply not_elem_of_nil. }
  rewrite IH. destruct (decide (l ∈ ls)) as [Hin|Hin].
  { by rewrite decide_True by by right. }
  rewrite filter_app. destruct (decide (l = k)) as [->|Hne].
  - rewrite decide_True by apply list_elem_of_here.
    rewrite filter_cons_False by naive_solver.
    by rewrite filter_nil, app_nil_r.
  - rewrite decide_False by (rewrite elem_of_cons; naive_solver).
    by rewrite filter_cons_True by done.
Qed.

(** The labels come out in the order of their first occurrence. *)
Lemma scan_cells_keys occs :
  (scan_cells occs).*1 = nub ((fun o => o.1.1) <$> occs).
Proof.
  induction occs as [|[[l r] c] occs IH] using rev_ind; [done|].
  rewrite scan_cells_snoc, note_keys, fmap_app.
  change ((fun o : string * nat * nat => o.1.1) <$> [(l, r, c)]) with [l].
  rewrite nub_snoc, IH.
  destruct (decide (l ∈ (fun o => o.1.1) <$> occs)) as [Hin|Hin].
  - by rewrite decide_True by by apply elem_of_nub.
  - by rewrite decide_False by by rewrite elem_of_nub.
Qed.

Lemma scan_keys m : (scan m).*1 = nub (labels m).
Proof. apply scan_cells_keys. Qed.

Lemma scan_NoDup m : NoDup (scan m).*1.
Proof. rewrite scan_keys. apply NoDup_nub. Qed.

(** *** The rectangles are the bounding rectangles *)

(** [rect] is the smallest rectangle that holds the cells of [l]: it
    holds them all, and each of its sides has one. *)
Definition bounding (occs : list (string * nat * nat)) (l : string)
    (rect : Rect.t) : Prop :=
  (forall r c, (l, r, c) ∈ occs -> Rect.inside rect r c = true) /\
  (exists c, (l, Rect.top rect, c) ∈ occs) /\
  (exists c, (l, Rect.bottom rect, c) ∈ occs) /\
  (exists r, (l, r, Rect.left rect) ∈ occs) /\
  (exists r, (l, r, Rect.right rect) ∈ occs).

Lemma bounding_point occs l r c :
  (forall r' c', (l, r', c') ∉ occs) ->
  bounding (occs ++ [(l, r, c)]) l (Rect.point r c).
Proof.
  intros Hno. unfold bounding. setoid_rewrite elem_of_app.
  setoid_rewrite list_elem_of_singleton. split.
  - intros r' c' [Hin|[= -> ->]]; [by apply Hno in Hin|].
    by apply rect_inside_point.
  - cbn. repeat split; eexists; by right.
Qed.

Lemma bounding_extend occs l r c rect :
  bounding occs l rect ->
  bounding (occs ++ [(l, r, c)]) l (Rect.extend rect r c).
Proof.
  intros (Hin & [ct Ht] & [cb Hb] & [rl Hl] & [rr Hr]).
  unfold bounding. setoid_rewrite elem_of_app.
  setoid_rewrite list_elem_of_singleton. split.
  { intros r' c' [?|[= -> ->]]; apply rect_inside_extend; auto. }
  cbn. repeat split.
  - destruct (Nat.min_spec (Rect.top rect) r) as [[_ ->]|[_ ->]]; eauto.
  - destruct (Nat.max_spec (Rect.bottom rect) r) as [[_ ->]|[_ ->]]; eauto.
  - destruct (Nat.min_spec (Rect.left rect) c) as [[_ ->]|[_ ->]]; eauto.
  - destruct (Nat.max_spec (Rect.right rect) c) as [[_ ->]|[_ ->]]; eauto.
Qed.

Lemma bounding_other occs l l' r c rect :
  l' <> l -> bounding occs l rect -> bounding (occs ++ [(l', r, c)]) l rect.
Proof.
  intros Hne (Hin & [ct Ht] & [cb Hb] & [rl Hl] & [rr Hr]).
  unfold bounding. setoid_rewrite elem_of_app.
  setoid_rewrite list_elem_of_singleton.
  split; [intros r' c' [?|[= ? ? ?]]; [auto|done]|].
  repeat split; eexists; by left.
Qed.

Lemma scan_cells_bounding occs l :
  match span_of (scan_cells occs) l with
  | Some rect => bounding occs l rect
  | None => forall r c, (l, r, c) ∉ occs
  end.
Proof.
  induction occs as [|[[k r] c] occs IH] using rev_ind.
  { intros r c. apply not_elem_of_nil. }
  rewrite scan_cells_snoc, span_of_note.
  destruct (decide (k = l)) as [->|Hne].
  - destruct (span_of (scan_cells occs) l); cbn;
      auto using bounding_extend, bounding_point.
  - destruct (span_of (scan_cells occs) l); [by apply bounding_other|].
    intros r' c'. rewrite elem_of_app, list_elem_of_singleton.
    intros [Hin|[= ? ? ?]]; [by apply IH in Hin|done].
Qed.

Lemma scan_bounding m l rect :
  (l, rect) ∈ scan m -> bounding (occurrences 0 m) l rect.
Proof.
  intros Hin%(elem_span_of _ _ _ (scan_NoDup m)).
  pose proof (scan_cells_bounding (occurrences 0 m) l) as Hb.
  unfold scan in Hin. by rewrite Hin in Hb.
Qed.

Lemma scan_occurs m l : occurs m l <-> l ∈ (scan m).*1.
Proof. by rewrite scan_keys, elem_of_nub, occurs_labels. Qed.

(** A label that fills a rectangle has it as its bounding rectangle's
    hull: the recorded rectangle lies inside. *)
Lemma scan_inside_cover m l rect rect' r c :
  (l, rect) ∈ scan m -> covers m l rect' ->
  Rect.inside rect r c = true -> Rect.inside rect' r c = true.
Proof.
  intros (_ & Ht & Hb & Hl & Hr)%scan_bounding Hcov.
  assert (Hocc : forall r c, (l, r, c) ∈ occurrences 0 m ->
                             Rect.inside rect' r c = true).
  { intros r' c' [_ Hc]%elem_of_occurrences. rewrite Nat.sub_0_r in Hc.
    by apply Hcov. }
  apply rect_inside_hull.
  - destruct Ht; eauto.
  - destruct Hb; eauto.
  - destruct Hl; eauto.
  - destruct Hr; eauto.
Qed.

(** ** Validation *)

Lemma span_ok_iff m l rect :
  span_ok m l rect = true <->
  forall r c, Rect.inside rect r c = true -> cell_at m r c = Some (Some l).
Proof.
  unfold span_ok. split.
  - intros Hok r c [Hr Hc]%rect_inside_iff.
    rewrite forallb_forall in Hok.
    specialize (Hok r ltac:(by apply list_elem_of_In, elem_of_rect_rows)).
    rewrite forallb_forall in Hok.
    specialize (Hok c ltac:(by apply list_elem_of_In, elem_of_rect_cols)).
    by apply bool_decide_eq_true in Hok.
  - intros Hall. apply forallb_forall.
    intros r Hr%list_elem_of_In%elem_of_rect_rows. apply forallb_forall.
    intros c Hc%list_elem_of_In%elem_of_rect_cols.
    by apply bool_decide_eq_true, Hall, rect_inside_iff.
Qed.

Lemma check_spans_Valid m spans :
  check_spans m spans = Valid tt <->
  forall l rect, (l, rect) ∈ spans -> span_ok m l rect = true.
Proof.
  induction spans as [|[k rect'] spans IH]; cbn.
  { split; [by intros _ ?? ?%elem_of_nil|done]. }
  setoid_rewrite elem_of_cons. destruct (span_ok m k rect') eqn:Hok.
  - rewrite IH. naive_solver.
  - split; [done|]. intros Hall. rewrite Hall in Hok; [done|by left].
Qed.

Lemma check_spans_Invalid m spans e :
  check_spans m spans = Invalid e ->
  exists l rect, e = RaggedSpan l /\ (l, rect) ∈ spans /\
                 span_ok m l rect = false.
Proof.
  induction spans as [|[k rect'] spans IH]; cbn; [done|].
  destruct (span_ok m k rect') eqn:Hok.
  - intros (l & rect & ? & ? & ?)%IH. exists l, rect. by rewrite elem_of_cons; auto.
  - intros [= <-]. exists k, rect'. by rewrite elem_of_cons; auto.
Qed.

Lemma resolve_Valid mapping spans ps :
  resolve mapping spans = Valid ps ->
  (fun p => (label p, rect p)) <$> ps = spans /\
  Forall (fun p => mapping !! label p = Some (widget p)) ps.
Proof.
  revert ps. induction spans as [|[k rect'] spans IH]; intros ps; cbn.
  { by intros [= <-]. }
  destruct (mapping !! k) as [w|] eqn:Hw; [|done].
  destruct (resolve mapping spans) as [ps'|]; [|done].
  intros [= <-]. destruct (IH ps' eq_refl) as [<- Hall].
  split; [done|]. by constructor.
Qed.

Lemma resolve_Invalid mapping spans e :
  resolve mapping spans = Invalid e ->
  exists l, e = Unmapped l /\ l ∈ spans.*1 /\ mapping !! l = None.
Proof.
  induction spans as [|[k rect'] spans IH]; cbn; [done|].
  destruct (mapping !! k) as [w|] eqn:Hw.
  - destruct (resolve mapping spans) as [ps'|e']; [done|].
    intros [= <-]. destruct (IH eq_refl) as (l & ? & ? & ?).
    exists l. by rewrite elem_of_cons; auto.
  - intros [= <-]. exists k. by rewrite elem_of_cons; auto.
Qed.

Lemma resolve_mapped mapping spans :
  (forall l, l ∈ spans.*1 -> is_Some (mapping !! l)) ->
  exists ps, resolve mapping spans = Valid ps.
Proof.
  induction spans as [|[k rect'] spans IH]; cbn; [by eexists|].
  intros Hall. destruct (Hall k) as [w ->]; [by left|].
  destruct IH as [ps ->]; [intros; apply Hall; by right|]. by eexists.
Qed.

(** What [parse] does, step by step. *)
Lemma parse_Valid m mapping g :
  parse m mapping = Valid g <->
  check_spans m (scan m) = Valid tt /\ rectangular m = true /\
  exists ps, resolve mapping (scan m) = Valid ps /\
             g = GridArea.mk (length m) (columns m) ps.
Proof.
  unfold parse.
  destruct (check_spans m (scan m)) as [[]|e1]; cbn;
    [|by split; [|intros [? _]]].
  destruct (rectangular m); [|by split; [|intros (_ & ? & _)]].
  destruct (resolve mapping (scan m)) as [ps|e2]; cbn.
  - split; [intros [= <-]; eauto|]. by intros (_ & _ & ps' & [= <-] & ->).
  - split; [done|]. by intros (_ & _ & ps' & ? & _).
Qed.

(** ** What a validated template says of its matrix *)

Section parsed.
Context (m : matrix) (mapping : gmap string nat).
Implicit Types (g : GridArea.t) (l : string) (rect : Rect.t) (p : placement).

(** A recorded rectangle that is full has its label on exactly its
    cells. *)
Lemma span_ok_covers l rect :
  (l, rect) ∈ scan m -> span_ok m l rect = true -> covers m l rect.
Proof.
  intros Hin Hok r c. split.
  - intros Hc. apply (scan_bounding _ _ _ Hin), elem_of_occurrences.
    rewrite Nat.sub_0_r. split; [lia|done].
  - by apply span_ok_iff.
Qed.

Lemma scan_covers l rect :
  check_spans m (scan m) = Valid tt -> (l, rect) ∈ scan m -> covers m l rect.
Proof.
  intros Hok Hin. rewrite check_spans_Valid in Hok.
  by apply span_ok_covers, Hok.
Qed.

(** A label that fills some rectangle passes the check. *)
Lemma covers_span_ok l rect rect' :
  (l, rect) ∈ scan m -> covers m l rect' -> span_ok m l rect = true.
Proof.
  intros Hin Hcov. apply span_ok_iff. intros r c Hrc.
  by apply Hcov, (scan_inside_cover _ _ _ _ _ _ Hin Hcov).
Qed.

Lemma parse_spans g : parse m mapping = Valid g -> GridArea.spans g = scan m.
Proof.
  intros (_ & _ & ps & [Hps _]%resolve_Valid & ->)%parse_Valid. done.
Qed.

Lemma elem_of_spans g l rect :
  (l, rect) ∈ GridArea.spans g <->
  exists p, p ∈ GridArea.placements g /\ label p = l /\ Grid.rect p = rect.
Proof.
  unfold GridArea.spans. rewrite list_elem_of_fmap. naive_solver.
Qed.

Lemma parse_covers g p :
  parse m mapping = Valid g -> p ∈ GridArea.placements g ->
  covers m (label p) (rect p).
Proof.
  intros Hg Hp. apply scan_covers; [by apply parse_Valid in Hg as [? _]|].
  rewrite <- (parse_spans g Hg). apply elem_of_spans. eauto.
Qed.

Lemma parse_mapped g p :
  parse m mapping = Valid g -> p ∈ GridArea.placements g ->
  mapping !! label p = Some (widget p).
Proof.
  intros (_ & _ & ps & [_ Hall]%resolve_Valid & ->)%parse_Valid Hp.
  by apply (proj1 (Forall_forall _ _) Hall).
Qed.

Lemma parse_occurs g l :
  parse m mapping = Valid g -> occurs m l ->
  exists p, p ∈ GridArea.placements g /\ label p = l.
Proof.
  intros Hg Hocc%scan_occurs. rewrite <- (parse_spans g Hg) in Hocc.
  apply list_elem_of_fmap in Hocc as ([l' rect] & -> & Hin).
  apply elem_of_spans in Hin as (p & ? & ? & ?). eauto.
Qed.

(** The placements are in the order of first occurrence. *)
Lemma parse_order g :
  parse m mapping = Valid g ->
  label <$> GridArea.placements g = nub (labels m).
Proof.
  intros Hg. rewrite <- scan_keys, <- (parse_spans g Hg).
  unfold GridArea.spans. by rewrite <- list_fmap_compose.
Qed.

(** Rectangles of different labels share no cell. *)
Lemma parse_disjoint g p q r c :
  parse m mapping = Valid g ->
  p ∈ GridArea.placements g -> q ∈ GridArea.placements g ->
  label p <> label q ->
  Rect.inside (rect p) r c = true -> Rect.inside (rect q) r c = false.
Proof.
  intros Hg Hp Hq Hne Hin. apply not_true_is_false. intros Hin'.
  apply (parse_covers g p Hg Hp) in Hin.
  apply (parse_covers g q Hg Hq) in Hin'. congruence.
Qed.

End parsed.

Lemma rectangular_row m r cells :
  rectangular m = true -> m !! r = Some cells -> length cells = columns m.
Proof.
  unfold rectangular. rewrite forallb_forall.
  intros Hall Hr%list_elem_of_lookup_2%list_elem_of_In%Hall.
  by apply bool_decide_eq_true in Hr.
Qed.

(** The rectangles are not empty and lie within the matrix. *)
Lemma cell_at_Some m r c x :
  rectangular m = true -> cell_at m r c = Some x ->
  (r < length m /\ c < columns m)%nat.
Proof.
  unfold cell_at. intros Hrect (cells & Hr & Hx)%bind_Some.
  apply lookup_lt_Some in Hx.
  rewrite <- (rectangular_row m r cells Hrect Hr).
  split; [by eapply lookup_lt_Some|done].
Qed.

Lemma parse_rect_wf m mapping g p :
  parse m mapping = Valid g -> p ∈ GridArea.placements g ->
  (Rect.left (rect p) <= Rect.right (rect p) < GridArea.cols g /\
   Rect.top (rect p) <= Rect.bottom (rect p) < GridArea.rows g)%nat.
Proof.
  intros Hg Hp. pose proof (parse_covers m mapping g p Hg Hp) as Hcov.
  assert (Hin : (label p, rect p) ∈ scan m).
  { rewrite <- (parse_spans m mapping g Hg). apply elem_of_spans. eauto. }
  destruct (scan_bounding _ _ _ Hin) as (Hall & [c Ht] & _).
  apply Hall, rect_inside_iff in Ht.
  assert (Hbr : Rect.inside (rect p) (Rect.bottom (rect p))
                  (Rect.right (rect p)) = true)
    by (apply rect_inside_iff; lia).
  apply Hcov in Hbr.
  apply parse_Valid in Hg as (_ & Hrect & ps & _ & ->).
  apply (cell_at_Some m _ _ _ Hrect) in Hbr. cbn. lia.
Qed.


(** Rectangles of different labels lie side by side or one above the
    other. *)
Lemma parse_apart m mapping g p q :
  parse m mapping = Valid g ->
  p ∈ GridArea.placements g -> q ∈ GridArea.placements g ->
  label p <> label q ->
  (Rect.right (rect p) < Rect.left (rect q) \/
   Rect.right (rect q) < Rect.left (rect p) \/
   Rect.bottom (rect p) < Rect.top (rect q) \/
   Rect.bottom (rect q) < Rect.top (rect p))%nat.
Proof.
  intros Hg Hp Hq Hne.
  pose proof (parse_rect_wf m mapping g p Hg Hp).
  pose proof (parse_rect_wf m mapping g q Hg Hq).
  pose proof (parse_disjoint m mapping g p q
                (Rect.top (rect p) `max` Rect.top (rect q))
                (Rect.left (rect p) `max` Rect.left (rect q)) Hg Hp Hq Hne)
    as Hd.
  destruct (Rect.inside (rect q) _ _) eqn:Hin.
  - assert (Hnp : Rect.inside (rect p)
                    (Rect.top (rect p) `max` Rect.top (rect q))
                    (Rect.left (rect p) `max` Rect.left (rect q)) <> true)
      by (intros Hp'; by apply Hd in Hp').
    apply rect_inside_iff in Hin. rewrite rect_inside_iff in Hnp. lia.
  - apply not_true_iff_false in Hin. rewrite rect_inside_iff in Hin. lia.
Qed.


(** ** Painting gives the matrix back *)


Lemma paint_cell_covers m spans r c x :
  (forall l rect, (l, rect) ∈ spans -> covers m l rect) ->
  (forall l, occurs m l -> l ∈ spans.*1) ->
  cell_at m r c = Some x -> paint_cell spans r c = x.
Proof.
  intros Hcov Hocc Hx. unfold paint_cell.
  destruct (List.find _ spans) as [[l rect]|] eqn:Hfind; cbn.
  - apply find_some in Hfind as [Hin%list_elem_of_In Hrc].
    apply (Hcov _ _ Hin) in Hrc. congruence.
  - destruct x as [l|]; [exfalso|done].
    pose proof (Hocc l ltac:(by eexists _, _))
      as ([l' rect] & -> & Hin)%list_elem_of_fmap.
    apply list_elem_of_In in Hin as Hin'.
    apply (find_none _ _ Hfind) in Hin'. cbn in *.
    apply (Hcov _ _ Hin) in Hx. congruence.
Qed.

Lemma paint_row m spans r cells :
  (forall l rect, (l, rect) ∈ spans -> covers m l rect) ->
  (forall l, occurs m l -> l ∈ spans.*1) ->
  m !! r = Some cells ->
  paint_cell spans r <$> seq 0 (length cells) = cells.
Proof.
  intros Hcov Hocc Hr. apply list_eq. intros c. rewrite list_lookup_fmap.
  destruct (cells !! c) as [x|] eqn:Hc.
  - rewrite lookup_seq_lt by by eapply lookup_lt_Some. cbn. f_equal.
    apply (paint_cell_covers m); [done..|]. unfold cell_at. by rewrite Hr.
  - by rewrite lookup_seq_ge by by apply lookup_ge_None.
Qed.

(** ** The errors *)

Lemma parse_Invalid m mapping e :
  parse m mapping = Invalid e <->
  check_spans m (scan m) = Invalid e \/
  check_spans m (scan m) = Valid tt /\
    (rectangular m = false /\ e = RaggedRows \/
     rectangular m = true /\ resolve mapping (scan m) = Invalid e).
Proof.
  unfold parse. destruct (check_spans m (scan m)) as [[]|e1]; cbn;
    [|naive_solver].
  destruct (rectangular m); [|naive_solver].
  destruct (resolve mapping (scan m)) as [ps|e2]; cbn; naive_solver.
Qed.

(** A recorded label whose check fails fills no rectangle. *)
Lemma span_not_ok m l rect :
  (l, rect) ∈ scan m -> span_ok m l rect = false ->
  occurs m l /\ forall rect', ~ covers m l rect'.
Proof.
  intros Hin Hok. split.
  - apply scan_occurs, list_elem_of_fmap. by exists (l, rect).
  - intros rect' Hcov. by rewrite (covers_span_ok m l rect rect') in Hok.
Qed.

(** A label that fills no rectangle fails the check of the spans. *)
Lemma ragged_check_spans m l :
  occurs m l -> (forall rect, ~ covers m l rect) ->
  exists l', check_spans m (scan m) = Invalid (RaggedSpan l').
Proof.
  intros ([k rect] & -> & Hin)%scan_occurs%list_elem_of_fmap Hno.
  destruct (check_spans m (scan m)) as [[]|e] eqn:Hck.
  - by apply scan_covers, Hno in Hin.
  - apply check_spans_Invalid in Hck as (l' & _ & -> & _). eauto.
Qed.

(** ** Properties *)

(** A template that [parse] accepts is what the data model asks for:
    every placement's label is on exactly the cells of its rectangle
    and is mapped to its widget, every label of the matrix has a
    placement, and the placements are in the order of first
    occurrence. *)
Theorem parse_sound m mapping g :
  parse m mapping = Valid g ->
  (forall p, p ∈ GridArea.placements g ->
     covers m (label p) (rect p) /\ mapping !! label p = Some (widget p)) /\
  (forall l, occurs m l -> exists p, p ∈ GridArea.placements g /\ label p = l) /\
  label <$> GridArea.placements g = nub (labels m).
Proof.
  intros Hg. split_and!;
    eauto using parse_covers, parse_mapped, parse_occurs, parse_order.
Qed.

(** Painting the rectangles of a validated template, first
    rectangle first and the filler elsewhere, gives back the matrix it
    was parsed from. *)
Theorem parse_paint m mapping g : parse m mapping = Valid g -> paint g = m.
Proof.
  intros Hg. pose proof Hg as (Hok & Hrect & ps & _ & ->)%parse_Valid.
  unfold paint. rewrite (parse_spans m mapping _ Hg). cbn.
  apply list_eq. intros r. rewrite list_lookup_fmap.
  destruct (lookup (M := list (list cell)) r m) as [cells|] eqn:Hr.
  - rewrite lookup_seq_lt by by eapply lookup_lt_Some. cbn. f_equal.
    rewrite <- (rectangular_row m r cells Hrect Hr).
    apply (paint_row m); [intros; by apply scan_covers| |done].
    intros l Hl. by apply scan_occurs.
  - by rewrite lookup_seq_ge by by apply lookup_ge_None.
Qed.

(** Every well-formed template is accepted: a matrix with rows of
    equal length in which each label fills a rectangle and has a
    widget. *)
Theorem parse_complete m mapping :
  rectangular m = true ->
  (forall l, occurs m l -> exists rect, covers m l rect) ->
  (forall l, occurs m l -> is_Some (mapping !! l)) ->
  exists g, parse m mapping = Valid g.
Proof.
  intros Hrect Hcov Hmap.
  assert (Hck : check_spans m (scan m) = Valid tt).
  { apply check_spans_Valid. intros l rect Hin. destruct (Hcov l) as [rect' Hc].
    { apply scan_occurs, list_elem_of_fmap. by exists (l, rect). }
    by eapply covers_span_ok. }
  destruct (resolve_mapped mapping (scan m)) as [ps Hps].
  { intros l Hl%scan_occurs. auto. }
  eexists. apply parse_Valid. eauto.
Qed.

(** A label whose cells do not form a rectangle is rejected with an
    error that names such a label, and that error is given for no other
    reason. *)
Theorem parse_ragged_span m mapping :
  (forall l, occurs m l -> (forall rect, ~ covers m l rect) ->
     exists l', parse m mapping = Invalid (RaggedSpan l')) /\
  (forall l, parse m mapping = Invalid (RaggedSpan l) ->
     occurs m l /\ forall rect, ~ covers m l rect).
Proof.
  split.
  - intros l Hocc Hno. destruct (ragged_check_spans m l Hocc Hno) as [l' Hck].
    exists l'. apply parse_Invalid. auto.
  - intros l [Hck|(_ & [[_ [=]]|[_ Hres]])]%parse_Invalid.
    + apply check_spans_Invalid in Hck as (l' & rect & [= <-] & Hin & Hok).
      by eapply span_not_ok.
    + by apply resolve_Invalid in Hres as (? & [=] & _).
Qed.

(** A matrix whose labels all fill rectangles but whose rows differ
    in length is rejected as such, and only such a matrix is. *)
Theorem parse_ragged_rows m mapping :
  parse m mapping = Invalid RaggedRows <->
  rectangular m = false /\ forall l, occurs m l -> exists rect, covers m l rect.
Proof.
  rewrite parse_Invalid. split.
  - intros [Hck|(Hck & [[? _]|[_ Hres]])].
    + by apply check_spans_Invalid in Hck as (? & ? & [=] & _).
    + split; [done|]. intros l ([k rect] & -> & Hin)%scan_occurs%list_elem_of_fmap.
      exists rect. by apply scan_covers.
    + by apply resolve_Invalid in Hres as (? & [=] & _).
  - intros [Hrect Hcov]. right. split; [|auto].
    apply check_spans_Valid. intros l rect Hin. destruct (Hcov l) as [rect' Hc].
    { apply scan_occurs, list_elem_of_fmap. by exists (l, rect). }
    by eapply covers_span_ok.
Qed.

(** A label without a widget is rejected with an error that names
    it. *)
Theorem parse_unmapped m mapping l :
  parse m mapping = Invalid (Unmapped l) ->
  occurs m l /\ mapping !! l = None.
Proof.
  intros [Hck|(_ & [[_ [=]]|[_ Hres]])]%parse_Invalid.
  - by apply check_spans_Invalid in Hck as (? & ? & [=] & _).
  - apply resolve_Invalid in Hres as (l' & [= <-] & Hin & Hnone).
    split; [by apply scan_occurs|done].
Qed.

(** ** Scenarios *)

(** The spanning template of the specification: [a] over two columns of
    the first row, [b] under its second column. *)
Definition span_template : matrix := of_tokens [["a"; "a"]; ["."; "b"]].

Definition span_mapping : gmap string nat := {["a" := 0%nat; "b" := 1%nat]}.

Definition span_grid : GridArea.t :=
  GridArea.mk 2 2 [mk_placement "a" 0 (Rect.mk 0 0 1 0);
                   mk_placement "b" 1 (Rect.mk 1 1 1 1)].

Example parse_span_template : parse span_template span_mapping = Valid span_grid.
Proof. by vm_compute. Qed.

(** A label on an L-shaped set of cells, rows of different lengths, and
    a label without a widget. *)
Example parse_ragged_L :
  parse (of_tokens [["a"; "a"]; ["a"; "."]]) span_mapping
  = Invalid (RaggedSpan "a").
Proof. by vm_compute. Qed.

Example parse_short_row :
  parse (of_tokens [["a"; "a"]; ["b"]]) span_mapping = Invalid RaggedRows.
Proof. by vm_compute. Qed.

Example parse_no_widget :
  parse (of_tokens [["a"; "c"]]) span_mapping = Invalid (Unmapped "c").
Proof. by vm_compute. Qed.

Lemma parse_sound_witness :
  (forall p, p ∈ GridArea.placements span_grid ->
     covers span_template (label p) (rect p) /\
     span_mapping !! label p = Some (widget p)) /\
  (forall l, occurs span_template l ->
     exists p, p ∈ GridArea.placements span_grid /\ label p = l) /\
  label <$> GridArea.placements span_grid = nub (labels span_template).
Proof. exact (parse_sound _ _ _ parse_span_template). Defined.

Lemma parse_paint_witness : paint span_grid = span_template.
Proof. exact (parse_paint _ _ _ parse_span_template). Defined.

Lemma parse_unmapped_witness :
  occurs (of_tokens [["a"; "c"]]) "c" /\ span_mapping !! "c" = None.
Proof. exact (parse_unmapped _ _ _ parse_no_widget). Defined.
