(* ===== verification/Solver.v ===== *)
(** * Solver: from a validated template to a box per widget

    The layout solver of the specification (sections 4.2 and 4.4); its
    source is not part of the repository snapshot.  Columns are solved
    with the widths, rows with the heights, by the same steps:

    - [tracks]: the minimum of a track is the largest share any widget
      through it asks for, a widget's minimum being shared evenly over
      the tracks it spans with the remainder on the first; a track is
      flexible when a widget through it has no maximum;
    - [scale_down]: when the minimums do not fit, each is scaled by
      [available / total], floored, and the cells lost to rounding go
      to the first tracks;
    - [fill]: otherwise what is left over goes to the flexible tracks
      in equal shares, remainder to the first, never past a track's
      maximum; what a maximum turns away is shared again in a further
      pass among the flexible tracks that still have room;
    - [offset] and [place]: prefix sums give each track its start, and
      a widget gets the tracks of its rectangle.

    Extents are [u16] in the toolkit; the solver is written over [Z]
    and the theorems show every extent it forms stays within the
    available one, so no addition can leave [u16] ([solve_typed]).
    The ratio of step 2 is the exact one: the specification's floating
    point ratio agrees with it wherever the product is representable.

    The specification leaves the fuel of the water filling open; [fill]
    runs one pass per track at most, and [fill_settles] shows that this
    is enough: afterwards nothing is left over or no track has room. *)

From Stdlib Require Import ZArith Lia.
From stdpp Require Import base option list strings gmap.
From S2P Require Import Prelude Geometry Layout Grid.

#[local] Set Warnings "-clear-no-such-hyp".

#[local] Open Scope Z_scope.

(** ** Sums *)

Definition sumZ (l : list Z) : Z := foldr Z.add 0 l.

(** ** Tracks *)

Module Track.

(** A column or a row while its axis is solved. *)
Record t : Type := mk { min : Z; max : Z; flexible : bool }.

(** The bounds make sense: [0 <= min <= max]. *)
Definition wf (self : t) : Prop := 0 <= min self <= max self.

End Track.

#[export] Instance Track_eq_dec : EqDecision Track.t.
Proof. solve_decision. Defined.

(** A widget along one axis: the tracks it spans and the range of
    extents it accepts. *)
Record span : Type := mk_span {
  first : nat;
  count : nat;
  range : AreaBound.range;
}.

(** *** Step 1: the bounds of a track (section 4.2) *)

(** The [i]-th of [n] even shares of [v], remainder on the first. *)
Definition share (v : Z) (n i : nat) : Z :=
  v / Z.of_nat n + (if bool_decide (Z.of_nat i < v mod Z.of_nat n) then 1 else 0).

(** No maximum: the range ends at the largest extent there is. *)
Definition unbounded (r : AreaBound.range) : bool :=
  bool_decide (AreaBound.hi r = u16_max).

Definition through (k : nat) (s : span) : bool :=
  bool_decide (first s <= k < first s + count s)%nat.

Definition track_min (spans : list span) (k : nat) : Z :=
  foldr Z.max 0
    ((fun s => share (AreaBound.lo (range s)) (count s) (k - first s))
       <$> filter (fun s => through k s = true) spans).

Definition track_flexible (spans : list span) (k : nat) : bool :=
  existsb (fun s => through k s && unbounded (range s)) spans.

(** The least restrictive maximum: the largest share of a maximum, and
    no maximum at all on a flexible track. *)
Definition track_max (spans : list span) (k : nat) : Z :=
  if track_flexible spans k then u16_max
  else foldr Z.max (track_min spans k)
         ((fun s => share (AreaBound.hi (range s)) (count s) (k - first s))
            <$> filter (fun s => through k s = true) spans).

Definition tracks (n : nat) (spans : list span) : list Track.t :=
  (fun k => Track.mk (track_min spans k) (track_max spans k)
              (track_flexible spans k)) <$> seq 0 n.

(** *** Step 2: the minimums do not fit *)

(** One more cell for each of the first [k] entries. *)
Fixpoint bump (k : Z) (l : list Z) : list Z :=
  match l with
  | [] => []
  | x :: l => (if bool_decide (0 < k) then x + 1 else x) :: bump (k - 1) l
  end.

Definition scale_down (mins : list Z) (avail : Z) : list Z :=
  let total := sumZ mins in
  let floors := (fun m => m * avail / total) <$> mins in
  bump (avail - sumZ floors) floors.

(** *** Step 3: the minimums fit *)

(** What a track can still take. *)
Definition room (t : Track.t) (size : Z) : Z :=
  if Track.flexible t then Track.max t - size else 0.

Definition active (t : Track.t) (size : Z) : bool := bool_decide (0 < room t size).

Fixpoint actives (ts : list Track.t) (sizes : list Z) : nat :=
  match ts, sizes with
  | t :: ts, size :: sizes =>
      ((if active t size then 1 else 0) + actives ts sizes)%nat
  | _, _ => 0%nat
  end.

(** One pass: every track with room takes its share, one cell more for
    the first [rem] of them, or what it has room for; [k] counts the
    tracks with room passed so far. *)
Fixpoint pass (share rem k : Z) (ts : list Track.t) (sizes : list Z)
    : list Z :=
  match ts, sizes with
  | t :: ts, size :: sizes =>
      if active t size then
        let want := share + (if bool_decide (k < rem) then 1 else 0) in
        (size + Z.min want (room t size)) :: pass share rem (k + 1) ts sizes
      else size :: pass share rem k ts sizes
  | _, _ => sizes
  end.

(** Passes until nothing is left over or no track has room. *)
Fixpoint fill (fuel : nat) (ts : list Track.t) (sizes : list Z) (leftover : Z)
    : list Z :=
  match fuel with
  | O => sizes
  | S fuel =>
      let n := Z.of_nat (actives ts sizes) in
      if bool_decide (n = 0 \/ leftover <= 0) then sizes
      else
        let sizes' := pass (leftover / n) (leftover mod n) 0 ts sizes in
        fill fuel ts sizes' (leftover - (sumZ sizes' - sumZ sizes))
  end.

(** One axis: steps 2 and 3. *)
Definition solve_axis (ts : list Track.t) (avail : Z) : list Z :=
  let mins := Track.min <$> ts in
  if bool_decide (avail < sumZ mins) then scale_down mins avail
  else fill (length ts) ts mins (avail - sumZ mins).

(** *** Steps 4 and 5: offsets and boxes *)

(** Where track [k] starts. *)
Definition offset (start : Z) (sizes : list Z) (k : nat) : Z :=
  start + sumZ (take k sizes).

(** The extent of [n] tracks from track [k] on. *)
Definition extent (sizes : list Z) (k n : nat) : Z :=
  sumZ (take n (drop k sizes)).

Definition place (bbox : BBox.t) (widths heights : list Z) (rect : Rect.t)
    : BBox.t :=
  BBox.new (offset (Area.col bbox) widths (Rect.left rect))
           (offset (Area.row bbox) heights (Rect.top rect))
           (extent widths (Rect.left rect) (Rect.width rect))
           (extent heights (Rect.top rect) (Rect.height rect)).

(** The spans of the placements along the columns and along the rows,
    with the bounds each widget declares. *)
Definition col_span (bounds : nat -> AreaBound.t) (p : placement) : span :=
  mk_span (Rect.left (rect p)) (Rect.width (rect p))
    (AreaBound.cols (bounds (widget p))).

Definition row_span (bounds : nat -> AreaBound.t) (p : placement) : span :=
  mk_span (Rect.top (rect p)) (Rect.height (rect p))
    (AreaBound.rows (bounds (widget p))).

Definition widths (g : GridArea.t) (bounds : nat -> AreaBound.t) (bbox : BBox.t)
    : list Z :=
  solve_axis (tracks (GridArea.cols g) (col_span bounds <$> GridArea.placements g))
    (Area.width bbox).

Definition heights (g : GridArea.t) (bounds : nat -> AreaBound.t) (bbox : BBox.t)
    : list Z :=
  solve_axis (tracks (GridArea.rows g) (row_span bounds <$> GridArea.placements g))
    (Area.height bbox).

(** The solver: each widget of the template with its box, in the order
    of the placements. *)
Definition solve (g : GridArea.t) (bounds : nat -> AreaBound.t) (bbox : BBox.t)
    : list (nat * BBox.t) :=
  (fun p => (widget p, place bbox (widths g bounds bbox) (heights g bounds bbox)
                         (rect p)))
    <$> GridArea.placements g.

(** ** Sums *)

Lemma sumZ_cons x l : sumZ (x :: l) = x + sumZ l.
Proof. done. Qed.

Lemma sumZ_nil : sumZ [] = 0.
Proof. done. Qed.

#[global] Arguments sumZ : simpl never.

Lemma sumZ_app l1 l2 : sumZ (l1 ++ l2) = sumZ l1 + sumZ l2.
Proof.
  induction l1 as [|x l1 IH]; cbn; [done|]. rewrite !sumZ_cons, IH. lia.
Qed.

Lemma sumZ_nonneg l : Forall (fun x => 0 <= x) l -> 0 <= sumZ l.
Proof. induction 1; rewrite ?sumZ_cons, ?sumZ_nil; lia. Qed.

Lemma sumZ_le l1 l2 : Forall2 Z.le l1 l2 -> sumZ l1 <= sumZ l2.
Proof. induction 1; rewrite ?sumZ_cons, ?sumZ_nil; lia. Qed.

Lemma sumZ_take_drop k l : sumZ (take k l) + sumZ (drop k l) = sumZ l.
Proof. by rewrite <- sumZ_app, take_drop. Qed.

Lemma sumZ_take_le k l :
  Forall (fun x => 0 <= x) l -> 0 <= sumZ (take k l) <= sumZ l.
Proof.
  intros Hl. pose proof (sumZ_take_drop k l).
  pose proof (sumZ_nonneg (take k l) ltac:(by apply Forall_take)).
  pose proof (sumZ_nonneg (drop k l) ltac:(by apply Forall_drop)). lia.
Qed.

Create Rewrite HintDb sums.
#[export] Hint Rewrite sumZ_nil sumZ_cons sumZ_app : sums.

(** ** Scaling down *)

Section scale_down.
Context (avail total : Z) (Htotal : 0 < total) (Havail : 0 <= avail).

(** Flooring loses less than one cell a track. *)
Lemma floors_sum mins :
  Forall (fun m => 0 <= m) mins ->
  let floors : list Z := (fun m => m * avail / total) <$> mins in
  total * sumZ floors <= avail * sumZ mins /\
  avail * sumZ mins - Z.of_nat (length mins) * (total - 1)
    <= total * sumZ floors /\
  Forall (fun x => 0 <= x) floors.
Proof.
  induction 1 as [|m mins Hm _ (IH1 & IH2 & IH3)]; cbn -[Z.of_nat];
    autorewrite with sums.
  { split_and!; [lia..|constructor]. }
  assert (0 <= m * avail) by nia.
  pose proof (Z.mul_div_le (m * avail) total Htotal).
  pose proof (Z.mod_pos_bound (m * avail) total Htotal).
  pose proof (Z.div_mod (m * avail) total ltac:(lia)).
  split_and!; [nia|nia|].
  constructor; [by apply Z.div_pos|done].
Qed.

End scale_down.

Lemma bump_length k l : length (bump k l) = length l.
Proof. revert k. induction l as [|x l IH]; intros k; cbn; [done|]. by rewrite IH. Qed.

Lemma bump_sum k l :
  sumZ (bump k l) = sumZ l + Z.max 0 (Z.min k (Z.of_nat (length l))).
Proof.
  revert k. induction l as [|x l IH]; intros k; cbn -[Z.of_nat];
    autorewrite with sums; [lia|].
  rewrite IH. case_bool_decide; lia.
Qed.

Lemma bump_lookup k l i :
  bump k l !! i = (fun x => if bool_decide (Z.of_nat i < k) then x + 1 else x) <$> l !! i.
Proof.
  revert k i. induction l as [|x l IH]; intros k [|i]; cbn -[Z.of_nat]; [done..|].
  rewrite IH. destruct (l !! i); cbn -[Z.of_nat]; [|done].
  repeat case_bool_decide; done || lia.
Qed.

(** The scaled sizes add up to what is available, to the cell. *)
Lemma scale_down_sum mins avail :
  Forall (fun m => 0 <= m) mins -> 0 <= avail < sumZ mins ->
  sumZ (scale_down mins avail) = avail.
Proof.
  intros Hmins [Ha Hlt]. unfold scale_down. rewrite bump_sum.
  destruct (floors_sum avail (sumZ mins) ltac:(lia) Ha mins Hmins)
    as (Hle & Hge & _).
  rewrite length_fmap. nia.
Qed.

(** Each is its floored share, or one cell more. *)
Lemma scale_down_lookup mins avail i m :
  mins !! i = Some m ->
  exists x, scale_down mins avail !! i = Some x /\
    m * avail / sumZ mins <= x <= m * avail / sumZ mins + 1.
Proof.
  intros Hm. unfold scale_down. rewrite bump_lookup, list_lookup_fmap, Hm.
  cbn -[Z.of_nat]. eexists. split; [done|]. case_bool_decide; lia.
Qed.

Lemma scale_down_length mins avail :
  length (scale_down mins avail) = length mins.
Proof. unfold scale_down. by rewrite bump_length, length_fmap. Qed.

Lemma scale_down_nonneg mins avail :
  Forall (fun m => 0 <= m) mins -> 0 <= avail < sumZ mins ->
  Forall (fun x => 0 <= x) (scale_down mins avail).
Proof.
  intros Hmins [Ha Hlt]. apply Forall_lookup. intros i x Hx.
  destruct (mins !! i) as [m|] eqn:Hm.
  - destruct (scale_down_lookup mins avail i m Hm) as (x' & Hx' & Hle & _).
    assert (0 <= m) by by eapply (proj1 (Forall_lookup _ _) Hmins).
    assert (0 <= m * avail / sumZ mins) by (apply Z.div_pos; nia).
    naive_solver lia.
  - apply lookup_ge_None in Hm. apply lookup_lt_Some in Hx.
    rewrite scale_down_length in Hx. lia.
Qed.

(** ** Water filling *)

(** What a pass may do to the size of a track: it grows, not past the
    maximum, and not at all on a track that is not flexible. *)
Definition grown (t : Track.t) (size size' : Z) : Prop :=
  size <= size' /\
  (Track.flexible t = false -> size' = size) /\
  (size <= Track.max t -> size' <= Track.max t).

Lemma grown_refl t size : grown t size size.
Proof. unfold grown. auto with lia. Qed.

Lemma grown_trans t a b c : grown t a b -> grown t b c -> grown t a c.
Proof. unfold grown. intros (? & ? & ?) (? & ? & ?). split_and!; [lia|..]; intros; [transitivity b|]; auto. Qed.

Lemma Forall3_grown_refl ts sizes :
  length ts = length sizes -> Forall3 grown ts sizes sizes.
Proof.
  revert sizes. induction ts as [|t ts IH]; intros [|size sizes] [=];
    constructor; auto using grown_refl.
Qed.

Lemma Forall3_grown_trans ts a b c :
  Forall3 grown ts a b -> Forall3 grown ts b c -> Forall3 grown ts a c.
Proof.
  intros Hab. revert c. induction Hab; intros c' Hbc; inversion Hbc; subst;
    constructor; eauto using grown_trans.
Qed.

Lemma actives_le_length ts sizes : (actives ts sizes <= length ts)%nat.
Proof.
  revert sizes. induction ts as [|t ts IH]; intros [|size sizes]; cbn;
    [lia..|]. specialize (IH sizes). destruct (active t size); lia.
Qed.

(** A track no pass can change any more. *)
Lemma actives_0 ts sizes :
  length ts = length sizes ->
  actives ts sizes = 0%nat <->
  Forall2 (fun t size => room t size <= 0) ts sizes.
Proof.
  revert sizes. induction ts as [|t ts IH]; intros [|size sizes] [=]; cbn.
  { split; [constructor|done]. }
  rewrite Forall2_cons, <- IH by done. unfold active.
  case_bool_decide; split; try lia; intros [? ?]; lia.
Qed.

Section pass.
Context (share rem : Z) (Hshare : 0 <= share).

Lemma pass_length k ts sizes :
  length (pass share rem k ts sizes) = length sizes.
Proof.
  revert k sizes. induction ts as [|t ts IH]; intros k [|size sizes]; cbn;
    [done..|]. destruct (active t size); cbn; by rewrite IH.
Qed.

Lemma pass_grown k ts sizes :
  length ts = length sizes ->
  Forall3 grown ts sizes (pass share rem k ts sizes).
Proof.
  revert k sizes. induction ts as [|t ts IH]; intros k [|size sizes] [=]; cbn.
  { constructor. }
  unfold active, room, grown.
  destruct (Track.flexible t) eqn:Hflex; case_bool_decide; constructor;
    auto; split_and!; try done; try lia; intros; try congruence;
    case_bool_decide; lia.
Qed.

(** All that a pass wants to hand out to [a] tracks when [k] were
    served before. *)
Definition wanted (k : Z) (a : nat) : Z :=
  Z.of_nat a * share + Z.max 0 (Z.min (rem - k) (Z.of_nat a)).

(** A pass hands out all that it wants to, or a track fills up. *)
Lemma pass_gain k ts sizes :
  let sizes' := pass share rem k ts sizes in
  (actives ts sizes' <= actives ts sizes)%nat /\
  sumZ sizes' - sumZ sizes <= wanted k (actives ts sizes) /\
  (sumZ sizes' - sumZ sizes = wanted k (actives ts sizes) \/
   (actives ts sizes' < actives ts sizes)%nat).
Proof.
  unfold wanted.
  revert k sizes. induction ts as [|t ts IH]; intros k [|size sizes];
    cbn [pass actives]; try (split_and!; [lia|lia|left; lia]).
  destruct (active t size) eqn:Hact; cbn [pass actives];
    autorewrite with sums.
  - destruct (IH (k + 1) sizes) as (Hle & Hgain & Hall).
    rewrite Nat2Z.inj_add, Z.mul_add_distr_r.
    destruct (active t (size + _)) eqn:Hact'; unfold active, room in *;
      destruct (Track.flexible t); repeat case_bool_decide; try done; lia.
  - destruct (IH k sizes) as (Hle & Hgain & Hall). rewrite Hact. lia.
Qed.

End pass.

Lemma fill_done fuel ts sizes leftover :
  leftover <= 0 -> fill fuel ts sizes leftover = sizes.
Proof.
  intros. destruct fuel; cbn -[Z.of_nat]; [done|].
  by rewrite bool_decide_eq_true_2 by auto.
Qed.

(** With a pass for every track that has room, the filling settles:
    everything left over is handed out, or no track has room. *)
Lemma fill_spec fuel ts sizes leftover :
  length ts = length sizes -> 0 <= leftover ->
  (actives ts sizes <= fuel)%nat ->
  let sizes' := fill fuel ts sizes leftover in
  Forall3 grown ts sizes sizes' /\
  sumZ sizes' - sumZ sizes <= leftover /\
  (sumZ sizes' - sumZ sizes = leftover \/ actives ts sizes' = 0%nat).
Proof.
  revert sizes leftover.
  induction fuel as [|fuel IH]; intros sizes leftover Hlen Hleft Hfuel;
    cbn -[Z.of_nat].
  { split_and!; [by apply Forall3_grown_refl|lia|right; lia]. }
  case_bool_decide as Hstop.
  { split_and!; [by apply Forall3_grown_refl|lia|].
    destruct Hstop; [right|left]; lia. }
  set (n := Z.of_nat (actives ts sizes)) in *.
  assert (0 < n /\ 0 < leftover) as [Hn Hpos] by lia.
  pose proof (Z.div_pos leftover n ltac:(lia) Hn) as Hshare.
  pose proof (Z.mod_pos_bound leftover n Hn) as Hrem.
  pose proof (Z.div_mod leftover n ltac:(lia)) as Hdm.
  destruct (pass_gain (leftover / n) (leftover mod n) 0 ts sizes)
    as (Hle & Hgain & Hall).
  pose proof (pass_grown _ (leftover mod n) Hshare 0 ts sizes Hlen) as Hgr.
  unfold wanted in *. fold n in Hgain, Hall.
  set (sizes' := pass _ _ 0 ts sizes) in *.
  destruct Hall as [Hall|Hless].
  - rewrite fill_done by lia. split_and!; [done|lia|left; lia].
  - destruct (IH sizes' (leftover - (sumZ sizes' - sumZ sizes)))
      as (Hgr' & Hgain' & Hall');
      [by unfold sizes'; rewrite pass_length|lia|lia|].
    split_and!; [by eapply Forall3_grown_trans|lia|].
    destruct Hall'; [left; lia|by right].
Qed.

Lemma fill_length fuel ts sizes leftover :
  length (fill fuel ts sizes leftover) = length sizes.
Proof.
  revert sizes leftover. induction fuel as [|fuel IH]; intros sizes leftover;
    cbn -[Z.of_nat]; [done|].
  case_bool_decide; [done|]. by rewrite IH, pass_length.
Qed.

(** More passes than there are tracks with room change nothing. *)
Lemma fill_more_fuel extra fuel ts sizes leftover :
  (actives ts sizes <= fuel)%nat ->
  fill (fuel + extra) ts sizes leftover = fill fuel ts sizes leftover.
Proof.
  revert sizes leftover.
  induction fuel as [|fuel IH]; intros sizes leftover Hfuel.
  { destruct extra; cbn -[Z.of_nat]; [done|].
    rewrite bool_decide_eq_true_2; [done|lia]. }
  cbn -[Z.of_nat]. case_bool_decide as Hstop; [done|].
  set (n := Z.of_nat (actives ts sizes)) in *.
  pose proof (Z.mod_pos_bound leftover n ltac:(lia)) as Hrem.
  pose proof (Z.div_mod leftover n ltac:(lia)) as Hdm.
  destruct (pass_gain (leftover / n) (leftover mod n) 0 ts sizes)
    as (_ & _ & [Hall|Hless]).
  - unfold wanted in Hall. fold n in Hall. by rewrite !fill_done by lia.
  - apply IH. lia.
Qed.

(** ** One axis *)

(** A size within the bounds of its track, the minimum on a track that
    is not flexible. *)
Definition fits (t : Track.t) (size : Z) : Prop :=
  Track.min t <= size <= Track.max t /\
  (Track.flexible t = false -> size = Track.min t).

Lemma grown_fits ts sizes :
  Forall Track.wf ts ->
  Forall3 grown ts (Track.min <$> ts) sizes -> Forall2 fits ts sizes.
Proof.
  intros Hts Hgr. remember (Track.min <$> ts) as mins eqn:Hmins.
  revert Hmins Hts. induction Hgr as [|t m size ts mins sizes (? & ? & ?) _ IH];
    [constructor|].
  intros [= -> ->] [Hwf Hts]%Forall_cons. constructor; [|auto].
  unfold fits, Track.wf in *. split; [lia|done].
Qed.

Lemma fits_nonneg ts sizes :
  Forall Track.wf ts -> Forall2 fits ts sizes ->
  Forall (fun x => 0 <= x) sizes.
Proof.
  intros Hts Hfits. induction Hfits as [|t size ts sizes [? _] _ IH];
    [constructor|].
  apply Forall_cons in Hts as [Ht Hts]. constructor; [|auto].
  unfold Track.wf in Ht. lia.
Qed.

Section solve_axis.
Context (ts : list Track.t) (avail : Z).
Context (Hts : Forall Track.wf ts) (Havail : 0 <= avail).

Lemma mins_nonneg : Forall (fun m => 0 <= m) (Track.min <$> ts).
Proof.
  apply Forall_fmap. eapply Forall_impl; [exact Hts|].
  unfold Track.wf. cbn. lia.
Qed.

Lemma solve_axis_length : length (solve_axis ts avail) = length ts.
Proof.
  unfold solve_axis. case_bool_decide.
  - by rewrite scale_down_length, length_fmap.
  - by rewrite fill_length, length_fmap.
Qed.

(** The minimums fit: every track is within its bounds, and all that
    is available is handed out unless no flexible track has room. *)
Lemma solve_axis_enough :
  sumZ (Track.min <$> ts) <= avail ->
  Forall2 fits ts (solve_axis ts avail) /\
  sumZ (solve_axis ts avail) <= avail /\
  (sumZ (solve_axis ts avail) = avail \/
   actives ts (solve_axis ts avail) = 0%nat).
Proof.
  intros Hfit. unfold solve_axis. rewrite bool_decide_eq_false_2 by lia.
  destruct (fill_spec (length ts) ts (Track.min <$> ts)
              (avail - sumZ (Track.min <$> ts)))
    as (Hgr & Hgain & Hall);
    [by rewrite length_fmap|lia|apply actives_le_length|].
  split_and!; [by apply grown_fits|lia|].
  destruct Hall; [left; lia|by right].
Qed.

(** The minimums do not fit: the scaled sizes add up to what is
    available. *)
Lemma solve_axis_narrow :
  avail < sumZ (Track.min <$> ts) ->
  solve_axis ts avail = scale_down (Track.min <$> ts) avail /\
  sumZ (solve_axis ts avail) = avail.
Proof.
  intros Hlt. unfold solve_axis. rewrite bool_decide_eq_true_2 by done.
  split; [done|]. apply scale_down_sum; [apply mins_nonneg|lia].
Qed.

Lemma solve_axis_nonneg : Forall (fun x => 0 <= x) (solve_axis ts avail).
Proof.
  destruct (decide (avail < sumZ (Track.min <$> ts))) as [Hlt|Hge].
  - rewrite (proj1 (solve_axis_narrow Hlt)).
    apply scale_down_nonneg; [apply mins_nonneg|lia].
  - destruct (solve_axis_enough ltac:(lia)) as (Hfits & _).
    by eapply fits_nonneg.
Qed.

Lemma solve_axis_sum_le : sumZ (solve_axis ts avail) <= avail.
Proof.
  destruct (decide (avail < sumZ (Track.min <$> ts))) as [Hlt|Hge].
  - by rewrite (proj2 (solve_axis_narrow Hlt)).
  - by destruct (solve_axis_enough ltac:(lia)) as (_ & ? & _).
Qed.

End solve_axis.

(** ** The bounds of the tracks *)

Lemma sumZ_fmap_le {A} (f g : A -> Z) (l : list A) :
  (forall x, x ∈ l -> f x <= g x) -> sumZ (f <$> l) <= sumZ (g <$> l).
Proof.
  induction l as [|x l IH]; intros Hle; cbn; autorewrite with sums; [done|].
  pose proof (Hle x ltac:(left)).
  assert (sumZ (f <$> l) <= sumZ (g <$> l)); [|lia].
  apply IH. intros y Hy. apply Hle. by right.
Qed.

(** [m] shares of which the first [r] have a cell more. *)
Lemma sumZ_shares (q r : Z) (m : nat) :
  sumZ ((fun i : nat => q + (if bool_decide (Z.of_nat i < r) then 1 else 0))
          <$> seq 0 m)
  = Z.of_nat m * q + Z.max 0 (Z.min r (Z.of_nat m)).
Proof.
  induction m as [|m IH]; [cbn; rewrite sumZ_nil; lia|].
  rewrite seq_S, fmap_app, sumZ_app, IH. cbn -[Z.of_nat].
  autorewrite with sums. case_bool_decide; lia.
Qed.

(** The shares of [v] over [n] tracks add up to [v]. *)
Lemma share_sum v n :
  (0 < n)%nat -> 0 <= v -> sumZ (share v n <$> seq 0 n) = v.
Proof.
  intros Hn Hv. unfold share. rewrite sumZ_shares.
  pose proof (Z.mod_pos_bound v (Z.of_nat n) ltac:(lia)).
  pose proof (Z.div_mod v (Z.of_nat n) ltac:(lia)). lia.
Qed.

Lemma share_bounds v n i : (0 < n)%nat -> 0 <= v -> 0 <= share v n i <= v.
Proof.
  intros Hn Hv. unfold share.
  pose proof (Z.mod_pos_bound v (Z.of_nat n) ltac:(lia)).
  pose proof (Z.div_mod v (Z.of_nat n) ltac:(lia)).
  pose proof (Z.div_pos v (Z.of_nat n) Hv ltac:(lia)).
  case_bool_decide; nia.
Qed.

Lemma foldr_max_ge d l : d <= foldr Z.max d l.
Proof. induction l; cbn; lia. Qed.

Lemma foldr_max_elem d l x : x ∈ l -> x <= foldr Z.max d l.
Proof. induction 1; cbn; lia. Qed.

Lemma foldr_max_le d l b :
  d <= b -> Forall (fun x => x <= b) l -> foldr Z.max d l <= b.
Proof. intros Hd. induction 1; cbn; lia. Qed.

(** A range of extents that makes sense. *)
Definition range_wf (r : AreaBound.range) : Prop :=
  0 <= AreaBound.lo r <= AreaBound.hi r /\ AreaBound.hi r <= u16_max.

Definition bound_wf (b : AreaBound.t) : Prop :=
  range_wf (AreaBound.cols b) /\ range_wf (AreaBound.rows b).

Section tracks.
Context (spans : list span).
Context (Hspans : Forall (fun s => range_wf (range s)) spans).

Lemma through_iff k s :
  through k s = true <-> (first s <= k < first s + count s)%nat.
Proof. unfold through. by rewrite bool_decide_eq_true. Qed.

Lemma track_min_nonneg k : 0 <= track_min spans k.
Proof. apply foldr_max_ge. Qed.

(** The minimum of a track is at least the share of each widget
    through it. *)
Lemma track_min_share k s :
  s ∈ spans -> through k s = true ->
  share (AreaBound.lo (range s)) (count s) (k - first s) <= track_min spans k.
Proof.
  intros Hs Hk. apply foldr_max_elem, list_elem_of_fmap.
  exists s. split; [done|]. by apply list_elem_of_filter.
Qed.

Lemma track_min_le k : track_min spans k <= u16_max.
Proof.
  apply foldr_max_le; [done|]. apply Forall_fmap, Forall_forall.
  intros s [Hk%through_iff Hs]%list_elem_of_filter. cbn.
  destruct (proj1 (Forall_forall _ _) Hspans s Hs) as [? ?].
  pose proof (share_bounds (AreaBound.lo (range s)) (count s) (k - first s)).
  lia.
Qed.

Lemma tracks_wf n : Forall Track.wf (tracks n spans).
Proof.
  apply Forall_fmap, Forall_forall. intros k _. unfold Track.wf. cbn.
  split; [apply track_min_nonneg|]. unfold track_max.
  destruct (track_flexible spans k); [apply track_min_le|apply foldr_max_ge].
Qed.

Lemma tracks_lookup n k :
  (k < n)%nat ->
  tracks n spans !! k
  = Some (Track.mk (track_min spans k) (track_max spans k)
            (track_flexible spans k)).
Proof.
  intros Hk. unfold tracks. by rewrite list_lookup_fmap, lookup_seq_lt.
Qed.

(** The minimums of the tracks a widget spans hold its minimum. *)
Lemma track_min_satisfies s :
  s ∈ spans -> (0 < count s)%nat ->
  AreaBound.lo (range s)
  <= sumZ (track_min spans <$> seq (first s) (count s)).
Proof.
  intros Hs Hn.
  destruct (proj1 (Forall_forall _ _) Hspans s Hs) as [[Hlo _] _].
  rewrite <- (share_sum (AreaBound.lo (range s)) (count s) Hn Hlo) at 1.
  assert (seq (first s) (count s) = Nat.add (first s) <$> seq 0 (count s))
    as -> by by rewrite fmap_add_seq, Nat.add_0_r.
  rewrite <- list_fmap_compose.
  apply sumZ_fmap_le. intros i Hi%elem_of_seq. cbn.
  etransitivity; [|apply (track_min_share _ s Hs)].
  - by replace (first s + i - first s)%nat with i by lia.
  - apply through_iff. lia.
Qed.

End tracks.

(** ** Offsets and extents *)

Lemma extent_offset start sizes k n :
  offset start sizes (k + n) = offset start sizes k + extent sizes k n.
Proof. unfold offset, extent. rewrite <- take_take_drop, sumZ_app. lia. Qed.

Section offsets.
Context (sizes : list Z) (Hsizes : Forall (fun x => 0 <= x) sizes).

Lemma extent_nonneg k n : 0 <= extent sizes k n.
Proof. apply sumZ_nonneg. by apply Forall_take, Forall_drop. Qed.

Lemma offset_bounds start k :
  start <= offset start sizes k <= start + sumZ sizes.
Proof. unfold offset. pose proof (sumZ_take_le k sizes Hsizes). lia. Qed.

Lemma offset_mono start k k' :
  (k <= k')%nat -> offset start sizes k <= offset start sizes k'.
Proof.
  intros Hk. replace k' with (k + (k' - k))%nat by lia.
  rewrite extent_offset. pose proof (extent_nonneg k (k' - k)). lia.
Qed.

(** The extent of a run of tracks holds whatever bounds each of them
    from below. *)
Lemma extent_ge (f : nat -> Z) k n :
  (forall i size, sizes !! i = Some size -> f i <= size) ->
  (k + n <= length sizes)%nat ->
  sumZ (f <$> seq k n) <= extent sizes k n.
Proof.
  intros Hf. unfold extent. revert k. induction n as [|n IH]; intros k Hlen.
  { cbn. by rewrite take_0. }
  destruct (lookup_lt_is_Some_2 sizes k ltac:(lia)) as [size Hk].
  rewrite (drop_S _ _ _ Hk). cbn. autorewrite with sums.
  pose proof (Hf _ _ Hk). pose proof (IH (S k) ltac:(lia)). lia.
Qed.

End offsets.

(** ** Boxes *)

Section place.
Context (bbox : BBox.t) (widths heights : list Z).
Context (Hbox : Area.wf bbox).
Context (Hw : Forall (fun x => 0 <= x) widths).
Context (Hh : Forall (fun x => 0 <= x) heights).
Context (Hws : sumZ widths <= Area.width bbox).
Context (Hhs : sumZ heights <= Area.height bbox).

(** The far edges of a box are the starts of the tracks after it. *)
Lemma place_edges rect :
  let box := place bbox widths heights rect in
  Area.col box = offset (Area.col bbox) widths (Rect.left rect) /\
  Area.row box = offset (Area.row bbox) heights (Rect.top rect) /\
  Area.col box + Area.width box
    = offset (Area.col bbox) widths (Rect.left rect + Rect.width rect) /\
  Area.row box + Area.height box
    = offset (Area.row bbox) heights (Rect.top rect + Rect.height rect).
Proof. cbn. by rewrite !extent_offset. Qed.

(** A box is a well-formed area within the available one. *)
Lemma place_inside rect :
  Area.wf (place bbox widths heights rect) /\
  Area.inside (place bbox widths heights rect) bbox.
Proof.
  pose proof (extent_offset (Area.col bbox) widths (Rect.left rect)
                (Rect.width rect)).
  pose proof (extent_offset (Area.row bbox) heights (Rect.top rect)
                (Rect.height rect)).
  pose proof (offset_bounds widths Hw (Area.col bbox) (Rect.left rect)).
  pose proof (offset_bounds widths Hw (Area.col bbox)
                (Rect.left rect + Rect.width rect)).
  pose proof (offset_bounds heights Hh (Area.row bbox) (Rect.top rect)).
  pose proof (offset_bounds heights Hh (Area.row bbox)
                (Rect.top rect + Rect.height rect)).
  pose proof (extent_nonneg widths Hw (Rect.left rect) (Rect.width rect)).
  pose proof (extent_nonneg heights Hh (Rect.top rect) (Rect.height rect)).
  unfold place, BBox.new. area_destruct. split; [|intros c r]; area_lia.
Qed.

(** Rectangles side by side, or one above the other, get boxes that
    share no cell. *)
Lemma place_apart rect rect' c r :
  (Rect.left rect <= Rect.right rect < Rect.left rect')%nat \/
  (Rect.top rect <= Rect.bottom rect < Rect.top rect')%nat ->
  Area.cell_in (place bbox widths heights rect) c r ->
  ~ Area.cell_in (place bbox widths heights rect') c r.
Proof.
  intros Hapart.
  destruct (place_edges rect) as (Hc & Hr & Hcw & Hrh).
  destruct (place_edges rect') as (Hc' & Hr' & _ & _).
  unfold Area.cell_in. rewrite Hcw, Hrh, Hc', Hr'.
  unfold Rect.width, Rect.height. destruct Hapart as [Hlr|Htb].
  - pose proof (offset_mono widths Hw (Area.col bbox)
                  (Rect.left rect + (S (Rect.right rect) - Rect.left rect))
                  (Rect.left rect') ltac:(lia)). lia.
  - pose proof (offset_mono heights Hh (Area.row bbox)
                  (Rect.top rect + (S (Rect.bottom rect) - Rect.top rect))
                  (Rect.top rect') ltac:(lia)). lia.
Qed.

End place.

(** ** A widget's minimum along one axis *)

Lemma fits_lookup ts sizes i t size :
  Forall2 fits ts sizes -> ts !! i = Some t -> sizes !! i = Some size ->
  fits t size.
Proof. intros Hfits Ht Hs. by eapply Forall2_lookup_lr. Qed.

(** When the minimums fit, the tracks a widget spans hold its
    minimum. *)
Lemma axis_min_respected n spans avail s :
  Forall (fun s => range_wf (range s)) spans -> 0 <= avail ->
  sumZ (Track.min <$> tracks n spans) <= avail ->
  s ∈ spans -> (0 < count s)%nat -> (first s + count s <= n)%nat ->
  AreaBound.lo (range s)
  <= extent (solve_axis (tracks n spans) avail) (first s) (count s).
Proof.
  intros Hspans Havail Hfit Hs Hcount Hn.
  pose proof (tracks_wf spans Hspans n) as Hwf.
  destruct (solve_axis_enough _ _ Hwf Hfit) as (Hfits & _).
  etransitivity; [by apply track_min_satisfies|].
  apply extent_ge.
  - intros i size Hi.
    assert (i < n)%nat as Hlt.
    { apply lookup_lt_Some in Hi. rewrite solve_axis_length in Hi.
      unfold tracks in Hi. by rewrite length_fmap, length_seq in Hi. }
    by destruct (fits_lookup _ _ i _ size Hfits (tracks_lookup spans n i Hlt) Hi)
      as [[? _] _].
  - rewrite solve_axis_length. unfold tracks.
    by rewrite length_fmap, length_seq.
Qed.

(** ** The solver *)

Section solve.
Context (g : GridArea.t) (bounds : nat -> AreaBound.t) (bbox : BBox.t).
Context (Hbounds : forall w, bound_wf (bounds w)) (Hbox : Area.wf bbox).

Lemma col_spans_wf :
  Forall (fun s => range_wf (range s)) (col_span bounds <$> GridArea.placements g).
Proof. apply Forall_fmap, Forall_forall. intros p _. apply Hbounds. Qed.

Lemma row_spans_wf :
  Forall (fun s => range_wf (range s)) (row_span bounds <$> GridArea.placements g).
Proof. apply Forall_fmap, Forall_forall. intros p _. apply Hbounds. Qed.

Lemma bbox_extents : 0 <= Area.width bbox /\ 0 <= Area.height bbox.
Proof. clear Hbounds. area_destruct. area_lia. Qed.

Lemma widths_nonneg : Forall (fun x => 0 <= x) (widths g bounds bbox).
Proof.
  apply solve_axis_nonneg; [apply tracks_wf, col_spans_wf|apply bbox_extents].
Qed.

Lemma heights_nonneg : Forall (fun x => 0 <= x) (heights g bounds bbox).
Proof.
  apply solve_axis_nonneg; [apply tracks_wf, row_spans_wf|apply bbox_extents].
Qed.

Lemma widths_sum : sumZ (widths g bounds bbox) <= Area.width bbox.
Proof.
  apply solve_axis_sum_le; [apply tracks_wf, col_spans_wf|apply bbox_extents].
Qed.

Lemma heights_sum : sumZ (heights g bounds bbox) <= Area.height bbox.
Proof.
  apply solve_axis_sum_le; [apply tracks_wf, row_spans_wf|apply bbox_extents].
Qed.

Lemma elem_of_solve w box :
  (w, box) ∈ solve g bounds bbox <->
  exists p, p ∈ GridArea.placements g /\ w = widget p /\
    box = place bbox (widths g bounds bbox) (heights g bounds bbox) (rect p).
Proof. unfold solve. rewrite list_elem_of_fmap. naive_solver. Qed.

(** Every box is a well-formed area within the available one. *)
Lemma solve_inside w box :
  (w, box) ∈ solve g bounds bbox -> Area.wf box /\ Area.inside box bbox.
Proof.
  intros (p & _ & _ & ->)%elem_of_solve.
  apply place_inside;
    auto using widths_nonneg, heights_nonneg, widths_sum, heights_sum.
Qed.

(** Boxes of rectangles that lie apart share no cell. *)
Lemma solve_apart rect rect' c r :
  (Rect.left rect <= Rect.right rect < Rect.left rect')%nat \/
  (Rect.top rect <= Rect.bottom rect < Rect.top rect')%nat ->
  let box rect := place bbox (widths g bounds bbox) (heights g bounds bbox) rect in
  ~ (Area.cell_in (box rect) c r /\ Area.cell_in (box rect') c r).
Proof.
  intros Hapart box [Hin Hin']. revert Hin'.
  by apply (place_apart bbox _ _ widths_nonneg heights_nonneg rect rect').
Qed.

End solve.

(** ** Properties *)

(** When the minimums do not fit, the scaled sizes add up to what
    is available, to the cell; none is negative, and each is its
    minimum scaled by available over total, floored, or one cell
    more. *)
Theorem solve_axis_scaled ts avail :
  Forall Track.wf ts -> 0 <= avail < sumZ (Track.min <$> ts) ->
  sumZ (solve_axis ts avail) = avail /\
  Forall (fun x => 0 <= x) (solve_axis ts avail) /\
  forall i t, ts !! i = Some t ->
    exists x, solve_axis ts avail !! i = Some x /\
      Track.min t * avail / sumZ (Track.min <$> ts) <= x
        <= Track.min t * avail / sumZ (Track.min <$> ts) + 1.
Proof.
  intros Hts [Ha Hlt].
  destruct (solve_axis_narrow ts avail Hts Ha Hlt) as [Heq Hsum].
  split_and!; [done|by apply solve_axis_nonneg|].
  intros i t Ht. rewrite Heq. apply scale_down_lookup.
  by rewrite list_lookup_fmap, Ht.
Qed.

(** When the minimums fit, every track gets a size within its
    bounds, its minimum when it is not flexible; the sizes never add up
    to more than is available, and to less only when no flexible track
    has room left. *)
Theorem solve_axis_fits ts avail :
  Forall Track.wf ts -> sumZ (Track.min <$> ts) <= avail ->
  Forall2 fits ts (solve_axis ts avail) /\
  sumZ (solve_axis ts avail) <= avail /\
  (sumZ (solve_axis ts avail) = avail \/
   Forall2 (fun t size => room t size <= 0) ts (solve_axis ts avail)).
Proof.
  intros Hts Hfit.
  destruct (solve_axis_enough ts avail Hts Hfit) as (Hfits & Hle & Hall).
  split_and!; [done..|]. destruct Hall as [?|H0]; [by left|right].
  by apply actives_0 in H0; [|by rewrite solve_axis_length].
Qed.

(** The water filling ends: with a pass for each track, everything
    left over is handed out or no flexible track has room, and further
    passes change nothing. *)
Theorem fill_settles extra ts sizes leftover :
  length ts = length sizes -> 0 <= leftover ->
  let sizes' := fill (length ts) ts sizes leftover in
  fill (length ts + extra) ts sizes leftover = sizes' /\
  (sumZ sizes' = sumZ sizes + leftover \/
   Forall2 (fun t size => room t size <= 0) ts sizes').
Proof.
  intros Hlen Hleft sizes'. split.
  { apply fill_more_fuel, actives_le_length. }
  destruct (fill_spec (length ts) ts sizes leftover Hlen Hleft
              (actives_le_length ts sizes)) as (_ & _ & [Hall|H0]).
  - left. fold sizes' in Hall. lia.
  - right. by apply actives_0 in H0; [|unfold sizes'; rewrite fill_length].
Qed.

(** Every box the solver gives is well typed: its column, row, width
    and height are [u16], so are its far edges, and it lies within the
    available area; there is one box for each placement, in order. *)
Theorem solve_typed g bounds bbox :
  (forall w, bound_wf (bounds w)) -> Area.wf bbox ->
  (solve g bounds bbox).*1 = widget <$> GridArea.placements g /\
  forall w box, (w, box) ∈ solve g bounds bbox ->
    Area.wf box /\ Area.inside box bbox.
Proof.
  intros Hbounds Hbox. split; [|by apply solve_inside].
  unfold solve. by rewrite <- list_fmap_compose.
Qed.

(** Boxes of different labels of a validated template share no cell. *)
Lemma solve_labels_apart m mapping g bounds bbox p q c r :
  parse m mapping = Valid g ->
  (forall w, bound_wf (bounds w)) -> Area.wf bbox ->
  p ∈ GridArea.placements g -> q ∈ GridArea.placements g ->
  label p <> label q ->
  let box rect := place bbox (widths g bounds bbox) (heights g bounds bbox) rect in
  ~ (Area.cell_in (box (rect p)) c r /\ Area.cell_in (box (rect q)) c r).
Proof.
  intros Hg Hbounds Hbox Hp Hq Hne box.
  pose proof (parse_rect_wf m mapping g p Hg Hp).
  pose proof (parse_rect_wf m mapping g q Hg Hq).
  destruct (parse_apart m mapping g p q Hg Hp Hq Hne) as [?|[?|[?|?]]].
  - apply (solve_apart g bounds bbox Hbounds Hbox); lia.
  - intros [? ?]. apply (solve_apart g bounds bbox Hbounds Hbox (rect q) (rect p) c r);
      [lia|done].
  - apply (solve_apart g bounds bbox Hbounds Hbox); lia.
  - intros [? ?]. apply (solve_apart g bounds bbox Hbounds Hbox (rect q) (rect p) c r);
      [lia|done].
Qed.

(** C32. The boxes of two labels of a validated template share no cell of
    the screen. *)
Theorem solve_disjoint m mapping g bounds bbox p q c r :
  parse m mapping = Valid g ->
  (forall w, bound_wf (bounds w)) -> Area.wf bbox ->
  p ∈ GridArea.placements g -> q ∈ GridArea.placements g ->
  label p <> label q ->
  let box rect := place bbox (widths g bounds bbox) (heights g bounds bbox) rect in
  ~ (Area.cell_in (box (rect p)) c r /\ Area.cell_in (box (rect q)) c r).
Proof. apply solve_labels_apart. Qed.

(** When the minimums of the columns and of the rows fit, the box of
    every widget of a validated template is at least as wide and as
    high as the widget's minimum. *)
Theorem solve_min_respected m mapping g bounds bbox p :
  parse m mapping = Valid g ->
  (forall w, bound_wf (bounds w)) -> Area.wf bbox ->
  sumZ (Track.min <$> tracks (GridArea.cols g)
          (col_span bounds <$> GridArea.placements g)) <= Area.width bbox ->
  sumZ (Track.min <$> tracks (GridArea.rows g)
          (row_span bounds <$> GridArea.placements g)) <= Area.height bbox ->
  p ∈ GridArea.placements g ->
  let box := place bbox (widths g bounds bbox) (heights g bounds bbox) (rect p) in
  AreaBound.lo (AreaBound.cols (bounds (widget p))) <= Area.width box /\
  AreaBound.lo (AreaBound.rows (bounds (widget p))) <= Area.height box.
Proof.
  intros Hg Hbounds Hbox Hw Hh Hp box.
  pose proof (parse_rect_wf m mapping g p Hg Hp) as [? ?].
  destruct (bbox_extents bbox Hbox). split.
  - apply (axis_min_respected _ _ _ (col_span bounds p));
      [by apply col_spans_wf|done..| | |].
    + apply list_elem_of_fmap. eauto.
    + cbn. unfold Rect.width. lia.
    + cbn. unfold Rect.width. lia.
  - apply (axis_min_respected _ _ _ (row_span bounds p));
      [by apply row_spans_wf|done..| | |].
    + apply list_elem_of_fmap. eauto.
    + cbn. unfold Rect.height. lia.
    + cbn. unfold Rect.height. lia.
Qed.


(** ** Scenarios of the specification *)

(** A widget that is [n] columns wide, and one that takes what it
    gets. *)
Definition rigid_cols (n : Z) : AreaBound.t :=
  AreaBound.with_columns AreaBound.default (AreaBound.mk_range n n).

Definition two_columns : GridArea.t :=
  GridArea.mk 1 2 [mk_placement "a" 0 (Rect.mk 0 0 0 0);
                   mk_placement "b" 1 (Rect.mk 1 0 1 0)].

Definition rigid_flexible (w : nat) : AreaBound.t :=
  match w with
  | O => rigid_cols 10
  | _ => AreaBound.default
  end.

(** [[a b]] with [a] ten columns wide and [b] flexible, on thirty
    columns: [a] at columns 0 to 9, [b] at columns 10 to 29. *)
Example solve_two_columns :
  solve two_columns rigid_flexible (BBox.new 0 0 30 1)
  = [(0%nat, BBox.new 0 0 10 1); (1%nat, BBox.new 10 0 20 1)].
Proof. by vm_compute. Qed.

(** The same on five columns: [a] is scaled down to five, [b] to none. *)
Example solve_two_columns_narrow :
  solve two_columns rigid_flexible (BBox.new 0 0 5 1)
  = [(0%nat, BBox.new 0 0 5 1); (1%nat, BBox.new 5 0 0 1)].
Proof. by vm_compute. Qed.

(** [[a a] [. b]] on four columns and two rows: [a] at columns 0 to 3
    of row 0, [b] at columns 2 and 3 of row 1. *)
Example solve_span_grid :
  solve span_grid (fun _ => AreaBound.default) (BBox.new 0 0 4 2)
  = [(0%nat, BBox.new 0 0 4 1); (1%nat, BBox.new 2 1 2 1)].
Proof. by vm_compute. Qed.

(** A rigid widget above a flexible one in the same column: the column
    is flexible, so the rigid widget's box is wider than its maximum
    although the minimums fit.  The aggregation of section 4.2 and the
    property "every box lies within the widget's bounds when the extent
    is sufficient" of section 8 cannot both hold. *)
Definition stacked : GridArea.t :=
  GridArea.mk 2 1 [mk_placement "a" 0 (Rect.mk 0 0 0 0);
                   mk_placement "b" 1 (Rect.mk 0 1 0 1)].

Example solve_over_maximum :
  sumZ (Track.min <$> tracks (GridArea.cols stacked)
          (col_span rigid_flexible <$> GridArea.placements stacked)) <= 30 /\
  solve stacked rigid_flexible (BBox.new 0 0 30 2)
  = [(0%nat, BBox.new 0 0 30 1); (1%nat, BBox.new 0 1 30 1)] /\
  AreaBound.hi (AreaBound.cols (rigid_flexible 0)) = 10.
Proof. by vm_compute. Qed.

(** ** Witnesses *)

Definition rigid_then_flexible : list Track.t :=
  [Track.mk 10 10 false; Track.mk 0 u16_max true].

Lemma rigid_flexible_wf w : bound_wf (rigid_flexible w).
Proof. destruct w; compute_done. Qed.

Lemma solve_axis_scaled_witness :
  Forall Track.wf rigid_then_flexible /\
  0 <= 5 < sumZ (Track.min <$> rigid_then_flexible) /\
  sumZ (solve_axis rigid_then_flexible 5) = 5 /\
  Forall (fun x => 0 <= x) (solve_axis rigid_then_flexible 5) /\
  forall i t, rigid_then_flexible !! i = Some t ->
    exists x, solve_axis rigid_then_flexible 5 !! i = Some x /\
      Track.min t * 5 / sumZ (Track.min <$> rigid_then_flexible) <= x
        <= Track.min t * 5 / sumZ (Track.min <$> rigid_then_flexible) + 1.
Proof.
  split; [repeat constructor; compute_done|]. split; [compute_done|].
  apply (solve_axis_scaled rigid_then_flexible 5);
    [repeat constructor; compute_done|compute_done].
Defined.

Lemma solve_axis_fits_witness :
  Forall Track.wf rigid_then_flexible /\
  sumZ (Track.min <$> rigid_then_flexible) <= 30 /\
  Forall2 fits rigid_then_flexible (solve_axis rigid_then_flexible 30) /\
  sumZ (solve_axis rigid_then_flexible 30) <= 30 /\
  (sumZ (solve_axis rigid_then_flexible 30) = 30 \/
   Forall2 (fun t size => room t size <= 0) rigid_then_flexible
     (solve_axis rigid_then_flexible 30)).
Proof.
  split; [repeat constructor; compute_done|]. split; [compute_done|].
  apply (solve_axis_fits rigid_then_flexible 30);
    [repeat constructor; compute_done|compute_done].
Defined.

Lemma fill_settles_witness :
  length rigid_then_flexible = length [10; 0] /\ 0 <= 20 /\
  fill (length rigid_then_flexible + 3) rigid_then_flexible [10; 0] 20
    = fill (length rigid_then_flexible) rigid_then_flexible [10; 0] 20 /\
  (sumZ (fill (length rigid_then_flexible) rigid_then_flexible [10; 0] 20)
     = sumZ [10; 0] + 20 \/
   Forall2 (fun t size => room t size <= 0) rigid_then_flexible
     (fill (length rigid_then_flexible) rigid_then_flexible [10; 0] 20)).
Proof.
  split; [done|]. split; [done|].
  apply (fill_settles 3 rigid_then_flexible [10; 0] 20); done.
Defined.

Lemma solve_typed_witness :
  (forall w, bound_wf (rigid_flexible w)) /\ Area.wf (BBox.new 0 0 30 1) /\
  (solve two_columns rigid_flexible (BBox.new 0 0 30 1)).*1
    = widget <$> GridArea.placements two_columns /\
  forall w box, (w, box) ∈ solve two_columns rigid_flexible (BBox.new 0 0 30 1) ->
    Area.wf box /\ Area.inside box (BBox.new 0 0 30 1).
Proof.
  split; [exact rigid_flexible_wf|]. split; [compute_done|].
  apply (solve_typed two_columns rigid_flexible (BBox.new 0 0 30 1));
    [exact rigid_flexible_wf|compute_done].
Defined.

Lemma solve_disjoint_witness :
  parse span_template span_mapping = Valid span_grid /\
  (forall w, bound_wf (rigid_flexible w)) /\ Area.wf (BBox.new 0 0 4 2) /\
  mk_placement "a" 0 (Rect.mk 0 0 1 0) ∈ GridArea.placements span_grid /\
  mk_placement "b" 1 (Rect.mk 1 1 1 1) ∈ GridArea.placements span_grid /\
  "a" <> "b" /\
  ~ (Area.cell_in
       (place (BBox.new 0 0 4 2)
          (widths span_grid rigid_flexible (BBox.new 0 0 4 2))
          (heights span_grid rigid_flexible (BBox.new 0 0 4 2))
          (Rect.mk 0 0 1 0)) 2 1 /\
     Area.cell_in
       (place (BBox.new 0 0 4 2)
          (widths span_grid rigid_flexible (BBox.new 0 0 4 2))
          (heights span_grid rigid_flexible (BBox.new 0 0 4 2))
          (Rect.mk 1 1 1 1)) 2 1).
Proof.
  split; [by vm_compute|]. split; [exact rigid_flexible_wf|].
  split; [compute_done|]. split; [compute_done|]. split; [compute_done|].
  split; [done|].
  apply (solve_disjoint span_template span_mapping span_grid rigid_flexible
           (BBox.new 0 0 4 2) (mk_placement "a" 0 (Rect.mk 0 0 1 0))
           (mk_placement "b" 1 (Rect.mk 1 1 1 1)) 2 1);
    [by vm_compute|exact rigid_flexible_wf|compute_done..|done].
Defined.

Lemma solve_min_respected_witness :
  parse span_template span_mapping = Valid span_grid /\
  (forall w, bound_wf (rigid_flexible w)) /\ Area.wf (BBox.new 0 0 30 2) /\
  sumZ (Track.min <$> tracks (GridArea.cols span_grid)
          (col_span rigid_flexible <$> GridArea.placements span_grid)) <= 30 /\
  sumZ (Track.min <$> tracks (GridArea.rows span_grid)
          (row_span rigid_flexible <$> GridArea.placements span_grid)) <= 2 /\
  mk_placement "a" 0 (Rect.mk 0 0 1 0) ∈ GridArea.placements span_grid /\
  10 <= Area.width
          (place (BBox.new 0 0 30 2)
             (widths span_grid rigid_flexible (BBox.new 0 0 30 2))
             (heights span_grid rigid_flexible (BBox.new 0 0 30 2))
             (Rect.mk 0 0 1 0)) /\
  0 <= Area.height
         (place (BBox.new 0 0 30 2)
            (widths span_grid rigid_flexible (BBox.new 0 0 30 2))
            (heights span_grid rigid_flexible (BBox.new 0 0 30 2))
            (Rect.mk 0 0 1 0)).
Proof.
  split; [by vm_compute|]. split; [exact rigid_flexible_wf|].
  do 4 (split; [compute_done|]).
  apply (solve_min_respected span_template span_mapping span_grid
           rigid_flexible (BBox.new 0 0 30 2)
           (mk_placement "a" 0 (Rect.mk 0 0 1 0)));
    [by vm_compute|exact rigid_flexible_wf|compute_done..].
Defined.
