(* ===== verification/Input.v ===== *)
(** * Input: actions and events

    The vocabulary of the crate's input module, which [src/screen.rs]
    and [src/widget/button.rs] import ([Action], [Event], [FocusEvent],
    [KeyMap], [ModKeys], [MouseEvent]).  Its source is not part of the
    repository snapshot: the types are modelled from the constructors
    the sources match on and build, the key map as a finite map. *)

From Stdlib Require Import ZArith.
From stdpp Require Import base option gmap.
From S2P Require Import Prelude Geometry Layout.

#[local] Open Scope Z_scope.

(** What input handling asks of the application. *)
Inductive Action : Type :=
| Redraw
| Resize (dim : Dim.t)
| Quit.

(** Focus notifications the screen sends to widgets. *)
Inductive FocusEvent : Type :=
| Offer
| Take
| HoverInside
| HoverOutside.

Inductive MouseButton : Type :=
| Left
| Middle
| Right.

Inductive MouseEvent : Type :=
| ButtonDown (b : MouseButton)
| ButtonUp (b : MouseButton)
| Drag (b : option MouseButton).

(** Modifier keys, a bit set. *)
Module ModKeys.

Record t : Type := mk { bits : Z }.

Definition empty : t := mk 0.

End ModKeys.

(** A key, by its code. *)
Module Key.

Record t : Type := mk { code : Z }.

End Key.

Inductive Event : Type :=
| EvResize (dim : Dim.t)
| EvKey (key : Key.t) (mods : ModKeys.t)
| EvMouse (mev : MouseEvent) (mods : ModKeys.t) (pos : Pos.t).

#[export] Instance Action_eq_dec : EqDecision Action.
Proof. solve_decision. Defined.

#[export] Instance FocusEvent_eq_dec : EqDecision FocusEvent.
Proof. solve_decision. Defined.

#[export] Instance MouseButton_eq_dec : EqDecision MouseButton.
Proof. solve_decision. Defined.

#[export] Instance MouseEvent_eq_dec : EqDecision MouseEvent.
Proof. solve_decision. Defined.

#[export] Instance ModKeys_eq_dec : EqDecision ModKeys.t.
Proof. solve_decision. Defined.

#[export] Instance Key_eq_dec : EqDecision Key.t.
Proof. solve_decision. Defined.

(** The key / action map. *)
Module KeyMap.

Definition t : Type := gmap (Z * Z) Action.

Definition lookup (self : t) (key : Key.t) (mods : ModKeys.t) : option Action :=
  self !! (Key.code key, ModKeys.bits mods).

End KeyMap.

(** [KeyMap::default()]: the bindings a new screen starts with; the
    key map's source is not in the snapshot. *)
Class KeyMaps := KeyMap_default : KeyMap.t.

(** ** Facts *)

Lemma keymap_lookup_insert (km : gmap (Z * Z) Action) k m a :
  KeyMap.lookup (<[(Key.code k, ModKeys.bits m) := a]> km) k m = Some a.
Proof. apply lookup_insert_eq. Qed.

Lemma keymap_lookup_empty k m : KeyMap.lookup ∅ k m = None.
Proof. apply lookup_empty. Qed.
