(* ===== verification/Style.v ===== *)
(** * Style: font weight, text appearance and text style
    ([src/text/style.rs])

    [Attributes] is crossterm's set of text attributes; it is modelled
    as a finite set of the attributes the source names.  [Color] comes
    from the crate's color module, of which the source shows the two
    values [TextStyle::default] uses. *)

From Stdlib Require Import ZArith.
From stdpp Require Import base option countable gmap.
From S2P Require Import Prelude.

(** ** Colors *)

Inductive Intensity : Type :=
| INormal
| IBright.

Inductive Color : Type :=
| Black (i : Intensity)
| Red (i : Intensity)
| Green (i : Intensity)
| Yellow (i : Intensity)
| Blue (i : Intensity)
| Magenta (i : Intensity)
| Cyan (i : Intensity)
| White (i : Intensity).

#[export] Instance Intensity_eq_dec : EqDecision Intensity.
Proof. solve_decision. Defined.

#[export] Instance Color_eq_dec : EqDecision Color.
Proof. solve_decision. Defined.

(** ** Crossterm's attributes *)

Module Attribute.

Inductive t : Type :=
| Bold
| Dim
| Italic
| Underlined
| Reverse
| CrossedOut
| NormalIntensity
| NoItalic
| NoUnderline
| NoReverse
| NotCrossedOut.

Definition all : list t :=
  [Bold; Dim; Italic; Underlined; Reverse; CrossedOut; NormalIntensity;
   NoItalic; NoUnderline; NoReverse; NotCrossedOut].

End Attribute.

#[export] Instance Attribute_eq_dec : EqDecision Attribute.t.
Proof. solve_decision. Defined.

#[export] Instance Attribute_countable : Countable Attribute.t.
Proof.
  refine (inj_countable'
    (fun a => default 0%nat (list_find (a =.) Attribute.all ≫= fun p => Some p.1))
    (fun n => default Attribute.Bold (Attribute.all !! n)) _).
  by intros [].
Defined.

Module Attributes.

Definition t : Type := gset Attribute.t.

Definition default : t := ∅.

Definition set (self : t) (a : Attribute.t) : t := self ∪ {[a]}.

Definition unset (self : t) (a : Attribute.t) : t := self ∖ {[a]}.

Definition has (self : t) (a : Attribute.t) : bool := bool_decide (a ∈ self).

Definition is_empty (self : t) : bool := bool_decide (self = ∅).

End Attributes.

(** ** Weight *)

Module Weight.

Inductive t : Type :=
| Normal
| Bold
| Thin.

Definition default : t := Normal.

Definition attribute (self : t) : option Attribute.t :=
  match self with
  | Bold => Some Attribute.Bold
  | Thin => Some Attribute.Dim
  | _ => None
  end.

End Weight.

#[export] Instance Weight_eq_dec : EqDecision Weight.t.
Proof. solve_decision. Defined.

(** ** Appearance *)

Module Appearance.

Record t : Type := mk {
  attributes : Attributes.t;
  weight : Weight.t;
}.

Definition default : t := mk Attributes.default Weight.default.

Definition with_weight (self : t) (weight : Weight.t) : t :=
  mk (attributes self) weight.

Definition with_italic (self : t) (enable : bool) : t :=
  if enable
  then mk (Attributes.set (attributes self) Attribute.Italic) (weight self)
  else mk (Attributes.unset (attributes self) Attribute.Italic) (weight self).

Definition with_strikethrough (self : t) (enable : bool) : t :=
  if enable
  then mk (Attributes.set (attributes self) Attribute.CrossedOut) (weight self)
  else mk (Attributes.unset (attributes self) Attribute.CrossedOut) (weight self).

Definition with_underline (self : t) (enable : bool) : t :=
  if enable
  then mk (Attributes.set (attributes self) Attribute.Underlined) (weight self)
  else mk (Attributes.unset (attributes self) Attribute.Underlined) (weight self).

Definition with_reverse (self : t) (enable : bool) : t :=
  if enable
  then mk (Attributes.set (attributes self) Attribute.Reverse) (weight self)
  else mk (Attributes.unset (attributes self) Attribute.Reverse) (weight self).

Definition changed (self before : t) : Attributes.t :=
  let attr := attributes self in
  let attr :=
    if decide (weight self <> weight before) then
      match Weight.attribute (weight self) with
      | Some w => Attributes.set attr w
      | None => Attributes.set attr Attribute.NormalIntensity
      end
    else attr in
  let attr :=
    if Attributes.has (attributes before) Attribute.Italic
    then Attributes.set attr Attribute.NoItalic else attr in
  let attr :=
    if Attributes.has (attributes before) Attribute.CrossedOut
    then Attributes.set attr Attribute.NotCrossedOut else attr in
  let attr :=
    if Attributes.has (attributes before) Attribute.Underlined
    then Attributes.set attr Attribute.NoUnderline else attr in
  let attr :=
    if Attributes.has (attributes before) Attribute.Reverse
    then Attributes.set attr Attribute.NoReverse else attr in
  attr.

End Appearance.

(** ** TextStyle *)

Module TextStyle.

Record t : Type := mk {
  background : Color;
  foreground : Color;
  appearance : Appearance.t;
}.

Definition default : t :=
  let background := Black INormal in
  let foreground := White IBright in
  let appearance := Appearance.default in
  mk background foreground appearance.

Definition with_background (self : t) (clr : Color) : t :=
  mk clr (foreground self) (appearance self).

Definition with_foreground (self : t) (clr : Color) : t :=
  mk (background self) clr (appearance self).

Definition with_appearance (self : t) (app : Appearance.t) : t :=
  mk (background self) (foreground self) app.

End TextStyle.

(** ** Theme: the colors widgets draw with *)

Module Theme.

Record t : Type := mk {
  background : Color;
  foreground : Color;
  secondary : Color;
  tertiary : Color;
  dark_shadow : Color;
}.

End Theme.

(** [text/theme.rs] is not in the snapshot.  The sources use three
    things of it: the groups of styles of a theme ([StyleGroup], of
    which they name [Enabled]), [Theme::default()] and
    [Theme::style(group)].  They are kept abstract. *)
Class Themes := {
  StyleGroup : Type;
  StyleGroup_Enabled : StyleGroup;
  Theme_default : Theme.t;
  Theme_style : Theme.t -> StyleGroup -> TextStyle.t;
}.

#[export] Instance Appearance_eq_dec : EqDecision Appearance.t.
Proof. solve_decision. Defined.

#[export] Instance TextStyle_eq_dec : EqDecision TextStyle.t.
Proof. solve_decision. Defined.

#[export] Instance Theme_eq_dec : EqDecision Theme.t.
Proof. solve_decision. Defined.

#[local] Set Warnings "-clear-no-such-hyp".

(** ** Proof automation *)

Create HintDb style discriminated.

#[export] Hint Unfold Attributes.set Attributes.unset Attributes.default
  Appearance.with_weight Appearance.with_italic
  Appearance.with_strikethrough Appearance.with_underline
  Appearance.with_reverse Appearance.default : style.

(** Unfold the setters and decide the membership tests. *)
Ltac style_simpl :=
  autounfold with style in *; unfold Attributes.has in *;
  repeat case_bool_decide; cbn [Appearance.attributes Appearance.weight] in *.

(** ** Attribute sets *)

Lemma attributes_has_set (s : gset Attribute.t) a b :
  Attributes.has (Attributes.set s a) b =
    bool_decide (b = a) || Attributes.has s b.
Proof.
  unfold Attributes.has, Attributes.set.
  repeat case_bool_decide; try done; set_solver.
Qed.

Lemma attributes_has_unset (s : gset Attribute.t) a b :
  Attributes.has (Attributes.unset s a) b =
    negb (bool_decide (b = a)) && Attributes.has s b.
Proof.
  unfold Attributes.has, Attributes.unset.
  repeat case_bool_decide; try done; set_solver.
Qed.

(** ** Appearance *)

(** The four switches of an appearance are independent: turning
    italic on or off sets exactly the italic attribute as asked and
    leaves the other attributes and the weight as they were; so do
    the strikethrough, underline and reverse switches. *)
Theorem appearance_switch (a : Appearance.t) (enable : bool) (b : Attribute.t) :
  let sw := [(Appearance.with_italic, Attribute.Italic);
             (Appearance.with_strikethrough, Attribute.CrossedOut);
             (Appearance.with_underline, Attribute.Underlined);
             (Appearance.with_reverse, Attribute.Reverse)] in
  Forall (fun '(f, x) =>
    Appearance.weight (f a enable) = Appearance.weight a /\
    Attributes.has (Appearance.attributes (f a enable)) b =
      if decide (b = x) then enable
      else Attributes.has (Appearance.attributes a) b) sw.
Proof.
  repeat constructor; destruct enable; style_simpl; try done;
    case_decide; try done; set_solver.
Qed.

(** Membership in [changed], clause by clause: the form the lemmas
    below rewrite with. *)
Lemma appearance_changed_elem (self before : Appearance.t) (x : Attribute.t) :
  x ∈ Appearance.changed self before <->
    x ∈ Appearance.attributes self \/
    (Appearance.weight self <> Appearance.weight before /\
     x = default Attribute.NormalIntensity
           (Weight.attribute (Appearance.weight self))) \/
    (Attribute.Italic ∈ Appearance.attributes before /\
     x = Attribute.NoItalic) \/
    (Attribute.CrossedOut ∈ Appearance.attributes before /\
     x = Attribute.NotCrossedOut) \/
    (Attribute.Underlined ∈ Appearance.attributes before /\
     x = Attribute.NoUnderline) \/
    (Attribute.Reverse ∈ Appearance.attributes before /\
     x = Attribute.NoReverse).
Proof.
  unfold Appearance.changed. style_simpl.
  all: case_decide; [destruct (Weight.attribute _)|]; cbn; set_solver.
Qed.

(** What [changed] emits: every attribute of the new appearance,
    the attribute of its weight when the weight differs from the
    former one, and the reset of each switch the former appearance
    had on, whether or not the new appearance has that switch on. *)
Theorem appearance_changed_spec (self before : Appearance.t) (x : Attribute.t) :
  x ∈ Appearance.changed self before <->
    x ∈ Appearance.attributes self \/
    (Appearance.weight self <> Appearance.weight before /\
     x = default Attribute.NormalIntensity
           (Weight.attribute (Appearance.weight self))) \/
    (Attribute.Italic ∈ Appearance.attributes before /\
     x = Attribute.NoItalic) \/
    (Attribute.CrossedOut ∈ Appearance.attributes before /\
     x = Attribute.NotCrossedOut) \/
    (Attribute.Underlined ∈ Appearance.attributes before /\
     x = Attribute.NoUnderline) \/
    (Attribute.Reverse ∈ Appearance.attributes before /\
     x = Attribute.NoReverse).
Proof. exact (appearance_changed_elem self before x). Qed.

(** An appearance that keeps a switch on across a change is sent
    both the switch and its reset: italic text followed by italic
    text has [Italic] and [NoItalic] in one attribute set. *)
Theorem appearance_changed_keeps_reset (self before : Appearance.t) :
  Attribute.Italic ∈ Appearance.attributes self ->
  Attribute.Italic ∈ Appearance.attributes before ->
  Attribute.Italic ∈ Appearance.changed self before /\
  Attribute.NoItalic ∈ Appearance.changed self before.
Proof. intros. rewrite !appearance_changed_elem. auto 10. Qed.

Lemma appearance_changed_keeps_reset_witness :
  let it := Appearance.with_italic Appearance.default true in
  Attribute.Italic ∈ Appearance.attributes it /\
  Attribute.Italic ∈ Appearance.changed it it /\
  Attribute.NoItalic ∈ Appearance.changed it it.
Proof.
  intros it. split; [compute_done|].
  apply (appearance_changed_keeps_reset it it); compute_done.
Defined.

(** From the default appearance nothing is reset. *)
Lemma appearance_changed_default (self : Appearance.t) (x : Attribute.t) :
  x ∈ Appearance.changed self Appearance.default <->
    x ∈ Appearance.attributes self \/
    (Appearance.weight self <> Weight.Normal /\
     Some x = Weight.attribute (Appearance.weight self)).
Proof.
  rewrite appearance_changed_elem. cbn.
  destruct (Appearance.weight self); cbn; set_solver.
Qed.

(** Between two equal appearances [changed] is empty exactly when no
    attribute is on. *)
Lemma appearance_changed_same (app : Appearance.t) :
  Appearance.changed app app = ∅ <-> Appearance.attributes app = ∅.
Proof.
  rewrite !elem_of_equiv_empty_L. setoid_rewrite appearance_changed_elem.
  split.
  - intros Hn x Hx. apply (Hn x). by left.
  - intros Hn x [Hx|[[Hw _]|Hx]]; [by apply (Hn x)|done|].
    destruct_or!; destruct_and?; by eapply Hn.
Qed.

(** ** TextStyle *)

(** The default style: bright white on black, plain. *)
Lemma textstyle_default_eq :
  TextStyle.default =
    TextStyle.mk (Black INormal) (White IBright)
      (Appearance.mk ∅ Weight.Normal).
Proof. done. Qed.

(** The setters of a style are independent and idempotent. *)
Lemma textstyle_setters (s : TextStyle.t) (c c' : Color) (a : Appearance.t) :
  TextStyle.background (TextStyle.with_background s c) = c /\
  TextStyle.foreground (TextStyle.with_foreground s c) = c /\
  TextStyle.appearance (TextStyle.with_appearance s a) = a /\
  TextStyle.with_background (TextStyle.with_foreground s c) c' =
    TextStyle.with_foreground (TextStyle.with_background s c') c /\
  TextStyle.with_background (TextStyle.with_background s c) c' =
    TextStyle.with_background s c'.
Proof. done. Qed.

(** ** Concrete values *)

(** A theme for the concrete instances of the development. *)
Definition sample_theme : Theme.t :=
  Theme.mk (Black INormal) (White IBright) (Cyan INormal) (Yellow INormal)
    (Black IBright).
