(* ===== verification/Error.v ===== *)
(** * Error: the crate's error type ([src/error.rs])

    An [Error] wraps the failure of the terminal library or of standard
    output; the wrapped values are opaque to the crate and are modelled
    as codes, and [Display] ([fmt]) delegates to their formatting, a
    parameter.  [Result<T>] is [result T]; its bind is the [?]
    operator. *)

From Stdlib Require Import ZArith String.
From stdpp Require Import base option.
From S2P Require Import Prelude.

Module Error.

(** Error enum *)
Inductive t : Type :=
| Crossterm (err : Z)
| Io (err : Z).

(** [impl From<crossterm::ErrorKind> for Error] *)
Definition from_crossterm (err : Z) : t := Crossterm err.

(** [impl From<io::Error> for Error] *)
Definition from_io (err : Z) : t := Io err.

(** [std::error::Error::source]: the wrapped error. *)
Definition source (self : t) : option Z :=
  match self with
  | Crossterm err => Some err
  | Io err => Some err
  end.

(** [impl fmt::Display for Error]: the text of the wrapped error, in
    the words of the library it comes from; [ct] and [io] stand for the
    [Display] of the two wrapped types. *)
Definition fmt (ct io : Z -> string) (self : t) : string :=
  match self with
  | Crossterm err => ct err
  | Io err => io err
  end.

End Error.

#[export] Instance Error_eq_dec : EqDecision Error.t.
Proof. solve_decision. Defined.

(** Result type *)
Inductive result (A : Type) : Type :=
| ROk (a : A)
| RErr (e : Error.t).

Arguments ROk {A} a.
Arguments RErr {A} e.

#[export] Instance result_eq_dec {A} `{EqDecision A} : EqDecision (result A).
Proof. solve_decision. Defined.

#[export] Instance result_ret : MRet result := fun A a => ROk a.

#[export] Instance result_bind : MBind result := fun A B f m =>
  match m with
  | ROk a => f a
  | RErr e => RErr e
  end.

#[export] Instance result_fmap : FMap result := fun A B f m =>
  match m with
  | ROk a => ROk (f a)
  | RErr e => RErr e
  end.

(** ** Facts *)

(** Every error has a source, and the conversions keep it. *)
Lemma error_source_from err :
  Error.source (Error.from_crossterm err) = Some err /\
  Error.source (Error.from_io err) = Some err.
Proof. done. Qed.

Lemma result_bind_ROk {A B} (f : A -> result B) (m : result A) (b : B) :
  m ≫= f = ROk b <-> exists a, m = ROk a /\ f a = ROk b.
Proof.
  destruct m as [a|e]; cbn; split.
  - eauto.
  - by intros (a' & [= ->] & ?).
  - done.
  - by intros (a' & ? & ?).
Qed.

Lemma result_bind_RErr {A B} (f : A -> result B) (m : result A) (e : Error.t) :
  m ≫= f = RErr e <-> m = RErr e \/ exists a, m = ROk a /\ f a = RErr e.
Proof.
  destruct m as [a|e']; cbn; split.
  - eauto.
  - by intros [?|(a' & [= ->] & ?)].
  - intros [= ->]. by left.
  - by intros [[= ->]|(a' & ? & ?)].
Qed.
