(* ===== verification/Terminal.v ===== *)
(** * Terminal: the output sink and fallible stateful code

    [src/screen.rs] writes to the terminal through crossterm: commands
    are queued on standard output ([queue!]), then flushed, and the
    terminal's raw mode is switched on and off.  Every one of these
    operations may fail.  The terminal is an external collaborator; it
    is modelled here by what the screen can observe of it:

    - [Cmd]: the commands [screen.rs] queues;
    - [Term.t]: the commands queued and not yet flushed, the commands
      written, the raw-mode flag, the terminal's size, and a list of
      faults that decides which of the coming operations fail;
    - [io S A]: code that changes a state [S] behind [&mut self] and
      returns [Result<A>].  Its bind is the [?] operator: an error ends
      the computation, and the state keeps what was done before. *)

From Stdlib Require Import ZArith String Ascii.
From stdpp Require Import base option list.
From S2P Require Import Prelude Geometry Style Error.

#[local] Open Scope Z_scope.

(** ** Fallible stateful code *)

Definition io (S A : Type) : Type := S -> result A * S.

Definition io_ret {S A} (a : A) : io S A := fun s => (ROk a, s).

(** The [?] operator: go on with the value, or return the error. *)
Definition io_bind {S A B} (m : io S A) (k : A -> io S B) : io S B := fun s =>
  match m s with
  | (ROk a, s) => k a s
  | (RErr e, s) => (RErr e, s)
  end.

Declare Scope io_scope.
Delimit Scope io_scope with io.
Bind Scope io_scope with io.

Notation "x ← y ; z" := (io_bind y (fun x => z))
  (at level 20, y at level 100, z at level 200, only parsing) : io_scope.
Notation "' x ← y ; z" := (io_bind y (fun x => z))
  (at level 20, x pattern, y at level 100, z at level 200, only parsing)
  : io_scope.
Notation "y ;; z" := (io_bind y (fun _ => z))
  (at level 100, z at level 200, only parsing, right associativity) : io_scope.

#[local] Open Scope io_scope.

(** Run [m] on a part of the state: [get] reads the part and [set]
    writes it back, as a method call on a field does. *)
Definition io_on {S T A} (get : S -> T) (set : S -> T -> S) (m : io T A)
    : io S A :=
  fun s => let '(r, t) := m (get s) in (r, set s t).

(** [for x in l { f(x)?; }] *)
Fixpoint io_for {S A} (l : list A) (f : A -> io S unit) : io S unit :=
  match l with
  | [] => io_ret tt
  | x :: l => f x;; io_for l f
  end.

(** ** Commands *)

(** The crossterm commands the screen queues. *)
Inductive Cmd : Type :=
| EnterAlternateScreen
| LeaveAlternateScreen
| CursorHide
| CursorShow
| DisableLineWrap
| EnableLineWrap
| ClearAll
| EnableMouseCapture
| DisableMouseCapture
| SetTitle (title : string)
| SetBackgroundColor (c : Color)
| SetForegroundColor (c : Color)
| SetAttributes (attrs : Attributes.t)
| ResetColor
| MoveTo (col row : Z)
| MoveRight (col : Z)
| PrintChar (ch : ascii)
| PrintStr (st : string).

#[export] Instance Cmd_eq_dec : EqDecision Cmd.
Proof. solve_decision. Defined.

(** ** The terminal *)

Module Term.

Record t : Type := mk {
  (** What [terminal::size] reports: the width and the height *)
  size : Z * Z;
  (** Whether raw mode is enabled *)
  raw_mode : bool;
  (** The commands queued on standard output, not yet flushed *)
  queued : list Cmd;
  (** The commands written to the terminal *)
  written : list Cmd;
  (** For each coming operation, the error it fails with, if it fails;
      the operations after the end of the list succeed *)
  faults : list (option Z);
}.

Definition set_raw_mode (self : t) (b : bool) : t :=
  mk (size self) b (queued self) (written self) (faults self).

Definition set_faults (self : t) (fs : list (option Z)) : t :=
  mk (size self) (raw_mode self) (queued self) (written self) fs.

(** One operation of the terminal begins: it fails with the error the
    list of faults holds for it, converted by [wrap], or goes on. *)
Definition attempt (wrap : Z -> Error.t) : io t unit := fun self =>
  match faults self with
  | Some err :: fs => (RErr (wrap err), set_faults self fs)
  | None :: fs => (ROk tt, set_faults self fs)
  | [] => (ROk tt, self)
  end.

(** [terminal::size()?] *)
Definition get_size : io t (Z * Z) :=
  attempt Error.from_crossterm;;
  fun self => (ROk (size self), self).

(** [terminal::enable_raw_mode()?] *)
Definition enable_raw_mode : io t unit :=
  attempt Error.from_crossterm;;
  fun self => (ROk tt, set_raw_mode self true).

(** [terminal::disable_raw_mode()?] *)
Definition disable_raw_mode : io t unit :=
  attempt Error.from_crossterm;;
  fun self => (ROk tt, set_raw_mode self false).

(** [queue!(out, c)?]: the command is added to those queued. *)
Definition queue (c : Cmd) : io t unit :=
  attempt Error.from_crossterm;;
  fun self =>
    (ROk tt,
     mk (size self) (raw_mode self) (queued self ++ [c]) (written self)
       (faults self)).

(** [queue!(out, c1, c2, ...)?]: one command after the other. *)
Definition queue_all (cs : list Cmd) : io t unit := io_for cs queue.

(** [out.flush()?]: what is queued is written. *)
Definition flush : io t unit :=
  attempt Error.from_io;;
  fun self =>
    (ROk tt,
     mk (size self) (raw_mode self) [] (written self ++ queued self)
       (faults self)).

(** Everything sent to the terminal so far, flushed or not. *)
Definition sent (self : t) : list Cmd := written self ++ queued self.

(** A terminal on which no operation fails. *)
Definition reliable (self : t) : Prop := Forall (fun f => f = None) (faults self).

End Term.

#[export] Instance Term_eq_dec : EqDecision Term.t.
Proof. solve_decision. Defined.

(** ** Automation *)

Create HintDb io discriminated.

#[export] Hint Unfold Term.get_size Term.enable_raw_mode Term.disable_raw_mode
  Term.queue Term.flush Term.attempt Term.set_faults Term.set_raw_mode
  Term.sent : io.

(** Unfold the monad of [io]. *)
Ltac io_simpl :=
  repeat (cbn [io_for fst snd] in *; unfold io_bind, io_ret, io_on in *).

(** ** Facts on [io] *)

Section io_facts.
Context {S : Type}.

Lemma io_bind_ROk {A B} (m : io S A) (k : A -> io S B) s a s' :
  m s = (ROk a, s') -> io_bind m k s = k a s'.
Proof. unfold io_bind. by intros ->. Qed.

Lemma io_bind_RErr {A B} (m : io S A) (k : A -> io S B) s e s' :
  m s = (RErr e, s') -> io_bind m k s = (RErr e, s').
Proof. unfold io_bind. by intros ->. Qed.

(** A sequence succeeds exactly when both parts do. *)
Lemma io_bind_inv_ROk {A B} (m : io S A) (k : A -> io S B) s b s2 :
  io_bind m k s = (ROk b, s2) <->
  exists a s1, m s = (ROk a, s1) /\ k a s1 = (ROk b, s2).
Proof.
  unfold io_bind. destruct (m s) as [[a|e] s1]; split.
  - eauto.
  - by intros (? & ? & [= -> ->] & ?).
  - done.
  - by intros (? & ? & ? & ?).
Qed.

(** A sequence fails in its first part, or after it in its second. *)
Lemma io_bind_inv_RErr {A B} (m : io S A) (k : A -> io S B) s e s2 :
  io_bind m k s = (RErr e, s2) <->
  m s = (RErr e, s2) \/ exists a s1, m s = (ROk a, s1) /\ k a s1 = (RErr e, s2).
Proof.
  unfold io_bind. destruct (m s) as [[a|e'] s1]; split.
  - eauto.
  - intros [[=]|(? & ? & [= -> ->] & ?)]. done.
  - intros [= -> ->]. by left.
  - intros [[= -> ->]|(? & ? & [=] & ?)]. done.
Qed.

Lemma io_for_app {A} (l1 l2 : list A) (f : A -> io S unit) s :
  io_for (l1 ++ l2) f s = (io_for l1 f;; io_for l2 f) s.
Proof.
  revert s. induction l1 as [|x l1 IH]; intros s; [done|].
  cbn [app io_for]. unfold io_bind in *.
  destruct (f x s) as [[[]|e] s1]; [apply IH|done].
Qed.

End io_facts.

(** ** Facts on the terminal *)

Section term_facts.
Implicit Types (t : Term.t) (c : Cmd) (cs : list Cmd).

(** On a reliable terminal every operation succeeds and the terminal
    stays reliable. *)
Lemma term_attempt_reliable wrap t :
  Term.reliable t ->
  exists t', Term.attempt wrap t = (ROk tt, t') /\ Term.reliable t' /\
    Term.size t' = Term.size t /\ Term.raw_mode t' = Term.raw_mode t /\
    Term.queued t' = Term.queued t /\ Term.written t' = Term.written t.
Proof.
  unfold Term.reliable, Term.attempt. destruct t as [sz raw q w [|[e|] fs]]; cbn.
  - intros. by eexists.
  - by intros [[=] _]%Forall_cons.
  - intros [_ ?]%Forall_cons. by eexists.
Qed.

Lemma term_queue_reliable c t :
  Term.reliable t ->
  exists t', Term.queue c t = (ROk tt, t') /\ Term.reliable t' /\
    Term.size t' = Term.size t /\ Term.raw_mode t' = Term.raw_mode t /\
    Term.queued t' = Term.queued t ++ [c] /\ Term.written t' = Term.written t.
Proof.
  intros Hr. destruct (term_attempt_reliable Error.from_crossterm t Hr)
    as (t' & Ha & ? & ? & ? & <- & ?).
  unfold Term.queue. rewrite (io_bind_ROk _ _ _ _ _ Ha). by eexists.
Qed.

Lemma term_get_size_reliable t :
  Term.reliable t ->
  exists t', Term.get_size t = (ROk (Term.size t), t') /\ Term.reliable t' /\
    Term.size t' = Term.size t /\ Term.raw_mode t' = Term.raw_mode t /\
    Term.queued t' = Term.queued t /\ Term.written t' = Term.written t.
Proof.
  intros Hr. destruct (term_attempt_reliable Error.from_crossterm t Hr)
    as (t' & Ha & ? & Hs & ? & ? & ?).
  unfold Term.get_size. rewrite (io_bind_ROk _ _ _ _ _ Ha), Hs. by eexists.
Qed.

Lemma term_set_raw_mode_reliable (b : bool) t :
  Term.reliable t ->
  exists t',
    (if b then Term.enable_raw_mode else Term.disable_raw_mode) t
      = (ROk tt, t') /\
    Term.reliable t' /\ Term.size t' = Term.size t /\ Term.raw_mode t' = b /\
    Term.queued t' = Term.queued t /\ Term.written t' = Term.written t.
Proof.
  intros Hr. destruct (term_attempt_reliable Error.from_crossterm t Hr)
    as (t' & Ha & ? & ? & ? & ? & ?).
  unfold Term.enable_raw_mode, Term.disable_raw_mode.
  destruct b; rewrite (io_bind_ROk _ _ _ _ _ Ha); by eexists.
Qed.

Lemma term_queue_all_reliable cs t :
  Term.reliable t ->
  exists t', Term.queue_all cs t = (ROk tt, t') /\ Term.reliable t' /\
    Term.size t' = Term.size t /\ Term.raw_mode t' = Term.raw_mode t /\
    Term.queued t' = Term.queued t ++ cs /\ Term.written t' = Term.written t.
Proof.
  revert t. induction cs as [|c cs IH]; intros t Hr.
  - exists t. by rewrite app_nil_r.
  - destruct (term_queue_reliable c t Hr) as (t1 & Hq & Hr1 & ? & ? & Hq1 & ?).
    destruct (IH t1 Hr1) as (t2 & Hall & ? & ? & ? & Hq2 & ?).
    exists t2. unfold Term.queue_all in *. cbn [io_for].
    rewrite (io_bind_ROk _ _ _ _ _ Hq), Hall, Hq2, Hq1, <- app_assoc.
    repeat split; congruence.
Qed.

Lemma term_flush_reliable t :
  Term.reliable t ->
  exists t', Term.flush t = (ROk tt, t') /\ Term.reliable t' /\
    Term.size t' = Term.size t /\ Term.raw_mode t' = Term.raw_mode t /\
    Term.queued t' = [] /\ Term.written t' = Term.sent t.
Proof.
  intros Hr. destruct (term_attempt_reliable Error.from_io t Hr)
    as (t' & Ha & ? & ? & ? & Hq & Hw).
  unfold Term.flush, Term.sent. rewrite (io_bind_ROk _ _ _ _ _ Ha), Hq, Hw.
  by eexists.
Qed.

(** Whether they succeed or fail, the operations only ever add to what
    was sent: nothing sent is taken back. *)
Lemma term_queue_sent c t :
  Term.sent (Term.queue c t).2 =
    Term.sent t ++ (if (Term.queue c t).1 is ROk _ then [c] else []).
Proof.
  unfold Term.queue, Term.attempt, Term.sent, io_bind.
  destruct t as [sz raw q w [|[e|] fs]]; cbn;
    by rewrite ?app_nil_r, ?app_assoc.
Qed.

Lemma term_flush_sent t : Term.sent (Term.flush t).2 = Term.sent t.
Proof.
  unfold Term.flush, Term.attempt, Term.sent, io_bind.
  destruct t as [sz raw q w [|[e|] fs]]; cbn; by rewrite ?app_nil_r.
Qed.

(** Queuing and flushing leave raw mode as it is, whether they succeed
    or fail. *)
Lemma term_queue_raw_mode c t :
  Term.raw_mode (Term.queue c t).2 = Term.raw_mode t.
Proof.
  unfold Term.queue, Term.attempt, io_bind.
  by destruct t as [sz raw q w [|[e|] fs]].
Qed.

Lemma term_queue_all_raw_mode cs t :
  Term.raw_mode (Term.queue_all cs t).2 = Term.raw_mode t.
Proof.
  revert t. induction cs as [|c cs IH]; intros t; [done|].
  unfold Term.queue_all in *. cbn [io_for]. unfold io_bind.
  pose proof (term_queue_raw_mode c t) as Hc.
  destruct (Term.queue c t) as [[[]|e] t1]; [|done].
  by rewrite IH.
Qed.

Lemma term_flush_raw_mode t :
  Term.raw_mode (Term.flush t).2 = Term.raw_mode t.
Proof.
  unfold Term.flush, Term.attempt, io_bind.
  by destruct t as [sz raw q w [|[e|] fs]].
Qed.

(** Raw mode is switched off exactly when the call succeeds. *)
Lemma term_disable_raw_mode_any t :
  Term.raw_mode (Term.disable_raw_mode t).2 =
    if (Term.disable_raw_mode t).1 is ROk _ then false else Term.raw_mode t.
Proof.
  unfold Term.disable_raw_mode, Term.attempt, io_bind.
  by destruct t as [sz raw q w [|[e|] fs]].
Qed.

(** What [queue_all] has sent when it returns: all the commands, or,
    when it fails, those before the failure. *)
Lemma term_queue_all_sent cs t :
  exists done,
    Term.sent (Term.queue_all cs t).2 = Term.sent t ++ done /\
    done `prefix_of` cs /\
    ((Term.queue_all cs t).1 = ROk tt -> done = cs).
Proof.
  revert t. induction cs as [|c cs IH]; intros t.
  - exists []. by rewrite app_nil_r.
  - unfold Term.queue_all in *. cbn [io_for]. unfold io_bind.
    pose proof (term_queue_sent c t) as Hc.
    destruct (Term.queue c t) as [[[]|e] t1]; cbn [fst snd] in *.
    + destruct (IH t1) as (done & Hs & Hp & Hok). exists (c :: done).
      rewrite Hs, Hc, <- app_assoc. split; [done|].
      split; [by apply prefix_cons|]. by intros ->%Hok.
    + exists []. split; [done|]. split; [apply prefix_nil|done].
Qed.

End term_facts.
