(* ===== verification/Screen.v ===== *)
(** * Screen: the screen's state and its output ([src/screen.rs])

    [Screen] owns standard output, the dimensions of the terminal, the
    theme, the text style last set and the key map.  This file holds
    the methods of [impl Screen] that do not involve widgets: creating
    the screen, the setters, the commands queued to the terminal and the
    cleanup.  The methods take [&mut self] and return [Result<()>]: they
    are [io Screen.t unit] (see [Terminal]).  The methods that walk the
    widgets are in [Dispatch] (input) and [Render] (output). *)

From Stdlib Require Import ZArith Lia String Ascii.
From stdpp Require Import base option list gmap.
From S2P Require Import Prelude Geometry Layout Input Style Error Terminal.

#[local] Open Scope Z_scope.
#[local] Open Scope io_scope.

(** ** The screen's state and its output *)

Module Screen.

Record t : Type := mk {
  (** Standard Output *)
  out : Term.t;
  (** Dimensions of screen in text cells *)
  dim : Dim.t;
  (** Style theme *)
  theme : Theme.t;
  (** Current text style *)
  style : option TextStyle.t;
  (** Key / action map *)
  keymap : KeyMap.t;
}.

(** Assignments to the fields. *)
Definition set_out (self : t) (out : Term.t) : t :=
  mk out (dim self) (theme self) (style self) (keymap self).

Definition set_dim (self : t) (dim : Dim.t) : t :=
  mk (out self) dim (theme self) (style self) (keymap self).

Definition set_current_style (self : t) (style : option TextStyle.t) : t :=
  mk (out self) (dim self) (theme self) style (keymap self).

(** [queue!(self.out, c1, c2, ...)?] *)
Definition queue (cs : list Cmd) : io t unit :=
  io_on out set_out (Term.queue_all cs).

(** Create a new Screen, on the terminal as it is found. *)
Definition new `{Themes} `{KeyMaps} : io Term.t t :=
  '(width, height) ← Term.get_size;
  let dim := Dim.new width height in
  let theme := Theme_default in
  let style := None in
  let keymap := KeyMap_default in
  Term.enable_raw_mode;;
  Term.queue_all [EnterAlternateScreen; CursorHide; DisableLineWrap;
                  ClearAll; EnableMouseCapture];;
  fun out => (ROk (mk out dim theme style keymap), out).

(** Set the key / action map *)
Definition set_keymap (self : t) (keymap : KeyMap.t) : t :=
  mk (out self) (dim self) (theme self) (style self) keymap.

(** Set the screen title *)
Definition set_title (title : string) : io t unit :=
  queue [SetTitle title];;
  io_ret tt.

(** Set the theme *)
Definition set_theme (self : t) (theme : Theme.t) : t :=
  mk (out self) (dim self) theme (style self) (keymap self).

(** Get the screen bounding box *)
Definition bbox (self : t) : BBox.t :=
  BBox.new 0 0 (Dim.width (dim self)) (Dim.height (dim self)).

(** Clear the screen (fill with the space character) *)
Definition clear : io t unit :=
  queue [ClearAll];;
  io_ret tt.

(** Set the background color *)
Definition set_background_color (color : Color) : io t unit := fun self =>
  ((if from_option (fun s => bool_decide (TextStyle.background s <> color))
         true (style self)
    then queue [SetBackgroundColor color]
    else io_ret tt);;
   io_ret tt) self.

(** Set the foreground color *)
Definition set_foreground_color (color : Color) : io t unit := fun self =>
  ((if from_option (fun s => bool_decide (TextStyle.foreground s <> color))
         true (style self)
    then queue [SetForegroundColor color]
    else io_ret tt);;
   io_ret tt) self.

(** Set the text appearance *)
Definition set_appearance (app : Appearance.t) : io t unit := fun self =>
  let attrs :=
    Appearance.changed app
      (from_option TextStyle.appearance Appearance.default (style self)) in
  ((if negb (Attributes.is_empty attrs)
    then queue [SetAttributes attrs]
    else io_ret tt);;
   io_ret tt) self.

(** Set the text style *)
Definition set_style (st : TextStyle.t) : io t unit :=
  set_background_color (TextStyle.background st);;
  set_foreground_color (TextStyle.foreground st);;
  set_appearance (TextStyle.appearance st);;
  fun self => (ROk tt, set_current_style self (Some st)).

(** Move cursor to a cell *)
Definition move_to (col row : Z) : io t unit :=
  queue [MoveTo col row];;
  io_ret tt.

(** Move cursor right by a number of columns *)
Definition move_right (col : Z) : io t unit :=
  queue [MoveRight col];;
  io_ret tt.

(** Print a char at the cursor location *)
Definition print_char (ch : ascii) : io t unit :=
  queue [PrintChar ch];;
  io_ret tt.

(** Print a str at the cursor location *)
Definition print_str (st : string) : io t unit :=
  queue [PrintStr st];;
  io_ret tt.

(** [self.out.flush()?] *)
Definition flush : io t unit := io_on out set_out Term.flush.

(** Cleanup screen *)
Definition cleanup : io t unit :=
  queue [DisableMouseCapture; LeaveAlternateScreen; EnableLineWrap;
         CursorShow; ResetColor];;
  flush;;
  io_on out set_out Term.disable_raw_mode;;
  io_ret tt.

(** [impl Drop for Screen]: clean up, and let an error go. *)
Definition drop (self : t) : Term.t := out (cleanup self).2.

End Screen.

#[export] Instance Screen_eq_dec : EqDecision Screen.t.
Proof. solve_decision. Defined.

(** ** Views *)

(** [layout/cells.rs] is not in the snapshot.  A [Cells] is a view onto
    the cells of the screen inside a bounding box; it holds the box and
    a mutable reference to the screen, which is here the state of [io].
    The methods the sources call are modelled from their use: the style
    goes to the screen, positions are relative to the box.  How text is
    laid out by [print_text] is left open ([CellsText]). *)
Module Cells.

Record t : Type := mk { bbox : BBox.t }.

(** [Cells::new(screen, bbox)] *)
Definition new (bbox : BBox.t) : t := mk bbox.

Definition width (self : t) : Z := Area.width (bbox self).

Definition height (self : t) : Z := Area.height (bbox self).

Definition theme (self : t) (screen : Screen.t) : Theme.t :=
  Screen.theme screen.

Definition set_style (self : t) (st : TextStyle.t) : io Screen.t unit :=
  Screen.set_style st.

Definition move_to (self : t) (col row : Z) : io Screen.t unit :=
  Screen.move_to (Area.col (bbox self) + col) (Area.row (bbox self) + row).

Definition print_str (self : t) (st : string) : io Screen.t unit :=
  Screen.print_str st.

End Cells.

#[export] Instance Cells_eq_dec : EqDecision Cells.t.
Proof. solve_decision. Defined.

(** [Cells::print_text]: print a text in the view. *)
Class CellsText := Cells_print_text : Cells.t -> string -> io Screen.t unit.

(** Get cells contained by a bounding box ([Screen::cells]) *)
Definition cells (self : Screen.t) (bbox : BBox.t) : option Cells.t :=
  let bbox := BBox.clip (Screen.bbox self) bbox in
  if BBox.is_empty (BBox.dim bbox) then None
  else Some (Cells.new bbox).

(** ** Specification vocabulary *)

(** Everything the screen has sent to the terminal, flushed or not. *)
Definition sent (self : Screen.t) : list Cmd := Term.sent (Screen.out self).

(** [self'] is [self] after the commands [cs] were queued: nothing
    else of the terminal or of the screen has changed, but for the
    current style, which [set_style] records. *)
Definition emits (self : Screen.t) (cs : list Cmd) (self' : Screen.t) : Prop :=
  Term.queued (Screen.out self') = Term.queued (Screen.out self) ++ cs /\
  Term.written (Screen.out self') = Term.written (Screen.out self) /\
  Term.raw_mode (Screen.out self') = Term.raw_mode (Screen.out self) /\
  Term.size (Screen.out self') = Term.size (Screen.out self) /\
  Screen.dim self' = Screen.dim self /\
  Screen.theme self' = Screen.theme self /\
  Screen.keymap self' = Screen.keymap self.

(** The commands [set_style] queues to go from the style [cur] to the
    style [st]: the colors that differ, and the attributes that
    [Appearance::changed] gives, if any. *)
Definition style_cmds (cur : option TextStyle.t) (st : TextStyle.t) : list Cmd :=
  (if from_option (fun s => bool_decide (TextStyle.background s <>
                                           TextStyle.background st)) true cur
   then [SetBackgroundColor (TextStyle.background st)] else []) ++
  (if from_option (fun s => bool_decide (TextStyle.foreground s <>
                                           TextStyle.foreground st)) true cur
   then [SetForegroundColor (TextStyle.foreground st)] else []) ++
  (let attrs := Appearance.changed (TextStyle.appearance st)
                  (from_option TextStyle.appearance Appearance.default cur) in
   if Attributes.is_empty attrs then [] else [SetAttributes attrs]).

(** The modes of the terminal that the screen switches. *)
Record modes : Type := mk_modes {
  alternate_screen : bool;
  cursor_hidden : bool;
  line_wrap : bool;
  mouse_capture : bool;
}.

#[export] Instance modes_eq_dec : EqDecision modes.
Proof. solve_decision. Defined.

(** The effect of one command on the modes. *)
Definition mode_cmd (m : modes) (c : Cmd) : modes :=
  match c with
  | EnterAlternateScreen =>
      mk_modes true (cursor_hidden m) (line_wrap m) (mouse_capture m)
  | LeaveAlternateScreen =>
      mk_modes false (cursor_hidden m) (line_wrap m) (mouse_capture m)
  | CursorHide =>
      mk_modes (alternate_screen m) true (line_wrap m) (mouse_capture m)
  | CursorShow =>
      mk_modes (alternate_screen m) false (line_wrap m) (mouse_capture m)
  | DisableLineWrap =>
      mk_modes (alternate_screen m) (cursor_hidden m) false (mouse_capture m)
  | EnableLineWrap =>
      mk_modes (alternate_screen m) (cursor_hidden m) true (mouse_capture m)
  | EnableMouseCapture =>
      mk_modes (alternate_screen m) (cursor_hidden m) (line_wrap m) true
  | DisableMouseCapture =>
      mk_modes (alternate_screen m) (cursor_hidden m) (line_wrap m) false
  | _ => m
  end.

(** The modes after a sequence of commands. *)
Definition modes_after (m : modes) (cs : list Cmd) : modes :=
  foldl mode_cmd m cs.

(** A terminal as a program finds it: main screen, cursor shown, lines
    wrapped, no mouse capture. *)
Definition cooked : modes := mk_modes false false true false.

(** A command that switches no mode: all that drawing queues. *)
Definition mode_free (c : Cmd) : bool :=
  match c with
  | EnterAlternateScreen | LeaveAlternateScreen | CursorHide | CursorShow
  | DisableLineWrap | EnableLineWrap | EnableMouseCapture
  | DisableMouseCapture => false
  | _ => true
  end.

(** [m] run on [self] succeeds, queues the commands [cs] and does
    nothing else; the terminal stays reliable. *)
Definition queues (m : io Screen.t unit) (self : Screen.t) (cs : list Cmd)
    (self' : Screen.t) : Prop :=
  m self = (ROk tt, self') /\ emits self cs self' /\
  Term.reliable (Screen.out self').

(** ** Facts: queuing on a reliable terminal *)

Section screen_facts.
Implicit Types (self : Screen.t) (cs : list Cmd) (st : TextStyle.t)
  (m : io Screen.t unit).

Lemma emits_nil self : emits self [] self.
Proof. unfold emits. by rewrite app_nil_r. Qed.

Lemma emits_app self cs1 self1 cs2 self2 :
  emits self cs1 self1 -> emits self1 cs2 self2 ->
  emits self (cs1 ++ cs2) self2.
Proof.
  unfold emits. intros (Hq1 & ? & ? & ? & ? & ? & ?) (Hq2 & ? & ? & ? & ? & ? & ?).
  rewrite Hq2, Hq1, app_assoc. repeat split; congruence.
Qed.

Lemma emits_sent self cs self' :
  emits self cs self' -> sent self' = sent self ++ cs.
Proof.
  unfold emits, sent, Term.sent. intros (-> & -> & _). by rewrite app_assoc.
Qed.

Lemma queues_ret self :
  Term.reliable (Screen.out self) -> queues (io_ret tt) self [] self.
Proof. intros. split; [done|]. split; [apply emits_nil|done]. Qed.

Lemma queues_bind m (k : unit -> io Screen.t unit) self cs1 self1 cs2 self2 :
  queues m self cs1 self1 -> queues (k tt) self1 cs2 self2 ->
  queues (io_bind m k) self (cs1 ++ cs2) self2.
Proof.
  intros (Hm & He1 & _) (Hk & He2 & Hr). split; [|split; [|done]].
  - by rewrite (io_bind_ROk _ _ _ _ _ Hm).
  - by eapply emits_app.
Qed.

Lemma queues_seq m m' self cs1 self1 cs2 self2 :
  queues m self cs1 self1 -> queues m' self1 cs2 self2 ->
  queues (io_bind m (fun _ => m')) self (cs1 ++ cs2) self2.
Proof. exact (queues_bind m (fun _ => m') self cs1 self1 cs2 self2). Qed.

Lemma queues_bind_nil m (k : unit -> io Screen.t unit) self cs self1 self2 :
  queues m self cs self1 -> queues (k tt) self1 [] self2 ->
  queues (io_bind m k) self cs self2.
Proof. rewrite <- (app_nil_r cs) at 2. apply queues_bind. Qed.

Lemma queues_queue cs self :
  Term.reliable (Screen.out self) ->
  exists self', queues (Screen.queue cs) self cs self' /\
    Screen.style self' = Screen.style self.
Proof.
  intros Hr.
  destruct (term_queue_all_reliable cs _ Hr) as (t & Hq & ? & ? & ? & ? & ?).
  exists (Screen.set_out self t). unfold queues, Screen.queue, io_on, emits.
  rewrite Hq. by destruct self.
Qed.

(** The methods that queue one command. *)
Lemma queues_one cs self :
  Term.reliable (Screen.out self) ->
  exists self', queues (Screen.queue cs;; io_ret tt) self cs self' /\
    Screen.style self' = Screen.style self.
Proof.
  intros Hr. destruct (queues_queue cs self Hr) as (self' & Hq & Hst).
  exists self'. split; [|done].
  eapply queues_bind_nil; [done|]. apply queues_ret, Hq.
Qed.

(** A conditional [queue!]. *)
Lemma queues_if (b : bool) cs self :
  Term.reliable (Screen.out self) ->
  exists self',
    queues ((if b then Screen.queue cs else io_ret tt);; io_ret tt) self
      (if b then cs else []) self' /\
    Screen.style self' = Screen.style self.
Proof.
  intros Hr. destruct b; [by apply queues_one|].
  exists self. split; [|done]. change [] with (@nil Cmd ++ []).
  eapply queues_bind; by apply queues_ret.
Qed.

End screen_facts.

(** ** [set_style] *)

Section set_style.
Implicit Types (self : Screen.t) (st : TextStyle.t).

Lemma queues_set_background_color color self :
  Term.reliable (Screen.out self) ->
  exists self',
    queues (Screen.set_background_color color) self
      (if from_option (fun s => bool_decide (TextStyle.background s <> color))
            true (Screen.style self)
       then [SetBackgroundColor color] else []) self' /\
    Screen.style self' = Screen.style self.
Proof. intros Hr. exact (queues_if _ _ self Hr). Qed.

Lemma queues_set_foreground_color color self :
  Term.reliable (Screen.out self) ->
  exists self',
    queues (Screen.set_foreground_color color) self
      (if from_option (fun s => bool_decide (TextStyle.foreground s <> color))
            true (Screen.style self)
       then [SetForegroundColor color] else []) self' /\
    Screen.style self' = Screen.style self.
Proof. intros Hr. exact (queues_if _ _ self Hr). Qed.

Lemma queues_set_appearance app self :
  Term.reliable (Screen.out self) ->
  exists self',
    queues (Screen.set_appearance app) self
      (let attrs := Appearance.changed app
                      (from_option TextStyle.appearance Appearance.default
                         (Screen.style self)) in
       if Attributes.is_empty attrs then [] else [SetAttributes attrs]) self' /\
    Screen.style self' = Screen.style self.
Proof.
  intros Hr. cbv zeta.
  destruct (queues_if (negb (Attributes.is_empty (Appearance.changed app
              (from_option TextStyle.appearance Appearance.default
                 (Screen.style self)))))
              [SetAttributes (Appearance.changed app
                 (from_option TextStyle.appearance Appearance.default
                    (Screen.style self)))] self Hr) as (self' & Hq & Hst).
  exists self'. split; [|done]. unfold queues, Screen.set_appearance in *.
  by destruct (Attributes.is_empty _).
Qed.

(** [set_style] on a reliable terminal: the form the lemmas below use. *)
Lemma set_style_queues_aux st self :
  Term.reliable (Screen.out self) ->
  exists self',
    queues (Screen.set_style st) self (style_cmds (Screen.style self) st) self' /\
    Screen.style self' = Some st.
Proof.
  intros Hr. unfold Screen.set_style, style_cmds.
  destruct (queues_set_background_color (TextStyle.background st) self Hr)
    as (s1 & Hq1 & Hs1).
  destruct (queues_set_foreground_color (TextStyle.foreground st) s1
              (proj2 (proj2 Hq1))) as (s2 & Hq2 & Hs2).
  destruct (queues_set_appearance (TextStyle.appearance st) s2
              (proj2 (proj2 Hq2))) as (s3 & Hq3 & Hs3).
  rewrite Hs2, Hs1 in Hq3. rewrite Hs1 in Hq2.
  exists (Screen.set_current_style s3 (Some st)). split; [|done].
  eapply queues_bind; [exact Hq1|]. eapply queues_bind; [exact Hq2|].
  eapply queues_bind_nil; [exact Hq3|].
  split; [done|]. split; [|apply Hq3].
  unfold emits. rewrite app_nil_r. by destruct s3.
Qed.

(** C10. On a terminal that does not fail, [set_style] queues exactly
    the commands of [style_cmds]: a color only when it differs from the
    current style's, the attributes only when some are to be sent; it
    records the style and changes nothing else. *)
Theorem set_style_queues st self :
  Term.reliable (Screen.out self) ->
  exists self',
    queues (Screen.set_style st) self (style_cmds (Screen.style self) st) self' /\
    Screen.style self' = Some st.
Proof. apply set_style_queues_aux. Qed.

(** Between a style and itself only the attributes are sent. *)
Lemma style_cmds_same st :
  style_cmds (Some st) st =
    if decide (Appearance.attributes (TextStyle.appearance st) = ∅) then []
    else [SetAttributes (Appearance.changed (TextStyle.appearance st)
                           (TextStyle.appearance st))].
Proof.
  unfold style_cmds, Attributes.is_empty. cbn [from_option].
  rewrite !bool_decide_eq_false_2 by (by intros Hne; apply Hne).
  cbn [app]. case_bool_decide as Hc; rewrite appearance_changed_same in Hc;
    by case_decide.
Qed.

(** Setting the style that is already current queues nothing when
    its appearance has no attribute on; when it has, all its attributes
    are sent again, together with the reset of each switch that is on. *)
Theorem set_style_again st self :
  Term.reliable (Screen.out self) -> Screen.style self = Some st ->
  exists self',
    queues (Screen.set_style st) self
      (if decide (Appearance.attributes (TextStyle.appearance st) = ∅) then []
       else [SetAttributes (Appearance.changed (TextStyle.appearance st)
                              (TextStyle.appearance st))]) self' /\
    Screen.style self' = Some st.
Proof.
  intros Hr Hst. rewrite <- style_cmds_same.
  destruct (set_style_queues_aux st self Hr) as (self' & Hq & Hs).
  rewrite Hst in Hq. by exists self'.
Qed.

(** What one step of [set_style] does on any terminal: it keeps the
    current style, sends its commands [cs] when it succeeds, and sends
    nothing when it fails, which it can only if it had a command. *)
Definition sends (m : io Screen.t unit) (self : Screen.t) (cs : list Cmd)
    : Prop :=
  Screen.style (m self).2 = Screen.style self /\
  match (m self).1 with
  | ROk _ => sent (m self).2 = sent self ++ cs
  | RErr _ => sent (m self).2 = sent self /\ cs <> []
  end.

Lemma sends_queue_if (b : bool) c self :
  sends ((if b then Screen.queue [c] else io_ret tt);; io_ret tt) self
    (if b then [c] else []).
Proof.
  destruct b, self as [[sz raw q w [|[e|] fs]] d th sty km]; unfold sends; cbn;
    unfold sent, Term.sent; cbn; by rewrite ?app_nil_r, ?app_assoc.
Qed.

Lemma sends_set_background_color color self :
  sends (Screen.set_background_color color) self
    (if from_option (fun s => bool_decide (TextStyle.background s <> color))
          true (Screen.style self)
     then [SetBackgroundColor color] else []).
Proof. exact (sends_queue_if _ _ self). Qed.

Lemma sends_set_foreground_color color self :
  sends (Screen.set_foreground_color color) self
    (if from_option (fun s => bool_decide (TextStyle.foreground s <> color))
          true (Screen.style self)
     then [SetForegroundColor color] else []).
Proof. exact (sends_queue_if _ _ self). Qed.

Lemma sends_set_appearance app self :
  sends (Screen.set_appearance app) self
    (let attrs := Appearance.changed app
                    (from_option TextStyle.appearance Appearance.default
                       (Screen.style self)) in
     if Attributes.is_empty attrs then [] else [SetAttributes attrs]).
Proof.
  pose proof (sends_queue_if (negb (Attributes.is_empty (Appearance.changed app
    (from_option TextStyle.appearance Appearance.default (Screen.style self)))))
    (SetAttributes (Appearance.changed app
       (from_option TextStyle.appearance Appearance.default (Screen.style self))))
    self) as Hs.
  unfold sends, Screen.set_appearance in *. cbv zeta.
  by destruct (Attributes.is_empty _).
Qed.

Lemma sends_ok m self cs self' :
  sends m self cs -> m self = (ROk tt, self') ->
  Screen.style self' = Screen.style self /\ sent self' = sent self ++ cs.
Proof. unfold sends. intros Hs Hm. by rewrite Hm in Hs. Qed.

(** A step that fails keeps the style and has sent nothing: what was
    sent is a proper prefix of what was to be sent. *)
Lemma sends_failed_style m self cs e self' :
  sends m self cs -> m self = (RErr e, self') ->
  Screen.style self' = Screen.style self.
Proof. unfold sends. intros Hs Hm. rewrite Hm in Hs. apply Hs. Qed.

Lemma sends_failed m self cs l e self' :
  sends m self cs -> m self = (RErr e, self') ->
  exists cs', sent self' = sent self ++ cs' /\
    cs' `prefix_of` cs ++ l /\ cs' <> cs ++ l.
Proof.
  unfold sends. intros Hs Hm. rewrite Hm in Hs. destruct Hs as (? & ? & ?).
  exists []. rewrite app_nil_r.
  split; [done|]. split; [apply prefix_nil|by destruct cs].
Qed.

(** A failure after a part [l1] that was sent. *)
Lemma sent_after (l1 l2 sent0 sent1 sent2 : list Cmd) :
  sent1 = sent0 ++ l1 ->
  (exists cs, sent2 = sent1 ++ cs /\ cs `prefix_of` l2 /\ cs <> l2) ->
  exists cs, sent2 = sent0 ++ cs /\ cs `prefix_of` l1 ++ l2 /\ cs <> l1 ++ l2.
Proof.
  intros -> (cs & -> & Hp & Hne). exists (l1 ++ cs). rewrite app_assoc.
  split; [done|]. split; [by apply prefix_app|]. by intros ?%app_inv_head.
Qed.

(** C26. When [set_style] fails the screen does not record the style:
    the current style stays as it was, although the commands before the
    failure have been queued. *)
Theorem set_style_failure st self e self' :
  Screen.set_style st self = (RErr e, self') ->
  Screen.style self' = Screen.style self /\
  exists cs, sent self' = sent self ++ cs /\
    cs `prefix_of` style_cmds (Screen.style self) st /\
    cs <> style_cmds (Screen.style self) st.
Proof.
  unfold Screen.set_style, style_cmds. intros Hrun.
  pose proof (sends_set_background_color (TextStyle.background st) self) as H1.
  apply io_bind_inv_RErr in Hrun as [Hrun|([] & s1 & Hm1 & Hrun)].
  { split; [by eapply sends_failed_style|by eapply sends_failed]. }
  destruct (sends_ok _ _ _ _ H1 Hm1) as [Hs1 Hsent1].
  pose proof (sends_set_foreground_color (TextStyle.foreground st) s1) as H2.
  rewrite Hs1 in H2.
  apply io_bind_inv_RErr in Hrun as [Hrun|([] & s2 & Hm2 & Hrun)].
  { split; [etrans; [by eapply sends_failed_style|done]|].
    eapply sent_after; [done|]. by eapply sends_failed. }
  destruct (sends_ok _ _ _ _ H2 Hm2) as [Hs2 Hsent2].
  pose proof (sends_set_appearance (TextStyle.appearance st) s2) as H3.
  rewrite Hs2, Hs1 in H3.
  apply io_bind_inv_RErr in Hrun as [Hrun|([] & s3 & Hm3 & [=])].
  split; [etrans; [by eapply sends_failed_style|congruence]|].
  eapply sent_after; [done|]. eapply sent_after; [done|].
  destruct (sends_failed _ _ _ [] _ _ H3 Hrun) as (cs & Hcs).
  rewrite app_nil_r in Hcs. by exists cs.
Qed.

End set_style.

(** ** Writing through a view *)

Lemma queues_clear self :
  Term.reliable (Screen.out self) ->
  exists self', queues Screen.clear self [ClearAll] self' /\
    Screen.style self' = Screen.style self.
Proof. apply queues_one. Qed.

Lemma queues_cells_move_to c col row self :
  Term.reliable (Screen.out self) ->
  exists self',
    queues (Cells.move_to c col row) self
      [MoveTo (Area.col (Cells.bbox c) + col) (Area.row (Cells.bbox c) + row)]
      self' /\
    Screen.style self' = Screen.style self.
Proof. apply queues_one. Qed.

Lemma queues_cells_print_str c st self :
  Term.reliable (Screen.out self) ->
  exists self', queues (Cells.print_str c st) self [PrintStr st] self' /\
    Screen.style self' = Screen.style self.
Proof. apply queues_one. Qed.

(** The commands of [set_style] switch no mode. *)
Lemma style_cmds_mode_free cur st : forallb mode_free (style_cmds cur st) = true.
Proof.
  unfold style_cmds. by repeat (destruct (from_option _ _ _) || destruct
    (Attributes.is_empty _)).
Qed.

(** ** The life of a screen: [new], [cleanup], [Drop] *)

(** The commands [new] queues, and those [cleanup] queues. *)
Definition new_cmds : list Cmd :=
  [EnterAlternateScreen; CursorHide; DisableLineWrap; ClearAll;
   EnableMouseCapture].

Definition cleanup_cmds : list Cmd :=
  [DisableMouseCapture; LeaveAlternateScreen; EnableLineWrap; CursorShow;
   ResetColor].

Lemma modes_after_app m cs1 cs2 :
  modes_after m (cs1 ++ cs2) = modes_after (modes_after m cs1) cs2.
Proof. apply foldl_app. Qed.

(** Commands that switch no mode leave the modes as they are. *)
Lemma modes_after_free m cs :
  forallb mode_free cs = true -> modes_after m cs = m.
Proof.
  revert m. induction cs as [|c cs IH]; intros m; [done|].
  cbn [forallb]. intros [Hc Hcs]%andb_true_iff.
  unfold modes_after in *. cbn [foldl]. rewrite <- (IH m Hcs) at 2.
  f_equal. by destruct c.
Qed.

Section life.
Context `{TH : Themes} `{KM : KeyMaps}.
Implicit Types (t : Term.t) (self : Screen.t).

(** [new] on a reliable terminal. *)
Lemma screen_new_ok t :
  Term.reliable t ->
  exists self, Screen.new t = (ROk self, Screen.out self) /\
    Term.reliable (Screen.out self) /\
    Term.raw_mode (Screen.out self) = true /\
    Term.queued (Screen.out self) = Term.queued t ++ new_cmds /\
    Term.written (Screen.out self) = Term.written t /\
    Screen.dim self = Dim.new (Term.size t).1 (Term.size t).2 /\
    Screen.style self = None /\ Screen.theme self = Theme_default /\
    Screen.keymap self = KeyMap_default.
Proof.
  intros Hr. unfold Screen.new.
  destruct (term_get_size_reliable t Hr) as (t1 & E1 & Hr1 & ? & ? & ? & ?).
  rewrite (io_bind_ROk _ _ _ _ _ E1). destruct (Term.size t) as [w h].
  destruct (term_set_raw_mode_reliable true t1 Hr1)
    as (t2 & E2 & Hr2 & ? & ? & ? & ?).
  rewrite (io_bind_ROk _ _ _ _ _ E2).
  destruct (term_queue_all_reliable new_cmds t2 Hr2)
    as (t3 & E3 & Hr3 & ? & ? & ? & ?).
  unfold new_cmds in E3. rewrite (io_bind_ROk _ _ _ _ _ E3).
  exists (Screen.mk t3 (Dim.new w h) Theme_default None KeyMap_default).
  split; [done|]. cbn. repeat split; congruence.
Qed.

(** [cleanup] on a reliable terminal. *)
Lemma screen_cleanup_ok self :
  Term.reliable (Screen.out self) ->
  exists self', Screen.cleanup self = (ROk tt, self') /\
    Term.reliable (Screen.out self') /\
    Term.raw_mode (Screen.out self') = false /\
    Term.queued (Screen.out self') = [] /\
    Term.written (Screen.out self') = sent self ++ cleanup_cmds.
Proof.
  intros Hr. unfold Screen.cleanup.
  destruct (queues_queue cleanup_cmds self Hr) as (s1 & (E1 & He & Hr1) & _).
  unfold cleanup_cmds in E1. rewrite (io_bind_ROk _ _ _ _ _ E1).
  destruct (term_flush_reliable _ Hr1) as (t2 & E2 & Hr2 & ? & ? & ? & Hw).
  unfold Screen.flush. unfold io_bind at 1. unfold io_on at 1. rewrite E2.
  destruct (term_set_raw_mode_reliable false t2 Hr2)
    as (t3 & E3 & Hr3 & ? & ? & ? & ?).
  unfold io_bind, io_on. cbn [Screen.out Screen.set_out]. rewrite E3.
  eexists. split; [done|]. cbn. apply emits_sent in He. unfold sent in *.
  repeat split; congruence.
Qed.

(** C23. A screen created on a terminal in its normal modes and
    dropped leaves the terminal as it was found, whatever was drawn in
    between, when no operation fails: raw mode is off, nothing is left
    queued, and the alternate screen, the cursor, line wrapping and
    mouse capture are back to normal. *)
Theorem screen_modes_restored t self self1 cs :
  Term.reliable t -> modes_after cooked (Term.sent t) = cooked ->
  Screen.new t = (ROk self, Screen.out self) ->
  Term.reliable (Screen.out self1) -> sent self1 = sent self ++ cs ->
  forallb mode_free cs = true ->
  Term.raw_mode (Screen.drop self1) = false /\
  Term.queued (Screen.drop self1) = [] /\
  modes_after cooked (Term.written (Screen.drop self1)) = cooked.
Proof.
  intros Hr Hm Hnew Hr1 Hsent Hfree.
  destruct (screen_new_ok t Hr) as (self0 & Hnew0 & _ & _ & Hq & Hw & _).
  rewrite Hnew in Hnew0. injection Hnew0 as <-.
  destruct (screen_cleanup_ok self1 Hr1) as (self2 & Hc & _ & Hraw & Hq2 & Hw2).
  unfold Screen.drop. rewrite Hc. cbn [snd]. do 2 (split; [done|]).
  rewrite Hw2, Hsent. unfold sent, Term.sent. rewrite Hq, Hw, app_assoc.
  fold (Term.sent t). rewrite !modes_after_app, Hm.
  by rewrite (modes_after_free _ cs).
Qed.

(** C25. When [new] fails while it queues its commands, raw mode has
    been enabled and stays enabled: no screen was made, so nothing will
    run [cleanup]. *)
Theorem screen_new_failure t k err fs :
  (k < 5)%nat ->
  Term.faults t = None :: None :: replicate k None ++ Some err :: fs ->
  (Screen.new t).1 = RErr (Error.Crossterm err) /\
  Term.raw_mode (Screen.new t).2 = true.
Proof.
  intros Hk Hf. destruct t as [[w h] raw q wr f]. cbn in Hf. subst f.
  do 5 (destruct k as [|k]; [done|]). lia.
Qed.

(** What [cleanup] does to raw mode on any terminal: it is switched
    off by the last step, which is reached only if no step has failed. *)
Lemma screen_cleanup_raw_mode self :
  Term.raw_mode (Screen.out (Screen.cleanup self).2) =
    if (Screen.cleanup self).1 is ROk _ then false
    else Term.raw_mode (Screen.out self).
Proof.
  unfold Screen.cleanup, Screen.queue, Screen.flush, io_bind, io_on.
  pose proof (term_queue_all_raw_mode
    [DisableMouseCapture; LeaveAlternateScreen; EnableLineWrap; CursorShow;
     ResetColor] (Screen.out self)) as H1.
  destruct (Term.queue_all _ _) as [[[]|e1] t1]; cbn in *; [|done].
  pose proof (term_flush_raw_mode t1) as H2.
  destruct (Term.flush t1) as [[[]|e2] t2]; cbn in *; [|congruence].
  pose proof (term_disable_raw_mode_any t2) as H3.
  destruct (Term.disable_raw_mode t2) as [[[]|e3] t3]; cbn in *; congruence.
Qed.

(** C24. Dropping a screen takes the terminal out of raw mode exactly
    when every step of [cleanup] succeeds: a failure to queue or to
    flush the commands skips [disable_raw_mode]. *)
Theorem screen_drop_raw_mode self :
  Term.raw_mode (Screen.out self) = true ->
  (Term.raw_mode (Screen.drop self) = false <->
   (Screen.cleanup self).1 = ROk tt).
Proof.
  intros Hraw. unfold Screen.drop. rewrite screen_cleanup_raw_mode, Hraw.
  by destruct (Screen.cleanup self).1 as [[]|e].
Qed.

End life.

(** ** Views *)

(** [cells] gives a view exactly when the box has a cell on the
    screen; the view then covers the cells of the box that are on the
    screen, and no others, and is not empty. *)
Theorem cells_inside self bbox :
  Area.wf (Screen.bbox self) -> Area.wf bbox ->
  match cells self bbox with
  | Some c =>
      Area.wf (Cells.bbox c) /\ 0 < Cells.width c /\ 0 < Cells.height c /\
      forall col row, Area.cell_in (Cells.bbox c) col row <->
        Area.cell_in (Screen.bbox self) col row /\ Area.cell_in bbox col row
  | None =>
      forall col row,
        ~ (Area.cell_in (Screen.bbox self) col row /\ Area.cell_in bbox col row)
  end.
Proof.
  intros Hs Hb. unfold cells.
  pose proof (bbox_clip_wf _ _ Hs Hb) as Hwf.
  pose proof (bbox_is_empty_cells (BBox.clip (Screen.bbox self) bbox)) as He.
  destruct (BBox.is_empty _) eqn:E.
  - intros col row Hin. apply bbox_clip_cells in Hin. revert Hin.
    apply He; [apply Hwf..|done].
  - cbn [Cells.bbox Cells.new]. split; [done|].
    unfold Cells.width, Cells.height, Cells.bbox, Cells.new.
    apply bool_decide_eq_false in E. unfold BBox.dim in E.
    destruct Hwf as [(_ & _ & Hw & Hh) _]. fold (Area.width (BBox.clip
      (Screen.bbox self) bbox)) (Area.height (BBox.clip (Screen.bbox self) bbox))
      in E.
    split; [|split; [|apply bbox_clip_cells]]; unfold is_u16 in *; lia.
Qed.

(** ** Concrete instances *)

(** The themes and the key map of the concrete instances: one style
    for every group, no key bound. *)
Definition sample_themes : Themes := {|
  StyleGroup := unit;
  StyleGroup_Enabled := tt;
  Theme_default := sample_theme;
  Theme_style th _ :=
    TextStyle.with_foreground
      (TextStyle.with_background TextStyle.default (Theme.background th))
      (Theme.foreground th);
|}.

Definition sample_keymaps : KeyMaps := (∅ : KeyMap.t).

(** A terminal of twenty columns and one row, in raw mode, on which no
    operation fails, and a screen on it. *)
Definition sample_term : Term.t := Term.mk (20, 1) true [] [] [].

Definition sample_screen : Screen.t :=
  Screen.mk sample_term (Dim.new 20 1) sample_theme None ∅.

(** Italic text in the default colors. *)
Definition italic_style : TextStyle.t :=
  TextStyle.with_appearance TextStyle.default
    (Appearance.with_italic Appearance.default true).

(** A terminal as a program finds it, eighty columns by twenty-four
    rows, and the screen [new] makes on it. *)
Definition fresh_term : Term.t := Term.mk (80, 24) false [] [] [].

Definition fresh_screen : Screen.t :=
  Screen.mk (Term.mk (80, 24) true new_cmds [] []) (Dim.new 80 24)
    sample_theme None ∅.

Lemma set_style_queues_witness :
  Term.reliable (Screen.out sample_screen) /\
  exists self',
    queues (Screen.set_style italic_style) sample_screen
      (style_cmds (Screen.style sample_screen) italic_style) self' /\
    Screen.style self' = Some italic_style.
Proof.
  split; [by constructor|].
  apply (set_style_queues italic_style sample_screen). by constructor.
Defined.

Lemma set_style_again_witness :
  let self := Screen.set_current_style sample_screen (Some italic_style) in
  Term.reliable (Screen.out self) /\ Screen.style self = Some italic_style /\
  exists self',
    queues (Screen.set_style italic_style) self
      (if decide (Appearance.attributes (TextStyle.appearance italic_style) = ∅)
       then []
       else [SetAttributes
               (Appearance.changed (TextStyle.appearance italic_style)
                  (TextStyle.appearance italic_style))]) self' /\
    Screen.style self' = Some italic_style.
Proof.
  intros self. split; [by constructor|]. split; [done|].
  apply (set_style_again italic_style self); [by constructor|done].
Defined.

Lemma set_style_failure_witness :
  let self := Screen.set_out sample_screen
                (Term.mk (20, 1) true [] [] [None; Some 5]) in
  let r := Screen.set_style italic_style self in
  r = (RErr (Error.Crossterm 5), r.2) /\
  Screen.style r.2 = Screen.style self /\
  exists cs, sent r.2 = sent self ++ cs /\
    cs `prefix_of` style_cmds (Screen.style self) italic_style /\
    cs <> style_cmds (Screen.style self) italic_style.
Proof.
  intros self r. split; [done|].
  apply (set_style_failure italic_style self (Error.Crossterm 5) r.2). done.
Defined.

Lemma screen_modes_restored_witness :
  let self1 := ((Screen.move_to 3 0;; Screen.print_str "ok") fresh_screen).2 in
  let cs := [MoveTo 3 0; PrintStr "ok"] in
  Term.reliable fresh_term /\
  modes_after cooked (Term.sent fresh_term) = cooked /\
  @Screen.new sample_themes sample_keymaps fresh_term
    = (ROk fresh_screen, Screen.out fresh_screen) /\
  Term.reliable (Screen.out self1) /\ sent self1 = sent fresh_screen ++ cs /\
  forallb mode_free cs = true /\
  Term.raw_mode (Screen.drop self1) = false /\
  Term.queued (Screen.drop self1) = [] /\
  modes_after cooked (Term.written (Screen.drop self1)) = cooked.
Proof.
  intros self1 cs. do 6 (split; [by repeat constructor|]).
  apply (@screen_modes_restored sample_themes sample_keymaps fresh_term
           fresh_screen self1 cs); by repeat constructor.
Defined.

Lemma screen_new_failure_witness :
  let t := Term.mk (80, 24) false [] [] [None; None; None; Some 7] in
  (1 < 5)%nat /\
  Term.faults t = None :: None :: replicate 1 None ++ Some 7 :: [] /\
  (@Screen.new sample_themes sample_keymaps t).1 = RErr (Error.Crossterm 7) /\
  Term.raw_mode (@Screen.new sample_themes sample_keymaps t).2 = true.
Proof.
  intros t. split; [lia|]. split; [done|].
  apply (@screen_new_failure sample_themes sample_keymaps t 1 7 []); [lia|done].
Defined.

Lemma screen_drop_raw_mode_witness :
  let self := Screen.set_out sample_screen
                (Term.mk (20, 1) true [] [] [None; None; Some 5]) in
  Term.raw_mode (Screen.out self) = true /\
  (Term.raw_mode (Screen.drop self) = false <->
   (Screen.cleanup self).1 = ROk tt).
Proof.
  intros self. split; [done|]. by apply (screen_drop_raw_mode self).
Defined.

Lemma cells_inside_witness :
  Area.wf (Screen.bbox sample_screen) /\ Area.wf (BBox.new 15 0 10 1) /\
  match cells sample_screen (BBox.new 15 0 10 1) with
  | Some c =>
      Area.wf (Cells.bbox c) /\ 0 < Cells.width c /\ 0 < Cells.height c /\
      forall col row, Area.cell_in (Cells.bbox c) col row <->
        Area.cell_in (Screen.bbox sample_screen) col row /\
        Area.cell_in (BBox.new 15 0 10 1) col row
  | None =>
      forall col row,
        ~ (Area.cell_in (Screen.bbox sample_screen) col row /\
           Area.cell_in (BBox.new 15 0 10 1) col row)
  end.
Proof.
  split; [compute_done|]. split; [compute_done|].
  apply (cells_inside sample_screen (BBox.new 15 0 10 1)); compute_done.
Defined.

