(* ===== verification/Widget.v ===== *)
(** * Widget: the contract between the screen and its widgets

    The [Widget] trait is declared in a module that is not part of the
    repository snapshot; [src/widget/button.rs] and
    [src/widget/label.rs] implement it and [src/screen.rs] calls it
    through [&dyn Widget].  The class below holds the methods those
    sources implement and call.  Widgets change their state behind a
    shared reference ([Cell]); the model passes the state explicitly, so
    an event handler returns the widget it leaves behind.

    [WidgetLaws] states what the screen relies on: a handler that
    returns no action has changed nothing, so that a frame is redrawn
    whenever a widget's appearance may have changed.

    [WidgetDraw] is the drawing half of the trait. *)

From Stdlib Require Import ZArith.
From stdpp Require Import base option.
From S2P Require Import Prelude Geometry Layout Input Style Error Terminal.
From S2P Require Import Screen.

(** ** Borders *)

Inductive BorderHeight : Type :=
| Lowered
| Raised.

Inductive BorderStyle : Type :=
| Empty
| Bevel (h : BorderHeight).

Module Border.

Record t : Type := mk { style : BorderStyle }.

Definition new (style : BorderStyle) : t := mk style.

End Border.

#[export] Instance BorderHeight_eq_dec : EqDecision BorderHeight.
Proof. solve_decision. Defined.

#[export] Instance BorderStyle_eq_dec : EqDecision BorderStyle.
Proof. solve_decision. Defined.

#[export] Instance Border_eq_dec : EqDecision Border.t.
Proof. solve_decision. Defined.

(** ** The trait *)

Class Widget (W : Type) : Type := {
  (** [fn bounds(&self) -> AreaBound] *)
  bounds : W -> outcome AreaBound.t;
  (** [fn border(&self) -> Option<Border>] *)
  border : W -> option Border.t;
  (** [fn focus(&self, fev: FocusEvent) -> Option<Action>] *)
  focus : W -> FocusEvent -> option Action * W;
  (** [fn mouse_event(&self, mev, mods, dim, pos) -> Option<Action>] *)
  mouse_event :
    W -> MouseEvent -> ModKeys.t -> Dim.t -> Pos.t -> option Action * W;
}.

Class WidgetLaws (W : Type) `{Widget W} : Prop := {
  focus_quiet w fev w' : focus w fev = (None, w') -> w' = w;
  mouse_event_quiet w mev mods d p w' :
    mouse_event w mev mods d p = (None, w') -> w' = w;
  bounds_focus w fev : bounds (focus w fev).2 = bounds w;
  bounds_mouse_event w mev mods d p :
    bounds (mouse_event w mev mods d p).2 = bounds w;
}.

(** The drawing half of the trait, as [Screen::draw] calls it:
    [widget.style_group()] and [widget.draw(&mut cells, pos)].  Drawing
    takes the widget by shared reference and writes to the screen behind
    the view. *)
Class WidgetDraw `{Themes} (W : Type) : Type := {
  (** [fn style_group(&self) -> StyleGroup] *)
  style_group : W -> StyleGroup;
  (** [fn draw(&self, cells: &mut Cells, pos: Pos) -> Result<()>] *)
  draw : W -> Cells.t -> Pos.t -> io Screen.t unit;
}.

(** The default methods of the trait: a widget that has no border and
    ignores input. *)
Definition default_border {W} (w : W) : option Border.t := None.

Definition default_focus {W} (w : W) (fev : FocusEvent) : option Action * W :=
  (None, w).

Definition default_mouse_event {W} (w : W) (mev : MouseEvent)
    (mods : ModKeys.t) (d : Dim.t) (p : Pos.t) : option Action * W :=
  (None, w).

Definition default_style_group `{Themes} {W} (w : W) : StyleGroup :=
  StyleGroup_Enabled.

(** ** A widget that records the calls it receives

    The screen's dispatch is polymorphic in the widget; run on this
    instance it shows which calls it makes, in which order. *)

Inductive call : Type :=
| CallFocus (fev : FocusEvent)
| CallMouse (mev : MouseEvent) (mods : ModKeys.t) (d : Dim.t) (p : Pos.t).

#[export] Instance call_eq_dec : EqDecision call.
Proof. solve_decision. Defined.

Definition spy : Type := list call.

#[export] Instance spy_widget : Widget spy := {
  bounds _ := Ok AreaBound.default;
  border := default_border;
  focus w fev := (None, w ++ [CallFocus fev]);
  mouse_event w mev mods d p := (None, w ++ [CallMouse mev mods d p]);
}.
