(* ===== verification/Label.v ===== *)
(** * Label: the text label widget ([src/widget/label.rs])

    A label holds its text; its size preference is computed from the
    text's display width, cast to [u16].  The display width of a string
    is [unicode_width]'s, a library the sources only call: it is a
    parameter of the model ([StrWidth]), with the width of plain ASCII
    text as its instance.  [render] prints the lines the text-wrapping
    library [textwrap] breaks the text into, one per row of its view;
    the line breaking is a parameter as well ([TextWrap]).  The bound
    a label returns is shown to be one the layout solver accepts
    ([Solver.bound_wf]). *)

From Stdlib Require Import ZArith Lia String.
From stdpp Require Import base option list.
From S2P Require Import Prelude Geometry Layout Input Style Error Terminal.
From S2P Require Import Screen Widget Grid Solver.

#[local] Open Scope Z_scope.

(** [UnicodeWidthStr::width]. *)
Class StrWidth := str_width : string -> Z.

(** [textwrap::wrap_iter(text, width)]: the lines of the text wrapped
    to a width. *)
Class TextWrap := wrap_iter : string -> Z -> list string.

(** Printable ASCII: one column per character. *)
Definition ascii_width : StrWidth := fun s => Z.of_nat (String.length s).

Module Label.

Record t : Type := mk { txt : string }.

Definition new (txt : string) : t := mk txt.

Section ops.
Context `{O : Overflow} `{SW : StrWidth}.

Definition bounds (self : t) : outcome AreaBound.t :=
  let b := AreaBound.default in
  let w := wrap16 (str_width (txt self)) in
  q ← div16 w 24;
  rows ← add16 q 1;
  q ← div16 w rows;
  cols ← add16 q 1;
  hi ← add16 cols 2;
  mret (AreaBound.with_rows
          (AreaBound.with_columns b (AreaBound.mk_range cols hi))
          (AreaBound.mk_range rows rows)).

End ops.

(** Render the widget *)
Definition render `{TW : TextWrap} (self : t) (cells : Cells.t)
    : io Screen.t unit :=
  let width := Cells.width cells in
  let height := Cells.height cells in
  (io_for (imap pair (take (Z.to_nat height) (wrap_iter (txt self) width)))
     (fun '(row, txt) =>
        let row := wrap16 (Z.of_nat row) in (* limited to u16 by take(height) *)
        Cells.move_to cells 0 row;;
        Cells.print_str cells txt);;
   io_ret tt)%io.

(** The reference: the bound in closed form, for a text of width [w]. *)
Definition bounds_of_width (w : Z) : AreaBound.t :=
  let rows := w / 24 + 1 in
  let cols := w / rows + 1 in
  AreaBound.mk (AreaBound.mk_range cols (cols + 2))
               (AreaBound.mk_range rows rows).

End Label.

#[export] Instance Label_eq_dec : EqDecision Label.t.
Proof. solve_decision. Defined.

(** A label takes the trait's default handlers: it ignores input. *)
#[export] Instance Label_widget `{O : Overflow} `{SW : StrWidth} :
    Widget Label.t := {
  bounds := Label.bounds;
  border := default_border;
  focus := default_focus;
  mouse_event := default_mouse_event;
}.

(** A label is drawn by [render], in the style of the group the trait
    gives by default. *)
#[export] Instance Label_draw `{Themes} `{TW : TextWrap} :
    WidgetDraw Label.t := {
  style_group := default_style_group;
  draw self cells pos := Label.render self cells;
}.

#[export] Instance Label_widget_laws `{O : Overflow} `{SW : StrWidth} :
  WidgetLaws Label.t.
Proof.
  split; try done.
  - intros w fev w' H. cbv in H. congruence.
  - intros w mev mods d p w' H. cbv in H. congruence.
Qed.

(** ** Facts *)

Section label_bounds.
Context `{O : Overflow} `{SW : StrWidth}.

(** Arithmetic behind [bounds]: for a 16-bit width the row count is at
    most 2731 and the column count between 1 and 24. *)
Lemma label_rows_cols w :
  is_u16 w ->
  let rows := w / 24 + 1 in
  let cols := w / rows + 1 in
  1 <= rows <= 2731 /\ 1 <= cols <= 24 /\ w < rows * cols.
Proof.
  intros Hw rows cols.
  assert (Hrows : 1 <= rows <= 2731) by (unfold rows; u16_lia).
  assert (H24 : w < 24 * rows) by (unfold rows; u16_lia).
  assert (Hq : 0 <= w / rows < 24).
  { split; [apply Z.div_pos; u16_lia|apply Z.div_lt_upper_bound; lia]. }
  split; [done|]. split; [unfold cols; lia|].
  unfold cols. pose proof (Z.mod_pos_bound w rows ltac:(lia)).
  pose proof (Z.div_mod w rows ltac:(lia)). nia.
Qed.

(** Running [bounds]: no step can overflow or divide by zero. *)
Lemma label_bounds_run l :
  Label.bounds l = Ok (Label.bounds_of_width (wrap16 (str_width (Label.txt l)))).
Proof.
  set (w := wrap16 (str_width (Label.txt l))).
  assert (Hw : is_u16 w) by apply wrap16_is_u16.
  destruct (label_rows_cols w Hw) as (Hrows & Hcols & _).
  unfold Label.bounds. fold w. unfold div16.
  rewrite decide_False by done. cbn [mbind outcome_bind].
  rewrite add16_exact by u16_lia. cbn [mbind outcome_bind].
  rewrite decide_False by lia. cbn [mbind outcome_bind].
  rewrite add16_exact by (unfold is_u16, u16_max; lia).
  cbn [mbind outcome_bind].
  rewrite add16_exact by (unfold is_u16, u16_max; lia). done.
Qed.

(** [bounds] never panics, under either build profile: the casts
    and divisions keep every intermediate value far below [u16::MAX].
    The result is the closed form for the text's width truncated to 16
    bits: between 1 and 24 columns (up to two more accepted). *)
Theorem label_bounds_eq l :
  Label.bounds l = Ok (Label.bounds_of_width (wrap16 (str_width (Label.txt l)))) /\
  1 <= AreaBound.lo (AreaBound.cols
         (Label.bounds_of_width (wrap16 (str_width (Label.txt l))))) <= 24.
Proof.
  split; [apply label_bounds_run|].
  apply (label_rows_cols (wrap16 (str_width (Label.txt l)))), wrap16_is_u16.
Qed.

(** The minimum size [bounds] asks for holds the text: a text
    whose width fits 16 bits has fewer columns than [rows * cols]. *)
Theorem label_bounds_fits l :
  is_u16 (str_width (Label.txt l)) ->
  exists b, Label.bounds l = Ok b /\
    str_width (Label.txt l) <
      AreaBound.lo (AreaBound.rows b) * AreaBound.lo (AreaBound.cols b).
Proof.
  intros Hw. eexists. split; [apply label_bounds_run|].
  rewrite wrap16_small by done. apply (label_rows_cols _ Hw).
Qed.

(** The closed form is well typed for a width of 16 bits. *)
Lemma bounds_of_width_typed w :
  is_u16 w ->
  let b := Label.bounds_of_width w in
  bound_wf b /\
  1 <= AreaBound.lo (AreaBound.cols b) <= 24 /\
  AreaBound.hi (AreaBound.cols b) = AreaBound.lo (AreaBound.cols b) + 2 /\
  AreaBound.hi (AreaBound.rows b) = AreaBound.lo (AreaBound.rows b).
Proof.
  intros Hw b. destruct (label_rows_cols w Hw) as (Hrows & Hcols & _).
  unfold b, bound_wf, range_wf, Label.bounds_of_width, u16_max. cbn. lia.
Qed.

(** What [bounds] returns is a bound the solver can use. *)
Lemma label_bounds_wf l : exists b, Label.bounds l = Ok b /\ bound_wf b.
Proof.
  eexists. split; [apply label_bounds_run|].
  apply bounds_of_width_typed, wrap16_is_u16.
Qed.

(** C31. The size preference of a label is well typed, under either
    build profile and for every text: [bounds] cannot panic, and the
    bound it returns, the closed form for the text's width truncated to
    16 bits, has ranges of [u16] extents that are not empty, so that
    the layout has a size to give; the columns are between 1 and 24 and
    may be exceeded by exactly two, and the rows are fixed. *)
Theorem label_bounds_typed l :
  let b := Label.bounds_of_width (wrap16 (str_width (Label.txt l))) in
  Label.bounds l = Ok b /\ bound_wf b /\
  1 <= AreaBound.lo (AreaBound.cols b) <= 24 /\
  AreaBound.hi (AreaBound.cols b) = AreaBound.lo (AreaBound.cols b) + 2 /\
  AreaBound.hi (AreaBound.rows b) = AreaBound.lo (AreaBound.rows b).
Proof.
  intros b. split; [apply label_bounds_run|].
  apply bounds_of_width_typed, wrap16_is_u16.
Qed.


End label_bounds.

(** The cast [as u16] truncates: a text 65536 columns wide gets the
    bound of the empty text. *)
Example label_bounds_truncates (l : Label.t) :
  @Label.bounds Debug (fun _ => 65536) l = @Label.bounds Debug (fun _ => 0) l.
Proof. done. Qed.

(** ** Concrete instances *)

Lemma label_bounds_fits_witness :
  is_u16 (@str_width ascii_width (Label.txt (Label.new "A fairly long label text, to be wrapped"))) /\
  exists b,
    @Label.bounds Debug ascii_width
      (Label.new "A fairly long label text, to be wrapped") = Ok b /\
    @str_width ascii_width
      (Label.txt (Label.new "A fairly long label text, to be wrapped")) <
      AreaBound.lo (AreaBound.rows b) * AreaBound.lo (AreaBound.cols b).
Proof.
  split; [compute_done|].
  apply (@label_bounds_fits Debug ascii_width
           (Label.new "A fairly long label text, to be wrapped")).
  compute_done.
Defined.
