(* ===== verification/Button.v ===== *)
(** * Button: the button widget ([src/widget/button.rs])

    A button is a label and an interaction state, one of [Disabled],
    [Enabled], [Hovered], [Focused] and [Pressed].  The source keeps the
    state in a [Cell] and changes it behind [&self]; here [focus] and
    [mouse_event] return the action together with the button they leave.

    The state machine the handlers implement is stated on its own as the
    relation [Button.step]; the theorems show that the handlers refine
    it, that an action is returned exactly when the state changes, and
    which states events can and cannot reach. *)

From Stdlib Require Import ZArith String.
From stdpp Require Import base option relations.
From S2P Require Import Prelude Geometry Layout Input Style Error Terminal.
From S2P Require Import Screen Widget Label.

Module Button.

(** Button state *)
Inductive State : Type :=
| Disabled
| Enabled
| Hovered
| Focused
| Pressed.

#[global] Instance State_eq_dec : EqDecision State.
Proof. solve_decision. Defined.

Record t : Type := mk {
  lbl : Label.t;
  state : State;
}.

(** [self.state.set(s)] *)
Definition set_state (self : t) (s : State) : t := mk (lbl self) s.

Definition new (txt : string) : t :=
  let lbl := Label.new txt in
  let state := Enabled in
  mk lbl state.

Definition disable (self : t) : t := set_state self Disabled.

Definition enable (self : t) : t :=
  match state self with
  | Disabled => set_state self Enabled
  | _ => self
  end.

Definition style (self : t) (theme : Theme.t) : TextStyle.t :=
  match state self with
  | Disabled =>
      TextStyle.with_foreground
        (TextStyle.with_background TextStyle.default (Theme.background theme))
        (Theme.dark_shadow theme)
  | Enabled =>
      TextStyle.with_foreground
        (TextStyle.with_background TextStyle.default (Theme.background theme))
        (Theme.foreground theme)
  | Focused =>
      TextStyle.with_foreground
        (TextStyle.with_background TextStyle.default (Theme.secondary theme))
        (Theme.background theme)
  | Hovered =>
      TextStyle.with_foreground
        (TextStyle.with_background TextStyle.default (Theme.background theme))
        (Theme.secondary theme)
  | Pressed =>
      TextStyle.with_foreground
        (TextStyle.with_background TextStyle.default (Theme.tertiary theme))
        (Theme.background theme)
  end.

Definition bounds `{O : Overflow} `{SW : StrWidth} (self : t)
    : outcome AreaBound.t :=
  Label.bounds (lbl self).

Definition border (self : t) : option Border.t :=
  Some match state self with
       | Disabled => Border.new Empty
       | Pressed => Border.new (Bevel Lowered)
       | _ => Border.new (Bevel Raised)
       end.

(** Draw the widget *)
Definition draw `{CT : CellsText} (self : t) (cells : Cells.t)
    : io Screen.t unit := fun screen =>
  let theme := Cells.theme cells screen in
  let style := style self theme in
  (Cells.set_style cells style;;
   Cells_print_text cells (Label.txt (lbl self)))%io screen.

Definition focus (self : t) (fev : FocusEvent) : option Action * t :=
  let state := state self in
  match fev, state with
  | Offer, Enabled => (Some Redraw, set_state self Focused)
  | Take, Focused | Take, Hovered | Take, Pressed =>
      (Some Redraw, set_state self Enabled)
  | HoverInside, Enabled => (Some Redraw, set_state self Hovered)
  | HoverOutside, Pressed => (Some Redraw, set_state self Focused)
  | HoverOutside, Hovered => (Some Redraw, set_state self Enabled)
  | _, _ => (None, self)
  end.

Definition mouse_event (self : t) (mev : MouseEvent) (mods : ModKeys.t)
    (pos : Pos.t) : option Action * t :=
  let state := state self in
  let next :=
    match mev, state with
    | _, Disabled => None
    | ButtonDown _, _ => Some Pressed
    | ButtonUp _, Pressed => Some Focused
    | _, _ => None
    end in
  match next with
  | Some s =>
      if decide (s <> state) then (Some Redraw, set_state self s)
      else (None, self)
  | None => (None, self)
  end.

(** *** The state machine, as a relation *)

(** What a button can be sent. *)
Inductive input : Type :=
| InFocus (fev : FocusEvent)
| InMouse (mev : MouseEvent).

(** The transitions that change the state. *)
Inductive step : State -> input -> State -> Prop :=
| step_offer : step Enabled (InFocus Offer) Focused
| step_take s : s = Focused \/ s = Hovered \/ s = Pressed ->
    step s (InFocus Take) Enabled
| step_hover_in : step Enabled (InFocus HoverInside) Hovered
| step_hover_out_pressed : step Pressed (InFocus HoverOutside) Focused
| step_hover_out_hovered : step Hovered (InFocus HoverOutside) Enabled
| step_down s b : s <> Disabled -> s <> Pressed ->
    step s (InMouse (ButtonDown b)) Pressed
| step_up b : step Pressed (InMouse (ButtonUp b)) Focused.

(** Send an input through the matching handler. *)
Definition handle (self : t) (i : input) : option Action * t :=
  match i with
  | InFocus fev => focus self fev
  | InMouse mev => mouse_event self mev ModKeys.empty Pos.default
  end.

(** Send a sequence of inputs, collecting the actions. *)
Fixpoint run (self : t) (ins : list input) : list (option Action) * t :=
  match ins with
  | [] => ([], self)
  | i :: ins =>
      let '(a, self) := handle self i in
      let '(acts, self) := run self ins in
      (a :: acts, self)
  end.

(** Some input changes the state from [s] to [s']. *)
Definition moves (s s' : State) : Prop := exists i, step s i s'.

End Button.

#[export] Instance Button_eq_dec : EqDecision Button.t.
Proof. solve_decision. Defined.

#[export] Instance Button_input_eq_dec : EqDecision Button.input.
Proof. solve_decision. Defined.

(** [Screen::mouse_action] passes the dimension of the box as well,
    which [Button::mouse_event] does not take. *)
#[export] Instance Button_widget `{O : Overflow} `{SW : StrWidth} :
    Widget Button.t := {
  bounds := Button.bounds;
  border := Button.border;
  focus := Button.focus;
  mouse_event self mev mods dim pos := Button.mouse_event self mev mods pos;
}.

(** A button draws itself in the style of its state; the style group
    is the trait's default. *)
#[export] Instance Button_draw `{Themes} `{CT : CellsText} :
    WidgetDraw Button.t := {
  style_group := default_style_group;
  draw self cells pos := Button.draw self cells;
}.

(** ** Proof automation *)

Create HintDb button discriminated.

#[export] Hint Constructors Button.step : button.
#[export] Hint Unfold Button.moves : button.
#[export] Hint Extern 1 (_ <> _) => discriminate : button.

(** Case analysis on the button's state and on the event. *)
Ltac button_cases :=
  repeat match goal with
  | b : Button.t |- _ => destruct b as [? []]
  | fev : FocusEvent |- _ => destruct fev
  | mev : MouseEvent |- _ => destruct mev as [?|?|[?|]]
  | i : Button.input |- _ => destruct i
  end; cbn in *.

(** Close a goal about one transition: a rule applies or none does. *)
Ltac button_step :=
  first [by (left; split; [done|eauto with button])
        |by (right; split; [done|split; [done|]];
             intros ? Hstep; inversion Hstep; intuition congruence)].

(** ** The handlers refine the state machine *)

Section button_refinement.
Implicit Types (b : Button.t) (s : Button.State).

(** What a handler may do with state [s] on input [i]: take the step
    the relation allows and ask for a redraw, or, when the relation
    allows none, return nothing and leave the button as it is. *)
Definition button_ok b i (r : option Action * Button.t) : Prop :=
  Button.lbl r.2 = Button.lbl b /\
  ((r.1 = Some Redraw /\ Button.step (Button.state b) i (Button.state r.2)) \/
   (r.1 = None /\ r.2 = b /\ forall s', ~ Button.step (Button.state b) i s')).

(** The two handlers against [button_ok], by cases on the state and
    the event: the form the lemmas below use. *)
Lemma button_focus_ok b fev :
  button_ok b (Button.InFocus fev) (Button.focus b fev).
Proof. unfold button_ok. button_cases; (split; [done|]); button_step. Qed.

Lemma button_mouse_event_ok b mev mods p :
  button_ok b (Button.InMouse mev) (Button.mouse_event b mev mods p).
Proof. unfold button_ok. button_cases; (split; [done|]); button_step. Qed.

(** C5. [focus] implements the state machine: on every state and
    focus event it takes the transition of [Button.step] and returns
    [Redraw], or no transition exists and it returns nothing and
    changes nothing.  The label is never touched. *)
Theorem button_focus_refines b fev :
  Button.lbl (Button.focus b fev).2 = Button.lbl b /\
  (((Button.focus b fev).1 = Some Redraw /\
    Button.step (Button.state b) (Button.InFocus fev)
      (Button.state (Button.focus b fev).2)) \/
   ((Button.focus b fev).1 = None /\ (Button.focus b fev).2 = b /\
    forall s', ~ Button.step (Button.state b) (Button.InFocus fev) s')).
Proof. exact (button_focus_ok b fev). Qed.

(** C9. [mouse_event] implements the state machine, whatever the
    modifier keys and the position it is passed. *)
Theorem button_mouse_event_refines b mev mods p :
  Button.lbl (Button.mouse_event b mev mods p).2 = Button.lbl b /\
  (((Button.mouse_event b mev mods p).1 = Some Redraw /\
    Button.step (Button.state b) (Button.InMouse mev)
      (Button.state (Button.mouse_event b mev mods p).2)) \/
   ((Button.mouse_event b mev mods p).1 = None /\
    (Button.mouse_event b mev mods p).2 = b /\
    forall s', ~ Button.step (Button.state b) (Button.InMouse mev) s')).
Proof. exact (button_mouse_event_ok b mev mods p). Qed.

(** The state machine is deterministic. *)
Lemma button_step_deterministic s i s1 s2 :
  Button.step s i s1 -> Button.step s i s2 -> s1 = s2.
Proof. by do 2 inversion 1. Qed.

(** Every transition changes the state. *)
Lemma button_step_changes s i s' : Button.step s i s' -> s <> s'.
Proof. inversion 1; intuition congruence. Qed.

(** No transition enters or leaves [Disabled]. *)
Lemma button_step_enabled s i s' :
  Button.step s i s' -> s <> Button.Disabled /\ s' <> Button.Disabled.
Proof. inversion 1; intuition congruence. Qed.

End button_refinement.

(** ** The widget contract *)

(** A button returns [Redraw] exactly when its state changes, for
    focus events and mouse events alike: no change goes undrawn, and
    no redraw is asked for nothing. *)
Theorem button_redraw_iff_changed b fev mev mods p :
  ((Button.focus b fev).1 = Some Redraw <->
     Button.state (Button.focus b fev).2 <> Button.state b) /\
  ((Button.mouse_event b mev mods p).1 = Some Redraw <->
     Button.state (Button.mouse_event b mev mods p).2 <> Button.state b).
Proof. button_cases; cbv; intuition congruence. Qed.

#[export] Instance Button_widget_laws `{O : Overflow} `{SW : StrWidth} :
  WidgetLaws Button.t.
Proof.
  split.
  - intros b fev b' H. destruct (button_focus_ok b fev) as [_ [[? _]|(_ & ? & _)]];
      cbn in *; rewrite H in *; simplify_eq/=; done.
  - intros b mev mods d p b' H.
    destruct (button_mouse_event_ok b mev mods p) as [_ [[? _]|(_ & ? & _)]];
      cbn in *; rewrite H in *; simplify_eq/=; done.
  - intros b fev. cbn. unfold Button.bounds. f_equal. apply button_focus_ok.
  - intros b mev mods d p. cbn. unfold Button.bounds. f_equal.
    apply button_mouse_event_ok.
Qed.

(** ** Reachability *)

Section button_reachability.
Implicit Types (b : Button.t) (s : Button.State) (ins : list Button.input).

Lemma button_handle_ok b i : button_ok b i (Button.handle b i).
Proof.
  destruct i; [apply button_focus_ok|apply button_mouse_event_ok].
Qed.

(** One handled input moves the state along [moves], or not at all. *)
Lemma button_handle_moves b i :
  rtc Button.moves (Button.state b) (Button.state (Button.handle b i).2).
Proof.
  destruct (button_handle_ok b i) as [_ [[_ Hs]|(_ & -> & _)]]; [|done].
  apply rtc_once. by exists i.
Qed.

Lemma button_run_cons b i ins :
  Button.run b (i :: ins) =
    ((Button.handle b i).1 :: (Button.run (Button.handle b i).2 ins).1,
     (Button.run (Button.handle b i).2 ins).2).
Proof.
  simpl. destruct (Button.handle b i) as [a b1]. simpl.
  by destruct (Button.run b1 ins).
Qed.

(** A run moves the state along [moves]. *)
Lemma button_run_moves b ins :
  rtc Button.moves (Button.state b) (Button.state (Button.run b ins).2).
Proof.
  revert b. induction ins as [|i ins IH]; intros b; [done|].
  rewrite button_run_cons. etrans; [apply button_handle_moves|apply IH].
Qed.

(** Whatever inputs a button is sent, its state follows the state
    machine, its label is kept, and one result is returned per input. *)
Theorem button_run_follows b ins :
  rtc Button.moves (Button.state b) (Button.state (Button.run b ins).2) /\
  Button.lbl (Button.run b ins).2 = Button.lbl b /\
  length (Button.run b ins).1 = length ins.
Proof.
  split; [apply button_run_moves|].
  revert b. induction ins as [|i ins IH]; intros b; [done|].
  rewrite button_run_cons. cbn [fst snd length].
  destruct (IH (Button.handle b i).2) as [-> ->].
  split; [apply button_handle_ok|done].
Qed.

(** [Disabled] is cut off from the other states. *)
Lemma button_moves_enabled s s' :
  rtc Button.moves s s' ->
  (s = Button.Disabled <-> s' = Button.Disabled).
Proof.
  induction 1 as [|s1 s2 s3 [i Hstep] _ IH]; [done|].
  apply button_step_enabled in Hstep. intuition congruence.
Qed.

(** C39. Events never disable a button, and never wake a disabled one:
    after any inputs the button is [Disabled] exactly if it was before,
    and a disabled button answers every input with no action. *)
Theorem button_disabled_inert b ins :
  (Button.state (Button.run b ins).2 = Button.Disabled <->
     Button.state b = Button.Disabled) /\
  (Button.state b = Button.Disabled ->
     Button.run b ins = (replicate (length ins) None, b)).
Proof.
  split.
  - symmetry. apply button_moves_enabled, button_run_moves.
  - revert b. induction ins as [|i ins IH]; intros b Hb; [done|].
    rewrite button_run_cons.
    destruct (button_handle_ok b i) as [_ [[_ Hs]|(-> & -> & _)]].
    + apply button_step_enabled in Hs. by destruct Hs.
    + by rewrite IH.
Qed.

(** The four live states are mutually reachable: from each of
    them some inputs lead to each other one, and [Take] alone leads
    back to [Enabled]. *)
Theorem button_live_states_connected s s' :
  s <> Button.Disabled -> s' <> Button.Disabled ->
  rtc Button.moves s s' /\
  (s <> Button.Enabled -> Button.step s (Button.InFocus Take) Button.Enabled).
Proof.
  intros Hs Hs'.
  assert (Hback : rtc Button.moves s Button.Enabled).
  { destruct s; try done; apply rtc_once; exists (Button.InFocus Take);
      eauto with button. }
  assert (Hforth : rtc Button.moves Button.Enabled s').
  { destruct s'; try done.
    - apply rtc_once. exists (Button.InFocus HoverInside). eauto with button.
    - apply rtc_once. exists (Button.InFocus Offer). eauto with button.
    - apply rtc_once. exists (Button.InMouse (ButtonDown Left)).
      eauto with button. }
  split; [by etrans|]. destruct s; try done; eauto with button.
Qed.

End button_reachability.

(** ** Appearance *)

(** The colors of a theme that buttons tell their states apart by. *)
Definition theme_distinct (th : Theme.t) : Prop :=
  Theme.background th <> Theme.secondary th /\
  Theme.background th <> Theme.tertiary th /\
  Theme.secondary th <> Theme.tertiary th /\
  Theme.foreground th <> Theme.dark_shadow th /\
  Theme.foreground th <> Theme.secondary th /\
  Theme.dark_shadow th <> Theme.secondary th.

(** With such a theme the style shows the state: two buttons
    drawn in the same style are in the same state, so every transition
    that asks for a redraw changes what is drawn. *)
Theorem button_style_injective th b1 b2 :
  theme_distinct th ->
  Button.style b1 th = Button.style b2 th ->
  Button.state b1 = Button.state b2.
Proof.
  unfold theme_distinct, Button.style. intros Hth.
  destruct b1 as [? []], b2 as [? []]; cbn; intros [= ]; intuition congruence.
Qed.

(** The border shows the state as well: none when disabled, lowered
    when pressed, raised otherwise. *)
Lemma button_border_state b :
  Button.border b =
    Some (Border.new
      (if decide (Button.state b = Button.Disabled) then Empty
       else if decide (Button.state b = Button.Pressed) then Bevel Lowered
       else Bevel Raised)).
Proof. by destruct b as [? []]. Qed.

(** ** Enabling and disabling *)

(** [enable] wakes a disabled button and leaves every other
    state alone; [disable] followed by [enable] resets to [Enabled]. *)
Theorem button_enable_disable b :
  Button.state (Button.enable b) =
    (if decide (Button.state b = Button.Disabled) then Button.Enabled
     else Button.state b) /\
  Button.enable (Button.disable b) = Button.set_state b Button.Enabled /\
  Button.enable (Button.enable b) = Button.enable b /\
  Button.state (Button.new (Label.txt (Button.lbl b))) = Button.Enabled.
Proof. by destruct b as [? []]. Qed.

(** ** Concrete instances *)

Lemma button_live_states_connected_witness :
  Button.Pressed <> Button.Disabled /\ Button.Hovered <> Button.Disabled /\
  rtc Button.moves Button.Pressed Button.Hovered /\
  (Button.Pressed <> Button.Enabled ->
   Button.step Button.Pressed (Button.InFocus Take) Button.Enabled).
Proof.
  split; [compute_done|]. split; [compute_done|].
  apply (button_live_states_connected Button.Pressed Button.Hovered);
    compute_done.
Defined.

Lemma button_style_injective_witness :
  theme_distinct sample_theme /\
  Button.style (Button.new "ok") sample_theme =
    Button.style (Button.enable (Button.disable (Button.new "cancel")))
      sample_theme /\
  Button.state (Button.new "ok") =
    Button.state (Button.enable (Button.disable (Button.new "cancel"))).
Proof.
  split; [compute_done|]. split; [compute_done|].
  apply (button_style_injective sample_theme (Button.new "ok")
           (Button.enable (Button.disable (Button.new "cancel"))));
    compute_done.
Defined.
