(* ===== verification/Dispatch.v ===== *)
(** * Dispatch: event routing ([src/screen.rs])

    [mouse_action] walks the widgets of the current layout in order,
    sends each one the focus notification that the mouse event and the
    hit test call for, and sends the mouse event itself to the widgets
    under the pointer.  [event_action] routes one input event, and
    [wait_action] is the loop of [Screen::step] that awaits events
    until one yields an action.

    The layout is a slice of [(&dyn Widget, BBox)].  The widgets belong
    to the application and are changed through shared references, and
    nothing prevents one widget from standing in the slice twice: the
    model keeps the widgets in a store (a list, by index) and the slice
    as a list of indices and boxes, and threads the store through the
    loop.  What the event loop keeps of a screen is [same_screen]: all
    but the dimensions, which a resize sets. *)

From Stdlib Require Import ZArith Lia String Ascii.
From stdpp Require Import base option list gmap.
From S2P Require Import Prelude Geometry Layout Input Style Error Terminal.
From S2P Require Import Screen Widget Label Button.

#[local] Set Warnings "-clear-no-such-hyp".

#[local] Open Scope Z_scope.

(** ** Mouse dispatch *)

Section dispatch.
Context {W : Type} `{Widget W}.

(** The layout: widgets by their index in the store, with their boxes. *)
Definition widget_boxes : Type := list (nat * BBox.t).

(** The body of the loop of [mouse_action] for one widget [w] with box
    [bbox]: the focus action, the mouse action and the widget after. *)
Definition deliver (mev : MouseEvent) (mods : ModKeys.t) (pos : Pos.t)
    (bbox : BBox.t) (w : W) : option Action * option Action * W :=
  let '(r, w) :=
    match mev, BBox.within bbox pos with
    | ButtonDown _, Some _ => focus w Offer
    | ButtonDown _, None => focus w Take
    | Drag None, Some _ => focus w HoverInside
    | Drag _, None => focus w HoverOutside
    | ButtonUp _, Some _ => focus w HoverInside
    | ButtonUp _, None => focus w HoverOutside
    | _, _ => (None, w)
    end in
  (* Only widget within bounds receives event *)
  match BBox.within bbox pos with
  | Some p =>
      let '(a, w) := mouse_event w mev mods (BBox.dim bbox) p in
      (r, a, w)
  | None => (r, None, w)
  end.

(** One iteration: look the widget up, deliver, write it back. *)
Definition mouse_action_body (mev : MouseEvent) (mods : ModKeys.t)
    (pos : Pos.t) (acc : option Action * option Action * list W)
    (wb : nat * BBox.t) : option Action * option Action * list W :=
  let '(action, redraw, ws) := acc in
  match ws !! wb.1 with
  | Some w =>
      let '(r, a, w) := deliver mev mods pos wb.2 w in
      (or action a, or redraw r, <[wb.1 := w]> ws)
  | None => acc
  end.

(** Handle a mouse action *)
Definition mouse_action (mev : MouseEvent) (mods : ModKeys.t) (pos : Pos.t)
    (wbs : widget_boxes) (ws : list W) : option Action * list W :=
  let '(action, redraw, ws) :=
    foldl (mouse_action_body mev mods pos) (None, None, ws) wbs in
  (or action redraw, ws).

(** Check an event for an action *)
Definition event_action (self : Screen.t) (ev : Event) (wbs : widget_boxes)
    (ws : list W) : option Action * Screen.t * list W :=
  match ev with
  | EvResize dim => (Some (Resize dim), Screen.set_dim self dim, ws)
  | EvKey key mods =>
      (KeyMap.lookup (Screen.keymap self) key mods, self, ws)
  | EvMouse mev mods pos =>
      let '(a, ws) := mouse_action mev mods pos wbs ws in
      (a, self, ws)
  end.

(** *** Specification vocabulary *)

(** The first [Some] of a list of optional actions. *)
Definition first_some (l : list (option Action)) : option Action :=
  foldr or None l.

(** Every index of the layout names a widget of the store. *)
Definition wbs_in_store (wbs : widget_boxes) (ws : list W) : Prop :=
  Forall (fun wb => is_Some (ws !! wb.1)) wbs.

(** The results of delivering to each widget of the layout, from the
    store [ws], each widget taken as it is before the pass. *)
Definition deliveries (mev : MouseEvent) (mods : ModKeys.t) (pos : Pos.t)
    (wbs : widget_boxes) (ws : list W)
    : list (option Action * option Action * W) :=
  omap (fun wb => deliver mev mods pos wb.2 <$> ws !! wb.1) wbs.

End dispatch.

(** ** Waiting for an action *)

(** What polling the event stream gives: the stream has ended, or its
    next item, an event or the failure to read one. *)
Inductive polled : Type :=
| StreamEnd
| StreamItem (r : result Event).

(** How far the loop of [step] has come on the items polled so far:
    still waiting, returned, or panicked on the end of the stream. *)
Inductive waited : Type :=
| Waiting
| Returned (r : result Action)
| Panicked (p : panic).

#[export] Instance waited_eq_dec : EqDecision waited.
Proof. solve_decision. Defined.

Section event_loop.
Context {W : Type} `{Widget W}.

(** The loop of [step]: await the next item of the stream, unwrap it,
    return its error or the action of its event, and go on when the
    event has none.  Returns the items left unread as well. *)
Fixpoint wait_action (self : Screen.t) (stream : list polled)
    (wbs : widget_boxes) (ws : list W)
    : waited * Screen.t * list W * list polled :=
  match stream with
  | [] => (Waiting, self, ws, [])
  | StreamEnd :: rest => (Panicked UnwrapNone, self, ws, rest)
  | StreamItem (RErr e) :: rest => (Returned (RErr e), self, ws, rest)
  | StreamItem (ROk ev) :: rest =>
      match event_action self ev wbs ws with
      | (Some action, self, ws) => (Returned (ROk action), self, ws, rest)
      | (None, self, ws) => wait_action self rest wbs ws
      end
  end.

(** An item the loop passes over: an event that yields no action. *)
Definition quiet_item (self : Screen.t) (wbs : widget_boxes) (ws : list W)
    (it : polled) : Prop :=
  exists ev, it = StreamItem (ROk ev) /\
    (event_action self ev wbs ws).1.1 = None.

End event_loop.

(** The focus notification [mouse_action] sends for a mouse event, to
    a widget under the pointer ([inside]) or away from it. *)
Definition focus_of (mev : MouseEvent) (inside : bool) : option FocusEvent :=
  match mev, inside with
  | ButtonDown _, true => Some Offer
  | ButtonDown _, false => Some Take
  | Drag None, true => Some HoverInside
  | Drag (Some _), true => None
  | Drag _, false => Some HoverOutside
  | ButtonUp _, true => Some HoverInside
  | ButtonUp _, false => Some HoverOutside
  end.

(** The calls one widget receives in a pass. *)
Definition calls_for (mev : MouseEvent) (mods : ModKeys.t) (pos : Pos.t)
    (bbox : BBox.t) : list call :=
  option_list (CallFocus <$>
    focus_of mev (bool_decide (is_Some (BBox.within bbox pos)))) ++
  option_list (CallMouse mev mods (BBox.dim bbox) <$> BBox.within bbox pos).

(** ** Facts on the dispatch loop *)

Section dispatch_facts.
Context {W : Type} `{Widget W}.
Implicit Types (mev : MouseEvent) (mods : ModKeys.t) (pos : Pos.t)
  (wbs : widget_boxes) (ws : list W) (action redraw : option Action).

Lemma first_some_cons (a : option Action) l :
  first_some (a :: l) = or a (first_some l).
Proof. done. Qed.

Lemma mouse_action_body_eq mev mods pos action redraw ws i bbox :
  mouse_action_body mev mods pos (action, redraw, ws) (i, bbox) =
    match ws !! i with
    | Some w =>
        (or action (deliver mev mods pos bbox w).1.2,
         or redraw (deliver mev mods pos bbox w).1.1,
         <[i := (deliver mev mods pos bbox w).2]> ws)
    | None => (action, redraw, ws)
    end.
Proof.
  unfold mouse_action_body. cbn [fst snd].
  destruct (ws !! i) as [w|]; [|done].
  by destruct (deliver mev mods pos bbox w) as [[r a] w'].
Qed.

(** The loop only touches the widgets the layout names. *)
Lemma mouse_action_loop_untouched mev mods pos wbs action redraw ws j :
  j ∉ wbs.*1 ->
  (foldl (mouse_action_body mev mods pos) (action, redraw, ws) wbs).2 !! j
    = ws !! j.
Proof.
  revert action redraw ws.
  induction wbs as [|[i bbox] wbs IH]; intros action redraw ws Hj; [done|].
  cbn [foldl]. rewrite mouse_action_body_eq.
  apply not_elem_of_cons in Hj as [Hji Hj]. cbn [fst] in Hji.
  destruct (ws !! i) as [w|]; rewrite IH by done; [|done].
  by apply list_lookup_insert_ne.
Qed.

Lemma mouse_action_loop_length mev mods pos wbs action redraw ws :
  length (foldl (mouse_action_body mev mods pos) (action, redraw, ws) wbs).2
    = length ws.
Proof.
  revert action redraw ws.
  induction wbs as [|[i bbox] wbs IH]; intros action redraw ws; [done|].
  cbn [foldl]. rewrite mouse_action_body_eq.
  destruct (ws !! i) as [w|]; rewrite IH; [|done]. apply length_insert.
Qed.

Lemma deliveries_insert mev mods pos wbs ws i w :
  i ∉ wbs.*1 ->
  deliveries mev mods pos wbs (<[i := w]> ws) = deliveries mev mods pos wbs ws.
Proof.
  unfold deliveries. induction wbs as [|[j bbox] wbs IH]; intros Hi; [done|].
  apply not_elem_of_cons in Hi as [Hij Hi]. cbn [fst] in Hij.
  cbn [omap list_omap fst snd]. rewrite list_lookup_insert_ne by done.
  by rewrite <- IH.
Qed.

(** With no widget named twice, the loop computes the first mouse
    action and the first focus action of the deliveries, each widget
    taken as it was before the pass. *)
Lemma mouse_action_loop_actions mev mods pos wbs action redraw ws :
  NoDup wbs.*1 ->
  (foldl (mouse_action_body mev mods pos) (action, redraw, ws) wbs).1 =
    (or action (first_some ((deliveries mev mods pos wbs ws).*1.*2)),
     or redraw (first_some ((deliveries mev mods pos wbs ws).*1.*1))).
Proof.
  revert action redraw ws.
  induction wbs as [|[i bbox] wbs IH]; intros action redraw ws Hnd.
  { cbn. by rewrite !or_None_r. }
  apply NoDup_cons in Hnd as [Hi Hnd].
  cbn [foldl]. rewrite mouse_action_body_eq. unfold deliveries at 1 2.
  cbn [omap list_omap fst snd]. fold (deliveries mev mods pos wbs ws).
  destruct (ws !! i) as [w|]; cbn [fmap option_fmap option_map]; [|by apply IH].
  rewrite IH, deliveries_insert by done.
  cbn [fmap list_fmap]. by rewrite !first_some_cons, !or_assoc.
Qed.

(** Without that assumption the loop still only adds to what it has. *)
Lemma mouse_action_loop_adds mev mods pos wbs action redraw ws :
  exists a r,
    (foldl (mouse_action_body mev mods pos) (action, redraw, ws) wbs).1 =
      (or action a, or redraw r).
Proof.
  revert action redraw ws.
  induction wbs as [|[i bbox] wbs IH]; intros action redraw ws.
  { exists None, None. cbn. by rewrite !or_None_r. }
  cbn [foldl]. rewrite mouse_action_body_eq.
  destruct (ws !! i) as [w|]; [|apply IH].
  edestruct IH as (a & r & ->). rewrite !or_assoc. eauto.
Qed.

(** With no widget named twice, the loop leaves each widget of the
    layout as one delivery leaves it. *)
Lemma mouse_action_loop_lookup mev mods pos wbs action redraw ws i bbox w :
  NoDup wbs.*1 -> (i, bbox) ∈ wbs -> ws !! i = Some w ->
  (foldl (mouse_action_body mev mods pos) (action, redraw, ws) wbs).2 !! i
    = Some (deliver mev mods pos bbox w).2.
Proof.
  revert action redraw ws.
  induction wbs as [|[j b] wbs IH]; intros action redraw ws Hnd Hin Hw.
  { by apply elem_of_nil in Hin. }
  apply NoDup_cons in Hnd as [Hj Hnd]. cbn [foldl].
  rewrite mouse_action_body_eq.
  apply elem_of_cons in Hin as [[= -> ->]|Hin].
  - rewrite Hw, mouse_action_loop_untouched by done.
    apply list_lookup_insert_eq. by eapply lookup_lt_Some.
  - assert (i <> j).
    { intros ->. apply Hj. apply list_elem_of_fmap. by exists (j, bbox). }
    destruct (ws !! j) as [wj|]; apply IH; try done.
    by rewrite list_lookup_insert_ne.
Qed.

End dispatch_facts.

(** ** Mouse dispatch: what each widget receives *)

Section dispatch_props.
Context {W : Type} `{Widget W}.
Implicit Types (mev : MouseEvent) (mods : ModKeys.t) (pos : Pos.t)
  (wbs : widget_boxes) (ws : list W).

Lemma mouse_action_eq mev mods pos wbs ws :
  mouse_action mev mods pos wbs ws =
    (let r := foldl (mouse_action_body mev mods pos) (None, None, ws) wbs in
     (or r.1.1 r.1.2, r.2)).
Proof.
  unfold mouse_action.
  by destruct (foldl _ _ wbs) as [[action redraw] ws'].
Qed.

(** Without a widget twice in the layout, a pass leaves the widget of
    an entry as one delivery to it leaves it. *)
Lemma mouse_action_lookup mev mods pos wbs ws i bbox w :
  NoDup wbs.*1 -> (i, bbox) ∈ wbs -> ws !! i = Some w ->
  (mouse_action mev mods pos wbs ws).2 !! i =
    Some (deliver mev mods pos bbox w).2.
Proof.
  intros. rewrite mouse_action_eq. by apply mouse_action_loop_lookup.
Qed.

(** C6. When no widget stands in the layout twice, a pass of
    [mouse_action] leaves every widget of the layout as one delivery
    to it, from its state before the pass, leaves it; widgets outside
    the layout are untouched and the store keeps its size. *)
Theorem mouse_action_store mev mods pos wbs ws :
  NoDup wbs.*1 ->
  let ws' := (mouse_action mev mods pos wbs ws).2 in
  length ws' = length ws /\
  (forall i bbox w, (i, bbox) ∈ wbs -> ws !! i = Some w ->
     ws' !! i = Some (deliver mev mods pos bbox w).2) /\
  (forall i, i ∉ wbs.*1 -> ws' !! i = ws !! i).
Proof.
  intros Hnd. rewrite mouse_action_eq. cbn [snd].
  split; [apply mouse_action_loop_length|].
  split; intros; [by apply mouse_action_loop_lookup
                 |by apply mouse_action_loop_untouched].
Qed.

(** C7. The action of a pass is the first action a widget's
    [mouse_event] returned, in layout order, and failing that the first
    action a widget's [focus] returned. *)
Theorem mouse_action_result mev mods pos wbs ws :
  NoDup wbs.*1 ->
  (mouse_action mev mods pos wbs ws).1 =
    or (first_some ((deliveries mev mods pos wbs ws).*1.*2))
       (first_some ((deliveries mev mods pos wbs ws).*1.*1)).
Proof.
  intros Hnd. rewrite mouse_action_eq. cbn [fst].
  by rewrite (mouse_action_loop_actions _ _ _ _ _ _ _ Hnd).
Qed.

Lemma first_some_Some (l : list (option Action)) a :
  first_some l = Some a -> Some a ∈ l.
Proof.
  induction l as [|[x|] l IH]; cbn; [done| |].
  - intros [= ->]. apply list_elem_of_here.
  - intros. by apply list_elem_of_further, IH.
Qed.

(** An action a pass returns was returned by a handler of a widget
    of the layout, on the widget as it was before the pass. *)
Lemma mouse_action_result_from mev mods pos wbs ws a :
  NoDup wbs.*1 ->
  (mouse_action mev mods pos wbs ws).1 = Some a ->
  exists i bbox w, (i, bbox) ∈ wbs /\ ws !! i = Some w /\
    ((deliver mev mods pos bbox w).1.2 = Some a \/
     (deliver mev mods pos bbox w).1.1 = Some a).
Proof.
  intros Hnd. rewrite mouse_action_eq. cbn [fst].
  rewrite (mouse_action_loop_actions _ _ _ _ _ _ _ Hnd).
  assert (Hd : forall d, d ∈ deliveries mev mods pos wbs ws ->
            exists i bbox w, (i, bbox) ∈ wbs /\ ws !! i = Some w /\
              d = deliver mev mods pos bbox w).
  { intros d ([i bbox] & Hin & Hf)%list_elem_of_omap. cbn [fst snd] in Hf.
    destruct (ws !! i) as [w|] eqn:Hw; [|done]. injection Hf as <-.
    by exists i, bbox, w. }
  destruct (first_some _) as [a'|] eqn:Ha; cbn.
  - intros [= ->]. apply first_some_Some in Ha.
    apply list_elem_of_fmap in Ha as (p & Hp & (d & -> & Hin)%list_elem_of_fmap).
    destruct (Hd d Hin) as (i & bbox & w & ? & ? & ->). eauto 10.
  - intros Hr. apply first_some_Some in Hr.
    apply list_elem_of_fmap in Hr as (p & Hp & (d & -> & Hin)%list_elem_of_fmap).
    destruct (Hd d Hin) as (i & bbox & w & ? & ? & ->). eauto 10.
Qed.

Context `{!WidgetLaws W}.

(** A delivery that returns no action leaves the widget as it was. *)
Lemma deliver_quiet mev mods pos bbox w w' :
  deliver mev mods pos bbox w = (None, None, w') -> w' = w.
Proof.
  unfold deliver.
  set (fw := match mev, BBox.within bbox pos with
             | ButtonDown _, Some _ => focus w Offer
             | ButtonDown _, None => focus w Take
             | Drag None, Some _ => focus w HoverInside
             | Drag _, None => focus w HoverOutside
             | ButtonUp _, Some _ => focus w HoverInside
             | ButtonUp _, None => focus w HoverOutside
             | _, _ => (None, w)
             end).
  assert (Hfw : fw.1 = None -> fw.2 = w).
  { intros Hn. subst fw.
    destruct mev as [?|?|[?|]], (BBox.within bbox pos); try done;
      by eapply focus_quiet, injective_projections. }
  destruct fw as [r w1]. cbn [fst snd] in Hfw.
  destruct (BBox.within bbox pos) as [p|].
  - destruct (mouse_event w1 mev mods (BBox.dim bbox) p) as [a w2] eqn:Hm.
    intros [= -> -> ->]. apply mouse_event_quiet in Hm as ->. by apply Hfw.
  - intros [= -> ->]. by apply Hfw.
Qed.

Lemma mouse_action_loop_quiet mev mods pos wbs action redraw ws :
  (foldl (mouse_action_body mev mods pos) (action, redraw, ws) wbs).1
    = (None, None) ->
  (foldl (mouse_action_body mev mods pos) (action, redraw, ws) wbs).2 = ws.
Proof.
  revert action redraw ws.
  induction wbs as [|[i bbox] wbs IH]; intros action redraw ws Hnone; [done|].
  cbn [foldl] in *. rewrite mouse_action_body_eq in *.
  destruct (ws !! i) as [w|] eqn:Hw; [|by apply IH].
  rewrite IH by done.
  edestruct (mouse_action_loop_adds mev mods pos wbs) as (a & r & Heq).
  rewrite Heq in Hnone. injection Hnone as Ha Hr.
  apply or_is_None in Ha as [[_ Ha]%or_is_None _].
  apply or_is_None in Hr as [[_ Hr]%or_is_None _].
  rewrite (deliver_quiet mev mods pos bbox w (deliver mev mods pos bbox w).2).
  - by apply list_insert_id.
  - destruct (deliver mev mods pos bbox w) as [[??]?]. by simplify_eq/=.
Qed.

(** A pass that returns no action returns the store it was given. *)
Lemma mouse_action_unchanged mev mods pos wbs ws :
  (mouse_action mev mods pos wbs ws).1 = None ->
  mouse_action mev mods pos wbs ws = (None, ws).
Proof.
  intros Hq. apply injective_projections; [done|]. revert Hq.
  rewrite mouse_action_eq. cbn [fst snd].
  intros [Ha Hr]%or_is_None. apply mouse_action_loop_quiet.
  by apply injective_projections.
Qed.

(** C8. A pass that returns no action has changed no widget: the
    screen redraws whenever a widget's state moved, with or without a
    widget standing in the layout twice. *)
Theorem mouse_action_quiet mev mods pos wbs ws :
  (mouse_action mev mods pos wbs ws).1 = None ->
  (mouse_action mev mods pos wbs ws).2 = ws.
Proof. intros Hq. by rewrite mouse_action_unchanged. Qed.

End dispatch_props.

(** ** The calls a pass makes *)

(** One delivery to the recording widget appends [calls_for]. *)
Lemma deliver_spy mev mods pos bbox (log : spy) :
  deliver mev mods pos bbox log =
    (None, None, log ++ calls_for mev mods pos bbox).
Proof.
  unfold deliver, calls_for.
  destruct (BBox.within bbox pos) as [p|] eqn:Hp;
    destruct mev as [?|?|[?|]]; cbn; by rewrite <- ?app_assoc, ?app_nil_r.
Qed.

(** C1. Which calls [mouse_action] makes: each widget of the layout
    receives the focus notification for its side of the pointer, and
    then, exactly when its box contains the pointer, the mouse event
    with the position relative to the box.  A widget away from the
    pointer receives the outside notification and nothing else; a
    widget under the pointer receives [Offer] on a press,
    [HoverInside] on a release or on a drag with no button held, no
    notification on a drag with a button held, and then the mouse
    event. *)
Theorem mouse_action_calls mev mods pos wbs (logs : list spy) i bbox log :
  NoDup wbs.*1 -> (i, bbox) ∈ wbs -> logs !! i = Some log ->
  exists calls,
    (mouse_action mev mods pos wbs logs).2 !! i = Some (log ++ calls) /\
    (forall p, CallMouse mev mods (BBox.dim bbox) p ∈ calls <->
       Area.cell_in bbox (Pos.col pos) (Pos.row pos) /\
       p = Pos.mk (Pos.col pos - Area.col bbox) (Pos.row pos - Area.row bbox)) /\
    (~ Area.cell_in bbox (Pos.col pos) (Pos.row pos) ->
       calls = [CallFocus (match mev with
                           | ButtonDown _ => Take
                           | _ => HoverOutside
                           end)]) /\
    (Area.cell_in bbox (Pos.col pos) (Pos.row pos) ->
       calls =
         match mev with
         | ButtonDown _ => [CallFocus Offer]
         | Drag (Some _) => []
         | Drag None | ButtonUp _ => [CallFocus HoverInside]
         end ++
         [CallMouse mev mods (BBox.dim bbox)
            (Pos.mk (Pos.col pos - Area.col bbox)
                    (Pos.row pos - Area.row bbox))]).
Proof.
  intros Hnd Hin Hlog. exists (calls_for mev mods pos bbox).
  split; [etrans; [exact (mouse_action_lookup _ _ _ _ _ _ _ _ Hnd Hin Hlog)
                  |by rewrite deliver_spy]|].
  unfold calls_for. rewrite <- bbox_within_None.
  destruct (BBox.within bbox pos) as [q|] eqn:Hq.
  - apply bbox_within_Some in Hq as [Hc ->]. split_and!; [|done|].
    + intros p. destruct mev as [?|?|[?|]]; cbn; set_solver.
    + intros _. by destruct mev as [?|?|[?|]].
  - apply bbox_within_None in Hq.
    split_and!; [|by destruct mev as [?|?|[?|]]|done].
    intros p. destruct mev as [?|?|[?|]]; cbn; set_solver.
Qed.

(** ** Routing one event *)

Section event_action_props.
Context {W : Type} `{Widget W}.

(** [event_action] routes by the kind of event: a resize
    updates the screen's dimension and yields [Resize] without touching
    a widget; a key yields what the key map holds for it, nothing when
    it is unmapped, and changes nothing; a mouse event is dispatched
    and leaves the screen as it is. *)
Theorem event_action_routes (self : Screen.t) ev wbs (ws : list W) :
  event_action self ev wbs ws =
    match ev with
    | EvResize dim =>
        (Some (Resize dim),
         Screen.set_dim self dim, ws)
    | EvKey key mods =>
        (Screen.keymap self !! (Key.code key, ModKeys.bits mods), self, ws)
    | EvMouse mev mods pos =>
        ((mouse_action mev mods pos wbs ws).1, self,
         (mouse_action mev mods pos wbs ws).2)
    end.
Proof.
  destruct ev as [dim|key mods|mev mods pos]; try done.
  cbn. by destruct (mouse_action mev mods pos wbs ws).
Qed.

(** After a resize the bounding box is the new dimension's, anchored
    at the origin, and well-formed when the dimension is 16-bit. *)
Lemma event_action_resize_bbox (self : Screen.t) d wbs (ws : list W) :
  is_u16 (Dim.width d) -> is_u16 (Dim.height d) ->
  let self' := (event_action self (EvResize d) wbs ws).1.2 in
  Screen.bbox self' = Area.mk 0 0 d /\ Area.wf (Screen.bbox self').
Proof.
  intros. destruct d. unfold Screen.bbox, BBox.new. cbn.
  split; [done|]. area_lia.
Qed.

Context `{!WidgetLaws W}.

(** An event that yields no action leaves everything as it was. *)
Lemma event_action_unchanged (self : Screen.t) ev wbs (ws : list W) :
  (event_action self ev wbs ws).1.1 = None ->
  event_action self ev wbs ws = (None, self, ws).
Proof.
  rewrite event_action_routes. destruct ev as [dim|key mods|mev mods pos];
    cbn [fst snd]; [done|by intros ->|].
  intros Hq. by rewrite mouse_action_unchanged.
Qed.

(** An event that yields no action has changed no widget, so
    the loop of [step] can wait for the next event without drawing. *)
Theorem event_action_quiet (self : Screen.t) ev wbs (ws : list W) :
  (event_action self ev wbs ws).1.1 = None ->
  (event_action self ev wbs ws).2 = ws /\
  (event_action self ev wbs ws).1.2 = self.
Proof. intros Hq. by rewrite event_action_unchanged. Qed.

End event_action_props.

(** ** The loop of [step] *)

Section event_loop_props.
Context {W : Type} `{Widget W} `{!WidgetLaws W}.
Implicit Types (self : Screen.t) (wbs : widget_boxes) (ws : list W)
  (stream pre post : list polled).

(** The loop passes over quiet items with nothing changed. *)
Lemma wait_action_skip self wbs ws pre post :
  Forall (quiet_item self wbs ws) pre ->
  wait_action self (pre ++ post) wbs ws = wait_action self post wbs ws.
Proof.
  induction 1 as [|it pre (ev & -> & Hq) _ IH]; [done|].
  cbn [app wait_action]. by rewrite (event_action_unchanged _ _ _ _ Hq).
Qed.

(** C19. The loop of [step] returns at the first item that is not a
    quiet event, with the widgets and the screen as they were when
    the loop began: the action of that event, the error of a failed
    read, or a panic when the stream has ended; the items after it
    stay unread.  While every item is quiet the loop keeps waiting. *)
Theorem wait_action_first self wbs ws pre it post :
  Forall (quiet_item self wbs ws) pre ->
  ~ quiet_item self wbs ws it ->
  wait_action self pre wbs ws = (Waiting, self, ws, []) /\
  wait_action self (pre ++ it :: post) wbs ws =
    match it with
    | StreamEnd => (Panicked UnwrapNone, self, ws, post)
    | StreamItem (RErr e) => (Returned (RErr e), self, ws, post)
    | StreamItem (ROk ev) =>
        (from_option (Returned ∘ ROk) Waiting (event_action self ev wbs ws).1.1,
         (event_action self ev wbs ws).1.2,
         (event_action self ev wbs ws).2, post)
    end.
Proof.
  intros Hpre Hit. split.
  - rewrite <- (app_nil_r pre). by rewrite wait_action_skip.
  - rewrite wait_action_skip by done. destruct it as [|[ev|e]]; try done.
    cbn [wait_action].
    destruct (event_action self ev wbs ws) as [[[a|] self'] ws'] eqn:He;
      [done|].
    destruct Hit. exists ev. by rewrite He.
Qed.

(** The loop reads at most what it is given, and when it is still
    waiting it has read everything. *)
Lemma wait_action_rest self wbs ws stream :
  let r := wait_action self stream wbs ws in
  r.2 `suffix_of` stream /\ (r.1.1.1 = Waiting -> r.2 = []).
Proof.
  revert self ws. induction stream as [|it stream IH]; intros self ws; [done|].
  destruct it as [|[ev|e]]; cbn [wait_action];
    try (split; [by apply suffix_cons_r|done]).
  destruct (event_action self ev wbs ws) as [[[a|] self'] ws'];
    [split; [by apply suffix_cons_r|done]|].
  destruct (IH self' ws') as [Hsuf Hw]. split; [by apply suffix_cons_r|done].
Qed.

End event_loop_props.

(** ** What the loop keeps and what it reads *)

(** The loop changes nothing of the screen but its dimension. *)
Definition same_screen (self self' : Screen.t) : Prop :=
  Screen.out self' = Screen.out self /\
  Screen.theme self' = Screen.theme self /\
  Screen.style self' = Screen.style self /\
  Screen.keymap self' = Screen.keymap self.

Section event_loop_facts.
Context {W : Type} `{Widget W}.
Implicit Types (self : Screen.t) (wbs : widget_boxes) (ws : list W)
  (stream : list polled).

Lemma same_screen_refl self : same_screen self self.
Proof. done. Qed.

Lemma same_screen_trans self1 self2 self3 :
  same_screen self1 self2 -> same_screen self2 self3 ->
  same_screen self1 self3.
Proof. unfold same_screen. intros (? & ? & ? & ?) (? & ? & ? & ?). split_and!; congruence. Qed.

Lemma event_action_screen self ev wbs ws :
  same_screen self (event_action self ev wbs ws).1.2.
Proof. rewrite event_action_routes. by destruct ev. Qed.

Lemma wait_action_screen self stream wbs ws :
  same_screen self (wait_action self stream wbs ws).1.1.2.
Proof.
  revert self ws. induction stream as [|[|[ev|e]] stream IH]; intros self ws;
    cbn [wait_action]; try done.
  pose proof (event_action_screen self ev wbs ws) as Hs.
  destruct (event_action self ev wbs ws) as [[[a|] self'] ws']; [done|].
  eapply same_screen_trans; [exact Hs|apply IH].
Qed.

(** An action costs the stream an item at least. *)
Lemma wait_action_consumes self stream wbs ws a :
  (wait_action self stream wbs ws).1.1.1 = Returned (ROk a) ->
  (length (wait_action self stream wbs ws).2 < length stream)%nat.
Proof.
  revert self ws. induction stream as [|[|[ev|e]] stream IH]; intros self ws;
    cbn [wait_action]; try done.
  destruct (event_action self ev wbs ws) as [[[a'|] self'] ws']; cbn.
  - lia.
  - intros Ha%IH. lia.
Qed.

End event_loop_facts.


(** ** Concrete instances *)

(** Two recording widgets, the first under the pointer. *)
Definition sample_boxes : widget_boxes :=
  [(0%nat, BBox.new 0 0 10 1); (1%nat, BBox.new 10 0 10 1)].

(** Two buttons side by side on a row of twenty cells. *)
Definition two_buttons : list Button.t :=
  [Button.new "yes"; Button.new "no"].

Lemma mouse_action_calls_witness :
  NoDup sample_boxes.*1 /\ (1%nat, BBox.new 10 0 10 1) ∈ sample_boxes /\
  ([[]; []] : list spy) !! 1%nat = Some [] /\
  exists calls,
    (mouse_action (ButtonDown Left) ModKeys.empty (Pos.mk 3 0) sample_boxes
       ([[]; []] : list spy)).2 !! 1%nat = Some ([] ++ calls) /\
    (forall p,
       CallMouse (ButtonDown Left) ModKeys.empty
         (BBox.dim (BBox.new 10 0 10 1)) p ∈ calls <->
       Area.cell_in (BBox.new 10 0 10 1) 3 0 /\ p = Pos.mk (3 - 10) (0 - 0)) /\
    (~ Area.cell_in (BBox.new 10 0 10 1) 3 0 -> calls = [CallFocus Take]) /\
    (Area.cell_in (BBox.new 10 0 10 1) 3 0 ->
       calls = [CallFocus Offer] ++
               [CallMouse (ButtonDown Left) ModKeys.empty
                  (BBox.dim (BBox.new 10 0 10 1)) (Pos.mk (3 - 10) (0 - 0))]).
Proof.
  split; [compute_done|]. split; [compute_done|]. split; [compute_done|].
  apply (mouse_action_calls (ButtonDown Left) ModKeys.empty (Pos.mk 3 0)
           sample_boxes [[]; []] 1 (BBox.new 10 0 10 1) []); compute_done.
Defined.

Lemma mouse_action_store_witness :
  NoDup sample_boxes.*1 /\
  let ws' := (mouse_action (ButtonUp Left) ModKeys.empty (Pos.mk 3 0)
                sample_boxes ([[]; []; []] : list spy)).2 in
  length ws' = length ([[]; []; []] : list spy) /\
  (forall i bbox w, (i, bbox) ∈ sample_boxes ->
     ([[]; []; []] : list spy) !! i = Some w ->
     ws' !! i =
       Some (deliver (ButtonUp Left) ModKeys.empty (Pos.mk 3 0) bbox w).2) /\
  (forall i, i ∉ sample_boxes.*1 -> ws' !! i = ([[]; []; []] : list spy) !! i).
Proof.
  split; [compute_done|].
  apply (mouse_action_store (ButtonUp Left) ModKeys.empty (Pos.mk 3 0)
           sample_boxes ([[]; []; []] : list spy)); compute_done.
Defined.

Lemma mouse_action_result_witness :
  NoDup sample_boxes.*1 /\
  (mouse_action (Drag None) ModKeys.empty (Pos.mk 3 0) sample_boxes
     ([[]; []] : list spy)).1 =
    or (first_some ((deliveries (Drag None) ModKeys.empty (Pos.mk 3 0)
                       sample_boxes ([[]; []] : list spy)).*1.*2))
       (first_some ((deliveries (Drag None) ModKeys.empty (Pos.mk 3 0)
                       sample_boxes ([[]; []] : list spy)).*1.*1)).
Proof.
  split; [compute_done|].
  apply (mouse_action_result (Drag None) ModKeys.empty (Pos.mk 3 0)
           sample_boxes ([[]; []] : list spy)); compute_done.
Defined.

Lemma event_action_resize_bbox_witness :
  is_u16 (Dim.width (Dim.new 80 24)) /\ is_u16 (Dim.height (Dim.new 80 24)) /\
  forall (self : Screen.t),
    let self' := (event_action self (EvResize (Dim.new 80 24)) sample_boxes
                    ([[]; []] : list spy)).1.2 in
    Screen.bbox self' = Area.mk 0 0 (Dim.new 80 24) /\
    Area.wf (Screen.bbox self').
Proof.
  split; [compute_done|]. split; [compute_done|]. intros self.
  apply (event_action_resize_bbox self (Dim.new 80 24) sample_boxes
           ([[]; []] : list spy)); compute_done.
Defined.

Lemma mouse_action_quiet_witness :
  (@mouse_action _ (@Button_widget Debug ascii_width) (Drag (Some Left))
     ModKeys.empty (Pos.mk 3 0) sample_boxes two_buttons).1 = None /\
  (@mouse_action _ (@Button_widget Debug ascii_width) (Drag (Some Left))
     ModKeys.empty (Pos.mk 3 0) sample_boxes two_buttons).2 = two_buttons.
Proof.
  split; [compute_done|].
  apply (@mouse_action_quiet _ (@Button_widget Debug ascii_width)
           Button_widget_laws (Drag (Some Left)) ModKeys.empty (Pos.mk 3 0)
           sample_boxes two_buttons).
  compute_done.
Defined.

Lemma event_action_quiet_witness :
  (@event_action _ (@Button_widget Debug ascii_width) sample_screen
     (EvKey (Key.mk 27) ModKeys.empty) sample_boxes two_buttons).1.1 = None /\
  (@event_action _ (@Button_widget Debug ascii_width) sample_screen
     (EvKey (Key.mk 27) ModKeys.empty) sample_boxes two_buttons).2 = two_buttons /\
  (@event_action _ (@Button_widget Debug ascii_width) sample_screen
     (EvKey (Key.mk 27) ModKeys.empty) sample_boxes two_buttons).1.2
    = sample_screen.
Proof.
  split; [compute_done|].
  apply (@event_action_quiet _ (@Button_widget Debug ascii_width)
           Button_widget_laws sample_screen (EvKey (Key.mk 27) ModKeys.empty)
           sample_boxes two_buttons).
  compute_done.
Defined.

(** An unmapped key and a drag over a button are passed over; the
    press that follows is returned, and the resize after it is left
    unread. *)
Lemma wait_action_first_witness :
  let pre := [StreamItem (ROk (EvKey (Key.mk 27) ModKeys.empty));
              StreamItem (ROk (EvMouse (Drag (Some Left)) ModKeys.empty
                                 (Pos.mk 3 0)))] in
  let it := StreamItem (ROk (EvMouse (ButtonDown Left) ModKeys.empty
                               (Pos.mk 13 0))) in
  let post := [StreamItem (ROk (EvResize (Dim.new 80 24)))] in
  @wait_action _ (@Button_widget Debug ascii_width) sample_screen pre
    sample_boxes two_buttons = (Waiting, sample_screen, two_buttons, []) /\
  @wait_action _ (@Button_widget Debug ascii_width) sample_screen
    (pre ++ it :: post) sample_boxes two_buttons =
    (Returned (ROk Redraw), sample_screen,
     [Button.new "yes"; Button.set_state (Button.new "no") Button.Pressed],
     post).
Proof.
  intros pre it post.
  apply (@wait_action_first _ (@Button_widget Debug ascii_width)
           Button_widget_laws sample_screen sample_boxes two_buttons pre it post).
  - repeat constructor; eexists; (split; [reflexivity|compute_done]).
  - intros (ev & [= <-] & Hq). vm_compute in Hq. discriminate Hq.
Defined.
