(* ===== verification/Render.v ===== *)
(** * Render: drawing a frame ([src/screen.rs], [src/widget/label.rs])

    [Screen::draw] sets the style of enabled widgets, clears the
    screen, lets every widget of the layout draw itself into the part
    of its box that is on the screen, and flushes.  [Screen::step]
    draws one frame and then waits for an action ([Dispatch]).

    Widgets draw through the class [WidgetDraw]; what the screen relies
    on is [WidgetDrawLaws]: on a terminal that does not fail, drawing
    succeeds and only queues commands, none of which switches a mode of
    the terminal.  [Label] keeps it, and so does [Button] when
    [Cells::print_text] does. *)

From Stdlib Require Import ZArith Lia String Ascii.
From stdpp Require Import base option list gmap.
From S2P Require Import Prelude Geometry Layout Input Style Error Terminal.
From S2P Require Import Screen Widget Label Button Dispatch.

#[local] Set Warnings "-clear-no-such-hyp".

#[local] Open Scope Z_scope.

(** ** Drawing *)

Section render.
Context `{TH : Themes} {W : Type} `{!WidgetDraw W}.

(** The body of the loop of [draw], for one widget and its box: the
    widget is drawn if a part of its box is on the screen. *)
Definition draw_widget (pos : Pos.t) (widget : W) (bbox : BBox.t)
    : io Screen.t unit := fun self =>
  match cells self bbox with
  | Some cells =>
      let style := Theme_style (Cells.theme cells self) (style_group widget) in
      (Cells.set_style cells style;;
       Widget.draw widget cells pos)%io self
  | None => (ROk tt, self)
  end.

(** Draw a grid area layout *)
Definition draw (widget_boxes : widget_boxes) (ws : list W)
    : io Screen.t unit := fun self =>
  let pos := Pos.default in
  let style := Theme_style (Screen.theme self) StyleGroup_Enabled in
  (Screen.set_style style;;
   Screen.clear;;
   io_for widget_boxes (fun wb =>
     match ws !! wb.1 with
     | Some widget => draw_widget pos widget wb.2
     | None => io_ret tt
     end);;
   Screen.flush;;
   io_ret tt)%io self.

(** Render a grid area and wait for an action: [area] is the layout
    ([GridArea::widget_boxes]), [stream] what the event stream will
    yield. *)
Definition step `{!Widget W} (area : BBox.t -> Theme.t -> Dispatch.widget_boxes)
    (self : Screen.t) (stream : list polled) (ws : list W)
    : waited * Screen.t * list W * list polled :=
  let widget_boxes := area (Screen.bbox self) (Screen.theme self) in
  match draw widget_boxes ws self with
  | (RErr e, self) => (Returned (RErr e), self, ws, stream)
  | (ROk _, self) => wait_action self stream widget_boxes ws
  end.

End render.

(** ** What the screen relies on *)

(** Drawing a widget on a terminal that does not fail succeeds and
    queues commands that switch no mode. *)
Class WidgetDrawLaws `{TH : Themes} (W : Type) `{!WidgetDraw W} : Prop := {
  draw_queues (w : W) c pos self :
    Term.reliable (Screen.out self) ->
    exists cs self', queues (Widget.draw w c pos) self cs self' /\
      forallb mode_free cs = true;
}.

(** The same of [Cells::print_text]. *)
Class CellsTextLaws `{CT : CellsText} : Prop := {
  print_text_queues c txt self :
    Term.reliable (Screen.out self) ->
    exists cs self', queues (Cells_print_text c txt) self cs self' /\
      forallb mode_free cs = true;
}.

(** ** Labels *)

(** The commands [Label::render] queues: for each of the first
    [height] lines of the wrapped text, the cursor moves to the start
    of the line's row of the view and the line is printed. *)
Definition render_cmds `{TW : TextWrap} (l : Label.t) (c : Cells.t) : list Cmd :=
  flat_map (fun '(row, txt) =>
              [MoveTo (Area.col (Cells.bbox c))
                 (Area.row (Cells.bbox c) + Z.of_nat row);
               PrintStr txt])
    (imap pair (take (Z.to_nat (Cells.height c))
                  (wrap_iter (Label.txt l) (Cells.width c)))).

Section label_render.
Context `{TW : TextWrap}.
Implicit Types (l : Label.t) (c : Cells.t) (self : Screen.t).

(** The rows [enumerate] counts stay below the number of lines. *)
Lemma imap_pair_lt {A} (xs : list A) (k i : nat) x :
  (i, x) ∈ imap (fun j => pair (k + j)%nat) xs -> (i < k + length xs)%nat.
Proof.
  revert k. induction xs as [|y xs IH]; intros k; cbn; [by intros ?%elem_of_nil|].
  intros [[= -> ->]|Hin]%elem_of_cons; [lia|].
  rewrite (imap_ext _ (fun j => pair (S k + j)%nat)) in Hin
    by (intros; cbn; f_equal; lia).
  apply IH in Hin. lia.
Qed.

(** The commands of the loop of [render] over numbered lines, with the
    cast of the row number. *)
Definition render_loop_cmds (c : Cells.t) (rows : list (nat * string))
    : list Cmd :=
  flat_map (fun '(row, txt) =>
              [MoveTo (Area.col (Cells.bbox c))
                 (Area.row (Cells.bbox c) + wrap16 (Z.of_nat row));
               PrintStr txt]) rows.

Lemma render_loop_queues c self (rows : list (nat * string)) :
  Term.reliable (Screen.out self) ->
  exists self',
    queues
      (io_for rows
         (fun '(row, txt) =>
            let row := wrap16 (Z.of_nat row) in
            (Cells.move_to c 0 row;; Cells.print_str c txt)%io))
      self (render_loop_cmds c rows) self' /\
    Screen.style self' = Screen.style self.
Proof.
  revert self. induction rows as [|[k txt] rows IH]; intros self Hr.
  { exists self. split; [by apply queues_ret|done]. }
  cbn [io_for render_loop_cmds flat_map].
  destruct (queues_cells_move_to c 0 (wrap16 (Z.of_nat k)) self Hr)
    as (s1 & Hq1 & Hs1).
  destruct (queues_cells_print_str c txt s1 (proj2 (proj2 Hq1)))
    as (s2 & Hq2 & Hs2).
  destruct (IH s2 (proj2 (proj2 Hq2))) as (s3 & Hq3 & Hs3).
  exists s3. split; [|congruence]. rewrite Z.add_0_r in Hq1.
  change (?a :: ?b :: ?l) with ([a] ++ [b] ++ l).
  rewrite app_assoc. eapply queues_bind; [|exact Hq3].
  exact (queues_bind _ _ self [_] s1 [_] s2 Hq1 Hq2).
Qed.

Lemma render_loop_cmds_mode_free c rows :
  forallb mode_free (render_loop_cmds c rows) = true.
Proof. induction rows as [|[i txt] rows IH]; [done|exact IH]. Qed.

(** [render] on any view. *)
Lemma label_render_any l c self :
  Term.reliable (Screen.out self) ->
  exists self',
    queues (Label.render l c) self
      (render_loop_cmds c
         (imap pair (take (Z.to_nat (Cells.height c))
                       (wrap_iter (Label.txt l) (Cells.width c))))) self' /\
    Screen.style self' = Screen.style self.
Proof.
  intros Hr. unfold Label.render.
  destruct (render_loop_queues c self
              (imap pair (take (Z.to_nat (Cells.height c))
                            (wrap_iter (Label.txt l) (Cells.width c)))) Hr)
    as (self' & Hq & Hs).
  exists self'. split; [|done].
  eapply queues_bind_nil; [exact Hq|]. apply queues_ret, Hq.
Qed.

(** In a view of at most 65536 rows the cast loses nothing. *)
Lemma render_loop_cmds_exact l c :
  Cells.height c <= 65536 ->
  render_loop_cmds c
    (imap pair (take (Z.to_nat (Cells.height c))
                  (wrap_iter (Label.txt l) (Cells.width c))))
  = render_cmds l c.
Proof.
  intros Hh. unfold render_loop_cmds, render_cmds.
  apply flat_map_ext_in. intros [i txt] Hin.
  apply (imap_pair_lt _ 0) in Hin. rewrite length_take in Hin.
  rewrite wrap16_small; [done|]. unfold is_u16, u16_max. lia.
Qed.

Lemma label_render_run l c self :
  Term.reliable (Screen.out self) -> Cells.height c <= 65536 ->
  exists self',
    queues (Label.render l c) self (render_cmds l c) self' /\
    Screen.style self' = Screen.style self.
Proof.
  intros Hr Hh. rewrite <- render_loop_cmds_exact by done.
  by apply label_render_any.
Qed.

(** The cursor positions of [render_cmds] are the starts of rows of
    the view. *)
Lemma render_cmds_moves l c col row :
  MoveTo col row ∈ render_cmds l c ->
  col = Area.col (Cells.bbox c) /\
  Area.row (Cells.bbox c) <= row < Area.row (Cells.bbox c) + Cells.height c.
Proof.
  unfold render_cmds. intros ([i txt] & Hin & Hc)%elem_of_flat_map.
  apply (imap_pair_lt _ 0) in Hin. rewrite length_take in Hin.
  apply elem_of_cons in Hc as [[= -> ->]|Hc]; [|by set_solver].
  split; [done|].
  unfold Cells.height in *. lia.
Qed.

Lemma render_cmds_mode_free l c : forallb mode_free (render_cmds l c) = true.
Proof.
  unfold render_cmds. induction (imap _ _) as [|[i txt] rows IH]; [done|].
  cbn [flat_map app forallb mode_free andb]. exact IH.
Qed.

(** [Label::render] on a terminal that does not fail, for a view
    of at most 65536 rows: it prints each of the first [height] lines
    of the wrapped text at the start of its own row of the view, and
    every position the cursor is moved to is a cell of the view when
    the view has a column; the cast of the row number to [u16] loses
    nothing. *)
Theorem label_render_rows l c self :
  Term.reliable (Screen.out self) -> Cells.height c <= 65536 ->
  (exists self',
     queues (Label.render l c) self (render_cmds l c) self' /\
     Screen.style self' = Screen.style self) /\
  (0 < Cells.width c ->
   forall col row, MoveTo col row ∈ render_cmds l c ->
     Area.cell_in (Cells.bbox c) col row).
Proof.
  intros Hr Hh. split; [by apply label_render_run|].
  intros Hw col row [-> Hrow]%render_cmds_moves.
  unfold Area.cell_in, Cells.width, Cells.height in *. lia.
Qed.

End label_render.

#[export] Instance Label_draw_laws `{TH : Themes} `{TW : TextWrap} :
  WidgetDrawLaws Label.t.
Proof.
  split. intros l c pos self Hr.
  destruct (label_render_any l c self Hr) as (self' & Hq & _).
  eexists _, self'. split; [exact Hq|apply render_loop_cmds_mode_free].
Qed.

(** ** Frames *)

Section frames.
Context `{TH : Themes} {W : Type} `{!WidgetDraw W} `{!WidgetDrawLaws W}.
Implicit Types (self : Screen.t) (wbs : widget_boxes) (ws : list W).

Lemma forallb_mode_free_app (cs1 cs2 : list Cmd) :
  forallb mode_free cs1 = true -> forallb mode_free cs2 = true ->
  forallb mode_free (cs1 ++ cs2) = true.
Proof. intros H1 H2. by rewrite forallb_app, H1, H2. Qed.

(** One widget of the layout is drawn. *)
Lemma draw_widget_queues pos (w : W) bbox self :
  Term.reliable (Screen.out self) ->
  exists cs self', queues (draw_widget pos w bbox) self cs self' /\
    forallb mode_free cs = true.
Proof.
  intros Hr. unfold queues, draw_widget. destruct (cells self bbox) as [c|].
  - destruct (set_style_queues_aux
                (Theme_style (Cells.theme c self) (style_group w)) self Hr)
      as (s1 & Hq1 & _).
    destruct (draw_queues w c pos s1 (proj2 (proj2 Hq1)))
      as (cs2 & s2 & Hq2 & Hf2).
    eexists _, s2. split; [exact (queues_seq _ _ _ _ _ _ _ Hq1 Hq2)|].
    apply forallb_mode_free_app; [apply style_cmds_mode_free|done].
  - exists [], self. split; [by apply queues_ret|done].
Qed.

(** The loop of [draw]. *)
Lemma draw_loop_queues pos wbs ws self :
  Term.reliable (Screen.out self) ->
  exists cs self',
    queues (io_for wbs (fun wb =>
              match ws !! wb.1 with
              | Some widget => draw_widget pos widget wb.2
              | None => io_ret tt
              end)) self cs self' /\
    forallb mode_free cs = true.
Proof.
  revert self. induction wbs as [|[i bbox] wbs IH]; intros self Hr.
  { exists [], self. split; [by apply queues_ret|done]. }
  cbn [io_for fst snd].
  assert (exists cs1 s1,
            queues (match ws !! i with
                    | Some widget => draw_widget pos widget bbox
                    | None => io_ret tt
                    end) self cs1 s1 /\ forallb mode_free cs1 = true)
    as (cs1 & s1 & Hq1 & Hf1).
  { destruct (ws !! i) as [w|]; [by apply draw_widget_queues|].
    exists [], self. split; [by apply queues_ret|done]. }
  destruct (IH s1 (proj2 (proj2 Hq1))) as (cs2 & s2 & Hq2 & Hf2).
  exists (cs1 ++ cs2), s2. split; [by eapply queues_bind|].
  by apply forallb_mode_free_app.
Qed.

(** [draw] around its loop, on a terminal that does not fail: the
    loop starts on a screen of the same dimensions, and whatever it
    queues there is what the terminal has received after the clearing
    of the screen when [draw] returns. *)
Lemma draw_run wbs ws self :
  Term.reliable (Screen.out self) ->
  exists s2, Term.reliable (Screen.out s2) /\ Screen.dim s2 = Screen.dim self /\
    forall cs s3,
      queues (io_for wbs (fun wb =>
                match ws !! wb.1 with
                | Some widget => draw_widget Pos.default widget wb.2
                | None => io_ret tt
                end)) s2 cs s3 ->
      exists self', draw wbs ws self = (ROk tt, self') /\
        Term.reliable (Screen.out self') /\
        Term.queued (Screen.out self') = [] /\
        Term.written (Screen.out self') =
          sent self ++
          style_cmds (Screen.style self)
            (Theme_style (Screen.theme self) StyleGroup_Enabled) ++
          ClearAll :: cs /\
        Term.raw_mode (Screen.out self') = Term.raw_mode (Screen.out self) /\
        Screen.dim self' = Screen.dim self /\
        Screen.theme self' = Screen.theme self /\
        Screen.keymap self' = Screen.keymap self.
Proof.
  intros Hr.
  destruct (set_style_queues_aux
              (Theme_style (Screen.theme self) StyleGroup_Enabled) self Hr)
    as (s1 & Hq1 & _).
  destruct (queues_clear s1 (proj2 (proj2 Hq1))) as (s2 & Hq2 & _).
  exists s2. split; [apply Hq2|]. split.
  { destruct Hq1 as (_ & (_ & _ & _ & _ & ? & _) & _).
    destruct Hq2 as (_ & (_ & _ & _ & _ & ? & _) & _). congruence. }
  intros cs s3 Hq3.
  pose proof (queues_seq _ _ _ _ _ _ _ Hq2 Hq3) as Hq23.
  pose proof (queues_seq _ _ _ _ _ _ _ Hq1 Hq23) as (Hrun & He & Hr3).
  destruct (term_flush_reliable _ Hr3) as (t4 & Hfl & Hr4 & ? & ? & ? & Hw).
  exists (Screen.set_out s3 t4). split.
  - unfold draw. cbv zeta. do 3 (unfold io_bind at 1). unfold io_bind in Hrun.
    revert Hrun. repeat case_match; intros; simplify_eq.
    unfold Screen.flush, io_bind, io_on. by rewrite Hfl.
  - apply emits_sent in He as Hsent. unfold sent in Hsent.
    destruct He as (_ & _ & ? & ? & ? & ? & ?), s3. cbn in *.
    unfold sent. repeat split; congruence.
Qed.

(** [draw] on a terminal that does not fail. *)
Lemma draw_ok wbs ws self :
  Term.reliable (Screen.out self) ->
  exists cs self', draw wbs ws self = (ROk tt, self') /\
    Term.reliable (Screen.out self') /\
    Term.queued (Screen.out self') = [] /\
    Term.written (Screen.out self') =
      sent self ++
      style_cmds (Screen.style self)
        (Theme_style (Screen.theme self) StyleGroup_Enabled) ++
      ClearAll :: cs /\
    forallb mode_free cs = true /\
    Term.raw_mode (Screen.out self') = Term.raw_mode (Screen.out self) /\
    Screen.dim self' = Screen.dim self /\ Screen.theme self' = Screen.theme self /\
    Screen.keymap self' = Screen.keymap self.
Proof.
  intros Hr. destruct (draw_run wbs ws self Hr) as (s2 & Hr2 & _ & Hdraw).
  destruct (draw_loop_queues Pos.default wbs ws s2 Hr2) as (cs & s3 & Hq3 & Hf).
  destruct (Hdraw cs s3 Hq3) as (self' & ? & ? & ? & ? & ?).
  by exists cs, self'.
Qed.

(** C15. A frame on a terminal that does not fail, with widgets that
    keep the drawing contract: [draw] succeeds; it sends the style of
    enabled widgets, as far as it differs from the current style, and
    clears the screen before any widget draws; it flushes everything,
    also what was still queued before; and it switches no mode of the
    terminal and changes neither the dimensions, the theme nor the key
    map. *)
Theorem draw_frame wbs ws self :
  Term.reliable (Screen.out self) ->
  exists cs self', draw wbs ws self = (ROk tt, self') /\
    Term.reliable (Screen.out self') /\
    Term.queued (Screen.out self') = [] /\
    Term.written (Screen.out self') =
      sent self ++
      style_cmds (Screen.style self)
        (Theme_style (Screen.theme self) StyleGroup_Enabled) ++
      ClearAll :: cs /\
    forallb mode_free cs = true /\
    Term.raw_mode (Screen.out self') = Term.raw_mode (Screen.out self) /\
    Screen.dim self' = Screen.dim self /\ Screen.theme self' = Screen.theme self /\
    Screen.keymap self' = Screen.keymap self.
Proof. apply draw_ok. Qed.

Context `{!Widget W}.

(** When drawing fails [step] returns the error at once, with the
    stream unread and the widgets untouched. *)
Lemma step_draw_failure area self stream ws e self' :
  draw (area (Screen.bbox self) (Screen.theme self)) ws self = (RErr e, self') ->
  step area self stream ws = (Returned (RErr e), self', ws, stream).
Proof. intros Hd. unfold step. by rewrite Hd. Qed.

(** A frame on a terminal that does not fail: what [step] returns is
    what the loop returns on the drawn screen, and all that was sent
    is commands that switch no mode. *)
Lemma step_ok area self stream ws :
  Term.reliable (Screen.out self) ->
  exists self1 cs,
    step area self stream ws
    = wait_action self1 stream (area (Screen.bbox self) (Screen.theme self)) ws /\
    Term.reliable (Screen.out self1) /\
    Term.queued (Screen.out self1) = [] /\
    sent self1 = sent self ++ cs /\ forallb mode_free cs = true /\
    Term.raw_mode (Screen.out self1) = Term.raw_mode (Screen.out self) /\
    Screen.dim self1 = Screen.dim self /\
    Screen.theme self1 = Screen.theme self /\
    Screen.keymap self1 = Screen.keymap self.
Proof.
  intros Hr.
  destruct (draw_ok (area (Screen.bbox self) (Screen.theme self)) ws self Hr)
    as (cs & self1 & Hd & Hr1 & Hq & Hw & Hfree & Hraw & Hdim & Hth & Hkm).
  exists self1, (style_cmds (Screen.style self)
                   (Theme_style (Screen.theme self) StyleGroup_Enabled) ++
                 ClearAll :: cs).
  split_and!; try done.
  - unfold step. by rewrite Hd.
  - unfold sent at 1, Term.sent. by rewrite Hq, Hw, app_nil_r.
  - apply forallb_mode_free_app; [apply style_cmds_mode_free|done].
Qed.

(** An action costs the stream an item at least. *)
Lemma step_consumes area self stream ws a :
  (step area self stream ws).1.1.1 = Returned (ROk a) ->
  (length (step area self stream ws).2 < length stream)%nat.
Proof.
  unfold step.
  destruct (draw _ ws self) as [[[]|e] self1]; [|done].
  apply wait_action_consumes.
Qed.


End frames.

(** ** Buttons *)

(** A button keeps the drawing contract when [print_text] does. *)
#[export] Instance Button_draw_laws `{TH : Themes} `{CT : CellsText}
  `{!CellsTextLaws} : WidgetDrawLaws Button.t.
Proof.
  split. intros b c pos self Hr. cbn [Widget.draw Button_draw].
  unfold queues, Button.draw.
  destruct (set_style_queues_aux (Button.style b (Cells.theme c self)) self Hr)
    as (s1 & Hq1 & _).
  destruct (print_text_queues c (Label.txt (Button.lbl b)) s1
              (proj2 (proj2 Hq1))) as (cs2 & s2 & Hq2 & Hf2).
  eexists _, s2. split; [exact (queues_seq _ _ _ _ _ _ _ Hq1 Hq2)|].
  apply forallb_mode_free_app; [apply style_cmds_mode_free|done].
Qed.

(** ** Concrete instances *)

(** Text printed on the first row of the view, and text that is never
    wrapped. *)
Definition plain_text : CellsText := fun c txt =>
  (Cells.move_to c 0 0;; Cells.print_str c txt)%io.

Definition one_line : TextWrap := fun txt width => [txt].

#[export] Instance plain_text_laws : @CellsTextLaws plain_text.
Proof.
  split. intros c txt self Hr.
  destruct (queues_cells_move_to c 0 0 self Hr) as (s1 & Hq1 & _).
  destruct (queues_cells_print_str c txt s1 (proj2 (proj2 Hq1)))
    as (s2 & Hq2 & _).
  eexists _, s2. split; [exact (queues_seq _ _ _ _ _ _ _ Hq1 Hq2)|done].
Qed.

(** A frame with two buttons, the second one pressed: what reaches the
    terminal. *)
Example frame_two_buttons :
  let bs := [Button.new "yes";
             Button.set_state (Button.new "no") Button.Pressed] in
  let r := @draw sample_themes _ (@Button_draw sample_themes plain_text)
             sample_boxes bs sample_screen in
  r.1 = ROk tt /\ Term.queued (Screen.out r.2) = [] /\
  Term.written (Screen.out r.2) =
    [SetBackgroundColor (Black INormal); SetForegroundColor (White IBright);
     ClearAll;
     MoveTo 0 0; PrintStr "yes";
     SetBackgroundColor (Yellow INormal); SetForegroundColor (Black INormal);
     MoveTo 10 0; PrintStr "no"].
Proof. by vm_compute. Qed.

Lemma label_render_rows_witness :
  let c := Cells.new (BBox.new 2 1 10 3) in
  Term.reliable (Screen.out sample_screen) /\ Cells.height c <= 65536 /\
  (exists self',
     queues (@Label.render one_line (Label.new "hello") c) sample_screen
       (@render_cmds one_line (Label.new "hello") c) self' /\
     Screen.style self' = Screen.style sample_screen) /\
  (0 < Cells.width c ->
   forall col row,
     MoveTo col row ∈ @render_cmds one_line (Label.new "hello") c ->
     Area.cell_in (Cells.bbox c) col row).
Proof.
  intros c. split; [by constructor|]. split; [done|].
  apply (@label_render_rows one_line (Label.new "hello") c sample_screen);
    [by constructor|done].
Defined.

Lemma draw_frame_witness :
  Term.reliable (Screen.out sample_screen) /\
  exists cs self',
    @draw sample_themes _ (@Button_draw sample_themes plain_text)
      sample_boxes two_buttons sample_screen = (ROk tt, self') /\
    Term.reliable (Screen.out self') /\
    Term.queued (Screen.out self') = [] /\
    Term.written (Screen.out self') =
      sent sample_screen ++
      style_cmds (Screen.style sample_screen)
        (@Theme_style sample_themes (Screen.theme sample_screen)
           (@StyleGroup_Enabled sample_themes)) ++
      ClearAll :: cs /\
    forallb mode_free cs = true /\
    Term.raw_mode (Screen.out self') = Term.raw_mode (Screen.out sample_screen) /\
    Screen.dim self' = Screen.dim sample_screen /\
    Screen.theme self' = Screen.theme sample_screen /\
    Screen.keymap self' = Screen.keymap sample_screen.
Proof.
  split; [by constructor|].
  apply (@draw_frame sample_themes _ (@Button_draw sample_themes plain_text)
           (@Button_draw_laws sample_themes plain_text plain_text_laws)
           sample_boxes two_buttons sample_screen).
  by constructor.
Defined.

(** A layout that does not depend on the screen. *)
Definition sample_area (bbox : BBox.t) (theme : Theme.t) : widget_boxes :=
  sample_boxes.

(** One step on two buttons: the frame is drawn, the press on the
    second button is returned as [Redraw], and the button is pressed. *)
Example step_press :
  let r := @step sample_themes _ (@Button_draw sample_themes plain_text)
             (@Button_widget Debug ascii_width) sample_area sample_screen
             [StreamItem (ROk (EvMouse (ButtonDown Left) ModKeys.empty
                                 (Pos.mk 13 0)))]
             two_buttons in
  r.1.1.1 = Returned (ROk Redraw) /\
  Button.state <$> r.1.2 = [Button.Enabled; Button.Pressed] /\
  Term.queued (Screen.out r.1.1.2) = [] /\ r.2 = [].
Proof. by vm_compute. Qed.
