(* ===== verification/Display.v ===== *)
(** * Display: what the terminal shows

    The screen sends commands; what the user sees is what they leave on
    the cells of the terminal.  This file gives the drawing commands
    their meaning on a grid of cells ([Display.exec]): the cursor moves,
    a printed character lands on the cell under the cursor and the
    cursor goes one column on, and clearing fills every cell with a
    space (a cell of the model that holds no character reads as a
    space, [Display.char_at]).  The commands that set a style, a title
    or a mode change no cell.

    On top of it the file states what the drawing code promises about
    cells, and proves it of the code of [src/widget/label.rs] and
    [src/screen.rs]:

    - drawing is confined ([confined]): a widget writes no cell outside
      the view it is given, and a frame writes no cell outside the
      boxes of the layout;
    - a label shows its text ([label_shows]): each wrapped line on its
      own row of the view, from the first column;
    - widgets do not disturb each other ([draw_frame_shown]): where no
      other box overlaps, what a frame shows in the box of a widget is
      what that widget paints on an empty screen; boxes that overlap
      are painted in the order of the layout.

    What the frame asks of a widget is the class [WidgetPaintLaws]; a
    label keeps it when the line breaker gives lines no wider than
    asked ([TextWrapFits]), as [hard_wrap] does, and a button when
    [Cells::print_text] stays in the view ([CellsTextPaintLaws]), as
    [cut_text] does.  Lists of commands
    with the same effect are related by [same_display], an equivalence
    that [app], [confined] and [local] respect.

    One character takes one column: the text is printable ASCII.  The
    terminal's own size puts no limit on the grid; the theorems say
    that the writes stay inside boxes, which are inside the screen. *)

From Stdlib Require Import ZArith Lia String Ascii.
From Equations Require Import Equations.
From stdpp Require Import base option list gmap.
From S2P Require Import Prelude Geometry Layout Input Style Error Terminal.
From S2P Require Import Screen Widget Label Button Dispatch Render.

#[local] Set Warnings "-clear-no-such-hyp".

#[local] Open Scope Z_scope.

(** ** The grid *)

Module Display.

(** The cursor (column, row) and the character each cell holds.  A
    cell that holds none shows as a space ([char_at]): a cleared
    screen is the empty map. *)
Record t : Type := mk {
  cursor : Z * Z;
  shown : gmap (Z * Z) ascii;
}.

(** An empty screen, the cursor at its top left. *)
Definition blank : t := mk (0, 0) ∅.

(** What the user reads on a cell: the character it holds, a space
    where it holds none. *)
Definition char_at (d : t) (p : Z * Z) : ascii :=
  default " "%char (shown d !! p).

(** The characters of a string, from a cell on along its row. *)
Fixpoint print (col row : Z) (st : string) (m : gmap (Z * Z) ascii)
    : gmap (Z * Z) ascii :=
  match st with
  | EmptyString => m
  | String ch st => print (col + 1) row st (<[(col, row) := ch]> m)
  end.

(** The effect of one command.  Clearing fills the screen with
    spaces ([Screen::clear], [src/screen.rs]): no cell holds a
    character after it, and [char_at] reads a space everywhere
    ([clear_spaces]).  It leaves the cursor where it is; a move to the
    right is by the number of columns given
    ([Screen::move_right] has no caller in the snapshot). *)
Definition exec (d : t) (c : Cmd) : t :=
  match c with
  | ClearAll => mk (cursor d) ∅
  | MoveTo col row => mk (col, row) (shown d)
  | MoveRight n => mk ((cursor d).1 + n, (cursor d).2) (shown d)
  | PrintChar ch =>
      mk ((cursor d).1 + 1, (cursor d).2) (<[cursor d := ch]> (shown d))
  | PrintStr st =>
      mk ((cursor d).1 + Z.of_nat (String.length st), (cursor d).2)
        (print (cursor d).1 (cursor d).2 st (shown d))
  | _ => d
  end.

(** The effect of a sequence of commands. *)
Definition run (d : t) (cs : list Cmd) : t := foldl exec d cs.

End Display.

(** ** Specification vocabulary *)

(** A command that can change a cell or move the cursor. *)
Definition paints (c : Cmd) : bool :=
  match c with
  | ClearAll | MoveTo _ _ | MoveRight _ | PrintChar _ | PrintStr _ => true
  | _ => false
  end.

(** A cell of a box. *)
Definition in_box (box : BBox.t) (p : Z * Z) : Prop := Area.cell_in box p.1 p.2.

#[export] Instance in_box_dec box p : Decision (in_box box p).
Proof. unfold in_box, Area.cell_in. apply _. Defined.

(** Commands that, whatever the screen shows and wherever the cursor
    is, change no cell outside a box. *)
Definition confined (box : BBox.t) (cs : list Cmd) : Prop :=
  forall d p, ~ in_box box p ->
    Display.shown (Display.run d cs) !! p = Display.shown d !! p.

(** Commands whose effect on a cell depends on nothing but what the
    cell showed: not on the cursor, nor on the other cells. *)
Definition local (cs : list Cmd) : Prop :=
  forall d d' p, Display.shown d !! p = Display.shown d' !! p ->
    Display.shown (Display.run d cs) !! p
    = Display.shown (Display.run d' cs) !! p.

(** A line of text on a row of a box, from the box's first column: the
    cells it takes show its characters. *)
Definition line_shown (m : gmap (Z * Z) ascii) (box : BBox.t) (row : nat)
    (line : string) : Prop :=
  forall j ch, String.get j line = Some ch ->
    m !! (Area.col box + Z.of_nat j, Area.row box + Z.of_nat row) = Some ch.

(** ** Facts about the grid *)

Lemma print_outside col row st m p :
  ~ (p.2 = row /\ col <= p.1 < col + Z.of_nat (String.length st)) ->
  Display.print col row st m !! p = m !! p.
Proof.
  revert col m. induction st as [|ch st IH]; intros col m Hp; [done|].
  cbn [Display.print]. rewrite IH.
  - apply lookup_insert_ne. intros <-. cbn in Hp. destruct Hp. cbn. lia.
  - cbn [String.length] in Hp. lia.
Qed.

Lemma print_inside col row st m j ch :
  String.get j st = Some ch ->
  Display.print col row st m !! (col + Z.of_nat j, row) = Some ch.
Proof.
  revert col m j. induction st as [|ch' st IH]; intros col m j Hj; [done|].
  cbn [Display.print]. destruct j as [|j]; cbn in Hj.
  - simplify_eq. rewrite print_outside by (cbn; lia).
    rewrite Z.add_0_r. apply lookup_insert_eq.
  - replace (col + Z.of_nat (S j)) with (col + 1 + Z.of_nat j) by lia.
    by apply IH.
Qed.

(** What a cell shows after a string is printed depends on what it
    showed before only. *)
Lemma print_local col row st m m' p :
  m !! p = m' !! p ->
  Display.print col row st m !! p = Display.print col row st m' !! p.
Proof.
  revert col m m'. induction st as [|ch st IH]; intros col m m' Hp; [done|].
  cbn [Display.print]. apply IH.
  destruct (decide (p = (col, row))) as [->|Hne].
  - by rewrite !lookup_insert_eq.
  - by rewrite !lookup_insert_ne.
Qed.

Lemma run_app d cs1 cs2 :
  Display.run d (cs1 ++ cs2) = Display.run (Display.run d cs1) cs2.
Proof. apply foldl_app. Qed.

Lemma run_cons d c cs :
  Display.run d (c :: cs) = Display.run (Display.exec d c) cs.
Proof. done. Qed.

(** Commands that paint nothing leave the display as it is. *)
Lemma exec_silent d c : paints c = false -> Display.exec d c = d.
Proof. by destruct c. Qed.

Lemma run_silent d cs :
  Forall (fun c => paints c = false) cs -> Display.run d cs = d.
Proof.
  induction 1 as [|c cs Hc _ IH] in d |- *; [done|].
  by rewrite run_cons, exec_silent.
Qed.

(** Setting a style paints nothing. *)
Lemma style_cmds_silent cur st :
  Forall (fun c => paints c = false) (style_cmds cur st).
Proof.
  unfold style_cmds. rewrite !Forall_app. split_and!;
    repeat case_match; by repeat constructor.
Qed.

(** ** Confinement and locality *)

Section confined.
Implicit Types (box : BBox.t) (cs : list Cmd).

Lemma confined_nil box : confined box [].
Proof. by intros d p _. Qed.

Lemma confined_app box cs1 cs2 :
  confined box cs1 -> confined box cs2 -> confined box (cs1 ++ cs2).
Proof. intros H1 H2 d p Hp. by rewrite run_app, H2, H1. Qed.

Lemma confined_silent box cs :
  Forall (fun c => paints c = false) cs -> confined box cs.
Proof. intros Hs d p _. by rewrite run_silent. Qed.

(** A larger box confines what a smaller one does. *)
Lemma confined_mono box box' cs :
  (forall p, in_box box p -> in_box box' p) ->
  confined box cs -> confined box' cs.
Proof. intros Hsub Hc d p Hp. apply Hc. intros Hin. by apply Hp, Hsub. Qed.

Lemma confined_concat box (segs : list (list Cmd)) :
  Forall (confined box) segs -> confined box (concat segs).
Proof.
  induction 1 as [|seg segs Hc _ IH]; [apply confined_nil|].
  by apply confined_app.
Qed.

Lemma local_nil : local [].
Proof. by intros d d' p Hp. Qed.

Lemma local_app cs1 cs2 : local cs1 -> local cs2 -> local (cs1 ++ cs2).
Proof. intros H1 H2 d d' p Hp. rewrite !run_app. by apply H2, H1. Qed.

Lemma local_silent cs : Forall (fun c => paints c = false) cs -> local cs.
Proof. intros Hs d d' p Hp. by rewrite !run_silent. Qed.

(** A line printed from a cell it is moved to. *)
Lemma line_local col row txt : local [MoveTo col row; PrintStr txt].
Proof. intros d d' p Hp. cbn. by apply print_local. Qed.

Lemma line_confined box col row txt :
  (txt <> EmptyString ->
   Area.row box <= row < Area.row box + Area.height box /\
   Area.col box <= col /\
   col + Z.of_nat (String.length txt) <= Area.col box + Area.width box) ->
  confined box [MoveTo col row; PrintStr txt].
Proof.
  intros Hfit d p Hp. cbn. destruct txt as [|ch txt]; [done|].
  apply print_outside. intros [Hrow Hcol]. apply Hp.
  destruct Hfit as (? & ? & ?); [done|].
  unfold in_box, Area.cell_in. lia.
Qed.

End confined.

(** ** Lines on the rows of a box *)

(** The commands that print lines on successive rows of a box, from
    row [k] on, each from the first column. *)
Definition rows_cmds (box : BBox.t) (k : nat) (lines : list string) : list Cmd :=
  flat_map (fun '(row, txt) =>
              [MoveTo (Area.col box) (Area.row box + Z.of_nat row);
               PrintStr txt])
    (imap (fun j => pair (k + j)%nat) lines).

Section rows.
Implicit Types (box : BBox.t) (lines : list string) (k i : nat).

Lemma rows_cmds_nil box k : rows_cmds box k [] = [].
Proof. done. Qed.

Lemma rows_cmds_cons box k line lines :
  rows_cmds box k (line :: lines) =
  [MoveTo (Area.col box) (Area.row box + Z.of_nat k); PrintStr line]
    ++ rows_cmds box (S k) lines.
Proof.
  unfold rows_cmds. cbn [imap flat_map]. rewrite Nat.add_0_r.
  do 2 f_equal. apply imap_ext. intros j x _. cbn. f_equal. lia.
Qed.

Lemma rows_cmds_local box k lines : local (rows_cmds box k lines).
Proof.
  revert k. induction lines as [|line lines IH]; intros k; [apply local_nil|].
  rewrite rows_cmds_cons. apply local_app; [apply line_local|apply IH].
Qed.

(** The rows before the first one printed, and the cells of other
    columns, are not touched. *)
Lemma rows_cmds_outside box k lines d p :
  ~ (Area.row box + Z.of_nat k <= p.2 < Area.row box + Z.of_nat (k + length lines)
     /\ Area.col box <= p.1) ->
  Display.shown (Display.run d (rows_cmds box k lines)) !! p
  = Display.shown d !! p.
Proof.
  revert k d. induction lines as [|line lines IH]; intros k d Hp; [done|].
  rewrite rows_cmds_cons, run_app, IH by (cbn [length] in Hp; lia).
  cbn. apply print_outside. cbn [length] in Hp. lia.
Qed.

(** Lines that fit the box stay in the box. *)
Lemma rows_cmds_confined box k lines :
  Z.of_nat (k + length lines) <= Area.height box ->
  Forall (fun line => Z.of_nat (String.length line) <= Area.width box) lines ->
  confined box (rows_cmds box k lines).
Proof.
  revert k. induction lines as [|line lines IH]; intros k Hk Hfit;
    [apply confined_nil|].
  apply Forall_cons in Hfit as [Hline Hfit]. cbn [length] in Hk.
  rewrite rows_cmds_cons. apply confined_app; [|apply IH; [lia|done]].
  apply line_confined. lia.
Qed.

(** Every line is shown on its row. *)
Lemma rows_cmds_shown box k lines d i line :
  lines !! i = Some line ->
  line_shown (Display.shown (Display.run d (rows_cmds box k lines)))
    box (k + i) line.
Proof.
  revert k d i. induction lines as [|line' lines IH]; intros k d i Hi; [done|].
  rewrite rows_cmds_cons, run_app. destruct i as [|i]; cbn in Hi.
  - simplify_eq. intros j ch Hj.
    rewrite rows_cmds_outside by (cbn [fst snd]; lia).
    rewrite Nat.add_0_r. cbn. by apply print_inside.
  - replace (k + S i)%nat with (S k + i)%nat by lia. by apply IH.
Qed.

(** A cell of the rows that no line reaches is as it was. *)
Lemma rows_cmds_beyond box k lines d p :
  (forall i line, lines !! i = Some line ->
     p.2 = Area.row box + Z.of_nat (k + i) ->
     Area.col box + Z.of_nat (String.length line) <= p.1) ->
  Display.shown (Display.run d (rows_cmds box k lines)) !! p
  = Display.shown d !! p.
Proof.
  revert k d. induction lines as [|line lines IH]; intros k d Hp; [done|].
  rewrite rows_cmds_cons, run_app, IH.
  - cbn. apply print_outside. intros [Hrow Hcol].
    specialize (Hp 0%nat line eq_refl). rewrite Nat.add_0_r in Hp. lia.
  - intros i l Hi Hrow. apply (Hp (S i) l Hi). rewrite Hrow. f_equal. lia.
Qed.

End rows.

(** ** What a label shows *)

(** The lines [textwrap] gives are no wider than asked, when there is
    room for a character at all. *)
Class TextWrapFits `{TW : TextWrap} : Prop :=
  wrap_fits txt width :
    0 < width ->
    Forall (fun line => Z.of_nat (String.length line) <= width)
      (wrap_iter txt width).

Section label_display.
Context `{TW : TextWrap}.
Implicit Types (l : Label.t) (c : Cells.t) (d : Display.t).

(** The lines of a label that its view has rows for. *)
Definition label_lines l c : list string :=
  take (Z.to_nat (Cells.height c)) (wrap_iter (Label.txt l) (Cells.width c)).

Lemma render_cmds_rows l c :
  render_cmds l c = rows_cmds (Cells.bbox c) 0 (label_lines l c).
Proof. done. Qed.

Lemma label_lines_length l c :
  Z.of_nat (length (label_lines l c)) <= Z.max 0 (Cells.height c).
Proof. unfold label_lines. rewrite length_take. lia. Qed.

Lemma render_cmds_local l c : local (render_cmds l c).
Proof. rewrite render_cmds_rows. apply rows_cmds_local. Qed.

Lemma render_cmds_shown l c d i line :
  label_lines l c !! i = Some line ->
  line_shown (Display.shown (Display.run d (render_cmds l c)))
    (Cells.bbox c) i line.
Proof. rewrite render_cmds_rows. apply (rows_cmds_shown _ 0). Qed.

Lemma render_cmds_beyond l c d p :
  (forall i line, label_lines l c !! i = Some line ->
     p.2 = Area.row (Cells.bbox c) + Z.of_nat i ->
     Area.col (Cells.bbox c) + Z.of_nat (String.length line) <= p.1) ->
  Display.shown (Display.run d (render_cmds l c)) !! p = Display.shown d !! p.
Proof. rewrite render_cmds_rows. apply (rows_cmds_beyond _ 0). Qed.

Context `{!TextWrapFits}.

Lemma render_cmds_confined l c :
  0 < Cells.width c -> 0 <= Cells.height c ->
  confined (Cells.bbox c) (render_cmds l c).
Proof.
  intros Hw Hh. rewrite render_cmds_rows. apply rows_cmds_confined.
  - pose proof (label_lines_length l c). unfold Cells.height in *. lia.
  - by apply Forall_take, wrap_fits.
Qed.

(** C30. What a label shows.  [Label::render] on a terminal that does
    not fail, in a view of at least one column and at most 65536 rows
    and with lines wrapped to the width of the view: every line the view has a row for is shown
    on its row, from the first column of the view; no cell outside the
    view is written; and the cells of the view that the lines do not
    reach are left as they were. *)
Theorem label_shows l c self d :
  Term.reliable (Screen.out self) ->
  0 < Cells.width c -> 0 <= Cells.height c <= 65536 ->
  exists self',
    queues (Label.render l c) self (render_cmds l c) self' /\
    let m := Display.shown (Display.run d (render_cmds l c)) in
    (forall i line, label_lines l c !! i = Some line ->
       line_shown m (Cells.bbox c) i line) /\
    (forall p, ~ in_box (Cells.bbox c) p -> m !! p = Display.shown d !! p) /\
    (forall p,
       (forall i line, label_lines l c !! i = Some line ->
          p.2 = Area.row (Cells.bbox c) + Z.of_nat i ->
          Area.col (Cells.bbox c) + Z.of_nat (String.length line) <= p.1) ->
       m !! p = Display.shown d !! p).
Proof.
  intros Hr Hw [Hh0 Hh].
  destruct (label_render_run l c self Hr Hh) as (self' & Hq & _).
  exists self'. split; [done|]. split_and!.
  - intros i line. apply render_cmds_shown.
  - intros p. by apply render_cmds_confined.
  - intros p. apply render_cmds_beyond.
Qed.

End label_display.

(** ** Commands with the same effect *)

(** Two sequences of commands that leave the same display, whatever
    it showed. *)
Definition same_display (cs cs' : list Cmd) : Prop :=
  forall d, Display.run d cs = Display.run d cs'.

#[export] Instance same_display_equiv : Equivalence same_display.
Proof.
  split; [by intros cs d|by intros cs cs' H d|].
  intros cs1 cs2 cs3 H1 H2 d. by rewrite H1.
Qed.

#[export] Instance app_same_display :
  Proper (same_display ==> same_display ==> same_display) app.
Proof. intros cs1 cs1' H1 cs2 cs2' H2 d. by rewrite !run_app, H1, H2. Qed.

#[export] Instance confined_same_display box :
  Proper (same_display ==> iff) (confined box).
Proof.
  intros cs cs' H. unfold confined.
  split; intros Hc d p Hp; [rewrite <- H|rewrite H]; by apply Hc.
Qed.

#[export] Instance local_same_display : Proper (same_display ==> iff) local.
Proof.
  intros cs cs' H. unfold local.
  split; intros Hl d d' p Hp; [rewrite <- !H|rewrite !H]; by apply Hl.
Qed.

Lemma same_display_silent cs :
  Forall (fun c => paints c = false) cs -> same_display cs [].
Proof. intros Hs d. by rewrite run_silent. Qed.

(** ** What widgets paint *)

(** The extent of a box with [u16] coordinates. *)
Lemma wf_extent (box : BBox.t) :
  Area.wf box ->
  0 <= Area.height box /\ Area.height box <= 65536 /\ 0 <= Area.width box.
Proof. intros ((? & ? & ? & ?) & ? & ?). unfold is_u16, u16_max in *. lia. Qed.

(** A view as [cells] hands it out: on the [u16] grid and not empty. *)
Definition view_ok (c : Cells.t) : Prop :=
  Area.wf (Cells.bbox c) /\ 0 < Cells.width c /\ 0 < Cells.height c.

(** The part of a box that is on the screen. *)
Definition on_screen (self : Screen.t) (bbox : BBox.t) : BBox.t :=
  BBox.clip (Screen.bbox self) bbox.

Lemma cells_view self bbox c :
  Area.wf (Screen.bbox self) -> Area.wf bbox -> cells self bbox = Some c ->
  view_ok c /\ Cells.bbox c = on_screen self bbox.
Proof.
  intros Hs Hb. unfold cells, on_screen.
  pose proof (bbox_clip_wf _ _ Hs Hb) as Hwf.
  destruct (BBox.is_empty _) eqn:E; [done|]. intros [= <-].
  split; [|done]. split; [done|].
  apply bool_decide_eq_false in E. destruct (wf_extent _ Hwf) as (? & _ & ?).
  unfold Cells.width, Cells.height, BBox.dim in *. cbn in *. lia.
Qed.

Lemma cells_dim self self' bbox :
  Screen.dim self' = Screen.dim self -> cells self' bbox = cells self bbox.
Proof. intros Hd. unfold cells, Screen.bbox. by rewrite Hd. Qed.

(** The commands that matter for the cells when a widget draws itself
    into a view. *)
Class WidgetPaint (W : Type) := paint : W -> Cells.t -> list Cmd.

(** What the frame relies on for the cells: drawing into a view that
    [cells] hands out has the effect of [paint] on the display; [paint]
    stays in the view, and what it leaves on a cell depends on nothing
    but the cell. *)
Class WidgetPaintLaws `{TH : Themes} (W : Type) `{!WidgetDraw W}
    `{!WidgetPaint W} : Prop := {
  draw_paints (w : W) c pos self :
    Term.reliable (Screen.out self) -> view_ok c ->
    exists cs self', queues (Widget.draw w c pos) self cs self' /\
      same_display cs (paint w c);
  paint_confined (w : W) c : view_ok c -> confined (Cells.bbox c) (paint w c);
  paint_local (w : W) c : local (paint w c);
}.

#[export] Instance Label_paint `{TW : TextWrap} : WidgetPaint Label.t :=
  render_cmds.

#[export] Instance Label_paint_laws `{TH : Themes} `{TW : TextWrap}
    `{!TextWrapFits} : WidgetPaintLaws Label.t.
Proof.
  split.
  - intros l c pos self Hr (Hwf & _).
    destruct (label_render_run l c self Hr) as (self' & Hq & _);
      [apply (wf_extent _ Hwf)|].
    by eexists _, self'.
  - intros l c (Hwf & Hw & _).
    apply render_cmds_confined; [done|apply (wf_extent _ Hwf)].
  - intros l c. apply render_cmds_local.
Qed.

(** *** Buttons *)

(** What [Cells::print_text] leaves on the cells. *)
Class CellsTextPaint := text_cmds : Cells.t -> string -> list Cmd.

(** The view keeps its promise for text: printing a text has the
    effect of [text_cmds], which stay in the view and are local. *)
Class CellsTextPaintLaws `{CT : CellsText} `{!CellsTextPaint} : Prop := {
  print_text_paints c txt self :
    Term.reliable (Screen.out self) -> view_ok c ->
    exists cs self', queues (Cells_print_text c txt) self cs self' /\
      same_display cs (text_cmds c txt);
  text_confined c txt : view_ok c -> confined (Cells.bbox c) (text_cmds c txt);
  text_local c txt : local (text_cmds c txt);
}.

#[export] Instance Button_paint `{!CellsTextPaint} : WidgetPaint Button.t :=
  fun b c => text_cmds c (Label.txt (Button.lbl b)).

(** A button keeps the painting contract when [print_text] does. *)
#[export] Instance Button_paint_laws `{TH : Themes} `{CT : CellsText}
  `{!CellsTextPaint} `{!CellsTextPaintLaws} : WidgetPaintLaws Button.t.
Proof.
  split.
  - intros b c pos self Hr Hok. cbn [Widget.draw Button_draw].
    unfold queues, Button.draw.
    destruct (set_style_queues_aux (Button.style b (Cells.theme c self)) self Hr)
      as (s1 & Hq1 & _).
    destruct (print_text_paints c (Label.txt (Button.lbl b)) s1
                (proj2 (proj2 Hq1)) Hok) as (cs2 & s2 & Hq2 & Hsame).
    eexists _, s2. split; [exact (queues_seq _ _ _ _ _ _ _ Hq1 Hq2)|].
    by rewrite (same_display_silent _ (style_cmds_silent _ _)), Hsame.
  - intros b c. apply text_confined.
  - intros b c. apply text_local.
Qed.

(** Text on the first row of the view, cut at the width of the view. *)
Definition cut_text : CellsText := fun c txt =>
  (Cells.move_to c 0 0;;
   Cells.print_str c (substring 0 (Z.to_nat (Cells.width c)) txt))%io.

#[export] Instance cut_text_paint : CellsTextPaint := fun c txt =>
  rows_cmds (Cells.bbox c) 0 [substring 0 (Z.to_nat (Cells.width c)) txt].

Lemma length_substring_le n s : (String.length (substring 0 n s) <= n)%nat.
Proof.
  revert s. induction n as [|n IH]; intros [|ch s]; cbn; try lia.
  specialize (IH s). lia.
Qed.

#[export] Instance cut_text_paint_laws : @CellsTextPaintLaws cut_text _.
Proof.
  split.
  - intros c txt self Hr _.
    destruct (queues_cells_move_to c 0 0 self Hr) as (s1 & Hq1 & _).
    destruct (queues_cells_print_str c
                (substring 0 (Z.to_nat (Cells.width c)) txt) s1
                (proj2 (proj2 Hq1))) as (s2 & Hq2 & _).
    eexists _, s2. split; [exact (queues_seq _ _ _ _ _ _ _ Hq1 Hq2)|].
    unfold text_cmds, cut_text_paint, rows_cmds. cbn. by rewrite !Z.add_0_r.
  - intros c txt (_ & Hw & Hh). apply rows_cmds_confined.
    + unfold Cells.height in Hh. cbn. lia.
    + repeat constructor.
      pose proof (length_substring_le (Z.to_nat (Cells.width c)) txt).
      unfold Cells.width in *. lia.
  - intros c txt. apply rows_cmds_local.
Qed.


(** ** What a frame shows *)

Section frame_display.
Context `{TH : Themes} {W : Type} `{!WidgetDraw W} `{!WidgetPaint W}.
Context `{!WidgetPaintLaws W}.
Implicit Types (self : Screen.t) (wbs : widget_boxes) (ws : list W)
  (wb : nat * BBox.t) (d : Display.t) (p : Z * Z).

(** What one entry of the layout paints: its widget, into the part of
    its box that is on the screen; nothing when the layout names no
    widget, or when the box is off the screen. *)
Definition painted self ws wb : list Cmd :=
  match ws !! wb.1, cells self wb.2 with
  | Some w, Some c => paint w c
  | _, _ => []
  end.

(** What the loop of [draw] paints. *)
Definition frame_paint self wbs ws : list Cmd :=
  flat_map (painted self ws) wbs.

(** The cell is in the part of no box of the layout that is on the
    screen. *)
Definition uncovered self wbs p : Prop :=
  Forall (fun wb => ~ in_box (on_screen self wb.2) p) wbs.

Lemma painted_dim self self' ws wb :
  Screen.dim self' = Screen.dim self -> painted self' ws wb = painted self ws wb.
Proof. intros Hd. unfold painted. by rewrite (cells_dim _ _ _ Hd). Qed.

Lemma frame_paint_dim self self' wbs ws :
  Screen.dim self' = Screen.dim self ->
  frame_paint self' wbs ws = frame_paint self wbs ws.
Proof.
  intros Hd. unfold frame_paint. induction wbs as [|wb wbs IH]; [done|].
  cbn [flat_map]. by rewrite IH, (painted_dim _ _ _ _ Hd).
Qed.

Lemma painted_confined self ws wb :
  Area.wf (Screen.bbox self) -> Area.wf wb.2 ->
  confined (on_screen self wb.2) (painted self ws wb).
Proof.
  intros Hs Hb. unfold painted.
  destruct (ws !! wb.1) as [w|]; [|apply confined_nil].
  destruct (cells self wb.2) as [c|] eqn:Hc; [|apply confined_nil].
  destruct (cells_view _ _ _ Hs Hb Hc) as (Hok & <-). by apply paint_confined.
Qed.

Lemma painted_local self ws wb : local (painted self ws wb).
Proof. unfold painted. repeat case_match; apply paint_local || apply local_nil. Qed.

(** A frame leaves the cells that no box covers as they were. *)
Lemma frame_paint_outside self wbs ws d p :
  Area.wf (Screen.bbox self) -> Forall (fun wb => Area.wf wb.2) wbs ->
  uncovered self wbs p ->
  Display.shown (Display.run d (frame_paint self wbs ws)) !! p
  = Display.shown d !! p.
Proof.
  intros Hs Hwf Hout. revert d.
  induction Hwf as [|wb wbs Hb _ IH]; intros d; [done|].
  apply Forall_cons in Hout as [Hp Hout]. unfold frame_paint. cbn [flat_map].
  rewrite run_app. fold (frame_paint self wbs ws).
  rewrite IH by done. by apply painted_confined.
Qed.

(** Where one box only covers a cell, the frame leaves on it what the
    widget of that box paints. *)
Lemma frame_paint_alone self wbs ws k wb d d' p :
  Area.wf (Screen.bbox self) -> Forall (fun wb => Area.wf wb.2) wbs ->
  wbs !! k = Some wb ->
  uncovered self (take k wbs) p -> uncovered self (drop (S k) wbs) p ->
  Display.shown d !! p = Display.shown d' !! p ->
  Display.shown (Display.run d (frame_paint self wbs ws)) !! p
  = Display.shown (Display.run d' (painted self ws wb)) !! p.
Proof.
  intros Hs Hwf Hk Hbefore Hafter Hd.
  rewrite <- (take_drop_middle wbs k wb Hk). unfold frame_paint.
  rewrite flat_map_app. cbn [flat_map]. rewrite !run_app.
  fold (frame_paint self (take k wbs) ws) (frame_paint self (drop (S k) wbs) ws).
  rewrite frame_paint_outside by (done || by apply Forall_drop).
  apply painted_local.
  by rewrite frame_paint_outside by (done || by apply Forall_take).
Qed.

(** Boxes that overlap: the entries paint in the order of the layout,
    so a cell shows what the last entry that covers it leaves there,
    painting over what the entries before it left. *)
Lemma frame_paint_over self wbs ws k wb d p :
  Area.wf (Screen.bbox self) -> Forall (fun wb => Area.wf wb.2) wbs ->
  wbs !! k = Some wb -> uncovered self (drop (S k) wbs) p ->
  Display.shown (Display.run d (frame_paint self wbs ws)) !! p
  = Display.shown
      (Display.run (Display.run d (frame_paint self (take k wbs) ws))
         (painted self ws wb)) !! p.
Proof.
  intros Hs Hwf Hk Hafter.
  rewrite <- (take_drop_middle wbs k wb Hk) at 1. unfold frame_paint.
  rewrite flat_map_app. cbn [flat_map]. rewrite !run_app.
  fold (frame_paint self (take k wbs) ws) (frame_paint self (drop (S k) wbs) ws).
  by rewrite frame_paint_outside by (done || by apply Forall_drop).
Qed.

(** One widget of the layout is drawn: on the display, the effect is
    what the entry paints. *)
Lemma draw_widget_paints pos ws wb w self :
  Term.reliable (Screen.out self) ->
  Area.wf (Screen.bbox self) -> Area.wf wb.2 -> ws !! wb.1 = Some w ->
  exists cs self', queues (draw_widget pos w wb.2) self cs self' /\
    same_display cs (painted self ws wb).
Proof.
  intros Hr Hs Hb Hw. unfold queues, draw_widget, painted. rewrite Hw.
  destruct (cells self wb.2) as [c|] eqn:Hc.
  - destruct (cells_view _ _ _ Hs Hb Hc) as (Hok & _).
    destruct (set_style_queues_aux
                (Theme_style (Cells.theme c self) (style_group w)) self Hr)
      as (s1 & Hq1 & _).
    destruct (draw_paints w c pos s1 (proj2 (proj2 Hq1)) Hok)
      as (cs2 & s2 & Hq2 & Hsame).
    eexists _, s2. split; [exact (queues_seq _ _ _ _ _ _ _ Hq1 Hq2)|].
    by rewrite (same_display_silent _ (style_cmds_silent _ _)), Hsame.
  - exists [], self. split; [by apply queues_ret|done].
Qed.

(** The loop of [draw]: on the display, the effect is [frame_paint]. *)
Lemma draw_loop_paints pos wbs ws self :
  Term.reliable (Screen.out self) ->
  Area.wf (Screen.bbox self) -> Forall (fun wb => Area.wf wb.2) wbs ->
  exists cs self',
    queues (io_for wbs (fun wb =>
              match ws !! wb.1 with
              | Some widget => draw_widget pos widget wb.2
              | None => io_ret tt
              end)) self cs self' /\
    same_display cs (frame_paint self wbs ws).
Proof.
  intros Hr Hs Hwf. revert self Hr Hs.
  induction Hwf as [|wb wbs Hb _ IH]; intros self Hr Hs.
  { exists [], self. split; [by apply queues_ret|done]. }
  cbn [io_for].
  assert (exists cs1 s1,
            queues (match ws !! wb.1 with
                    | Some widget => draw_widget pos widget wb.2
                    | None => io_ret tt
                    end) self cs1 s1 /\ same_display cs1 (painted self ws wb))
    as (cs1 & s1 & Hq1 & Hsame1).
  { destruct (ws !! wb.1) as [w|] eqn:Hw; [by apply draw_widget_paints|].
    exists [], self. split; [by apply queues_ret|]. unfold painted. by rewrite Hw. }
  assert (Screen.dim s1 = Screen.dim self) as Hd by apply Hq1.
  destruct (IH s1) as (cs2 & s2 & Hq2 & Hsame2); [apply Hq1| |].
  { unfold Screen.bbox. by rewrite Hd. }
  exists (cs1 ++ cs2), s2. split; [by eapply queues_bind|].
  unfold frame_paint. cbn [flat_map]. fold (frame_paint self wbs ws).
  by rewrite Hsame1, Hsame2, (frame_paint_dim _ _ _ _ Hd).
Qed.

End frame_display.

(** ** A wrapper that fits *)

(** The characters of a text in lines of [n] characters (of one, when
    [n] is 0), the last line with what is left. *)
Equations? chunks (n : nat) (l : list ascii) : list (list ascii)
    by wf (length l) lt :=
  chunks n [] := [];
  chunks n (a :: l) :=
    take (S (pred n)) (a :: l) :: chunks n (drop (S (pred n)) (a :: l)).
Proof. cbn. rewrite length_drop. lia. Qed.

(** Wrapping at the width, with no regard for words. *)
Definition hard_wrap : TextWrap := fun txt width =>
  string_of_list_ascii <$> chunks (Z.to_nat width) (list_ascii_of_string txt).

Lemma length_string_of_list_ascii (l : list ascii) :
  String.length (string_of_list_ascii l) = length l.
Proof. induction l; cbn; congruence. Qed.

Lemma chunks_fit n l :
  (0 < n)%nat -> Forall (fun line => (length line <= n)%nat) (chunks n l).
Proof.
  intros Hn. funelim (chunks n l); simp chunks; constructor; [|by apply H].
  rewrite length_take. lia.
Qed.

(** The lines together are the text. *)
Lemma chunks_concat n l : concat (chunks n l) = l.
Proof.
  funelim (chunks n l); simp chunks; [done|].
  cbn [concat]. rewrite H. apply take_drop.
Qed.

#[export] Instance hard_wrap_fits : @TextWrapFits hard_wrap.
Proof.
  intros txt width Hw. unfold wrap_iter, hard_wrap. apply Forall_fmap.
  eapply Forall_impl; [apply (chunks_fit (Z.to_nat width)); lia|].
  intros line Hl. cbn in Hl |- *. rewrite length_string_of_list_ascii. lia.
Qed.

(** ** Frames on the display *)

(** The boxes of a layout share no cell. *)
Definition apart (wbs : widget_boxes) : Prop :=
  forall k k' wb wb' p, wbs !! k = Some wb -> wbs !! k' = Some wb' -> k <> k' ->
    ~ (in_box wb.2 p /\ in_box wb'.2 p).

Lemma string_get_lt j line ch :
  String.get j line = Some ch -> (j < String.length line)%nat.
Proof.
  revert j. induction line as [|ch' line IH]; intros [|j] Hj; cbn in *;
    try done; [lia|]. apply IH in Hj. lia.
Qed.

Lemma in_on_screen self bbox p :
  in_box (on_screen self bbox) p <-> in_box (Screen.bbox self) p /\ in_box bbox p.
Proof. apply bbox_clip_cells. Qed.

Lemma uncovered_delete self (wbs : list (nat * BBox.t)) k p :
  uncovered self (delete k wbs) p ->
  uncovered self (take k wbs) p /\ uncovered self (drop (S k) wbs) p.
Proof. unfold uncovered. rewrite delete_take_drop. apply Forall_app. Qed.

(** In a layout of boxes that lie apart, no other box covers a cell of
    the part of a box that is on the screen. *)
Lemma apart_uncovered self (wbs : list (nat * BBox.t)) k wb p :
  apart wbs -> wbs !! k = Some wb -> in_box (on_screen self wb.2) p ->
  uncovered self (delete k wbs) p.
Proof.
  intros Hapart Hk [_ Hp]%in_on_screen. apply Forall_lookup.
  intros k' wb' Hk' [_ Hp']%in_on_screen.
  destruct (decide (k' < k)%nat).
  - rewrite list_lookup_delete_lt in Hk' by done.
    apply (Hapart k k' wb wb' p); [done..|lia|done].
  - rewrite list_lookup_delete_ge in Hk' by lia.
    apply (Hapart k (S k') wb wb' p); [done..|lia|done].
Qed.

Section frame_shown.
Context `{TH : Themes} {W : Type} `{!WidgetDraw W} `{!WidgetPaint W}.
Context `{!WidgetPaintLaws W}.
Implicit Types (self : Screen.t) (wbs : widget_boxes) (ws : list W)
  (wb : nat * BBox.t) (d : Display.t) (p : Z * Z).

Lemma run_after_clear d pre cs :
  Display.run d (pre ++ ClearAll :: cs)
  = Display.run (Display.mk (Display.cursor (Display.run d pre)) ∅) cs.
Proof. by rewrite run_app. Qed.

(** [draw] on the display: whatever the terminal showed, after the
    frame it shows what [frame_paint] leaves on a display without a
    character. *)
Lemma draw_shows wbs ws self d :
  Term.reliable (Screen.out self) ->
  Area.wf (Screen.bbox self) -> Forall (fun wb => Area.wf wb.2) wbs ->
  exists self' d0, draw wbs ws self = (ROk tt, self') /\
    Display.shown d0 = ∅ /\
    Display.run d (Term.written (Screen.out self'))
    = Display.run d0 (frame_paint self wbs ws).
Proof.
  intros Hr Hs Hwf.
  destruct (draw_run wbs ws self Hr) as (s2 & Hr2 & Hd2 & Hdraw).
  destruct (draw_loop_paints Pos.default wbs ws s2 Hr2) as (cs & s3 & Hq3 & Hsame);
    [unfold Screen.bbox; by rewrite Hd2|done|].
  destruct (Hdraw cs s3 Hq3) as (self' & Hdr & _ & _ & Hw & _).
  eexists self', (Display.mk _ ∅). split; [done|]. split; [done|].
  by rewrite Hw, app_assoc, run_after_clear, Hsame, (frame_paint_dim _ _ _ _ Hd2).
Qed.

(** What a frame leaves on a cell that one box at most covers. *)
Lemma frame_cell wbs ws self d0 p :
  Area.wf (Screen.bbox self) -> Forall (fun wb => Area.wf wb.2) wbs ->
  Display.shown d0 = ∅ ->
  let m := Display.shown (Display.run d0 (frame_paint self wbs ws)) in
  (uncovered self wbs p -> m !! p = None) /\
  (forall k wb, wbs !! k = Some wb -> uncovered self (delete k wbs) p ->
     m !! p
     = Display.shown (Display.run Display.blank (painted self ws wb)) !! p).
Proof.
  intros Hs Hwf H0 m. subst m. split.
  - intros Hout. by rewrite frame_paint_outside, H0.
  - intros k wb Hk [Hbefore Hafter]%uncovered_delete.
    apply (frame_paint_alone self wbs ws k); [done..|by rewrite H0].
Qed.

(** Clearing fills the screen with spaces. *)
Lemma clear_spaces d p :
  Display.char_at (Display.exec d ClearAll) p = " "%char.
Proof. done. Qed.

(** After a frame the user reads a space on every cell that no box of
    the layout covers, whatever the terminal showed before. *)
Lemma draw_uncovered_space wbs ws self d p :
  Term.reliable (Screen.out self) ->
  Area.wf (Screen.bbox self) -> Forall (fun wb => Area.wf wb.2) wbs ->
  uncovered self wbs p ->
  exists self', draw wbs ws self = (ROk tt, self') /\
    Display.char_at (Display.run d (Term.written (Screen.out self'))) p
    = " "%char.
Proof.
  intros Hr Hs Hwf Hout.
  destruct (draw_shows wbs ws self d Hr Hs Hwf) as (self' & d0 & Hdr & H0 & Hd).
  exists self'. split; [done|]. unfold Display.char_at. rewrite Hd.
  by rewrite (proj1 (frame_cell wbs ws self d0 p Hs Hwf H0) Hout).
Qed.

(** C13. What a frame shows.  On a terminal that does not fail, with
    a screen and boxes on the [u16] grid and widgets that keep the
    painting contract, [Screen::draw] succeeds and, whatever the
    terminal showed before: a cell that is in no box of the layout, or
    off the screen, holds no character (the user reads a space there,
    [draw_uncovered_space]); and a cell that one box only covers
    shows what the widget of that box paints on an empty screen, into
    the part of the box that is on the screen. *)
Theorem draw_frame_shown wbs ws self d :
  Term.reliable (Screen.out self) ->
  Area.wf (Screen.bbox self) -> Forall (fun wb => Area.wf wb.2) wbs ->
  exists self', draw wbs ws self = (ROk tt, self') /\
    let m := Display.shown (Display.run d (Term.written (Screen.out self'))) in
    (forall p, uncovered self wbs p -> m !! p = None) /\
    (forall k wb p, wbs !! k = Some wb -> uncovered self (delete k wbs) p ->
       m !! p
       = Display.shown (Display.run Display.blank (painted self ws wb)) !! p).
Proof.
  intros Hr Hs Hwf.
  destruct (draw_shows wbs ws self d Hr Hs Hwf) as (self' & d0 & Hdr & H0 & Hd).
  exists self'. split; [done|]. cbv zeta. rewrite Hd.
  split; [intros p|intros k wb p]; by apply frame_cell.
Qed.

End frame_shown.

(** ** Frames of labels *)

Section labels_shown.
Context `{TH : Themes} `{TW : TextWrap} `{!TextWrapFits}.
Implicit Types (self : Screen.t) (wbs : widget_boxes) (ls : list Label.t)
  (l : Label.t) (c : Cells.t).

(** The characters of the lines of a label have their cells in the
    view. *)
Lemma label_line_in_view l c r line j ch :
  0 < Cells.width c ->
  label_lines l c !! r = Some line -> String.get j line = Some ch ->
  in_box (Cells.bbox c)
    (Area.col (Cells.bbox c) + Z.of_nat j, Area.row (Cells.bbox c) + Z.of_nat r).
Proof.
  intros Hw [Hr Hlt]%lookup_take_Some Hj%string_get_lt.
  pose proof (proj1 (Forall_lookup _ _) (wrap_fits (Label.txt l) _ Hw) _ _ Hr).
  unfold in_box, Area.cell_in, Cells.width, Cells.height in *. cbn in *. lia.
Qed.

(** What the frame leaves where a label's line is, when no other box
    covers the view of the label. *)
Lemma labels_shown wbs ls self d0 k i bbox l c r line :
  Area.wf (Screen.bbox self) -> Forall (fun wb => Area.wf wb.2) wbs ->
  apart wbs -> Display.shown d0 = ∅ ->
  wbs !! k = Some (i, bbox) -> ls !! i = Some l -> cells self bbox = Some c ->
  label_lines l c !! r = Some line ->
  line_shown (Display.shown (Display.run d0 (frame_paint self wbs ls)))
    (Cells.bbox c) r line.
Proof.
  intros Hs Hwf Hapart H0 Hk Hi Hc Hr j ch Hj.
  destruct (cells_view self bbox c Hs) as ((_ & Hw & _) & Hbox); [|done|].
  { by apply (proj1 (Forall_lookup _ _) Hwf k (i, bbox)). }
  rewrite (proj2 (frame_cell wbs ls self d0 _ Hs Hwf H0) k (i, bbox) Hk).
  - unfold painted. cbn [fst snd]. rewrite Hi, Hc.
    by apply (render_cmds_shown l c Display.blank r line).
  - apply (apart_uncovered self wbs k (i, bbox)); [done..|]. cbn [snd].
    rewrite <- Hbox. by eapply label_line_in_view.
Qed.

(** A frame of labels.  On a terminal that does not fail, with a
    screen and boxes on the [u16] grid, boxes that share no cell and
    text wrapped to the width asked for, [Screen::draw] succeeds and
    the terminal then shows every label: each line that the part of
    the label's box on the screen has a row for, on that row and from
    the first column of that part. *)
Theorem labels_frame_shown wbs ls self d :
  Term.reliable (Screen.out self) ->
  Area.wf (Screen.bbox self) -> Forall (fun wb => Area.wf wb.2) wbs ->
  apart wbs ->
  exists self', draw wbs ls self = (ROk tt, self') /\
    forall k i bbox l c r line,
      wbs !! k = Some (i, bbox) -> ls !! i = Some l ->
      cells self bbox = Some c -> label_lines l c !! r = Some line ->
      line_shown
        (Display.shown (Display.run d (Term.written (Screen.out self'))))
        (Cells.bbox c) r line.
Proof.
  intros Hr Hs Hwf Hapart.
  destruct (draw_shows wbs ls self d Hr Hs Hwf) as (self' & d0 & Hdr & H0 & Hd).
  exists self'. split; [done|]. intros k i bbox l c r line. rewrite Hd.
  by apply labels_shown.
Qed.

End labels_shown.

(** ** Concrete frames *)

(** Two labels side by side on a screen of eighty columns by
    twenty-four rows, the first in a box of five columns and three
    rows. *)
Definition two_labels : list Label.t :=
  [Label.new "hello world"%string; Label.new "ok"%string].

Definition label_boxes : widget_boxes :=
  [(0%nat, BBox.new 2 1 5 3); (1%nat, BBox.new 10 1 4 1)].

Example hard_wrap_lines :
  hard_wrap "hello world"%string 5 = ["hello"; " worl"; "d"]%string /\
  hard_wrap "hello"%string 0 = ["h"; "e"; "l"; "l"; "o"]%string /\
  hard_wrap ""%string 5 = [].
Proof. by vm_compute. Qed.

(** What the terminal shows after the frame: the three lines of the
    first label in its box, the second label in its own, and nothing
    between them. *)
Example labels_on_display :
  let r := @draw sample_themes _ (@Label_draw sample_themes hard_wrap)
             label_boxes two_labels fresh_screen in
  let m := Display.shown
             (Display.run Display.blank (Term.written (Screen.out r.2))) in
  r.1 = ROk tt /\
  (fun col => m !! (col, 1)) <$> [2; 3; 4; 5; 6; 7; 10; 11; 12]
  = [Some "h"; Some "e"; Some "l"; Some "l"; Some "o"; None;
     Some "o"; Some "k"; None]%char /\
  (fun col => m !! (col, 2)) <$> [2; 3; 4; 5; 6; 7]
  = [Some " "; Some "w"; Some "o"; Some "r"; Some "l"; None]%char /\
  m !! (2, 3) = Some "d"%char /\ m !! (3, 3) = None /\ m !! (2, 0) = None.
Proof. by vm_compute. Qed.

Lemma label_boxes_wf : Forall (fun wb => Area.wf wb.2) label_boxes.
Proof. repeat constructor; compute; congruence. Qed.

Lemma label_boxes_apart : apart label_boxes.
Proof.
  intros [|[|k]] [|[|k']] wb wb' p Hk Hk' Hne [H1 H2]; cbn in Hk, Hk';
    simplify_eq; unfold in_box, Area.cell_in in *; cbn in *; lia.
Qed.

Lemma label_shows_witness :
  let l := Label.new "hello world"%string in
  let c := Cells.new (BBox.new 2 1 5 3) in
  Term.reliable (Screen.out fresh_screen) /\
  0 < Cells.width c /\ 0 <= Cells.height c <= 65536 /\
  exists self',
    queues (@Label.render hard_wrap l c) fresh_screen
      (@render_cmds hard_wrap l c) self' /\
    let m := Display.shown
               (Display.run Display.blank (@render_cmds hard_wrap l c)) in
    (forall i line, @label_lines hard_wrap l c !! i = Some line ->
       line_shown m (Cells.bbox c) i line) /\
    (forall p, ~ in_box (Cells.bbox c) p ->
       m !! p = Display.shown Display.blank !! p) /\
    (forall p,
       (forall i line, @label_lines hard_wrap l c !! i = Some line ->
          p.2 = Area.row (Cells.bbox c) + Z.of_nat i ->
          Area.col (Cells.bbox c) + Z.of_nat (String.length line) <= p.1) ->
       m !! p = Display.shown Display.blank !! p).
Proof.
  intros l c. split; [by constructor|]. split; [done|]. split; [done|].
  apply (@label_shows hard_wrap hard_wrap_fits l c fresh_screen Display.blank);
    by first [constructor|done].
Defined.

Lemma draw_frame_shown_witness :
  Term.reliable (Screen.out fresh_screen) /\
  Area.wf (Screen.bbox fresh_screen) /\
  Forall (fun wb => Area.wf wb.2) label_boxes /\
  exists self',
    @draw sample_themes _ (@Label_draw sample_themes hard_wrap)
      label_boxes two_labels fresh_screen = (ROk tt, self') /\
    let m := Display.shown
               (Display.run Display.blank (Term.written (Screen.out self'))) in
    (forall p, uncovered fresh_screen label_boxes p -> m !! p = None) /\
    (forall k wb p, label_boxes !! k = Some wb ->
       uncovered fresh_screen (delete k label_boxes) p ->
       m !! p
       = Display.shown
           (Display.run Display.blank
              (@painted _ (@Label_paint hard_wrap) fresh_screen two_labels wb))
         !! p).
Proof.
  split; [by constructor|]. split; [compute_done|].
  split; [apply label_boxes_wf|].
  apply (@draw_frame_shown sample_themes _ (@Label_draw sample_themes hard_wrap)
           (@Label_paint hard_wrap)
           (@Label_paint_laws sample_themes hard_wrap hard_wrap_fits)
           label_boxes two_labels fresh_screen Display.blank);
    [by constructor|compute_done|apply label_boxes_wf].
Defined.

Lemma labels_frame_shown_witness :
  Term.reliable (Screen.out fresh_screen) /\
  Area.wf (Screen.bbox fresh_screen) /\
  Forall (fun wb => Area.wf wb.2) label_boxes /\ apart label_boxes /\
  exists self',
    @draw sample_themes _ (@Label_draw sample_themes hard_wrap)
      label_boxes two_labels fresh_screen = (ROk tt, self') /\
    forall k i bbox l c r line,
      label_boxes !! k = Some (i, bbox) -> two_labels !! i = Some l ->
      cells fresh_screen bbox = Some c ->
      @label_lines hard_wrap l c !! r = Some line ->
      line_shown
        (Display.shown
           (Display.run Display.blank (Term.written (Screen.out self'))))
        (Cells.bbox c) r line.
Proof.
  split; [by constructor|]. split; [compute_done|].
  split; [apply label_boxes_wf|]. split; [apply label_boxes_apart|].
  apply (@labels_frame_shown sample_themes hard_wrap hard_wrap_fits
           label_boxes two_labels fresh_screen Display.blank);
    [by constructor|compute_done|apply label_boxes_wf|apply label_boxes_apart].
Defined.

(** Without wrapping a label writes past its view: nothing in
    [Label::render] or in [Screen::print_str] holds the text back, it
    is the wrapping that keeps a label in its box. *)
Example label_unwrapped_overflows :
  let c := Cells.new (BBox.new 2 1 5 3) in
  let m := Display.shown
             (Display.run Display.blank
                (@render_cmds one_line (Label.new "hello world"%string) c)) in
  ~ in_box (Cells.bbox c) (8, 1) /\ m !! (8, 1) = Some "w"%char.
Proof. split; [|by vm_compute]. unfold in_box, Area.cell_in. cbn. lia. Qed.

(** Two boxes that overlap: the second label is painted over the
    first. *)
Example labels_overlap :
  let wbs := [(0%nat, BBox.new 0 0 5 1); (1%nat, BBox.new 3 0 2 1)] in
  let r := @draw sample_themes _ (@Label_draw sample_themes hard_wrap)
             wbs two_labels fresh_screen in
  let m := Display.shown
             (Display.run Display.blank (Term.written (Screen.out r.2))) in
  (fun col => m !! (col, 0)) <$> [0; 1; 2; 3; 4; 5]
  = [Some "h"; Some "e"; Some "l"; Some "o"; Some "k"; None]%char.
Proof. by vm_compute. Qed.

(** A frame of two buttons in boxes of five columns: the text of the
    second is cut at the width of its box. *)
Example buttons_on_display :
  let bs := [Button.new "yes"%string; Button.new "cancel"%string] in
  let wbs := [(0%nat, BBox.new 0 0 5 1); (1%nat, BBox.new 10 0 5 1)] in
  let r := @draw sample_themes _ (@Button_draw sample_themes cut_text)
             wbs bs sample_screen in
  let m := Display.shown
             (Display.run Display.blank (Term.written (Screen.out r.2))) in
  r.1 = ROk tt /\
  (fun col => m !! (col, 0)) <$> [0; 1; 2; 3; 9; 10; 11; 12; 13; 14; 15]
  = [Some "y"; Some "e"; Some "s"; None; None;
     Some "c"; Some "a"; Some "n"; Some "c"; Some "e"; None]%char.
Proof. by vm_compute. Qed.
