(* ===== verification/Loop.v ===== *)
(** * Loop: the frame loop as a state machine ([src/screen.rs])

    The interaction loop goes through three phases: between frames it
    is idle; it renders, which is solving the layout and drawing every
    widget; and it awaits input, one item of the event stream at a
    time, until an event yields an action.  This file states the loop
    as a transition relation on configurations ([moves]), on its own,
    and shows that [Screen::step] ([Render.step]) implements it: what
    [step] returns is the one configuration in which the machine comes
    to rest.

    The relation is deterministic and every path is finite; the machine
    rests in three ways only: the step is done (with an action or an
    error), the program has panicked, or the loop is waiting on a
    stream that has nothing more.  Rendering and dispatch never wait:
    the only phase that can be at rest without being final is the wait
    for input.  Invariants of the loop are proved by induction on the
    relation. *)

From Stdlib Require Import ZArith Lia String.
From stdpp Require Import base option list relations.
From S2P Require Import Prelude Geometry Layout Input Style Error Terminal.
From S2P Require Import Screen Widget Label Button Dispatch Render.

#[local] Set Warnings "-clear-no-such-hyp".

(** ** Phases and configurations *)

Inductive phase : Type :=
| Idle
| Rendering (wbs : widget_boxes)
| AwaitingInput (wbs : widget_boxes)
| Done (r : result Action)
| Crashed (p : panic).

#[export] Instance phase_eq_dec : EqDecision phase.
Proof. solve_decision. Defined.

(** How far a phase is along a step. *)
Definition rank (ph : phase) : nat :=
  match ph with
  | Idle => 0
  | Rendering _ => 1
  | AwaitingInput _ => 2
  | Done _ | Crashed _ => 3
  end.

Section machine.
Context `{TH : Themes} {W : Type} `{!Widget W} `{!WidgetDraw W}.
Context (area : BBox.t -> Theme.t -> widget_boxes).

(** A configuration: the phase, the screen, the widgets of the
    application and the items the event stream has yet to yield. *)
Record config : Type := Config {
  phase_of : phase;
  screen_of : Screen.t;
  widgets_of : list W;
  pending : list polled;
}.

(** The transitions of a step. *)
Inductive moves : config -> config -> Prop :=
| moves_solve self ws stream :
    moves (Config Idle self ws stream)
      (Config (Rendering (area (Screen.bbox self) (Screen.theme self)))
         self ws stream)
| moves_frame wbs self self' ws stream :
    draw wbs ws self = (ROk tt, self') ->
    moves (Config (Rendering wbs) self ws stream)
      (Config (AwaitingInput wbs) self' ws stream)
| moves_frame_failed wbs self self' ws stream e :
    draw wbs ws self = (RErr e, self') ->
    moves (Config (Rendering wbs) self ws stream)
      (Config (Done (RErr e)) self' ws stream)
| moves_quiet wbs self self' ws ws' ev stream :
    event_action self ev wbs ws = (None, self', ws') ->
    moves (Config (AwaitingInput wbs) self ws (StreamItem (ROk ev) :: stream))
      (Config (AwaitingInput wbs) self' ws' stream)
| moves_action wbs self self' ws ws' ev a stream :
    event_action self ev wbs ws = (Some a, self', ws') ->
    moves (Config (AwaitingInput wbs) self ws (StreamItem (ROk ev) :: stream))
      (Config (Done (ROk a)) self' ws' stream)
| moves_read_failed wbs self ws e stream :
    moves (Config (AwaitingInput wbs) self ws (StreamItem (RErr e) :: stream))
      (Config (Done (RErr e)) self ws stream)
| moves_stream_end wbs self ws stream :
    moves (Config (AwaitingInput wbs) self ws (StreamEnd :: stream))
      (Config (Crashed UnwrapNone) self ws stream).

(** The transition a configuration takes, if any. *)
Definition next (c : config) : option config :=
  let '(Config ph self ws stream) := c in
  match ph with
  | Idle =>
      Some (Config (Rendering (area (Screen.bbox self) (Screen.theme self)))
              self ws stream)
  | Rendering wbs =>
      match draw wbs ws self with
      | (ROk _, self') => Some (Config (AwaitingInput wbs) self' ws stream)
      | (RErr e, self') => Some (Config (Done (RErr e)) self' ws stream)
      end
  | AwaitingInput wbs =>
      match stream with
      | [] => None
      | StreamEnd :: rest => Some (Config (Crashed UnwrapNone) self ws rest)
      | StreamItem (RErr e) :: rest => Some (Config (Done (RErr e)) self ws rest)
      | StreamItem (ROk ev) :: rest =>
          match event_action self ev wbs ws with
          | (Some a, self', ws') => Some (Config (Done (ROk a)) self' ws' rest)
          | (None, self', ws') => Some (Config (AwaitingInput wbs) self' ws' rest)
          end
      end
  | Done _ | Crashed _ => None
  end.

(** What a configuration at rest says of the step: its result, its
    panic, or that it waits for an event that has not come. *)
Definition at_rest (c : config) : option waited :=
  match phase_of c, pending c with
  | Done r, _ => Some (Returned r)
  | Crashed p, _ => Some (Panicked p)
  | AwaitingInput _, [] => Some Waiting
  | _, _ => None
  end.

(** The layout a configuration draws or dispatches with. *)
Definition layout_of (c : config) : option widget_boxes :=
  match phase_of c with
  | Rendering wbs | AwaitingInput wbs => Some wbs
  | _ => None
  end.

(** The configuration [step] leaves, as the loop sees it. *)
Definition settled (wbs : widget_boxes)
    (r : waited * Screen.t * list W * list polled) : config :=
  let '(w, self, ws, rest) := r in
  Config match w with
         | Waiting => AwaitingInput wbs
         | Returned r => Done r
         | Panicked p => Crashed p
         end self ws rest.

(** The bound on the transitions left: two for each pending item, and
    what is left of the phases. *)
Definition weight (c : config) : nat :=
  2 * length (pending c) + (3 - rank (phase_of c)).

(** The machine run for at most [fuel] transitions. *)
Fixpoint run (fuel : nat) (c : config) : config :=
  match fuel with
  | O => c
  | S fuel => from_option (run fuel) c (next c)
  end.

(** ** The relation and its function *)

Lemma moves_next c c' : moves c c' <-> next c = Some c'.
Proof.
  split.
  - destruct 1; cbn; by repeat match goal with H : _ = _ |- _ => rewrite H end.
  - destruct c as [[] self ws stream]; cbn; intros Hn;
      repeat case_match; simplify_eq;
      repeat match goal with a : unit |- _ => destruct a end; by econstructor.
Qed.

#[export] Instance red_moves_dec c : Decision (red moves c).
Proof.
  refine (cast_if (decide (is_Some (next c)))).
  - destruct i as [c' Hc]. exists c'. by apply moves_next.
  - intros [c' Hc%moves_next]. by destruct n.
Defined.

Lemma moves_deterministic : deterministic moves.
Proof. intros c c1 c2 H1%moves_next H2%moves_next. congruence. Qed.

(** A configuration is at rest exactly when it cannot move. *)
Lemma at_rest_nf c : is_Some (at_rest c) <-> nf moves c.
Proof.
  split.
  - intros Hr [c' Hc%moves_next].
    destruct c as [[] self ws [|[|[]] stream]]; cbn in *;
      by (repeat case_match; simplify_eq; destruct Hr).
  - intros Hnf. destruct (next c) as [c'|] eqn:Hn.
    { destruct Hnf. exists c'. by apply moves_next. }
    destruct c as [[] self ws [|[|[]] stream]]; cbn in *;
      by repeat case_match.
Qed.

(** ** Termination *)

Lemma moves_weight c c' : moves c c' -> (weight c' < weight c)%nat.
Proof. destruct 1; unfold weight; cbn; lia. Qed.

Lemma moves_sn c : sn moves c.
Proof.
  apply (wf_projected lt weight); [|apply lt_wf].
  intros c1 c2. apply moves_weight.
Qed.

(** The phases come in order; only the wait for input repeats. *)
Lemma moves_rank c c' :
  moves c c' ->
  (rank (phase_of c) < rank (phase_of c'))%nat \/
  exists wbs, phase_of c = AwaitingInput wbs /\ phase_of c' = AwaitingInput wbs.
Proof. destruct 1; cbn; eauto with lia. Qed.

(** ** [step] reaches the rest of the machine *)

Lemma wait_action_moves wbs self ws stream :
  rtc moves (Config (AwaitingInput wbs) self ws stream)
    (settled wbs (wait_action self stream wbs ws)).
Proof.
  revert self ws. induction stream as [|[|[ev|e]] stream IH]; intros self ws;
    cbn [wait_action]; [done|by apply rtc_once; constructor..| |].
  - destruct (event_action self ev wbs ws) as [[[a|] self'] ws'] eqn:He.
    + by apply rtc_once, moves_action.
    + eapply rtc_l; [by apply moves_quiet|apply IH].
  - by apply rtc_once; constructor.
Qed.

Lemma step_moves self ws stream :
  rtc moves (Config Idle self ws stream)
    (settled (area (Screen.bbox self) (Screen.theme self))
       (step area self stream ws)).
Proof.
  eapply rtc_l; [constructor|]. unfold step.
  destruct (draw _ ws self) as [[[]|e] self'] eqn:Hd.
  - eapply rtc_l; [by apply moves_frame|apply wait_action_moves].
  - by apply rtc_once, moves_frame_failed.
Qed.

Lemma settled_at_rest wbs r :
  (r.1.1.1 = Waiting -> r.2 = []) ->
  at_rest (settled wbs r) = Some r.1.1.1.
Proof. destruct r as [[[[] self] ws] rest]; cbn; try done. by intros ->. Qed.

Lemma step_at_rest self ws stream :
  at_rest (settled (area (Screen.bbox self) (Screen.theme self))
             (step area self stream ws))
  = Some (step area self stream ws).1.1.1.
Proof.
  apply settled_at_rest. unfold step.
  destruct (draw _ ws self) as [[[]|e] self']; [|done].
  apply wait_action_rest.
Qed.

(** Where the machine comes to rest is decided by where it starts. *)
Lemma rest_unique c c1 c2 :
  rtc moves c c1 -> is_Some (at_rest c1) ->
  rtc moves c c2 -> is_Some (at_rest c2) -> c1 = c2.
Proof.
  intros H1 Hr1%at_rest_nf H2 Hr2%at_rest_nf.
  eapply confluent_rtc_nf; eauto using deterministic_confluent, moves_deterministic.
Qed.

(** ** Invariants, by induction on the relation *)

(** The loop reads the stream front to back, and never puts back. *)
Lemma moves_pending c c' : moves c c' -> pending c' `suffix_of` pending c.
Proof. destruct 1; cbn; by try apply suffix_cons_r. Qed.

Lemma rtc_moves_pending c c' :
  rtc moves c c' -> pending c' `suffix_of` pending c.
Proof.
  induction 1 as [|c1 c2 c3 Hm _ IH]; [done|].
  etrans; [exact IH|by apply moves_pending].
Qed.

(** Before the frame is drawn nothing is read and no widget changes. *)
Lemma moves_before_frame c c' :
  moves c c' -> (rank (phase_of c) < 2)%nat ->
  widgets_of c' = widgets_of c /\ pending c' = pending c.
Proof. destruct 1; cbn; by try lia. Qed.

(** The layout of a step is solved once: the wait for input uses the
    boxes the frame was drawn with, whatever was read in between. *)
Lemma moves_layout c c' wbs :
  moves c c' -> layout_of c = Some wbs ->
  layout_of c' = Some wbs \/ layout_of c' = None /\ is_Some (at_rest c').
Proof. destruct 1; cbn; intros; simplify_eq; eauto. Qed.

Lemma rtc_moves_layout c c' wbs wbs' :
  rtc moves c c' -> layout_of c = Some wbs -> layout_of c' = Some wbs' ->
  wbs' = wbs.
Proof.
  induction 1 as [|c1 c2 c3 Hm Hr IH]; intros H1 H3; [congruence|].
  destruct (moves_layout _ _ _ Hm H1) as [H2|[H2 Hrest%at_rest_nf]];
    [by apply IH|].
  apply rtc_nf in Hr as <-; [congruence|done].
Qed.

(** ** Running the machine *)

Lemma run_moves fuel c : rtc moves c (run fuel c).
Proof.
  revert c. induction fuel as [|fuel IH]; intros c; cbn; [done|].
  destruct (next c) as [c'|] eqn:Hn; [|done].
  eapply rtc_l; [by apply moves_next|apply IH].
Qed.

(** Fuel for [weight c] transitions brings [c] to rest. *)
Lemma run_at_rest fuel c :
  (weight c <= fuel)%nat -> is_Some (at_rest (run fuel c)).
Proof.
  revert c. induction fuel as [|fuel IH]; intros c Hw; cbn.
  - destruct c as [[] self ws stream]; unfold weight in Hw; cbn in *; lia || done.
  - destruct (next c) as [c'|] eqn:Hn; cbn.
    + apply IH. apply moves_next, moves_weight in Hn. lia.
    + apply at_rest_nf. intros [c' Hc%moves_next]. congruence.
Qed.

(** C18. [Screen::step] implements the state machine of the loop.  It
    returns a result, panics or is left waiting, with a screen, widgets
    and unread items, exactly when the machine started idle on the
    same screen, widgets and stream comes to rest there: done with that
    result, crashed with that panic, or awaiting input with nothing
    more to read. *)
Theorem step_refines self stream ws r self' ws' rest :
  step area self stream ws = (r, self', ws', rest) <->
  exists ph,
    rtc moves (Config Idle self ws stream) (Config ph self' ws' rest) /\
    at_rest (Config ph self' ws' rest) = Some r.
Proof.
  pose proof (step_moves self ws stream) as Hm.
  pose proof (step_at_rest self ws stream) as Ha.
  split.
  - intros Hs. rewrite Hs in Hm, Ha. eexists. split; [exact Hm|exact Ha].
  - intros (ph & Hr & Hrest).
    pose proof (rest_unique _ _ _ Hm ltac:(by rewrite Ha) Hr
                  ltac:(by rewrite Hrest)) as Heq.
    rewrite Heq, Hrest in Ha.
    destruct (step area self stream ws) as [[[r0 self0] ws0] rest0].
    cbn in Heq, Ha. by simplify_eq.
Qed.

End machine.

(** ** Concrete instances *)

(** A step on two buttons, read off the machine: the layout is solved,
    the frame drawn, a key that is not bound passed over, and the press
    on the second button ends the step with [Redraw]; the key after it
    stays unread. *)
Example step_phases :
  let stream := [StreamItem (ROk (EvKey (Key.mk 120) ModKeys.empty));
                 StreamItem (ROk (EvMouse (ButtonDown Left) ModKeys.empty
                                    (Pos.mk 13 0)));
                 StreamItem (ROk (EvKey (Key.mk 121) ModKeys.empty))] in
  let c := Config Idle sample_screen two_buttons stream in
  let after n :=
    run (TH := sample_themes) (WidgetDraw0 := @Button_draw sample_themes plain_text)
      (Widget0 := @Button_widget Debug ascii_width) sample_area n c in
  (fun n => (phase_of (after n), length (pending (after n))))
    <$> [0; 1; 2; 3; 4; 5]%nat
  = [(Idle, 3%nat);
     (Rendering (sample_area (Screen.bbox sample_screen)
                   (Screen.theme sample_screen)), 3%nat);
     (AwaitingInput (sample_area (Screen.bbox sample_screen)
                       (Screen.theme sample_screen)), 3%nat);
     (AwaitingInput (sample_area (Screen.bbox sample_screen)
                       (Screen.theme sample_screen)), 2%nat);
     (Done (ROk Redraw), 1%nat);
     (Done (ROk Redraw), 1%nat)].
Proof. by vm_compute. Qed.
