(* ===== verification/Await.v ===== *)
(** * Await: the event loop as an interaction tree ([src/screen.rs])

    The loop of [Screen::step] awaits the event stream, and the stream
    may yield quiet events for ever: the loop need not return.
    [Dispatch.wait_action] runs it over a finite list of items and
    answers [Waiting] when the list runs out.  This file gives the loop
    itself, with no list and no bound: [await] is an interaction tree
    whose one event, [Poll], is the await on the stream, and whose
    leaves are what the loop returns.

    Two things are shown.  Feeding the tree the items of a list ([fed])
    returns exactly what [wait_action] returns on that list, unless it
    answers [Waiting], in which case [await] has returned nothing and
    polls again ([await_wait_action]): the two models of the loop
    agree, so what is proved of the list model holds of the loop with
    no bound.  And while the stream yields quiet events the tree
    never comes to a leaf ([keeps_polling], a coinductive predicate of
    Paco): the wait can last for ever. *)

From Stdlib Require Import ZArith Lia String.
From stdpp Require Import base option list.
From ITree Require Import ITree Eq.Shallow.
From Paco Require Import paco.
From S2P Require Import Prelude Geometry Layout Input Style Error Terminal.
From S2P Require Import Screen Widget Label Button Dispatch.

#[local] Set Warnings "-clear-no-such-hyp".

(** ** The event *)

(** Awaiting the event stream: the answer is what polling it gives. *)
Variant pollE : Type -> Type :=
| Poll : pollE polled.

(** ** Looking at a tree *)

(** The head of a tree: a leaf, a silent step, or a poll with what
    follows each answer. *)
Variant view (R : Type) : Type :=
| Leaf (r : R)
| Silent (t : itree pollE R)
| Asks (k : polled -> itree pollE R).
Arguments Leaf {R} r.
Arguments Silent {R} t.
Arguments Asks {R} k.

Definition look {R : Type} (t : itree pollE R) : view R :=
  match observe t with
  | RetF r => Leaf r
  | TauF t => Silent t
  | VisF e k =>
      match e in pollE X return (X -> itree pollE R) -> view R with
      | Poll => Asks
      end k
  end.

(** ** Feeding a tree the items of a list *)

(** [fed t stream r rest]: given the items of [stream] as the answers
    to its polls, in order, [t] returns [r] with [rest] not asked
    for. *)
Inductive fed {R : Type}
    : itree pollE R -> list polled -> R -> list polled -> Prop :=
| fed_ret t r stream :
    look t = Leaf r -> fed t stream r stream
| fed_tau t t' stream r rest :
    look t = Silent t' -> fed t' stream r rest -> fed t stream r rest
| fed_poll t k it stream r rest :
    look t = Asks k -> fed (k it) stream r rest ->
    fed t (it :: stream) r rest.

(** [starved t stream t']: [t] takes every item of [stream] and then
    polls again, as [t']. *)
Inductive starved {R : Type}
    : itree pollE R -> list polled -> itree pollE R -> Prop :=
| starved_now t k :
    look t = Asks k -> starved t [] t
| starved_tau t t' stream t'' :
    look t = Silent t' -> starved t' stream t'' -> starved t stream t''
| starved_poll t k it stream t'' :
    look t = Asks k -> starved (k it) stream t'' ->
    starved t (it :: stream) t''.

(** ** Polling for ever *)

(** A tree keeps polling under [P] when, as long as the answers to its
    polls satisfy [P], it never comes to a leaf. *)
Definition polling_step {R : Type} (P : polled -> Prop)
    (r : itree pollE R -> Prop) (t : itree pollE R) : Prop :=
  match look t with
  | Leaf _ => False
  | Silent t => r t
  | Asks k => forall it, P it -> r (k it)
  end.

Definition keeps_polling {R : Type} (P : polled -> Prop)
    (t : itree pollE R) : Prop :=
  paco1 (polling_step P) bot1 t.

(** ** The loop *)

Section await.
Context {W : Type} `{!Widget W}.

(** What the loop returns, and the screen and the widgets it leaves:
    an action or an error ([Returned]), or a panic ([Panicked]). *)
Definition left_with : Type := waited * Screen.t * list W.

(** One turn of the loop: await the next item, unwrap it, return at an
    error or an action, and go round again otherwise. *)
Definition await_body (wbs : widget_boxes) (st : Screen.t * list W)
    : itree pollE ((Screen.t * list W) + left_with) :=
  ITree.bind (ITree.trigger Poll) (fun it =>
    match it with
    | StreamEnd => Ret (inr (Panicked UnwrapNone, st.1, st.2))
    | StreamItem (RErr e) => Ret (inr (Returned (RErr e), st.1, st.2))
    | StreamItem (ROk ev) =>
        match event_action st.1 ev wbs st.2 with
        | (Some action, self, ws) => Ret (inr (Returned (ROk action), self, ws))
        | (None, self, ws) => Ret (inl (self, ws))
        end
    end).

(** The loop of [step]. *)
Definition await (wbs : widget_boxes) (self : Screen.t) (ws : list W)
    : itree pollE left_with :=
  ITree.iter (await_body wbs) (self, ws).

(** What the loop does with the answer to its poll. *)
Definition turn (wbs : widget_boxes) (self : Screen.t) (ws : list W)
    (it : polled) : itree pollE left_with :=
  match it with
  | StreamEnd => Ret (Panicked UnwrapNone, self, ws)
  | StreamItem (RErr e) => Ret (Returned (RErr e), self, ws)
  | StreamItem (ROk ev) =>
      match event_action self ev wbs ws with
      | (Some action, self, ws) => Ret (Returned (ROk action), self, ws)
      | (None, self, ws) => Tau (await wbs self ws)
      end
  end.

End await.

(** ** Facts *)

Lemma polling_step_mon {R : Type} (P : polled -> Prop) :
  monotone1 (@polling_step R P).
Proof.
  intros t r r' H LE. unfold polling_step in *.
  destruct (look t); [done|by apply LE|]. intros it HP. by apply LE, H.
Qed.
#[export] Hint Resolve polling_step_mon : paco.

(** The head of a bind and of a loop. *)
Lemma look_bind {R S : Type} (t : itree pollE R) (k : R -> itree pollE S) :
  look (ITree.bind t k) =
  match look t with
  | Leaf r => look (k r)
  | Silent t0 => Silent (ITree.bind t0 k)
  | Asks h => Asks (fun x => ITree.bind (h x) k)
  end.
Proof.
  unfold look. rewrite observe_bind.
  destruct (observe t) as [r|t0|X e h]; cbn; try done. by destruct e.
Qed.

Lemma look_iter {I R : Type} (body : I -> itree pollE (I + R)) (i : I) :
  look (ITree.iter body i) =
  look (ITree.bind (body i) (fun lr =>
          match lr with
          | inl l => Tau (ITree.iter body l)
          | inr r => Ret r
          end)).
Proof. reflexivity. Qed.

Section feeding.
Context {R : Type}.
Implicit Types (t : itree pollE R) (stream rest : list polled).

(** Feeding is a function of the tree and the list. *)
Lemma fed_unique t stream r1 rest1 r2 rest2 :
  fed t stream r1 rest1 -> fed t stream r2 rest2 -> r1 = r2 /\ rest1 = rest2.
Proof.
  induction 1 as [t r stream Hl|t t' stream r rest Hl _ IH
                 |t k it stream r rest Hl _ IH];
    inversion 1; subst; rewrite Hl in *; simplify_eq; auto.
Qed.

(** A tree that has returned has not been starved. *)
Lemma fed_not_starved t t' stream r rest :
  fed t stream r rest -> ~ starved t stream t'.
Proof.
  induction 1 as [t r stream Hl|t t0 stream r rest Hl _ IH
                 |t k it stream r rest Hl _ IH];
    inversion 1; subst; rewrite Hl in *; simplify_eq; by eapply IH.
Qed.

(** Feeding sees no more of a tree than its head. *)
Lemma fed_look t t' stream r rest :
  look t = look t' -> fed t stream r rest -> fed t' stream r rest.
Proof.
  intros Hl. destruct 1; rewrite Hl in *;
    eauto using @fed_ret, @fed_tau, @fed_poll.
Qed.

Lemma starved_look t t' stream t'' :
  look t = look t' -> stream <> [] -> starved t stream t'' ->
  starved t' stream t''.
Proof.
  intros Hl Hne. destruct 1; rewrite Hl in *; [done|..];
    eauto using @starved_tau, @starved_poll.
Qed.

(** Inversion at a leaf, a silent step and a poll. *)
Lemma fed_leaf t x stream r rest :
  look t = Leaf x -> fed t stream r rest <-> r = x /\ rest = stream.
Proof.
  intros Hl. split.
  - inversion 1; subst; rewrite Hl in *; by simplify_eq.
  - intros [-> ->]. by apply fed_ret.
Qed.

Lemma fed_silent t t' stream r rest :
  look t = Silent t' -> fed t stream r rest <-> fed t' stream r rest.
Proof.
  intros Hl. split.
  - inversion 1; subst; rewrite Hl in *; by simplify_eq.
  - by apply fed_tau.
Qed.

Lemma fed_asks t k stream r rest :
  look t = Asks k ->
  fed t stream r rest <->
  match stream with
  | [] => False
  | it :: stream => fed (k it) stream r rest
  end.
Proof.
  intros Hl. split.
  - inversion 1; subst; rewrite Hl in *; by simplify_eq.
  - destruct stream; [done|]. by apply fed_poll.
Qed.

End feeding.

Section await_facts.
Context {W : Type} `{!Widget W}.
Implicit Types (self : Screen.t) (wbs : widget_boxes) (ws : list W)
  (stream rest : list polled).

(** The loop begins with a poll, and goes on as [turn] says. *)
Lemma look_await wbs self ws :
  exists k, look (await wbs self ws) = Asks k /\
    forall it, look (k it) = look (turn wbs self ws it).
Proof.
  unfold await. rewrite look_iter. unfold await_body.
  rewrite !look_bind.
  change (look (ITree.trigger Poll)) with (Asks (fun x : polled => Ret x)).
  cbv beta iota. eexists. split; [reflexivity|].
  intros it. cbv beta. rewrite !look_bind.
  change (look (Ret it)) with (Leaf it). cbv beta iota. cbn [fst snd].
  destruct it as [|[ev|e]]; try done. cbn [turn].
  by destruct (event_action self ev wbs ws) as [[[a|] self'] ws'].
Qed.

(** One turn of the loop, for feeding. *)
Lemma fed_await wbs self ws stream (r : left_with) rest :
  fed (await wbs self ws) stream r rest <->
  match stream with
  | [] => False
  | StreamEnd :: stream => r = (Panicked UnwrapNone, self, ws) /\ rest = stream
  | StreamItem (RErr e) :: stream =>
      r = (Returned (RErr e), self, ws) /\ rest = stream
  | StreamItem (ROk ev) :: stream =>
      match event_action self ev wbs ws with
      | (Some a, self', ws') =>
          r = (Returned (ROk a), self', ws') /\ rest = stream
      | (None, self', ws') => fed (await wbs self' ws') stream r rest
      end
  end.
Proof.
  destruct (look_await wbs self ws) as (k & Hk & Hturn).
  rewrite (fed_asks _ _ _ _ _ Hk). destruct stream as [|it stream]; [done|].
  assert (fed (k it) stream r rest <-> fed (turn wbs self ws it) stream r rest)
    as -> by (split; apply fed_look; by rewrite Hturn).
  destruct it as [|[ev|e]]; cbn [turn]; [by apply fed_leaf| |by apply fed_leaf].
  destruct (event_action self ev wbs ws) as [[[a|] self'] ws'];
    [by apply fed_leaf|by apply fed_silent].
Qed.

(** When the list runs out before the loop returns, the loop has
    taken every item and polls again, in the state the list model
    says. *)
Lemma await_starved wbs self ws stream self' ws' rest :
  wait_action self stream wbs ws = (Waiting, self', ws', rest) ->
  rest = [] /\ starved (await wbs self ws) stream (await wbs self' ws').
Proof.
  revert self ws. induction stream as [|it stream IH]; intros self ws Hw.
  { cbn in Hw. simplify_eq. split; [done|].
    destruct (look_await wbs self' ws') as (k & Hk & _). by eapply starved_now. }
  destruct (look_await wbs self ws) as (k & Hk & Hturn).
  destruct it as [|[ev|e]]; cbn [wait_action] in Hw; try done.
  specialize (Hturn (StreamItem (ROk ev))). cbn [turn] in Hturn.
  destruct (event_action self ev wbs ws) as [[[a|] self1] ws1]; [done|].
  destruct (IH _ _ Hw) as [-> Hs]. split; [done|].
  eapply starved_poll; [exact Hk|]. eapply starved_tau; [exact Hturn|exact Hs].
Qed.

(** Adequacy of the list model.  [await] and [wait_action] are two
    renderings of the same loop; this lemma says that they agree, so
    that what is proved of [wait_action] on lists holds of the tree,
    which has no bound and no [Waiting].  It is a fact about the two
    models, not about the program.  Fed the items of a list, [await]
    returns a result or a panic, with a screen and widgets, and leaves
    the rest of the list unread, exactly when [wait_action] returns
    the same on that list; and [wait_action] answers [Waiting] exactly
    when the list runs out first. *)
Lemma await_wait_action wbs self ws stream w self' ws' rest :
  fed (await wbs self ws) stream (w, self', ws') rest <->
  wait_action self stream wbs ws = (w, self', ws', rest) /\ w <> Waiting.
Proof.
  revert self ws. induction stream as [|[|[ev|e]] stream IH]; intros self ws;
    rewrite fed_await; cbn [wait_action]; [naive_solver..| |naive_solver].
  destruct (event_action self ev wbs ws) as [[[a|] self1] ws1];
    [naive_solver|apply IH].
Qed.


End await_facts.

(** ** The wait can last for ever *)

Section polling.
Context {R : Type}.
Implicit Types (t : itree pollE R) (P : polled -> Prop).

(** A tree that keeps polling under [P] returns on no list of items
    that satisfy [P]. *)
Lemma keeps_polling_not_fed P t stream r rest :
  keeps_polling P t -> Forall P stream -> ~ fed t stream r rest.
Proof.
  intros Hp Hall Hfed. revert Hp Hall.
  induction Hfed as [t r stream Hl|t t' stream r rest Hl _ IH
                    |t k it stream r rest Hl _ IH]; intros Hp Hall;
    punfold Hp; unfold polling_step in Hp; rewrite Hl in Hp; [done|..].
  - apply IH; [|done]. by pclearbot.
  - apply Forall_cons in Hall as [Hit Hall].
    apply IH; [|done]. specialize (Hp it Hit). by pclearbot.
Qed.

End polling.

Section await_polling.
Context {W : Type} `{!Widget W} `{!WidgetLaws W}.

(** After a quiet event the loop is where it was. *)
Lemma await_polls wbs self (ws : list W) :
  keeps_polling (quiet_item self wbs ws) (await wbs self ws).
Proof.
  pcofix CIH. pfold. unfold polling_step.
  destruct (look_await wbs self ws) as (k & -> & Hturn).
  intros it (ev & -> & Hq). left. pfold. unfold polling_step.
  rewrite Hturn. cbn [turn]. rewrite (event_action_unchanged _ _ _ _ Hq).
  right. apply CIH.
Qed.

(** C20. The wait of [Screen::step] can last for ever.  With widgets
    that keep the contract, as long as the stream yields events that
    have no action for the screen and the widgets as they are - keys
    that are not bound, mouse events no widget reacts to - the loop
    never returns: after each of them it polls again, in the same
    state, and no list of such events, however long, makes it
    return. *)
Theorem await_keeps_polling wbs self (ws : list W) :
  keeps_polling (quiet_item self wbs ws) (await wbs self ws) /\
  forall stream r rest,
    Forall (quiet_item self wbs ws) stream ->
    ~ fed (await wbs self ws) stream r rest.
Proof.
  split; [apply await_polls|].
  intros stream r rest. apply keeps_polling_not_fed, await_polls.
Qed.

End await_polling.

(** ** Concrete instances *)

(** The loop on two buttons: a key that is not bound is passed over,
    the press on the second button is returned as [Redraw] with that
    button pressed, and the key after it is not asked for. *)
Example await_two_buttons :
  let stream := [StreamItem (ROk (EvKey (Key.mk 120) ModKeys.empty));
                 StreamItem (ROk (EvMouse (ButtonDown Left) ModKeys.empty
                                    (Pos.mk 13 0)));
                 StreamItem (ROk (EvKey (Key.mk 121) ModKeys.empty))] in
  fed (await (Widget0 := @Button_widget Debug ascii_width)
         sample_boxes sample_screen two_buttons)
    stream
    (Returned (ROk Redraw), sample_screen,
     [Button.new "yes"; Button.set_state (Button.new "no") Button.Pressed])
    [StreamItem (ROk (EvKey (Key.mk 121) ModKeys.empty))].
Proof.
  intros stream.
  apply (proj2 (await_wait_action (Widget0 := @Button_widget Debug ascii_width)
                  sample_boxes sample_screen two_buttons stream
                  (Returned (ROk Redraw)) sample_screen
                  [Button.new "yes";
                   Button.set_state (Button.new "no") Button.Pressed]
                  [StreamItem (ROk (EvKey (Key.mk 121) ModKeys.empty))])).
  split; [by vm_compute|done].
Qed.

(** Keys that are not bound, however many, do not end the wait. *)
Example await_unbound_keys n r rest :
  ~ fed (await (Widget0 := @Button_widget Debug ascii_width)
           sample_boxes sample_screen two_buttons)
      (replicate n (StreamItem (ROk (EvKey (Key.mk 120) ModKeys.empty))))
      r rest.
Proof.
  apply (keeps_polling_not_fed
           (quiet_item (H := @Button_widget Debug ascii_width)
              sample_screen sample_boxes two_buttons)).
  - apply await_polls.
  - apply Forall_replicate. by eexists.
Qed.

(** Two buttons keep the contract: while nothing but keys that are not
    bound arrive, the loop on them goes on polling. *)
Lemma await_keeps_polling_witness :
  let quiet := quiet_item (H := @Button_widget Debug ascii_width)
                 sample_screen sample_boxes two_buttons in
  let loop := await (Widget0 := @Button_widget Debug ascii_width)
                sample_boxes sample_screen two_buttons in
  quiet (StreamItem (ROk (EvKey (Key.mk 120) ModKeys.empty))) /\
  keeps_polling quiet loop /\
  forall stream r rest, Forall quiet stream -> ~ fed loop stream r rest.
Proof.
  intros quiet loop. split; [by eexists|].
  apply (await_keeps_polling (Widget0 := @Button_widget Debug ascii_width)
           sample_boxes sample_screen two_buttons).
Defined.
