(* ===== verification/Focus.v ===== *)
(** * Focus: buttons under the screen's mouse dispatch

    What one pass of [mouse_action] ([src/screen.rs]) does to a layout
    of buttons ([src/widget/button.rs]): the state each button is left
    in, in closed form, and the consequences for focus: after a press
    the buttons under the pointer are pressed and every other live
    button is back to [Enabled]. *)

From Stdlib Require Import ZArith String.
From stdpp Require Import base option list.
From S2P Require Import Prelude Geometry Layout Input Style Error Terminal.
From S2P Require Import Screen Widget Label Button Dispatch.

#[local] Set Warnings "-clear-no-such-hyp".

(** The state a delivery leaves a button in, from its state [s], for a
    mouse event and the side of the pointer the button is on. *)
Definition button_after (mev : MouseEvent) (inside : bool)
    (s : Button.State) : Button.State :=
  match s, mev, inside with
  | Button.Disabled, _, _ => Button.Disabled
  | _, ButtonDown _, true => Button.Pressed
  | _, ButtonDown _, false => Button.Enabled
  | Button.Pressed, ButtonUp _, _ => Button.Focused
  | Button.Enabled, ButtonUp _, true => Button.Hovered
  | Button.Hovered, ButtonUp _, false => Button.Enabled
  | Button.Enabled, Drag None, true => Button.Hovered
  | Button.Pressed, Drag _, false => Button.Focused
  | Button.Hovered, Drag _, false => Button.Enabled
  | s, _, _ => s
  end.

(** Whether the pointer is in the box. *)
Definition hit (bbox : BBox.t) (pos : Pos.t) : bool :=
  bool_decide (Area.cell_in bbox (Pos.col pos) (Pos.row pos)).

Section buttons.
Context `{O : Overflow} `{SW : StrWidth}.
Implicit Types (b : Button.t) (bs : list Button.t) (wbs : widget_boxes)
  (mev : MouseEvent) (mods : ModKeys.t) (pos : Pos.t) (bbox : BBox.t).

(** One delivery to a button, in closed form: the state after, and a
    redraw asked for exactly when the state has changed. *)
Lemma deliver_button mev mods pos bbox b :
  let d := deliver mev mods pos bbox b in
  d.2 = Button.set_state b (button_after mev (hit bbox pos) (Button.state b)) /\
  (or d.1.2 d.1.1 = if decide (d.2 = b) then None else Some Redraw) /\
  (d.1.1 = None \/ d.1.1 = Some Redraw) /\
  (d.1.2 = None \/ d.1.2 = Some Redraw).
Proof.
  unfold deliver, hit, BBox.within.
  destruct (decide (Area.cell_in bbox (Pos.col pos) (Pos.row pos)));
    [rewrite bool_decide_eq_true_2 by done
    |rewrite bool_decide_eq_false_2 by done];
    destruct b as [l []], mev as [?|?|[?|]]; cbn;
    repeat (case_decide; cbn in *); simplify_eq; intuition congruence.
Qed.

(** [hit] decides whether the pointer is in the box. *)
Lemma hit_cell_in bbox pos :
  hit bbox pos = true <-> Area.cell_in bbox (Pos.col pos) (Pos.row pos).
Proof. unfold hit. by rewrite bool_decide_eq_true. Qed.

(** A pass over distinct buttons leaves the button of an entry in the
    state [button_after] gives. *)
Lemma mouse_action_button mev mods pos wbs bs i bbox b :
  NoDup wbs.*1 -> (i, bbox) ∈ wbs -> bs !! i = Some b ->
  (mouse_action mev mods pos wbs bs).2 !! i =
    Some (Button.set_state b
            (button_after mev (hit bbox pos) (Button.state b))).
Proof.
  intros Hnd Hin Hb.
  rewrite (mouse_action_lookup _ _ _ _ _ _ _ _ Hnd Hin Hb). f_equal.
  apply deliver_button.
Qed.

(** After a pass of [mouse_action] over a layout of buttons, none
    of them twice, each button of the layout is in the state
    [button_after] gives for its side of the pointer, with its label
    kept. *)
Theorem button_pass_state mev mods pos wbs bs i bbox b :
  NoDup wbs.*1 -> (i, bbox) ∈ wbs -> bs !! i = Some b ->
  exists b',
    (mouse_action mev mods pos wbs bs).2 !! i = Some b' /\
    Button.lbl b' = Button.lbl b /\
    Button.state b' = button_after mev (hit bbox pos) (Button.state b).
Proof.
  intros Hnd Hin Hb. eexists. split; [by apply mouse_action_button|].
  by destruct b.
Qed.

(** C14. Focus after a press: when a mouse button goes down, every
    live button of the layout whose box contains the pointer ends
    [Pressed] and every other live button ends [Enabled]; disabled
    buttons stay disabled. *)
Theorem button_press_focus mods pos wbs bs i bbox b mb :
  NoDup wbs.*1 -> (i, bbox) ∈ wbs -> bs !! i = Some b ->
  exists b',
    (mouse_action (ButtonDown mb) mods pos wbs bs).2 !! i = Some b' /\
    Button.lbl b' = Button.lbl b /\
    (Button.state b = Button.Disabled -> Button.state b' = Button.Disabled) /\
    (Button.state b <> Button.Disabled ->
       (Button.state b' = Button.Pressed <-> hit bbox pos = true) /\
       (Button.state b' = Button.Enabled <-> hit bbox pos = false)).
Proof.
  intros Hnd Hin Hb. eexists. split; [by apply mouse_action_button|].
  destruct b as [l s]. cbn [Button.lbl Button.state Button.set_state].
  split; [done|]. split; [by intros ->|]. intros Hs.
  destruct (hit bbox pos), s; cbn; intuition congruence.
Qed.

(** An action a pass over distinct buttons returns is [Redraw], asked
    for by a button of the layout whose state the event changes. *)
Lemma mouse_action_some mev mods pos wbs bs a :
  NoDup wbs.*1 -> (mouse_action mev mods pos wbs bs).1 = Some a ->
  exists i bbox b, (i, bbox) ∈ wbs /\ bs !! i = Some b /\ a = Redraw /\
    button_after mev (hit bbox pos) (Button.state b) <> Button.state b.
Proof.
  intros Hnd Ha.
  destruct (mouse_action_result_from _ _ _ _ _ _ Hnd Ha)
    as (i & bbox & b & Hin & Hb & Hd).
  destruct (deliver_button mev mods pos bbox b) as (Hst & Hor & Hr & Hm).
  exists i, bbox, b. split; [done|]. split; [done|].
  split; [intuition congruence|]. intros Hsame.
  rewrite Hst, Hsame in Hor. destruct b as [l s]. cbn in Hor.
  rewrite decide_True in Hor by done.
  apply or_is_None in Hor. intuition congruence.
Qed.

(** A pass over buttons returns [Redraw] or nothing, and it
    returns nothing exactly when it has left every button as it was:
    the screen is redrawn exactly when a button changed. *)
Theorem button_pass_redraw mev mods pos wbs bs :
  NoDup wbs.*1 ->
  ((mouse_action mev mods pos wbs bs).1 = None \/
   (mouse_action mev mods pos wbs bs).1 = Some Redraw) /\
  ((mouse_action mev mods pos wbs bs).1 = None <->
   (mouse_action mev mods pos wbs bs).2 = bs) /\
  ((mouse_action mev mods pos wbs bs).1 = None <->
   forall i bbox b, (i, bbox) ∈ wbs -> bs !! i = Some b ->
     button_after mev (hit bbox pos) (Button.state b) = Button.state b).
Proof.
  intros Hnd.
  destruct (mouse_action mev mods pos wbs bs).1 as [a|] eqn:Ha.
  - destruct (mouse_action_some _ _ _ _ _ _ Hnd Ha)
      as (i & bbox & b & Hin & Hb & -> & Hne).
    split; [by right|]. split; (split; [done|intros Hsame; destruct Hne]).
    + pose proof (mouse_action_button mev mods pos _ _ _ _ _ Hnd Hin Hb) as Hi.
      rewrite Hsame, Hb in Hi. injection Hi as Hi.
      by apply (f_equal Button.state) in Hi.
    + by eapply Hsame.
  - split; [by left|]. apply mouse_action_unchanged in Ha.
    split; (split; [intros _|done]); [by rewrite Ha|].
    intros i bbox b Hin Hb.
    pose proof (mouse_action_button mev mods pos _ _ _ _ _ Hnd Hin Hb) as Hi.
    rewrite Ha in Hi. cbn [snd] in Hi. rewrite Hb in Hi. injection Hi as Hi.
    by apply (f_equal Button.state) in Hi.
Qed.

End buttons.

(** ** Scenarios *)

(** A click on the first button: pressed while the mouse button is
    down, focused once it is released, a redraw each time; the second
    button is left alone. *)
Example click_first :
  let '(a1, bs1) :=
    @mouse_action _ (@Button_widget Debug ascii_width)
      (ButtonDown Left) ModKeys.empty (Pos.mk 3 0) sample_boxes two_buttons in
  let '(a2, bs2) :=
    @mouse_action _ (@Button_widget Debug ascii_width)
      (ButtonUp Left) ModKeys.empty (Pos.mk 3 0) sample_boxes bs1 in
  a1 = Some Redraw /\ Button.state <$> bs1 = [Button.Pressed; Button.Enabled] /\
  a2 = Some Redraw /\ Button.state <$> bs2 = [Button.Focused; Button.Enabled].
Proof. by vm_compute. Qed.

(** A widget that stands in the layout twice is visited twice: a
    button with one box under the pointer and a later box away from
    it is pressed and then released by the same pass, and ends
    [Enabled] under the pointer. *)
Example press_aliased :
  @mouse_action _ (@Button_widget Debug ascii_width)
    (ButtonDown Left) ModKeys.empty (Pos.mk 3 0)
    [(0%nat, BBox.new 0 0 10 1); (0%nat, BBox.new 10 0 10 1)]
    [Button.new "yes"]
  = (Some Redraw, [Button.new "yes"]).
Proof. by vm_compute. Qed.

(** ** Concrete instances *)

Lemma button_pass_state_witness :
  NoDup sample_boxes.*1 /\ (0%nat, BBox.new 0 0 10 1) ∈ sample_boxes /\
  two_buttons !! 0%nat = Some (Button.new "yes") /\
  exists b',
    (@mouse_action _ (@Button_widget Debug ascii_width) (ButtonUp Left)
       ModKeys.empty (Pos.mk 3 0) sample_boxes two_buttons).2 !! 0%nat
      = Some b' /\
    Button.lbl b' = Button.lbl (Button.new "yes") /\
    Button.state b' =
      button_after (ButtonUp Left) (hit (BBox.new 0 0 10 1) (Pos.mk 3 0))
        (Button.state (Button.new "yes")).
Proof.
  split; [compute_done|]. split; [compute_done|]. split; [compute_done|].
  apply (@button_pass_state Debug ascii_width (ButtonUp Left) ModKeys.empty
           (Pos.mk 3 0) sample_boxes two_buttons 0 (BBox.new 0 0 10 1)
           (Button.new "yes")); compute_done.
Defined.

Lemma button_press_focus_witness :
  NoDup sample_boxes.*1 /\ (1%nat, BBox.new 10 0 10 1) ∈ sample_boxes /\
  two_buttons !! 1%nat = Some (Button.new "no") /\
  exists b',
    (@mouse_action _ (@Button_widget Debug ascii_width) (ButtonDown Left)
       ModKeys.empty (Pos.mk 13 0) sample_boxes two_buttons).2 !! 1%nat
      = Some b' /\
    Button.lbl b' = Button.lbl (Button.new "no") /\
    (Button.state (Button.new "no") = Button.Disabled ->
       Button.state b' = Button.Disabled) /\
    (Button.state (Button.new "no") <> Button.Disabled ->
       (Button.state b' = Button.Pressed <->
          hit (BBox.new 10 0 10 1) (Pos.mk 13 0) = true) /\
       (Button.state b' = Button.Enabled <->
          hit (BBox.new 10 0 10 1) (Pos.mk 13 0) = false)).
Proof.
  split; [compute_done|]. split; [compute_done|]. split; [compute_done|].
  apply (@button_press_focus Debug ascii_width ModKeys.empty (Pos.mk 13 0)
           sample_boxes two_buttons 1 (BBox.new 10 0 10 1) (Button.new "no") Left);
    compute_done.
Defined.

Lemma button_pass_redraw_witness :
  let r := @mouse_action _ (@Button_widget Debug ascii_width) (ButtonDown Left)
             ModKeys.empty (Pos.mk 13 0) sample_boxes two_buttons in
  NoDup sample_boxes.*1 /\
  (r.1 = None \/ r.1 = Some Redraw) /\
  (r.1 = None <-> r.2 = two_buttons) /\
  (r.1 = None <->
   forall i bbox b, (i, bbox) ∈ sample_boxes -> two_buttons !! i = Some b ->
     button_after (ButtonDown Left) (hit bbox (Pos.mk 13 0)) (Button.state b)
       = Button.state b).
Proof.
  intros r. split; [compute_done|].
  apply (@button_pass_redraw Debug ascii_width (ButtonDown Left) ModKeys.empty
           (Pos.mk 13 0) sample_boxes two_buttons); compute_done.
Defined.
