(* ===== verification/App.v ===== *)
(** * App: the example applications

    [examples/grid_futures.rs] and [examples/grid.rs] are the two
    programs the repository ships: each makes a screen, builds its
    widgets, describes their placement as a template and then draws
    frames until the user asks to leave.  They are modelled here on top
    of the screen ([Screen], [Render], [Dispatch]), the template
    ([Grid]) and the solver ([Solver]), so that the theorems say what a
    whole run does to the terminal.

    The spacer and the border the examples build are widgets whose
    source is not in the snapshot; the programs are modelled over any
    widget type [W] that has them ([spacer], [with_fill], [border]) and
    labels ([label]).  The event stream is the list of items the
    terminal's event source will yield; [fuel] bounds the number of
    frames, and a run needs at most one frame for each item and one
    more ([step_loop_fuel]). *)

From Stdlib Require Import ZArith Lia String Ascii.
From stdpp Require Import base option list strings gmap.
From S2P Require Import Prelude Geometry Layout Grid Solver Input Style Error.
From S2P Require Import Terminal Screen Widget Label Button Dispatch Render.

#[local] Set Warnings "-clear-no-such-hyp".

#[local] Open Scope Z_scope.

(** ** How a program ends *)

Inductive exit : Type :=
| Exited (r : result unit)
| Rejected (e : Grid.error)
| Unwound (p : panic)
| Blocked.

#[export] Instance exit_eq_dec : EqDecision exit.
Proof. solve_decision. Defined.

(** Leaving [main]: the screen goes out of scope and is dropped, also
    when the program unwinds from a panic; a program that waits for an
    event that never comes keeps its screen. *)
Definition leave (r : exit) (screen : Screen.t) : exit * Term.t :=
  match r with
  | Blocked => (Blocked, Screen.out screen)
  | _ => (r, Screen.drop screen)
  end.

(** ** From the template to the boxes of a frame *)

Module GridBoxes.

Section layout.
Context {W : Type} `{!Widget W}.

(** The bounds of all widgets; the first panic wins. *)
Fixpoint all_bounds (ws : list W) : outcome (list AreaBound.t) :=
  match ws with
  | [] => Ok []
  | w :: ws => b ← bounds w; bs ← all_bounds ws; mret (b :: bs)
  end.

(** The size preference lookup of the solver: the bounds of the widget
    a placement refers to. *)
Definition bounds_of (bs : list AreaBound.t) (w : nat) : AreaBound.t :=
  default AreaBound.default (bs !! w).

(** [GridArea::widget_boxes]: ask every widget for its bounds and
    solve the template for the bounding box. *)
Definition widget_boxes (g : GridArea.t) (ws : list W) (bbox : BBox.t)
    : outcome Dispatch.widget_boxes :=
  bs ← all_bounds ws;
  mret (solve g (bounds_of bs) bbox).

End layout.

End GridBoxes.

Import GridBoxes.

(** ** [examples/grid_futures.rs] *)

Module GridFutures.

(** The template of the example, as the tokens of [grid_area!]. *)
Definition grid_rows : list (list string) :=
  [["."; "."; "."; "."];
   ["a"; "a"; "."; "b"];
   ["."; "s"; "."; "b"];
   ["."; "c"; "c"; "b"];
   ["."; "."; "."; "b"]].

(** The widgets in the order they are declared, and the labels of the
    template, which are the names of the variables. *)
Definition grid_mapping : gmap string nat :=
  {["s" := 0%nat; "b" := 1%nat; "a" := 2%nat; "c" := 3%nat]}.

Section program.
Context `{TH : Themes} `{KM : KeyMaps} {W : Type}.
Context `{!Widget W} `{!WidgetDraw W}.
(** [Spacer::default().with_fill(c)], [Border::default()] with its
    outlines set, and [Label::new(txt)] as widgets of the
    application. *)
Context (with_fill : ascii -> result W) (border : W) (label : string -> W).

(** [Screen::step_future]: the layout is solved for the screen's
    bounding box, the frame drawn, and the next action awaited. *)
Definition step_future (grid : GridArea.t) (self : Screen.t)
    (stream : list polled) (ws : list W)
    : waited * Screen.t * list W * list polled :=
  match all_bounds ws with
  | Panic p => (Panicked p, self, ws, stream)
  | Ok bs =>
      step (fun bbox _ => solve grid (bounds_of bs) bbox) self stream ws
  end.

(** [while screen.step_future(&grid).await? != Action::Quit() {}] *)
Fixpoint step_loop (fuel : nat) (grid : GridArea.t) (self : Screen.t)
    (stream : list polled) (ws : list W)
    : option (exit * Screen.t * list polled) :=
  match fuel with
  | O => None
  | S fuel =>
      match step_future grid self stream ws with
      | (Waiting, self, _, rest) => Some (Blocked, self, rest)
      | (Panicked p, self, _, rest) => Some (Unwound p, self, rest)
      | (Returned (RErr e), self, _, rest) => Some (Exited (RErr e), self, rest)
      | (Returned (ROk Quit), self, _, rest) => Some (Exited (ROk tt), self, rest)
      | (Returned (ROk _), self, ws, rest) => step_loop fuel grid self rest ws
      end
  end.

Definition async_main (fuel : nat) (term : Term.t) (stream : list polled)
    : option (exit * Term.t) :=
  match Screen.new term with
  | (RErr e, term) => Some (Exited (RErr e), term)
  | (ROk screen, _) =>
      match Screen.set_title "Layout Test" screen with
      | (RErr e, screen) => Some (leave (Exited (RErr e)) screen)
      | (ROk _, screen) =>
          match with_fill "." with
          | RErr e => Some (leave (Exited (RErr e)) screen)
          | ROk s =>
              let b := border in
              let a := label "This is a bit of text in a label" in
              let c := label "This label has more text on the right side" in
              match parse (of_tokens grid_rows) grid_mapping with
              | Invalid e => Some (leave (Rejected e) screen)
              | Valid grid =>
                  '(r, screen, _) ← step_loop fuel grid screen stream [s; b; a; c];
                  Some (leave r screen)
              end
          end
      end
  end.

(** [futures::executor::block_on(async_main())]: the future is run to
    its end on the calling thread. *)
Definition main (fuel : nat) (term : Term.t) (stream : list polled)
    : option (exit * Term.t) :=
  async_main fuel term stream.

End program.

End GridFutures.

(** ** [examples/grid.rs] *)

Module GridRs.

(** [KeyCode::Esc], in the encoding of [Key.code]. *)
Definition Esc : Z := 27.

Definition layout_rows : list (list string) :=
  [["s0"; "s0"; "s0"; "b0"];
   ["a"; "s1"; "b"; "b0"]].

Definition layout_mapping : gmap string nat :=
  {["s0" := 0%nat; "s1" := 1%nat; "b0" := 2%nat; "a" := 3%nat; "b" := 4%nat]}.

Section program.
Context `{TH : Themes} `{KM : KeyMaps} {W : Type}.
Context `{!Widget W} `{!WidgetDraw W}.
Context (spacer : W) (with_fill : ascii -> result W) (border : W)
  (label : string -> W).

(** [layout!(bbox, rows)]: the template is validated and solved for the
    bounding box. *)
Definition layout (bbox : BBox.t) (ws : list W)
    : outcome (checked Dispatch.widget_boxes) :=
  match parse (of_tokens layout_rows) layout_mapping with
  | Invalid e => Ok (Invalid e)
  | Valid g => Valid <$> widget_boxes g ws bbox
  end.

(** [Screen::render]: draw the widgets of a layout. *)
Definition render (layout : Dispatch.widget_boxes) (ws : list W)
    : io Screen.t unit :=
  draw layout ws.

(** [Screen::event]: wait for the next event of the terminal; a
    resize is taken note of. *)
Definition event (self : Screen.t) (stream : list polled)
    : option (result Event) * Screen.t * list polled :=
  match stream with
  | [] => (None, self, [])
  | StreamEnd :: rest => (None, self, rest)
  | StreamItem (RErr e) :: rest => (Some (RErr e), self, rest)
  | StreamItem (ROk (EvResize dim)) :: rest =>
      (Some (ROk (EvResize dim)), Screen.set_dim self dim, rest)
  | StreamItem (ROk ev) :: rest => (Some (ROk ev), self, rest)
  end.

(** The [loop] of [main]: a frame and an event, until the escape key. *)
Fixpoint main_loop (fuel : nat) (self : Screen.t) (stream : list polled)
    (ws : list W) : option (exit * Screen.t * list polled) :=
  match fuel with
  | O => None
  | S fuel =>
      match layout (Screen.bbox self) ws with
      | Panic p => Some (Unwound p, self, stream)
      | Ok (Invalid e) => Some (Rejected e, self, stream)
      | Ok (Valid layout) =>
          match render layout ws self with
          | (RErr e, self) => Some (Exited (RErr e), self, stream)
          | (ROk _, self) =>
              match event self stream with
              | (None, self, rest) => Some (Blocked, self, rest)
              | (Some (RErr e), self, rest) => Some (Exited (RErr e), self, rest)
              | (Some (ROk (EvKey key _)), self, rest) =>
                  if decide (Key.code key = Esc)
                  then Some (Exited (ROk tt), self, rest)
                  else main_loop fuel self rest ws
              | (Some (ROk _), self, rest) => main_loop fuel self rest ws
              end
          end
      end
  end.

Definition main (fuel : nat) (term : Term.t) (stream : list polled)
    : option (exit * Term.t) :=
  match Screen.new term with
  | (RErr e, term) => Some (Exited (RErr e), term)
  | (ROk screen, _) =>
      match Screen.set_title "Layout Test" screen with
      | (RErr e, screen) => Some (leave (Exited (RErr e)) screen)
      | (ROk _, screen) =>
          let s0 := spacer in
          match with_fill "." with
          | RErr e => Some (leave (Exited (RErr e)) screen)
          | ROk s1 =>
              let b0 := border in
              let a := label "This is a bit of test text inside of a label" in
              let b := label "This label is on the right side" in
              '(r, screen, _) ← main_loop fuel screen stream [s0; s1; b0; a; b];
              Some (leave r screen)
          end
      end
  end.

End program.

End GridRs.

(** ** Frames on a terminal that does not fail *)

(** [self'] is [self] some frames later: the terminal has not failed,
    raw mode and the key map are as they were, and all that was sent in
    between switches no mode. *)
Definition frames (self self' : Screen.t) : Prop :=
  Term.reliable (Screen.out self') /\
  Term.raw_mode (Screen.out self') = Term.raw_mode (Screen.out self) /\
  Screen.keymap self' = Screen.keymap self /\
  exists cs, sent self' = sent self ++ cs /\ forallb mode_free cs = true.

Lemma frames_refl self : Term.reliable (Screen.out self) -> frames self self.
Proof. intros. split_and!; try done. exists []. by rewrite app_nil_r. Qed.

Lemma frames_trans self1 self2 self3 :
  frames self1 self2 -> frames self2 self3 -> frames self1 self3.
Proof.
  intros (_ & Hraw & Hkm & cs & Hs & Hf) (Hr & Hraw' & Hkm' & cs' & Hs' & Hf').
  split_and!; [done|congruence..|].
  exists (cs ++ cs'). rewrite Hs', Hs, app_assoc. split; [done|].
  by rewrite forallb_app, Hf, Hf'.
Qed.

(** What the event loop keeps of a screen keeps it some frames later. *)
Lemma frames_same_screen self1 self2 self3 :
  frames self1 self2 -> same_screen self2 self3 -> frames self1 self3.
Proof.
  intros (Hr & Hraw & Hkm & cs & Hs & Hf) (Hout & _ & _ & Hkm').
  unfold frames, sent in *. rewrite Hout. split_and!; eauto; congruence.
Qed.

Section frames.
Context `{TH : Themes} {W : Type}.
Context `{!Widget W} `{!WidgetDraw W} `{!WidgetDrawLaws W}.
Implicit Types (self : Screen.t) (ws : list W) (stream : list polled).

Lemma step_frames area self stream ws :
  Term.reliable (Screen.out self) ->
  frames self (step area self stream ws).1.1.2.
Proof.
  intros Hr.
  destruct (step_ok area self stream ws Hr)
    as (self1 & cs & -> & Hr1 & _ & Hs & Hf & Hraw & _ & _ & Hkm).
  eapply frames_same_screen; [|apply wait_action_screen].
  split_and!; eauto.
Qed.

Lemma step_future_frames g self stream ws :
  Term.reliable (Screen.out self) ->
  frames self (GridFutures.step_future g self stream ws).1.1.2.
Proof.
  intros Hr. unfold GridFutures.step_future.
  destruct (all_bounds ws); [by apply step_frames|by apply frames_refl].
Qed.

Lemma step_future_consumes g self stream ws a :
  (GridFutures.step_future g self stream ws).1.1.1 = Returned (ROk a) ->
  (length (GridFutures.step_future g self stream ws).2 < length stream)%nat.
Proof.
  unfold GridFutures.step_future. destruct (all_bounds ws); [|done].
  apply step_consumes.
Qed.

(** The loop needs at most a frame for each item of the stream and one
    more. *)
Lemma step_loop_fuel fuel g self stream ws :
  (length stream < fuel)%nat ->
  is_Some (GridFutures.step_loop fuel g self stream ws).
Proof.
  revert self stream ws.
  induction fuel as [|fuel IH]; intros self stream ws Hfuel; [lia|].
  cbn [GridFutures.step_loop].
  pose proof (step_future_consumes g self stream ws) as Hlt.
  destruct (GridFutures.step_future g self stream ws)
    as [[[[|[[| |]|e]|p] self'] ws'] rest]; try done;
    apply IH; specialize (Hlt _ eq_refl); cbn in Hlt; lia.
Qed.

(** More fuel than a run needs changes nothing. *)
Lemma step_loop_more extra fuel g self stream ws r :
  GridFutures.step_loop fuel g self stream ws = Some r ->
  GridFutures.step_loop (fuel + extra) g self stream ws = Some r.
Proof.
  revert self stream ws.
  induction fuel as [|fuel IH]; intros self stream ws; [done|].
  cbn [GridFutures.step_loop Nat.add].
  destruct (GridFutures.step_future g self stream ws)
    as [[[[|[[| |]|e]|p] self'] ws'] rest]; try done; apply IH.
Qed.

Lemma step_loop_frames fuel g self stream ws r self' rest :
  Term.reliable (Screen.out self) ->
  GridFutures.step_loop fuel g self stream ws = Some (r, self', rest) ->
  frames self self'.
Proof.
  revert self stream ws.
  induction fuel as [|fuel IH]; intros self stream ws Hr; [done|].
  cbn [GridFutures.step_loop].
  pose proof (step_future_frames g self stream ws Hr) as Hf.
  destruct (GridFutures.step_future g self stream ws)
    as [[[[|[[| |]|e]|p] self1] ws1] rest1]; cbn in Hf;
    try (by intros [= <- <- <-]);
    intros Hl; (eapply frames_trans; [exact Hf|]);
    exact (IH _ _ _ (proj1 Hf) Hl).
Qed.

End frames.

(** ** Leaving on the quit key *)

(** Widgets whose handlers never ask to quit: leaving is the
    application's decision, through the key map. *)
Class WidgetStays (W : Type) `{!Widget W} : Prop := {
  focus_stays (w : W) fev : (focus w fev).1 <> Some Quit;
  mouse_event_stays (w : W) mev mods d p :
    (mouse_event w mev mods d p).1 <> Some Quit;
}.

(** An item of the stream that does not end the program: an event,
    and if it is a key, one the key map does not bind to [Quit]. *)
Definition calm (km : KeyMap.t) (it : polled) : Prop :=
  exists ev, it = StreamItem (ROk ev) /\
    forall key mods, ev = EvKey key mods -> KeyMap.lookup km key mods <> Some Quit.

Section quit.
Context `{TH : Themes} {W : Type}.
Context `{!Widget W} `{!WidgetDraw W} `{!WidgetDrawLaws W} `{!WidgetStays W}.
Implicit Types (self : Screen.t) (ws : list W) (stream pre post : list polled).

Lemma deliver_stays mev mods pos bbox (w : W) :
  (deliver mev mods pos bbox w).1.1 <> Some Quit /\
  (deliver mev mods pos bbox w).1.2 <> Some Quit.
Proof.
  unfold deliver.
  match goal with
  | |- context [match ?x with pair _ _ => _ end] =>
      assert (Hfr : x.1 <> Some Quit);
      [repeat case_match; try done; apply focus_stays
      |destruct x as [r w']]
  end.
  destruct (BBox.within bbox pos) as [p|]; [|done].
  pose proof (mouse_event_stays w' mev mods (BBox.dim bbox) p).
  by destruct (mouse_event w' mev mods (BBox.dim bbox) p).
Qed.

Lemma event_action_calm self ev wbs ws :
  NoDup wbs.*1 -> calm (Screen.keymap self) (StreamItem (ROk ev)) ->
  (event_action self ev wbs ws).1.1 <> Some Quit.
Proof.
  intros Hnd (ev' & [= <-] & Hkey). rewrite event_action_routes.
  destruct ev as [dim|key mods|mev mods pos]; cbn; [done|by apply Hkey|].
  intros (i & bbox & w & _ & _ & Hd)%mouse_action_result_from; [|done].
  destruct (deliver_stays mev mods pos bbox w). by destruct Hd.
Qed.

(** The event loop on calm items followed by the quit key: it returns
    [Quit] with the key read, or another action with the key still
    ahead. *)
Lemma wait_action_calm self pre key mods post wbs ws :
  NoDup wbs.*1 -> Forall (calm (Screen.keymap self)) pre ->
  KeyMap.lookup (Screen.keymap self) key mods = Some Quit ->
  let r := wait_action self (pre ++ StreamItem (ROk (EvKey key mods)) :: post)
             wbs ws in
  exists a, r.1.1.1 = Returned (ROk a) /\
    (a = Quit /\ r.2 = post \/
     a <> Quit /\ exists pre', r.2 = pre' ++ StreamItem (ROk (EvKey key mods)) :: post /\
       Forall (calm (Screen.keymap self)) pre' /\
       (length pre' < length pre)%nat).
Proof.
  intros Hnd Hpre Hquit. revert self ws Hpre Hquit.
  induction pre as [|it pre IH]; intros self ws Hpre Hquit;
    cbn [app wait_action].
  { cbn [event_action]. rewrite Hquit. cbn. eauto. }
  apply Forall_cons in Hpre as [Hit Hpre]. pose proof Hit as (ev & -> & _).
  pose proof (event_action_calm self ev wbs ws Hnd Hit) as Hne.
  pose proof (event_action_screen self ev wbs ws) as (_ & _ & _ & Hkm).
  destruct (event_action self ev wbs ws) as [[[a|] self'] ws']; cbn in *.
  - exists a. split; [done|]. right. split; [congruence|].
    exists pre. split_and!; [done..|lia].
  - rewrite <- Hkm in Hpre, Hquit.
    destruct (IH self' ws' Hpre Hquit) as (a & Ha & [?|(? & pre' & ? & ? & ?)]).
    + eauto.
    + exists a. split; [done|]. right. split; [done|].
      exists pre'. rewrite <- Hkm. split_and!; [done..|lia].
Qed.

Lemma all_bounds_ok ws :
  (forall w : W, is_Ok (bounds w)) -> is_Ok (all_bounds ws).
Proof.
  intros Hok. induction ws as [|w ws [bs IH]]; cbn; [by eexists|].
  destruct (Hok w) as [b ->]. cbn. rewrite IH. by eexists.
Qed.

(** The loop of the example leaves at the quit key, whatever calm items
    come before it, one frame for each of them being enough. *)
Lemma step_loop_quit fuel g self pre key mods post ws :
  NoDup (widget <$> GridArea.placements g) ->
  (forall w : W, is_Ok (bounds w)) ->
  Term.reliable (Screen.out self) ->
  Forall (calm (Screen.keymap self)) pre ->
  KeyMap.lookup (Screen.keymap self) key mods = Some Quit ->
  (length pre < fuel)%nat ->
  exists self',
    GridFutures.step_loop fuel g self
      (pre ++ StreamItem (ROk (EvKey key mods)) :: post) ws
    = Some (Exited (ROk tt), self', post).
Proof.
  intros Hnd Hok. revert self pre ws.
  induction fuel as [|fuel IH]; intros self pre ws Hr Hpre Hquit Hfuel; [lia|].
  cbn [GridFutures.step_loop]. unfold GridFutures.step_future.
  destruct (all_bounds_ok ws Hok) as [bs ->].
  set (area := fun (bbox : BBox.t) (_ : Theme.t) => solve g (bounds_of bs) bbox).
  pose proof (step_frames area self (pre ++ StreamItem (ROk (EvKey key mods)) :: post)
                ws Hr) as Hfr.
  destruct (step_ok area self (pre ++ StreamItem (ROk (EvKey key mods)) :: post)
              ws Hr) as (self1 & cs & Hstep & _ & _ & _ & _ & _ & _ & _ & Hkm).
  rewrite Hstep in *. rewrite <- Hkm in Hpre, Hquit.
  destruct (wait_action_calm self1 pre key mods post
              (area (Screen.bbox self) (Screen.theme self)) ws)
    as (a & Ha & Hcases); [|done..|].
  { unfold area, solve. by rewrite <- list_fmap_compose. }
  pose proof (wait_action_screen self1
                (pre ++ StreamItem (ROk (EvKey key mods)) :: post)
                (area (Screen.bbox self) (Screen.theme self)) ws)
    as (_ & _ & _ & Hkm').
  destruct (wait_action self1 _ _ ws) as [[[r self2] ws2] rest]; cbn in *.
  subst r. destruct Hcases as [[-> ->]|(Hne & pre' & -> & Hpre' & Hlen)];
    [by eexists|].
  rewrite <- Hkm' in Hpre', Hquit.
  destruct a; [|
               |done]; apply IH; try done; try apply Hfr; lia.
Qed.

End quit.

(** ** Runs of [examples/grid_futures.rs] *)

(** The template of the example as [grid_area!] validates it: [a] over
    two columns, [b] down four rows, [s] on one cell, [c] over two
    columns. *)
Definition futures_grid : GridArea.t :=
  GridArea.mk 5 4
    [mk_placement "a" 2 (Rect.mk 0 1 1 1);
     mk_placement "b" 1 (Rect.mk 3 1 3 4);
     mk_placement "s" 0 (Rect.mk 1 2 1 2);
     mk_placement "c" 3 (Rect.mk 1 3 2 3)].

Lemma futures_grid_valid :
  parse (of_tokens GridFutures.grid_rows) GridFutures.grid_mapping
  = Valid futures_grid.
Proof. by vm_compute. Qed.

(** Dropping a screen made on a terminal in its normal modes, some
    frames later, leaves the terminal as it was found. *)
Section leaving.
Context `{TH : Themes} `{KM : KeyMaps}.

Lemma leave_restores t self self' r :
  modes_after cooked (Term.sent t) = cooked ->
  Term.queued (Screen.out self) = Term.queued t ++ new_cmds ->
  Term.written (Screen.out self) = Term.written t ->
  frames self self' -> r <> Blocked ->
  (leave r self').1 = r /\
  Term.raw_mode (leave r self').2 = false /\
  Term.queued (leave r self').2 = [] /\
  modes_after cooked (Term.written (leave r self').2) = cooked.
Proof.
  intros Hm Hq Hw (Hr & _ & _ & cs & Hs & Hfree) Hne.
  destruct (screen_cleanup_ok self' Hr) as (self2 & Hc & _ & Hraw & Hq2 & Hw2).
  assert (leave r self' = (r, Screen.out self2)) as ->.
  { unfold leave, Screen.drop. rewrite Hc. by destruct r. }
  cbn [fst snd]. split_and!; try done.
  rewrite Hw2, Hs. unfold sent, Term.sent. rewrite Hq, Hw, !app_assoc.
  fold (Term.sent t). rewrite !modes_after_app, Hm.
  by rewrite (modes_after_free _ cs).
Qed.

End leaving.

Section grid_futures.
Context `{TH : Themes} `{KM : KeyMaps} {W : Type}.
Context `{!Widget W} `{!WidgetDraw W} `{!WidgetDrawLaws W}.
Context (with_fill : ascii -> result W) (border : W) (label : string -> W).

(** C28. The example comes to an end: with a frame of fuel for each item
    of the event stream and one more, [async_main] gives a result, and
    more fuel gives the same. *)
Theorem async_main_returns fuel extra term stream :
  (length stream < fuel)%nat ->
  exists r,
    GridFutures.async_main with_fill border label fuel term stream = Some r /\
    GridFutures.async_main with_fill border label (fuel + extra) term stream
    = Some r.
Proof.
  intros Hfuel. unfold GridFutures.async_main.
  destruct (Screen.new term) as [[screen|e] term']; [|by eexists].
  destruct (Screen.set_title _ screen) as [[[]|e] screen']; [|by eexists].
  destruct (with_fill ".") as [s|e]; [|by eexists].
  rewrite futures_grid_valid.
  destruct (step_loop_fuel fuel futures_grid screen' stream
              [s; border; label "This is a bit of text in a label";
               label "This label has more text on the right side"] Hfuel)
    as [[[r self'] rest] Hl].
  rewrite (step_loop_more extra _ _ _ _ _ _ Hl), Hl. by eexists.
Qed.

(** C22. However the example ends, on a terminal that does not fail and
    was in its normal modes the terminal is left as it was found: raw
    mode off, nothing queued, and the alternate screen, the cursor,
    line wrapping and mouse capture back to normal.  Only a run that
    waits for an event that never comes keeps the screen. *)
Theorem async_main_restores fuel term stream r term' :
  Term.reliable term -> modes_after cooked (Term.sent term) = cooked ->
  GridFutures.async_main with_fill border label fuel term stream
  = Some (r, term') ->
  r <> Blocked ->
  Term.raw_mode term' = false /\ Term.queued term' = [] /\
  modes_after cooked (Term.written term') = cooked.
Proof.
  intros Hr Hm Hrun Hne. unfold GridFutures.async_main in Hrun.
  destruct (screen_new_ok term Hr)
    as (self & Hnew & Hr0 & _ & Hq & Hw & _).
  rewrite Hnew in Hrun.
  destruct (queues_one [SetTitle "Layout Test"] self Hr0)
    as (self1 & (Ht & Hem & Hr1) & _).
  change (Screen.queue [SetTitle "Layout Test"];; io_ret tt)%io
    with (Screen.set_title "Layout Test") in Ht.
  rewrite Ht in Hrun.
  assert (Hf1 : frames self self1).
  { split_and!; [done|apply Hem..|].
    exists [SetTitle "Layout Test"]. split; [by apply emits_sent|done]. }
  assert (Hleave : forall r' self', frames self self' -> r' <> Blocked ->
            Some (leave r' self') = Some (r, term') ->
            Term.raw_mode term' = false /\ Term.queued term' = [] /\
            modes_after cooked (Term.written term') = cooked).
  { intros r' self' Hf Hne' [= Hl].
    destruct (leave_restores term self self' r' Hm Hq Hw Hf Hne')
      as (_ & ? & ? & ?). by rewrite Hl in *. }
  destruct (with_fill ".") as [s|e];
    [|exact (Hleave (Exited (RErr e)) self1 Hf1 ltac:(done) Hrun)].
  rewrite futures_grid_valid in Hrun.
  destruct (GridFutures.step_loop _ _ _ _ _) as [[[r' self2] rest]|] eqn:Hl;
    [|done].
  cbn in Hrun.
  apply (Hleave r' self2); [|intros ->; cbn in Hrun; congruence|done].
  eapply frames_trans; [exact Hf1|].
  by eapply step_loop_frames.
Qed.

Context `{!WidgetStays W}.

(** C21. The example leaves when the user presses a key bound to [Quit]:
    on a terminal that does not fail, after any events that are not
    such a key, [async_main] returns [Ok] with the terminal out of raw
    mode, whatever follows the key in the stream. *)
Theorem async_main_quit fuel term pre key mods post s :
  (forall w : W, is_Ok (bounds w)) ->
  Term.reliable term -> with_fill "." = ROk s ->
  Forall (calm KeyMap_default) pre ->
  KeyMap.lookup KeyMap_default key mods = Some Quit ->
  (length pre < fuel)%nat ->
  exists term',
    GridFutures.async_main with_fill border label fuel term
      (pre ++ StreamItem (ROk (EvKey key mods)) :: post)
    = Some (Exited (ROk tt), term') /\
    Term.raw_mode term' = false.
Proof.
  intros Hok Hr Hs Hpre Hquit Hfuel. unfold GridFutures.async_main.
  destruct (screen_new_ok term Hr)
    as (self & -> & Hr0 & _ & _ & _ & _ & _ & _ & Hkm).
  destruct (queues_one [SetTitle "Layout Test"] self Hr0)
    as (self1 & (Ht & Hem & Hr1) & _).
  change (Screen.queue [SetTitle "Layout Test"];; io_ret tt)%io
    with (Screen.set_title "Layout Test") in Ht.
  rewrite Ht, Hs, futures_grid_valid.
  assert (Hkm1 : Screen.keymap self1 = KeyMap_default)
    by (rewrite <- Hkm; apply Hem).
  rewrite <- Hkm1 in Hpre, Hquit.
  destruct (step_loop_quit fuel futures_grid self1 pre key mods post
              [s; border; label "This is a bit of text in a label";
               label "This label has more text on the right side"])
    as [self2 Hl]; [by vm_compute; repeat constructor; set_solver|done..|].
  rewrite Hl. cbn.
  destruct (step_loop_frames _ _ _ _ _ _ _ _ Hr1 Hl) as (Hr2 & _).
  destruct (screen_cleanup_ok self2 Hr2) as (self3 & Hc & _ & Hraw & _).
  eexists. split; [done|]. unfold Screen.drop. by rewrite Hc.
Qed.

End grid_futures.

(** ** Runs of [examples/grid.rs] *)

(** The template of the example as [layout!] validates it. *)
Definition rs_grid : GridArea.t :=
  GridArea.mk 2 4
    [mk_placement "s0" 0 (Rect.mk 0 0 2 0);
     mk_placement "b0" 2 (Rect.mk 3 0 3 1);
     mk_placement "a" 3 (Rect.mk 0 1 0 1);
     mk_placement "s1" 1 (Rect.mk 1 1 1 1);
     mk_placement "b" 4 (Rect.mk 2 1 2 1)].

Lemma rs_grid_valid :
  parse (of_tokens GridRs.layout_rows) GridRs.layout_mapping = Valid rs_grid.
Proof. by vm_compute. Qed.

(** An item that does not end the example: an event other than the
    escape key. *)
Definition no_escape (it : polled) : Prop :=
  exists ev, it = StreamItem (ROk ev) /\
    forall key mods, ev = EvKey key mods -> Key.code key <> GridRs.Esc.

Section grid_rs.
Context `{TH : Themes} `{KM : KeyMaps} {W : Type}.
Context `{!Widget W} `{!WidgetDraw W} `{!WidgetDrawLaws W}.
Context (spacer : W) (with_fill : ascii -> result W) (border : W)
  (label : string -> W).
Implicit Types (self : Screen.t) (ws : list W) (stream pre post : list polled).

Lemma render_frames wbs ws self :
  Term.reliable (Screen.out self) ->
  exists self1, GridRs.render wbs ws self = (ROk tt, self1) /\
    frames self self1.
Proof.
  intros Hr. destruct (draw_ok wbs ws self Hr)
    as (cs & self1 & Hd & Hr1 & Hq & Hw & Hfree & Hraw & _ & _ & Hkm).
  exists self1. split; [done|]. split_and!; [done..|].
  eexists. split.
  - unfold sent at 1, Term.sent. by rewrite Hq, Hw, app_nil_r.
  - apply forallb_mode_free_app; [apply style_cmds_mode_free|done].
Qed.

Lemma event_screen self stream :
  same_screen self (GridRs.event self stream).1.2 /\
  (length (GridRs.event self stream).2 <= length stream)%nat /\
  (forall r, (GridRs.event self stream).1.1 = Some r ->
     length (GridRs.event self stream).2 < length stream)%nat.
Proof.
  destruct stream as [|[|[[dim|key mods|mev mods pos]|e]] stream]; cbn;
    split_and!; try done; try lia; intros; lia.
Qed.

(** The loop reads an item a frame. *)
Lemma main_loop_fuel fuel self stream ws :
  (length stream < fuel)%nat ->
  is_Some (GridRs.main_loop fuel self stream ws).
Proof.
  revert self stream.
  induction fuel as [|fuel IH]; intros self stream Hfuel; [lia|].
  cbn [GridRs.main_loop].
  destruct (GridRs.layout _ ws) as [[wbs|e]|p]; try done.
  destruct (GridRs.render wbs ws self) as [[[]|e] self1]; try done.
  pose proof (event_screen self1 stream) as (_ & _ & Hlt).
  destruct (GridRs.event self1 stream) as [[[[ev|e]|] self2] rest]; try done.
  specialize (Hlt _ eq_refl). cbn in Hlt.
  destruct ev; try case_decide; try done; apply IH; lia.
Qed.

Lemma main_loop_more extra fuel self stream ws r :
  GridRs.main_loop fuel self stream ws = Some r ->
  GridRs.main_loop (fuel + extra) self stream ws = Some r.
Proof.
  revert self stream.
  induction fuel as [|fuel IH]; intros self stream; [done|].
  cbn [GridRs.main_loop Nat.add].
  destruct (GridRs.layout _ ws) as [[wbs|e]|p]; try done.
  destruct (GridRs.render wbs ws self) as [[[]|e] self1]; try done.
  destruct (GridRs.event self1 stream) as [[[[ev|e]|] self2] rest]; try done.
  destruct ev; try case_decide; try done; apply IH.
Qed.

Lemma layout_ok bbox ws :
  (forall w : W, is_Ok (bounds w)) ->
  exists wbs, GridRs.layout bbox ws = Ok (Valid wbs).
Proof.
  intros Hok. unfold GridRs.layout, widget_boxes. rewrite rs_grid_valid.
  destruct (all_bounds_ok ws Hok) as [bs ->]. by eexists.
Qed.

(** The loop leaves at the escape key, with a frame drawn for every
    event before it and one more. *)
Lemma main_loop_escape fuel self pre key mods post ws :
  (forall w : W, is_Ok (bounds w)) ->
  Term.reliable (Screen.out self) ->
  Forall no_escape pre -> Key.code key = GridRs.Esc ->
  (length pre < fuel)%nat ->
  exists self',
    GridRs.main_loop fuel self (pre ++ StreamItem (ROk (EvKey key mods)) :: post) ws
    = Some (Exited (ROk tt), self', post) /\
    frames self self'.
Proof.
  intros Hok. revert self pre.
  induction fuel as [|fuel IH]; intros self pre Hr Hpre Hesc Hfuel; [lia|].
  cbn [GridRs.main_loop].
  destruct (layout_ok (Screen.bbox self) ws Hok) as [wbs ->].
  destruct (render_frames wbs ws self Hr) as (self1 & -> & Hf1).
  destruct pre as [|it pre]; cbn [app GridRs.event].
  { rewrite decide_True by done. eauto. }
  apply Forall_cons in Hpre as [(ev & -> & Hev) Hpre].
  assert (Hnext : forall self2, same_screen self1 self2 ->
            exists self',
              GridRs.main_loop fuel self2
                (pre ++ StreamItem (ROk (EvKey key mods)) :: post) ws
              = Some (Exited (ROk tt), self', post) /\ frames self self').
  { intros self2 Hs. pose proof (frames_same_screen _ _ _ Hf1 Hs) as Hf2.
    destruct (IH self2 pre (proj1 Hf2) Hpre Hesc ltac:(cbn in Hfuel; lia))
      as (self' & Hl & Hf'). eauto using frames_trans. }
  destruct ev as [dim|key' mods'|mev mods' pos].
  - by apply Hnext.
  - rewrite decide_False by by eapply Hev. by apply Hnext.
  - by apply Hnext.
Qed.


(** C29. [main] of [examples/grid.rs] leaves at the escape key: on a
    terminal that does not fail and was in its normal modes, after
    any events other than that key, it returns [Ok] and leaves the
    terminal as it was found. *)
Theorem grid_main_escape fuel term pre key mods post s :
  (forall w : W, is_Ok (bounds w)) ->
  Term.reliable term -> modes_after cooked (Term.sent term) = cooked ->
  with_fill "." = ROk s ->
  Forall no_escape pre -> Key.code key = GridRs.Esc ->
  (length pre < fuel)%nat ->
  exists term',
    GridRs.main spacer with_fill border label fuel term
      (pre ++ StreamItem (ROk (EvKey key mods)) :: post)
    = Some (Exited (ROk tt), term') /\
    Term.raw_mode term' = false /\ Term.queued term' = [] /\
    modes_after cooked (Term.written term') = cooked.
Proof.
  intros Hok Hr Hm Hs Hpre Hesc Hfuel. unfold GridRs.main.
  destruct (screen_new_ok term Hr) as (self & -> & Hr0 & _ & Hq & Hw & _).
  destruct (queues_one [SetTitle "Layout Test"] self Hr0)
    as (self1 & (Ht & Hem & Hr1) & _).
  change (Screen.queue [SetTitle "Layout Test"];; io_ret tt)%io
    with (Screen.set_title "Layout Test") in Ht.
  rewrite Ht, Hs.
  assert (Hf1 : frames self self1).
  { split_and!; [done|apply Hem..|].
    exists [SetTitle "Layout Test"]. split; [by apply emits_sent|done]. }
  destruct (main_loop_escape fuel self1 pre key mods post
              [spacer; s; border;
               label "This is a bit of test text inside of a label";
               label "This label is on the right side"] Hok Hr1 Hpre Hesc Hfuel)
    as (self2 & -> & Hf2).
  cbn.
  destruct (leave_restores term self self2 (Exited (ROk tt)) Hm Hq Hw
              (frames_trans _ _ _ Hf1 Hf2) ltac:(done)) as (_ & ? & ? & ?).
  exists (Screen.drop self2). by split.
Qed.

End grid_rs.

(** ** Concrete runs

    The examples with labels for all their widgets, a key map that
    binds [q] to [Quit], and a stream with a press of the mouse, a
    resize, an unbound key and the key that ends the program. *)

Definition quit_keymaps : KeyMaps := ({[ (113, 0) := Quit ]} : KeyMap.t).

Definition fill_label (c : ascii) : result Label.t :=
  ROk (Label.new (String c "")).

#[export] Instance Label_stays `{O : Overflow} `{SW : StrWidth} :
  WidgetStays Label.t.
Proof. by split. Qed.

Lemma label_bounds_total `{O : Overflow} `{SW : StrWidth} (l : Label.t) :
  is_Ok (bounds l).
Proof. eexists. apply label_bounds_run. Qed.

Definition sample_events : list polled :=
  [StreamItem (ROk (EvMouse (ButtonDown Left) ModKeys.empty (Pos.mk 1 1)));
   StreamItem (ROk (EvResize (Dim.new 40 10)));
   StreamItem (ROk (EvKey (Key.mk 120) ModKeys.empty))].

Definition quit_key : polled := StreamItem (ROk (EvKey (Key.mk 113) ModKeys.empty)).

Definition escape_key : polled := StreamItem (ROk (EvKey (Key.mk 27) ModKeys.empty)).

Definition futures_main :=
  @GridFutures.main sample_themes quit_keymaps Label.t
    (@Label_widget Debug ascii_width) (@Label_draw sample_themes one_line)
    fill_label (Label.new "#") Label.new.

Definition rs_main :=
  @GridRs.main sample_themes quit_keymaps Label.t
    (@Label_widget Debug ascii_width) (@Label_draw sample_themes one_line)
    (Label.new " ") fill_label (Label.new "#") Label.new.

(** A run of [examples/grid_futures.rs]: the press changes no label and
    the unbound key has no action, so two frames are drawn, the second
    after the resize; then the screen is cleaned up. *)
Example futures_run :
  futures_main 5 fresh_term (sample_events ++ [quit_key; StreamEnd])
  = Some (Exited (ROk tt),
          Term.mk (80, 24) false []
            ([EnterAlternateScreen; CursorHide; DisableLineWrap; ClearAll;
              EnableMouseCapture; SetTitle "Layout Test";
              SetBackgroundColor (Black INormal);
              SetForegroundColor (White IBright); ClearAll;
              MoveTo 0 0; PrintStr "This is a bit of text in a label";
              MoveTo 31 0; PrintStr "#"; MoveTo 9 2; PrintStr ".";
              MoveTo 9 3;
              PrintStr "This label has more text on the right side";
              ClearAll;
              MoveTo 0 0; PrintStr "This is a bit of text in a label";
              MoveTo 31 0; PrintStr "#"; MoveTo 9 2; PrintStr ".";
              MoveTo 9 3;
              PrintStr "This label has more text on the right side"]
             ++ cleanup_cmds) []).
Proof. by vm_compute. Qed.

(** The stream ends before a quit key: the program panics on the
    [unwrap], and the unwinding still cleans the screen up. *)
Example futures_run_stream_end :
  exists term',
    futures_main 5 fresh_term (sample_events ++ [StreamEnd])
    = Some (Unwound UnwrapNone, term') /\
    Term.raw_mode term' = false.
Proof. eexists. by vm_compute. Qed.

(** The times the screen was cleared: once by [Screen::new], and once
    for every frame. *)
Definition clears (cs : list Cmd) : nat :=
  sum_list ((fun c => if c is ClearAll then 1%nat else 0%nat) <$> cs).

(** [examples/grid.rs] draws a frame for every event it reads, four
    here; [examples/grid_futures.rs] draws two for the same events, the
    first and the one after the resize. *)
Example rs_run_frames :
  (fun r => (r.1, clears (Term.written r.2)))
    <$> rs_main 5 fresh_term (sample_events ++ [escape_key])
  = Some (Exited (ROk tt), 5%nat).
Proof. by vm_compute. Qed.

Example futures_run_frames :
  (fun r => (r.1, clears (Term.written r.2)))
    <$> futures_main 5 fresh_term (sample_events ++ [quit_key])
  = Some (Exited (ROk tt), 3%nat).
Proof. by vm_compute. Qed.

Lemma sample_events_calm : Forall (calm quit_keymaps) sample_events.
Proof.
  repeat constructor; eexists; (split; [done|]); intros key mods [=].
  by subst.
Qed.

Lemma sample_events_no_escape : Forall no_escape sample_events.
Proof.
  repeat constructor; eexists; (split; [done|]); intros key mods [=].
  by subst.
Qed.

Lemma async_main_returns_witness :
  (length (sample_events ++ [quit_key]) < 5)%nat /\
  exists r,
    @GridFutures.async_main sample_themes quit_keymaps Label.t
      (@Label_widget Debug ascii_width) (@Label_draw sample_themes one_line)
      fill_label (Label.new "#") Label.new 5 fresh_term
      (sample_events ++ [quit_key]) = Some r /\
    @GridFutures.async_main sample_themes quit_keymaps Label.t
      (@Label_widget Debug ascii_width) (@Label_draw sample_themes one_line)
      fill_label (Label.new "#") Label.new (5 + 3) fresh_term
      (sample_events ++ [quit_key]) = Some r.
Proof.
  split; [cbn; lia|].
  apply (@async_main_returns sample_themes quit_keymaps Label.t
           (@Label_widget Debug ascii_width)
           (@Label_draw sample_themes one_line)
           fill_label (Label.new "#") Label.new 5 3 fresh_term
           (sample_events ++ [quit_key])).
  cbn; lia.
Defined.

Lemma async_main_restores_witness :
  Term.reliable fresh_term /\
  modes_after cooked (Term.sent fresh_term) = cooked /\
  Unwound UnwrapNone <> Blocked /\
  let term' := Term.mk (80, 24) false []
                 ([EnterAlternateScreen; CursorHide; DisableLineWrap;
                   ClearAll; EnableMouseCapture; SetTitle "Layout Test";
                   SetBackgroundColor (Black INormal);
                   SetForegroundColor (White IBright); ClearAll;
                   MoveTo 0 0; PrintStr "This is a bit of text in a label";
                   MoveTo 31 0; PrintStr "#"; MoveTo 9 2; PrintStr ".";
                   MoveTo 9 3;
                   PrintStr "This label has more text on the right side"]
                  ++ cleanup_cmds) [] in
  @GridFutures.async_main sample_themes quit_keymaps Label.t
    (@Label_widget Debug ascii_width) (@Label_draw sample_themes one_line)
    fill_label (Label.new "#") Label.new 5 fresh_term [StreamEnd]
  = Some (Unwound UnwrapNone, term') /\
  Term.raw_mode term' = false /\ Term.queued term' = [] /\
  modes_after cooked (Term.written term') = cooked.
Proof.
  split; [by constructor|]. split; [done|]. split; [done|].
  intros term'. split; [by vm_compute|].
  apply (@async_main_restores sample_themes quit_keymaps Label.t
           (@Label_widget Debug ascii_width)
           (@Label_draw sample_themes one_line)
           (@Label_draw_laws sample_themes one_line)
           fill_label (Label.new "#") Label.new 5 fresh_term [StreamEnd]
           (Unwound UnwrapNone) term');
    [by constructor|done|by vm_compute|done].
Defined.

Lemma async_main_quit_witness :
  (forall w : Label.t, is_Ok (@bounds _ (@Label_widget Debug ascii_width) w)) /\
  Term.reliable fresh_term /\ fill_label "." = ROk (Label.new ".") /\
  Forall (calm quit_keymaps) sample_events /\
  KeyMap.lookup quit_keymaps (Key.mk 113) ModKeys.empty = Some Quit /\
  (length sample_events < 5)%nat /\
  exists term',
    @GridFutures.async_main sample_themes quit_keymaps Label.t
      (@Label_widget Debug ascii_width) (@Label_draw sample_themes one_line)
      fill_label (Label.new "#") Label.new 5 fresh_term
      (sample_events ++ quit_key :: [StreamEnd])
    = Some (Exited (ROk tt), term') /\
    Term.raw_mode term' = false.
Proof.
  split; [exact label_bounds_total|]. split; [by constructor|].
  split; [done|]. split; [exact sample_events_calm|]. split; [done|].
  split; [cbn; lia|].
  apply (@async_main_quit sample_themes quit_keymaps Label.t
           (@Label_widget Debug ascii_width)
           (@Label_draw sample_themes one_line)
           (@Label_draw_laws sample_themes one_line)
           fill_label (Label.new "#") Label.new Label_stays
           5 fresh_term sample_events (Key.mk 113) ModKeys.empty [StreamEnd]
           (Label.new "."));
    [exact label_bounds_total|by constructor|done|exact sample_events_calm
    |done|cbn; lia].
Defined.


Lemma grid_main_escape_witness :
  (forall w : Label.t, is_Ok (@bounds _ (@Label_widget Debug ascii_width) w)) /\
  Term.reliable fresh_term /\
  modes_after cooked (Term.sent fresh_term) = cooked /\
  fill_label "." = ROk (Label.new ".") /\
  Forall no_escape sample_events /\ Key.code (Key.mk 27) = GridRs.Esc /\
  (length sample_events < 5)%nat /\
  exists term',
    @GridRs.main sample_themes quit_keymaps Label.t
      (@Label_widget Debug ascii_width) (@Label_draw sample_themes one_line)
      (Label.new " ") fill_label (Label.new "#") Label.new 5 fresh_term
      (sample_events ++ escape_key :: [StreamEnd])
    = Some (Exited (ROk tt), term') /\
    Term.raw_mode term' = false /\ Term.queued term' = [] /\
    modes_after cooked (Term.written term') = cooked.
Proof.
  split; [exact label_bounds_total|]. split; [by constructor|].
  split; [done|]. split; [done|]. split; [exact sample_events_no_escape|].
  split; [done|]. split; [cbn; lia|].
  apply (@grid_main_escape sample_themes quit_keymaps Label.t
           (@Label_widget Debug ascii_width)
           (@Label_draw sample_themes one_line)
           (@Label_draw_laws sample_themes one_line)
           (Label.new " ") fill_label (Label.new "#") Label.new
           5 fresh_term sample_events (Key.mk 27) ModKeys.empty [StreamEnd]
           (Label.new "."));
    [exact label_bounds_total|by constructor|done|done
    |exact sample_events_no_escape|done|cbn; lia].
Defined.
