(* ===== verification/Shown.v ===== *)
(** * Shown: what a template of labels shows

    The pieces of a frame, put together: a template is validated
    ([Grid.parse]), the labels are asked for their bounds
    ([Label.bounds]), the solver gives every label its box
    ([Solver.solve], through [GridArea::widget_boxes]), [Screen::draw]
    draws the frame ([Render.draw]), the terminal shows what the
    commands leave on its cells ([Display]), and the wait for input
    sends nothing more ([Dispatch.wait_action]).  The theorem of this
    file says that when a step of the program is left the user sees
    every label in the box the solver gave it. *)

From Stdlib Require Import ZArith Lia String Ascii.
From stdpp Require Import base option list strings gmap.
From S2P Require Import Prelude Geometry Layout Grid Solver Input Style Error.
From S2P Require Import Terminal Screen Widget Label Button Dispatch Render.
From S2P Require Import Display App.

Import GridBoxes.

#[local] Open Scope Z_scope.

(** ** The boxes of a solved template *)

(** A box within another, with a cell of its own, is all of their
    intersection. *)
Lemma clip_whole (a b : Area.t) :
  Area.inside b a -> 0 < Area.width b -> 0 < Area.height b ->
  BBox.clip a b = b.
Proof.
  intros Hin Hw Hh. unfold BBox.clip, Area.inside, Area.cell_in in *.
  pose proof (Hin (Area.col b) (Area.row b)).
  pose proof (Hin (Area.col b + Area.width b - 1)
                (Area.row b + Area.height b - 1)).
  area_destruct. repeat f_equal; lia.
Qed.

(** A box within the screen is drawn whole. *)
Lemma cells_whole self bbox :
  Area.inside bbox (Screen.bbox self) ->
  0 < Area.width bbox -> 0 < Area.height bbox ->
  cells self bbox = Some (Cells.new bbox).
Proof.
  intros Hin Hw Hh. unfold cells. rewrite clip_whole by done.
  unfold BBox.is_empty. rewrite bool_decide_eq_false_2; [done|].
  unfold BBox.dim. fold (Area.width bbox) (Area.height bbox). lia.
Qed.

Section solved.
Context (m : matrix) (mapping : gmap string nat) (g : GridArea.t).
Context (bounds : nat -> AreaBound.t) (bbox : BBox.t).
Context (Hg : parse m mapping = Valid g).
Context (Hbounds : forall w, bound_wf (bounds w)) (Hbox : Area.wf bbox).

Lemma solve_lookup k wb :
  solve g bounds bbox !! k = Some wb ->
  exists p, GridArea.placements g !! k = Some p /\
    wb = (widget p, place bbox (widths g bounds bbox) (heights g bounds bbox)
                      (rect p)).
Proof.
  unfold solve. rewrite list_lookup_fmap.
  destruct (GridArea.placements g !! k) as [p|]; [|done].
  intros [= <-]. by exists p.
Qed.

(** Two placements of a validated template have different labels. *)
Lemma placements_labels k k' p q :
  GridArea.placements g !! k = Some p -> GridArea.placements g !! k' = Some q ->
  k <> k' -> label p <> label q.
Proof.
  intros Hk Hk' Hne Heq. apply Hne.
  apply (NoDup_lookup (label <$> GridArea.placements g) k k' (label p)).
  - rewrite (parse_order m mapping g Hg). apply NoDup_nub.
  - by rewrite list_lookup_fmap, Hk.
  - by rewrite list_lookup_fmap, Hk', Heq.
Qed.

(** The boxes the solver gives are on the grid, within the available
    box, and share no cell. *)
Lemma solve_boxes_wf :
  Forall (fun wb => Area.wf wb.2 /\ Area.inside wb.2 bbox) (solve g bounds bbox).
Proof.
  apply Forall_forall. intros [w box] Hin.
  by apply (solve_inside g bounds bbox Hbounds Hbox w).
Qed.

Lemma solve_boxes_apart : apart (solve g bounds bbox).
Proof.
  intros k k' wb wb' p (pk & Hk & ->)%solve_lookup (pk' & Hk' & ->)%solve_lookup Hne.
  apply (solve_labels_apart m mapping g bounds bbox pk pk' p.1 p.2 Hg Hbounds Hbox);
    [by eapply list_elem_of_lookup_2..|by eapply placements_labels].
Qed.

End solved.

(** ** Labels in a template *)

(** The display shows a label in a box: each line of its text,
    wrapped to the width of the box, on a row of its own from the first
    column of the box, as far as the box has rows. *)
Definition shows_label `{TW : TextWrap} (m : gmap (Z * Z) ascii)
    (bbox : BBox.t) (l : Label.t) : Prop :=
  forall r line, label_lines l (Cells.new bbox) !! r = Some line ->
    line_shown m bbox r line.

Section labels_of_a_grid.
Context `{TH : Themes} `{O : Overflow} `{SW : StrWidth}.
Context `{TW : TextWrap} `{!TextWrapFits}.
Implicit Types (ls : list Label.t) (l : Label.t) (self : Screen.t).

(** Labels always have bounds, and bounds the solver can use. *)
Lemma all_bounds_labels ls :
  exists bs, all_bounds ls = Ok bs /\ Forall bound_wf bs.
Proof.
  induction ls as [|l ls (bs & Hbs & Hwf)]; [by exists []|].
  destruct (label_bounds_wf l) as (b & Hb & Hbwf).
  exists (b :: bs). split; [|by constructor].
  cbn [all_bounds bounds Label_widget]. by rewrite Hb, Hbs.
Qed.

Lemma bounds_of_wf bs w : Forall bound_wf bs -> bound_wf (bounds_of bs w).
Proof.
  intros Hwf. unfold bounds_of. destruct (bs !! w) as [b|] eqn:Hb; cbn.
  - by apply (proj1 (Forall_lookup _ _) Hwf w).
  - unfold bound_wf, range_wf, AreaBound.default. cbn. unfold u16_max. lia.
Qed.

(** The layout of labels is always found, and it is the solver's. *)
Lemma widget_boxes_labels g ls bbox :
  exists bs, Forall bound_wf bs /\
    widget_boxes g ls bbox = Ok (solve g (bounds_of bs) bbox).
Proof.
  destruct (all_bounds_labels ls) as (bs & Hbs & Hwf). exists bs.
  split; [done|]. unfold widget_boxes. by rewrite Hbs.
Qed.

(** A frame of the labels of a validated template, as the terminal
    shows it. *)
Lemma grid_labels_drawn m mapping g ls self d :
  parse m mapping = Valid g ->
  Term.reliable (Screen.out self) -> Area.wf (Screen.bbox self) ->
  exists wbs self',
    widget_boxes g ls (Screen.bbox self) = Ok wbs /\
    wbs.*1 = widget <$> GridArea.placements g /\
    draw wbs ls self = (ROk tt, self') /\
    forall k i bbox l,
      wbs !! k = Some (i, bbox) -> ls !! i = Some l ->
      0 < Area.width bbox -> 0 < Area.height bbox ->
      shows_label
        (Display.shown (Display.run d (Term.written (Screen.out self'))))
        bbox l.
Proof.
  intros Hg Hr Hs.
  destruct (widget_boxes_labels g ls (Screen.bbox self)) as (bs & Hbs & Hwbs).
  pose proof (bounds_of_wf bs) as Hbounds.
  pose proof (solve_boxes_wf g (bounds_of bs) (Screen.bbox self)
                (fun w => Hbounds w Hbs) Hs) as Hwf.
  destruct (labels_frame_shown (solve g (bounds_of bs) (Screen.bbox self))
              ls self d Hr Hs) as (self' & Hdraw & Hshown).
  { eapply Forall_impl; [exact Hwf|]. by intros wb [? _]. }
  { by apply (solve_boxes_apart m mapping g _ _ Hg (fun w => Hbounds w Hbs)). }
  eexists _, self'. split; [exact Hwbs|]. split.
  { unfold solve. by rewrite <- list_fmap_compose. }
  split; [done|]. intros k i bbox l Hk Hi Hw Hh r line Hline.
  apply (Hshown k i bbox l (Cells.new bbox) r line Hk Hi); [|done].
  apply cells_whole; [|done..].
  by apply (proj1 (Forall_lookup _ _) Hwf k (i, bbox)).
Qed.

(** Waiting for input sends nothing: what the terminal has received
    when [step_future] is left, however it is left, is the frame. *)
Lemma step_future_out g ls self stream bs self1 :
  all_bounds ls = Ok bs ->
  draw (solve g (bounds_of bs) (Screen.bbox self)) ls self = (ROk tt, self1) ->
  Screen.out (GridFutures.step_future g self stream ls).1.1.2 = Screen.out self1.
Proof.
  intros Hbs Hdraw. unfold GridFutures.step_future, step.
  rewrite Hbs, Hdraw. apply wait_action_screen.
Qed.

(** A step of the program on the labels of a validated template. *)
Lemma grid_labels_stepped m mapping g ls self stream d :
  parse m mapping = Valid g ->
  Term.reliable (Screen.out self) -> Area.wf (Screen.bbox self) ->
  exists wbs,
    widget_boxes g ls (Screen.bbox self) = Ok wbs /\
    wbs.*1 = widget <$> GridArea.placements g /\
    let self' := (GridFutures.step_future g self stream ls).1.1.2 in
    forall k i bbox l,
      wbs !! k = Some (i, bbox) -> ls !! i = Some l ->
      0 < Area.width bbox -> 0 < Area.height bbox ->
      shows_label
        (Display.shown (Display.run d (Term.written (Screen.out self'))))
        bbox l.
Proof.
  intros Hg Hr Hs.
  destruct (grid_labels_drawn m mapping g ls self d Hg Hr Hs)
    as (wbs & self1 & Hwbs & Hfst & Hdraw & Hshown).
  exists wbs. split; [done|]. split; [done|]. cbv zeta.
  destruct (all_bounds_labels ls) as (bs & Hbs & _).
  unfold widget_boxes in Hwbs. rewrite Hbs in Hwbs.
  change (Ok (solve g (bounds_of bs) (Screen.bbox self)) = Ok wbs) in Hwbs.
  simplify_eq.
  by rewrite (step_future_out g ls self stream bs self1 Hbs Hdraw).
Qed.

End labels_of_a_grid.

Section labels_claim.
Context `{TH : Themes} `{O : Overflow} `{SW : StrWidth}.
Context `{TW : TextWrap} `{!TextWrapFits}.

(** C12. From the template to the terminal.  For a validated template
    and labels as its widgets, on a terminal that does not fail and a
    screen on the [u16] grid: the layout is found, with one box for
    each placement of the template, in their order; and when
    [Screen::step_future] is left, with an action, with an error of
    the event stream, or still waiting for input, the terminal shows
    every label in the box the solver gave it, each line of the text
    wrapped to the width of the box on a row of its own, from the first
    column of the box, as far as the box has rows. *)
Theorem grid_labels_shown m mapping g (ls : list Label.t) self stream d :
  parse m mapping = Valid g ->
  Term.reliable (Screen.out self) -> Area.wf (Screen.bbox self) ->
  exists wbs,
    widget_boxes g ls (Screen.bbox self) = Ok wbs /\
    wbs.*1 = widget <$> GridArea.placements g /\
    let self' := (GridFutures.step_future g self stream ls).1.1.2 in
    forall k i bbox l,
      wbs !! k = Some (i, bbox) -> ls !! i = Some l ->
      0 < Area.width bbox -> 0 < Area.height bbox ->
      shows_label
        (Display.shown (Display.run d (Term.written (Screen.out self'))))
        bbox l.
Proof. apply grid_labels_stepped. Qed.

End labels_claim.

(** ** A page of three labels *)

(** A title over the body, and a side bar beside both. *)
Definition page_template : matrix :=
  of_tokens [["a"; "a"; "b"]; ["c"; "c"; "b"]].

Definition page_mapping : gmap string nat :=
  {["a" := 0%nat; "b" := 1%nat; "c" := 2%nat]}.

Definition page_grid : GridArea.t :=
  GridArea.mk 2 3
    [mk_placement "a" 0 (Rect.mk 0 0 1 0); mk_placement "b" 1 (Rect.mk 2 0 2 1);
     mk_placement "c" 2 (Rect.mk 0 1 1 1)].

Definition page_labels : list Label.t :=
  [Label.new "title"; Label.new "side bar"; Label.new "the body of the page"].

(** A screen of thirty columns and four rows. *)
Definition page_screen : Screen.t :=
  Screen.mk (Term.mk (30, 4) true [] [] []) (Dim.new 30 4) sample_theme None ∅.

(** The characters of a row of the display, a dot for a cell that
    shows none. *)
Definition row_text (m : gmap (Z * Z) ascii) (width : nat) (row : Z) : string :=
  string_of_list_ascii
    ((fun col => default "."%char (m !! (Z.of_nat col, row))) <$> seq 0 width).

Example page_parsed : parse page_template page_mapping = Valid page_grid.
Proof. by vm_compute. Qed.

Example page_boxes :
  @widget_boxes _ (@Label_widget Debug ascii_width) page_grid page_labels
    (Screen.bbox page_screen)
  = Ok [(0%nat, BBox.new 0 0 21 1); (1%nat, BBox.new 21 0 9 2);
        (2%nat, BBox.new 0 1 21 1)].
Proof. by vm_compute. Qed.

(** The page as the terminal shows it: the side bar, nine columns wide,
    takes two rows for its text. *)
Example page_on_display :
  let wbs := [(0%nat, BBox.new 0 0 21 1); (1%nat, BBox.new 21 0 9 2);
              (2%nat, BBox.new 0 1 21 1)] in
  let r := @draw sample_themes _ (@Label_draw sample_themes hard_wrap)
             wbs page_labels page_screen in
  let m := Display.shown
             (Display.run Display.blank (Term.written (Screen.out r.2))) in
  r.1 = ROk tt /\
  row_text m 30 <$> [0; 1; 2; 3]
  = ["title................side bar."; "the body of the page..........";
     ".............................."; ".............................."].
Proof. by vm_compute. Qed.

Lemma grid_labels_shown_witness :
  parse page_template page_mapping = Valid page_grid /\
  Term.reliable (Screen.out page_screen) /\ Area.wf (Screen.bbox page_screen) /\
  exists wbs,
    @widget_boxes _ (@Label_widget Debug ascii_width) page_grid page_labels
      (Screen.bbox page_screen) = Ok wbs /\
    wbs.*1 = widget <$> GridArea.placements page_grid /\
    let self' :=
      (@GridFutures.step_future sample_themes _ (@Label_widget Debug ascii_width)
         (@Label_draw sample_themes hard_wrap) page_grid page_screen
         (sample_events ++ [quit_key]) page_labels).1.1.2 in
    forall k i bbox l,
      wbs !! k = Some (i, bbox) -> page_labels !! i = Some l ->
      0 < Area.width bbox -> 0 < Area.height bbox ->
      @shows_label hard_wrap
        (Display.shown
           (Display.run Display.blank (Term.written (Screen.out self'))))
        bbox l.
Proof.
  split; [by vm_compute|]. split; [by constructor|]. split; [compute_done|].
  apply (@grid_labels_shown sample_themes Debug ascii_width hard_wrap
           hard_wrap_fits page_template page_mapping page_grid page_labels
           page_screen (sample_events ++ [quit_key]) Display.blank);
    [by vm_compute|by constructor|compute_done].
Defined.
