(* ===== verification/Pen.v ===== *)
(** * Pen: the style the terminal writes with

    [Screen] remembers the style it has set last ([Screen::style]) and
    [set_style] sends only what differs from it: a color when it has
    changed, and for the appearance the attributes that
    [Appearance::changed] gives.  Whether that is right depends on
    what the terminal does with the commands.  This file gives the
    style commands their meaning on the terminal's pen ([Pen.exec]:
    the two colors and the attributes that are on) and compares the
    pen with what the screen remembers.

    - [Pen.sgr] is the effect of one attribute (Select Graphic
      Rendition): an attribute is switched on, or a reset switches off
      what it resets; [NormalIntensity] resets both [Bold] and [Dim].
      [SetAttributes] writes the attributes of its set one after the
      other in the order of crossterm's enumeration, the resets last
      ([Pen.set_attributes]).
    - [shows] says that the pen is the one of a style; [synced] that
      the pen is the one of the style the screen remembers.
    - [set_style] keeps the two in step exactly when the appearances
      are [compatible]: no switch stays on, and the weight does not go
      from bold to thin or back ([set_style_shows]); a switch that
      stays on is lost ([set_style_loses_switch]).  The colors are
      always right when nothing fails.
    - A frame keeps them in step for themes whose styles are
      compatible with each other ([draw_synced]), and so do the loops
      of the two programs ([step_loop_synced],
      [main_loop_keeps_pen]): the operations of the screen are
      composed as in the code with the rules of [keeps], and the
      widgets enter through [WidgetPenLaws].
    - [inked] pairs each writing command with the pen it is executed
      with.  Under the same hypotheses every character of a frame is
      written in the style of a widget of the layout
      ([draw_written]), and each widget writes in its own
      ([draw_widget_ink], over the contract [WidgetInkLaws]).

    The pen is the terminal's, not the program's: its definitions are
    the assumption under which the theorems speak of what the user
    sees.  A terminal that had attributes on before the screen was
    made keeps them ([pen_inherited]). *)

From Stdlib Require Import ZArith Lia String Ascii.
From stdpp Require Import base option list gmap.
From S2P Require Import Prelude Geometry Layout Input Style Error Terminal.
From S2P Require Import Screen Widget Label Button Dispatch Render Display.
From S2P Require Import Grid Solver App.

#[local] Set Warnings "-clear-no-such-hyp".

#[local] Open Scope Z_scope.

(** ** The pen *)

Module Pen.

(** The colors the terminal writes with, where they have been set, and
    the attributes that are on. *)
Record t : Type := mk {
  bg : option Color;
  fg : option Color;
  lit : Attributes.t;
}.

(** The pen of a terminal that has been sent no style. *)
Definition fresh : t := mk None None ∅.

(** The effect of one attribute on those that are on. *)
Definition sgr (lit : Attributes.t) (a : Attribute.t) : Attributes.t :=
  match a with
  | Attribute.NormalIntensity => lit ∖ {[Attribute.Bold; Attribute.Dim]}
  | Attribute.NoItalic => lit ∖ {[Attribute.Italic]}
  | Attribute.NoUnderline => lit ∖ {[Attribute.Underlined]}
  | Attribute.NoReverse => lit ∖ {[Attribute.Reverse]}
  | Attribute.NotCrossedOut => lit ∖ {[Attribute.CrossedOut]}
  | _ => lit ∪ {[a]}
  end.

(** [SetAttributes]: the attributes of the set, one after the other in
    the order of the enumeration. *)
Definition set_attributes (lit attrs : Attributes.t) : Attributes.t :=
  foldl sgr lit (filter (.∈ attrs) Attribute.all).

(** The effect of one command. *)
Definition exec (p : t) (c : Cmd) : t :=
  match c with
  | SetBackgroundColor c => mk (Some c) (fg p) (lit p)
  | SetForegroundColor c => mk (bg p) (Some c) (lit p)
  | SetAttributes attrs => mk (bg p) (fg p) (set_attributes (lit p) attrs)
  | ResetColor => fresh
  | _ => p
  end.

(** The effect of a sequence of commands. *)
Definition run (p : t) (cs : list Cmd) : t := foldl exec p cs.

End Pen.

#[export] Instance Pen_eq_dec : EqDecision Pen.t.
Proof. solve_decision. Defined.

(** ** Specification vocabulary *)

(** The reset of an attribute that can be on. *)
Definition undo (a : Attribute.t) : option Attribute.t :=
  match a with
  | Attribute.Bold | Attribute.Dim => Some Attribute.NormalIntensity
  | Attribute.Italic => Some Attribute.NoItalic
  | Attribute.Underlined => Some Attribute.NoUnderline
  | Attribute.Reverse => Some Attribute.NoReverse
  | Attribute.CrossedOut => Some Attribute.NotCrossedOut
  | _ => None
  end.

(** The attributes that are on when the terminal writes in an
    appearance: its switches, and the attribute of its weight. *)
Definition lit_of (app : Appearance.t) : Attributes.t :=
  Appearance.attributes app ∪
  from_option singleton ∅ (Weight.attribute (Appearance.weight app)).

(** An appearance as the setters of [Appearance] make it: its
    attributes are among the four switches. *)
Definition plain (app : Appearance.t) : Prop :=
  Appearance.attributes app ⊆
    {[Attribute.Italic; Attribute.Underlined; Attribute.Reverse;
      Attribute.CrossedOut]}.

(** Two appearances that [changed] can tell apart for the terminal: no
    switch is on in both, and the weight stays, or comes from normal,
    or goes to normal. *)
Definition compatible (before after : Appearance.t) : Prop :=
  Appearance.attributes before ## Appearance.attributes after /\
  (Appearance.weight before = Appearance.weight after \/
   Appearance.weight before = Weight.Normal \/
   Appearance.weight after = Weight.Normal).

(** The pen is the one of a style. *)
Definition shows (p : Pen.t) (st : TextStyle.t) : Prop :=
  Pen.bg p = Some (TextStyle.background st) /\
  Pen.fg p = Some (TextStyle.foreground st) /\
  Pen.lit p = lit_of (TextStyle.appearance st).

#[export] Instance plain_dec app : Decision (plain app).
Proof. unfold plain. apply _. Defined.

#[export] Instance compatible_dec before after : Decision (compatible before after).
Proof. unfold compatible. apply _. Defined.

#[export] Instance shows_dec p st : Decision (shows p st).
Proof. unfold shows. apply _. Defined.

(** ** Attributes on the pen *)

Section attributes.
Implicit Types (lit attrs : Attributes.t) (a x : Attribute.t).

Lemma elem_of_sgr lit a x :
  x ∈ Pen.sgr lit a <->
  (x ∈ lit /\ undo x <> Some a) \/ (x = a /\ is_Some (undo a)).
Proof.
  destruct a, x; cbn; rewrite ?elem_of_union, ?elem_of_difference,
    ?elem_of_singleton, ?not_elem_of_union, ?not_elem_of_singleton;
    unfold is_Some; naive_solver.
Qed.

(** Attributes that are switched on: they join those that are on. *)
Lemma foldl_sgr_on (l : list Attribute.t) lit :
  Forall (fun a => is_Some (undo a)) l ->
  foldl Pen.sgr lit l = lit ∪ list_to_set l.
Proof.
  intros Hl. revert lit. induction Hl as [|a l Ha _ IH]; intros lit; cbn.
  - set_solver.
  - rewrite IH. destruct a; cbn in *; try by destruct Ha. all: set_solver.
Qed.

(** Resets: what they reset goes off. *)
Lemma foldl_sgr_off (l : list Attribute.t) lit x :
  Forall (fun a => undo a = None) l ->
  x ∈ foldl Pen.sgr lit l <-> x ∈ lit /\ forall r, r ∈ l -> undo x <> Some r.
Proof.
  intros Hl. revert lit. induction Hl as [|a l Ha _ IH]; intros lit; cbn.
  - set_solver.
  - rewrite IH, elem_of_sgr. rewrite Ha. unfold is_Some. split.
    + intros [[[Hx Hne]|[_ [? ?]]] Hl]; [|done]. split; [done|].
      by intros r [->|Hr]%elem_of_cons; [|apply Hl].
    + intros [Hx Hall]. split; [left; split; [done|]|];
        [apply Hall|intros r Hr; apply Hall]; set_solver.
Qed.

(** The attributes in the order [SetAttributes] writes them: those that
    switch on, then the resets. *)
Definition switches : list Attribute.t :=
  [Attribute.Bold; Attribute.Dim; Attribute.Italic; Attribute.Underlined;
   Attribute.Reverse; Attribute.CrossedOut].

Definition resets : list Attribute.t :=
  [Attribute.NormalIntensity; Attribute.NoItalic; Attribute.NoUnderline;
   Attribute.NoReverse; Attribute.NotCrossedOut].

Lemma all_switches_resets : Attribute.all = switches ++ resets.
Proof. reflexivity. Qed.

Lemma elem_of_switches x : x ∈ switches <-> is_Some (undo x).
Proof.
  unfold switches. rewrite !elem_of_cons, elem_of_nil.
  destruct x; cbn; unfold is_Some; naive_solver.
Qed.

Lemma elem_of_resets x : x ∈ resets <-> undo x = None.
Proof.
  unfold resets. rewrite !elem_of_cons, elem_of_nil.
  destruct x; cbn; naive_solver.
Qed.

Lemma undo_reset x r : undo x = Some r -> undo r = None.
Proof. destruct x; cbn; intros [= <-]; done. Qed.

(** What is on after [SetAttributes]: what was on and what the set
    switches on, without what the set resets. *)
Lemma elem_of_set_attributes lit attrs x :
  x ∈ Pen.set_attributes lit attrs <->
  match undo x with
  | Some r => (x ∈ lit \/ x ∈ attrs) /\ r ∉ attrs
  | None => x ∈ lit
  end.
Proof.
  unfold Pen.set_attributes.
  rewrite all_switches_resets, filter_app, foldl_app, foldl_sgr_off, foldl_sgr_on.
  - rewrite elem_of_union, elem_of_list_to_set, list_elem_of_filter.
    setoid_rewrite list_elem_of_filter.
    rewrite elem_of_switches. setoid_rewrite elem_of_resets.
    destruct (undo x) as [r|] eqn:Hx; unfold is_Some.
    + pose proof (undo_reset _ _ Hx). naive_solver.
    + naive_solver.
  - apply Forall_forall. intros a [_ Ha]%list_elem_of_filter.
    by apply elem_of_switches.
  - apply Forall_forall. intros a [_ Ha]%list_elem_of_filter.
    by apply elem_of_resets.
Qed.

End attributes.

(** ** What [changed] does to the pen *)

Section appearance.
Implicit Types (before after app : Appearance.t) (x : Attribute.t).

Lemma elem_of_lit_of app x :
  x ∈ lit_of app <->
  x ∈ Appearance.attributes app \/
  Weight.attribute (Appearance.weight app) = Some x.
Proof.
  unfold lit_of. rewrite elem_of_union.
  destruct (Weight.attribute _); cbn; set_solver.
Qed.

Lemma lit_of_default : lit_of Appearance.default = ∅.
Proof. reflexivity. Qed.

(** A plain appearance holds no reset and no attribute of a weight. *)
Lemma plain_elem app x :
  plain app -> x ∈ Appearance.attributes app ->
  x = Attribute.Italic \/ x = Attribute.Underlined \/
  x = Attribute.Reverse \/ x = Attribute.CrossedOut.
Proof. unfold plain. set_solver. Qed.

Lemma plain_weight app (w : Weight.t) x :
  plain app -> x ∈ Appearance.attributes app -> Weight.attribute w = Some x ->
  False.
Proof.
  intros Hp Hx Hw. destruct (plain_elem _ _ Hp Hx) as [-> | [-> | [-> | ->]]];
    by destruct w.
Qed.

(** What is on after the attributes of [changed] were written to a pen
    that showed [before]: the switches of [after] that were off, the
    attribute of the weight of [after], and the attribute of the
    weight of [before] where the weight goes from bold to thin or
    back. *)
Lemma elem_of_set_changed before after x :
  plain before -> plain after ->
  x ∈ Pen.set_attributes (lit_of before) (Appearance.changed after before) <->
  (x ∈ Appearance.attributes after /\ x ∉ Appearance.attributes before) \/
  Weight.attribute (Appearance.weight after) = Some x \/
  (Weight.attribute (Appearance.weight before) = Some x /\
   Appearance.weight after <> Weight.Normal /\
   Appearance.weight after <> Appearance.weight before).
Proof.
  intros Hb Ha. rewrite elem_of_set_attributes.
  pose proof (plain_elem _ x Hb). pose proof (plain_elem _ x Ha).
  destruct (undo x) as [r|] eqn:Hx.
  - pose proof (plain_elem _ r Hb). pose proof (plain_elem _ r Ha).
    rewrite elem_of_lit_of, !appearance_changed_elem.
    destruct before as [ab [| |]], after as [aa [| |]], x; cbn in *;
      simplify_eq; naive_solver.
  - rewrite elem_of_lit_of.
    destruct before as [ab [| |]], after as [aa [| |]], x; cbn in *;
      simplify_eq; naive_solver.
Qed.

(** The pen shows the new appearance exactly when the two appearances
    are compatible. *)
Lemma set_changed_lit_of before after :
  plain before -> plain after ->
  Pen.set_attributes (lit_of before) (Appearance.changed after before) =
    lit_of after <->
  compatible before after.
Proof.
  intros Hb Ha. rewrite set_eq. setoid_rewrite elem_of_lit_of.
  setoid_rewrite (elem_of_set_changed _ _ _ Hb Ha). unfold compatible. split.
  - intros H. split.
    + intros x Hxb Hxa.
      by destruct (proj2 (H x) (or_introl Hxa)) as [[_ ?]|[?|[? _]]];
        [|eapply plain_weight..].
    + destruct (Appearance.weight before) eqn:Eb,
        (Appearance.weight after) eqn:Ea; auto.
      * destruct (proj1 (H Attribute.Bold)) as [Hx|?]; [naive_solver| |done].
        by destruct (plain_weight after Weight.Bold _ Ha Hx).
      * destruct (proj1 (H Attribute.Dim)) as [Hx|?]; [naive_solver| |done].
        by destruct (plain_weight after Weight.Thin _ Ha Hx).
  - intros [Hd Hw] x. split.
    + intros [[? _]|[?|(Hxb & Hn & Hne)]]; [by left|by right|].
      destruct Hw as [?|[Hw|?]]; [congruence| |done].
      by rewrite Hw in Hxb.
    + intros [Hx|Hx]; [|auto]. left. split; [done|]. intros ?. by eapply Hd.
Qed.

End appearance.

(** ** The pen and the style the screen remembers *)

(** A command that leaves the pen alone: all but the style commands. *)
Definition pen_free (c : Cmd) : bool :=
  match c with
  | SetBackgroundColor _ | SetForegroundColor _ | SetAttributes _
  | ResetColor => false
  | _ => true
  end.

(** The pen is the one [set_style] takes it to be when the current
    style is [cur]: the pen of that style, or, when no style has been
    set, one with no attribute on (the colors are sent then). *)
Definition tracks (p : Pen.t) (cur : option TextStyle.t) : Prop :=
  match cur with
  | Some st => shows p st
  | None => Pen.lit p = ∅
  end.

(** The pen of a terminal that had the pen [p0] before the screen sent
    anything is the one of the style the screen remembers. *)
Definition synced (p0 : Pen.t) (self : Screen.t) : Prop :=
  tracks (Pen.run p0 (sent self)) (Screen.style self).

#[export] Instance tracks_dec p cur : Decision (tracks p cur).
Proof. destruct cur; cbn; apply _. Defined.

#[export] Instance synced_dec p0 self : Decision (synced p0 self).
Proof. unfold synced. apply _. Defined.

(** The commands that write characters. *)
Definition prints (c : Cmd) : bool :=
  match c with
  | PrintChar _ | PrintStr _ => true
  | _ => false
  end.

(** The writing commands of [cs], each with the pen it is executed
    with, from the pen [p]. *)
Fixpoint inked (p : Pen.t) (cs : list Cmd) : list (Pen.t * Cmd) :=
  match cs with
  | [] => []
  | c :: cs => (if prints c then [(p, c)] else []) ++ inked (Pen.exec p c) cs
  end.

(** All that [cs] writes, sent after [pre], is written in the style
    [st]. *)
Definition written_in (p0 : Pen.t) (pre cs : list Cmd) (st : TextStyle.t)
    : Prop :=
  Forall (fun pc => shows pc.1 st) (inked (Pen.run p0 pre) cs).

(** The appearance [set_appearance] compares with. *)
Definition current (cur : option TextStyle.t) : Appearance.t :=
  from_option TextStyle.appearance Appearance.default cur.

Section pen_facts.
Implicit Types (p : Pen.t) (cs : list Cmd) (st : TextStyle.t)
  (cur : option TextStyle.t) (self : Screen.t).

Lemma pen_run_app p cs1 cs2 : Pen.run p (cs1 ++ cs2) = Pen.run (Pen.run p cs1) cs2.
Proof. apply foldl_app. Qed.

Lemma run_pen_free p cs : forallb pen_free cs = true -> Pen.run p cs = p.
Proof.
  revert p. induction cs as [|c cs IH]; intros p; [done|]. cbn.
  intros [Hc Hcs]%andb_prop. rewrite <- (IH p Hcs) at 2.
  by destruct c.
Qed.

Lemma inked_app p cs1 cs2 :
  inked p (cs1 ++ cs2) = inked p cs1 ++ inked (Pen.run p cs1) cs2.
Proof.
  revert p. induction cs1 as [|c cs1 IH]; intros p; [done|].
  cbn. by rewrite IH, app_assoc.
Qed.

Lemma inked_pen_free p cs :
  forallb pen_free cs = true -> Forall (fun pc => pc.1 = p) (inked p cs).
Proof.
  revert p. induction cs as [|c cs IH]; intros p; [constructor|]. cbn.
  intros [Hc Hcs]%andb_prop. apply Forall_app. split.
  - destruct (prints c); by repeat constructor.
  - replace (Pen.exec p c) with p by (by destruct c). by apply IH.
Qed.

Lemma inked_style_cmds p cur st : inked p (style_cmds cur st) = [].
Proof.
  unfold style_cmds. rewrite !inked_app.
  by repeat (destruct (from_option _ _ _) || destruct (Attributes.is_empty _)).
Qed.

(** Commands that leave the pen alone write in the style it has. *)
Lemma written_in_pen_free p0 pre cs st :
  forallb pen_free cs = true -> shows (Pen.run p0 pre) st ->
  written_in p0 pre cs st.
Proof.
  intros Hf Hs. eapply Forall_impl; [by apply inked_pen_free|].
  by intros [p c] ->.
Qed.

(** After a change of style. *)
Lemma written_in_style_cmds p0 pre cur st' cs st :
  written_in p0 (pre ++ style_cmds cur st') cs st ->
  written_in p0 pre (style_cmds cur st' ++ cs) st.
Proof.
  unfold written_in. by rewrite inked_app, inked_style_cmds, pen_run_app.
Qed.

Lemma set_attributes_empty (lit : Attributes.t) : Pen.set_attributes lit ∅ = lit.
Proof.
  apply set_eq. intros x. rewrite elem_of_set_attributes.
  destruct (undo x); set_solver.
Qed.

Lemma tracks_lit p cur : tracks p cur -> Pen.lit p = lit_of (current cur).
Proof. destruct cur; [by intros (_ & _ & ?)|done]. Qed.

(** The pen after the commands of [set_style]: both colors are those
    of the style, and the attributes of [changed] have been written. *)
Lemma run_style_cmds p cur st :
  tracks p cur ->
  Pen.run p (style_cmds cur st) =
    Pen.mk (Some (TextStyle.background st)) (Some (TextStyle.foreground st))
      (Pen.set_attributes (Pen.lit p)
         (Appearance.changed (TextStyle.appearance st) (current cur))).
Proof.
  intros Ht. unfold style_cmds, Attributes.is_empty. fold (current cur).
  rewrite !pen_run_app.
  assert (forall q, Pen.run q
            (if bool_decide (Appearance.changed (TextStyle.appearance st)
                               (current cur) = ∅)
             then []
             else [SetAttributes (Appearance.changed (TextStyle.appearance st)
                                    (current cur))]) =
          Pen.mk (Pen.bg q) (Pen.fg q)
            (Pen.set_attributes (Pen.lit q)
               (Appearance.changed (TextStyle.appearance st) (current cur))))
    as ->.
  { intros [b f l]. case_bool_decide as He; [|done].
    by rewrite He, set_attributes_empty. }
  destruct cur as [s|]; cbn [from_option].
  - destruct Ht as (Hb & Hf & _), p as [b f l]. cbn in Hb, Hf. subst.
    repeat case_bool_decide; cbn; f_equal;
      try match goal with H : ¬ (_ ≠ _) |- _ => apply dec_stable in H end;
      congruence.
  - by destruct p.
Qed.

(** After the commands of [set_style] the pen is the one of the new
    style exactly when the appearances are compatible. *)
Lemma tracks_style_cmds p cur st :
  tracks p cur -> plain (current cur) -> plain (TextStyle.appearance st) ->
  tracks (Pen.run p (style_cmds cur st)) (Some st) <->
  compatible (current cur) (TextStyle.appearance st).
Proof.
  intros Ht Hc Hs. rewrite (run_style_cmds _ _ _ Ht), (tracks_lit _ _ Ht).
  rewrite <- (set_changed_lit_of _ _ Hc Hs). unfold tracks, shows.
  cbn [Pen.bg Pen.fg Pen.lit]. split; [by intros (_ & _ & ?)|done].
Qed.

(** [set_style] on a terminal that does not fail, and the pen. *)
Lemma set_style_synced p0 st self :
  Term.reliable (Screen.out self) -> synced p0 self ->
  plain (current (Screen.style self)) -> plain (TextStyle.appearance st) ->
  exists self',
    queues (Screen.set_style st) self (style_cmds (Screen.style self) st) self' /\
    Screen.style self' = Some st /\
    (synced p0 self' <->
     compatible (current (Screen.style self)) (TextStyle.appearance st)).
Proof.
  intros Hr Hs Hc Hp.
  destruct (set_style_queues_aux st self Hr) as (self' & Hq & Hst).
  exists self'. split; [done|]. split; [done|].
  unfold synced. rewrite Hst, (emits_sent _ _ _ (proj1 (proj2 Hq))), pen_run_app.
  by apply tracks_style_cmds.
Qed.

(** The colors of the pen after [set_style] are the new ones, whatever
    the appearances. *)
Lemma set_style_colors p0 st self self' :
  synced p0 self ->
  queues (Screen.set_style st) self (style_cmds (Screen.style self) st) self' ->
  Pen.bg (Pen.run p0 (sent self')) = Some (TextStyle.background st) /\
  Pen.fg (Pen.run p0 (sent self')) = Some (TextStyle.foreground st).
Proof.
  intros Hs (_ & He & _). unfold synced in Hs.
  by rewrite (emits_sent _ _ _ He), pen_run_app, (run_style_cmds _ _ _ Hs).
Qed.

(** A switch that is on in the current style and in the new one is
    off on the terminal after [set_style]. *)
Lemma set_style_unlit p0 st0 st self x :
  Term.reliable (Screen.out self) -> Screen.style self = Some st0 ->
  synced p0 self ->
  plain (TextStyle.appearance st0) -> plain (TextStyle.appearance st) ->
  x ∈ Appearance.attributes (TextStyle.appearance st0) ->
  x ∈ Appearance.attributes (TextStyle.appearance st) ->
  exists self',
    Screen.set_style st self = (ROk tt, self') /\
    Screen.style self' = Some st /\
    x ∉ Pen.lit (Pen.run p0 (sent self')).
Proof.
  intros Hr Hcur Hs H0 H1 Hx0 Hx1.
  destruct (set_style_queues_aux st self Hr) as (self' & (E & He & _) & Hst).
  exists self'. split; [done|]. split; [done|]. unfold synced in Hs.
  rewrite (emits_sent _ _ _ He), pen_run_app, (run_style_cmds _ _ _ Hs),
    (tracks_lit _ _ Hs), Hcur. cbn [Pen.lit current from_option].
  rewrite (elem_of_set_changed _ _ _ H0 H1).
  intros [[_ ?]|[?|[? _]]]; [done|by eapply plain_weight..].
Qed.


End pen_facts.

(** ** Frames *)

(** An appearance with no switch on, of normal weight or of the weight
    [w].  Two such appearances are compatible, and every set of
    pairwise compatible appearances is made of such appearances, for
    [w] bold or for [w] thin. *)
Definition steady (w : Weight.t) (app : Appearance.t) : Prop :=
  Appearance.attributes app = ∅ /\
  (Appearance.weight app = Weight.Normal \/ Appearance.weight app = w).

#[export] Instance steady_dec w app : Decision (steady w app).
Proof. unfold steady. apply _. Defined.

(** What a frame keeps: the terminal does not fail, its pen is the one
    of the style the screen remembers, and that style is steady. *)
Definition kept (w : Weight.t) (p0 : Pen.t) (self : Screen.t) : Prop :=
  Term.reliable (Screen.out self) /\ synced p0 self /\
  steady w (current (Screen.style self)).

(** An operation of the screen that succeeds and keeps it. *)
Definition keeps (w : Weight.t) (m : io Screen.t unit) : Prop :=
  forall p0 self, kept w p0 self ->
    exists self', m self = (ROk tt, self') /\ kept w p0 self'.

(** The styles of the themes are steady. *)
Class ThemeSteady `{TH : Themes} (w : Weight.t) : Prop :=
  theme_steady th g : steady w (TextStyle.appearance (Theme_style th g)).

(** Drawing a widget keeps the pen. *)
Class WidgetPenLaws `{TH : Themes} (w : Weight.t) (W : Type)
    `{!WidgetDraw W} : Prop :=
  draw_keeps (x : W) c pos : keeps w (Widget.draw x c pos).

(** [Cells::print_text] sends no style command and leaves the style
    the screen remembers. *)
Class CellsTextPenLaws `{CT : CellsText} : Prop :=
  print_text_pen c txt self :
    Term.reliable (Screen.out self) ->
    exists cs self', queues (Cells_print_text c txt) self cs self' /\
      forallb pen_free cs = true /\ Screen.style self' = Screen.style self.

(** The style the text of a widget is written in. *)
Class WidgetInk `{TH : Themes} (W : Type) := ink : W -> Theme.t -> TextStyle.t.

(** A widget drawn on a screen that has the style of its group set, as
    [draw] sets it, writes its text in its own style. *)
Class WidgetInkLaws `{TH : Themes} (w : Weight.t) (W : Type)
    `{!WidgetDraw W} `{!WidgetInk W} : Prop :=
  draw_ink (x : W) c pos p0 self :
    kept w p0 self ->
    Screen.style self
      = Some (Theme_style (Screen.theme self) (style_group x)) ->
    exists cs self', queues (Widget.draw x c pos) self cs self' /\
      written_in p0 (sent self) cs (ink x (Screen.theme self)).

(** A pen of the frame of the layout [wbs] over the widgets [ws]: the
    one of the style of a widget of the layout. *)
Definition frame_ink `{TH : Themes} {W : Type} `{!WidgetInk W}
    (wbs : widget_boxes) (ws : list W) (th : Theme.t) (p : Pen.t) : Prop :=
  exists i x bbox, (i, bbox) ∈ wbs /\ ws !! i = Some x /\ shows p (ink x th).

Section keeping.
Context (w : Weight.t).
Implicit Types (m : io Screen.t unit) (self : Screen.t) (st : TextStyle.t)
  (app : Appearance.t).

Lemma steady_plain app : steady w app -> plain app.
Proof. unfold plain. intros [-> _]. set_solver. Qed.

Lemma steady_compatible a b : steady w a -> steady w b -> compatible a b.
Proof.
  intros [Ha Hwa] [Hb Hwb]. split; [rewrite Ha; set_solver|].
  destruct Hwa, Hwb; auto. left. congruence.
Qed.

Lemma steady_default : steady w Appearance.default.
Proof. split; [done|by left]. Qed.

Lemma keeps_ret : keeps w (io_ret tt).
Proof. intros p0 self Hk. by exists self. Qed.

Lemma keeps_bind m (k : unit -> io Screen.t unit) :
  keeps w m -> keeps w (k tt) -> keeps w (io_bind m k).
Proof.
  intros Hm Hk p0 self H. destruct (Hm p0 self H) as (s1 & E1 & H1).
  destruct (Hk p0 s1 H1) as (s2 & E2 & H2). exists s2. split; [|done].
  by rewrite (io_bind_ROk _ _ _ _ _ E1).
Qed.

Lemma keeps_for {A} (l : list A) (f : A -> io Screen.t unit) :
  (forall x, keeps w (f x)) -> keeps w (io_for l f).
Proof.
  intros Hf. induction l as [|x l IH]; [apply keeps_ret|].
  by apply keeps_bind.
Qed.

(** Commands that leave the pen alone keep it. *)
Lemma kept_queues m p0 self cs self' :
  kept w p0 self -> queues m self cs self' ->
  forallb pen_free cs = true -> Screen.style self' = Screen.style self ->
  kept w p0 self'.
Proof.
  intros (Hr & Hs & Hst) (E & He & Hr') Hf Hstyle. unfold kept, synced.
  by rewrite Hstyle, (emits_sent _ _ _ He), pen_run_app, (run_pen_free _ _ Hf).
Qed.

Lemma keeps_queues m :
  (forall self, Term.reliable (Screen.out self) ->
     exists cs self', queues m self cs self' /\
       forallb pen_free cs = true /\ Screen.style self' = Screen.style self) ->
  keeps w m.
Proof.
  intros Hm p0 self Hk.
  destruct (Hm self (proj1 Hk)) as (cs & self' & Hq & Hf & Hstyle).
  exists self'. split; [apply Hq|]. by eapply kept_queues.
Qed.

Lemma keeps_one cs :
  forallb pen_free cs = true -> keeps w (Screen.queue cs;; io_ret tt).
Proof.
  intros Hf. apply keeps_queues. intros self Hr.
  destruct (queues_one cs self Hr) as (self' & Hq & Hstyle). by exists cs, self'.
Qed.

(** Flushing sends nothing more. *)
Lemma flush_kept p0 self :
  kept w p0 self ->
  exists self', Screen.flush self = (ROk tt, self') /\
    sent self' = sent self /\ kept w p0 self'.
Proof.
  intros (Hr & Hs & Hst).
  destruct (term_flush_reliable _ Hr) as (t & E & Hr' & _).
  exists (Screen.set_out self t). unfold Screen.flush, io_on. rewrite E.
  pose proof (term_flush_sent (Screen.out self)) as Hsent. rewrite E in Hsent.
  assert (sent (Screen.set_out self t) = sent self) as Hsame
    by (by destruct self).
  split; [done|]. split; [done|]. unfold kept, synced. rewrite Hsame.
  by destruct self.
Qed.

Lemma keeps_flush : keeps w Screen.flush.
Proof.
  intros p0 self Hk. destruct (flush_kept p0 self Hk) as (self' & E & _ & Hk').
  by exists self'.
Qed.

(** A steady style keeps it. *)
Lemma set_style_kept st p0 self :
  steady w (TextStyle.appearance st) -> kept w p0 self ->
  exists self',
    queues (Screen.set_style st) self (style_cmds (Screen.style self) st) self' /\
    Screen.style self' = Some st /\ kept w p0 self'.
Proof.
  intros Hst (Hr & Hs & Hcur).
  destruct (set_style_synced p0 st self Hr Hs)
    as (self' & Hq & Hstyle & Hiff); [by eapply steady_plain..|].
  exists self'. split; [done|]. split; [done|]. split; [apply Hq|].
  rewrite Hstyle. split; [|done]. by apply Hiff, steady_compatible.
Qed.

Lemma keeps_set_style st :
  steady w (TextStyle.appearance st) -> keeps w (Screen.set_style st).
Proof.
  intros Hst p0 self Hk.
  destruct (set_style_kept st p0 self Hst Hk) as (self' & (E & _) & _ & Hk').
  by exists self'.
Qed.

Lemma kept_shows p0 self st :
  kept w p0 self -> Screen.style self = Some st ->
  shows (Pen.run p0 (sent self)) st.
Proof. intros (_ & Hs & _) E. unfold synced in Hs. by rewrite E in Hs. Qed.

End keeping.

(** ** The widgets *)

Lemma render_keeps `{TW : TextWrap} w (l : Label.t) c : keeps w (Label.render l c).
Proof.
  apply keeps_bind; [|apply keeps_ret]. apply keeps_for. intros [row txt].
  apply keeps_bind; by apply keeps_one.
Qed.

#[export] Instance Label_pen_laws `{TH : Themes} `{TW : TextWrap} w :
  WidgetPenLaws w Label.t.
Proof. intros l c pos. apply render_keeps. Qed.

Lemma button_style_steady w (b : Button.t) th :
  steady w (TextStyle.appearance (Button.style b th)).
Proof. unfold Button.style. destruct (Button.state b); apply steady_default. Qed.

(** A button keeps the pen when [print_text] does. *)
#[export] Instance Button_pen_laws `{TH : Themes} `{CT : CellsText}
  `{!CellsTextPenLaws} w : WidgetPenLaws w Button.t.
Proof.
  intros b c pos p0 self Hk. cbn [Widget.draw Button_draw]. unfold Button.draw.
  cbv zeta. refine (keeps_bind w _ _ _ _ p0 self Hk);
    [|apply keeps_queues, print_text_pen].
  apply keeps_set_style, button_style_steady.
Qed.

(** Text printed at the start of the view. *)
Lemma move_print_pen c col row txt self :
  Term.reliable (Screen.out self) ->
  exists cs self',
    queues (Cells.move_to c col row;; Cells.print_str c txt) self cs self' /\
    forallb pen_free cs = true /\ Screen.style self' = Screen.style self.
Proof.
  intros Hr. destruct (queues_cells_move_to c col row self Hr) as (s1 & Hq1 & E1).
  destruct (queues_cells_print_str c txt s1 (proj2 (proj2 Hq1)))
    as (s2 & Hq2 & E2).
  eexists _, s2. split; [exact (queues_seq _ _ _ _ _ _ _ Hq1 Hq2)|].
  split; [done|congruence].
Qed.

#[export] Instance plain_text_pen_laws : @CellsTextPenLaws plain_text.
Proof. intros c txt. apply move_print_pen. Qed.

#[export] Instance cut_text_pen_laws : @CellsTextPenLaws cut_text.
Proof. intros c txt. apply move_print_pen. Qed.

(** ** The style the widgets write in *)

(** A label writes in the style of its group. *)
#[export] Instance Label_ink `{TH : Themes} `{TW : TextWrap} : WidgetInk Label.t :=
  fun l th => Theme_style th (style_group l).

(** A button writes in the style of its state. *)
#[export] Instance Button_ink `{TH : Themes} : WidgetInk Button.t :=
  fun b th => Button.style b th.

Lemma render_loop_cmds_pen_free c rows :
  forallb pen_free (render_loop_cmds c rows) = true.
Proof. induction rows as [|[i txt] rows IH]; [done|exact IH]. Qed.

#[export] Instance Label_ink_laws `{TH : Themes} `{TW : TextWrap} w :
  WidgetInkLaws w Label.t.
Proof.
  intros l c pos p0 self Hk Hst.
  destruct (label_render_any l c self (proj1 Hk)) as (self' & Hq & _).
  eexists _, self'. split; [exact Hq|].
  apply written_in_pen_free; [apply render_loop_cmds_pen_free|].
  by eapply kept_shows.
Qed.

#[export] Instance Button_ink_laws `{TH : Themes} `{CT : CellsText}
  `{!CellsTextPenLaws} w : WidgetInkLaws w Button.t.
Proof.
  intros b c pos p0 self Hk _. cbn [Widget.draw Button_draw].
  destruct (set_style_kept w (Button.style b (Cells.theme c self)) p0 self
              (button_style_steady w b _) Hk) as (s1 & Hq1 & Hst1 & Hk1).
  destruct (print_text_pen c (Label.txt (Button.lbl b)) s1 (proj1 Hk1))
    as (cs2 & s2 & Hq2 & Hf & _).
  eexists _, s2. split; [exact (queues_seq _ _ _ _ _ _ _ Hq1 Hq2)|].
  apply written_in_style_cmds, written_in_pen_free; [done|].
  rewrite <- (emits_sent _ _ _ (proj1 (proj2 Hq1))).
  by eapply kept_shows.
Qed.

(** ** A frame keeps the pen *)

Section frame.
Context `{TH : Themes} {W : Type} `{!WidgetDraw W} (w : Weight.t)
  `{!ThemeSteady w} `{!WidgetPenLaws w W}.
Implicit Types (self : Screen.t) (wbs : widget_boxes) (ws : list W).

Lemma draw_widget_keeps pos (x : W) bbox : keeps w (draw_widget pos x bbox).
Proof.
  intros p0 self Hk. unfold draw_widget.
  destruct (cells self bbox) as [c|]; [|by exists self]. cbv zeta.
  refine (keeps_bind w _ _ _ _ p0 self Hk); [|apply draw_keeps].
  apply keeps_set_style, theme_steady.
Qed.

(** A widget of the layout is drawn in its style: [draw_widget] sets
    the style of the widget's group, and what the widget writes it
    writes in its own style. *)
Lemma draw_widget_ink `{!WidgetInk W} `{!WidgetInkLaws w W} pos (x : W) bbox
    c p0 self :
  kept w p0 self -> cells self bbox = Some c ->
  exists cs self',
    draw_widget pos x bbox self = (ROk tt, self') /\
    sent self' = sent self ++ cs /\
    Screen.theme self' = Screen.theme self /\
    written_in p0 (sent self) cs (ink x (Screen.theme self)) /\
    kept w p0 self'.
Proof.
  intros Hk Hc. unfold draw_widget. rewrite Hc. cbv zeta. unfold Cells.theme.
  destruct (set_style_kept w _ p0 self
              (theme_steady (Screen.theme self) (style_group x)) Hk)
    as (s1 & Hq1 & Hst1 & Hk1).
  assert (Screen.theme s1 = Screen.theme self) as Hth by apply Hq1.
  rewrite <- Hth in Hst1.
  destruct (draw_ink x c pos p0 s1 Hk1 Hst1) as (cs2 & s2 & Hq2 & Hw).
  destruct (draw_keeps x c pos p0 s1 Hk1) as (s2' & E2 & Hk2).
  assert (s2' = s2) as -> by (destruct Hq2 as (E & _); congruence).
  pose proof (queues_seq _ _ _ _ _ _ _ Hq1 Hq2) as (E & He & _).
  eexists _, s2. split; [exact E|]. split; [exact (emits_sent _ _ _ He)|].
  split; [apply He|]. split; [|done]. apply written_in_style_cmds.
  rewrite <- (emits_sent _ _ _ (proj1 (proj2 Hq1))). by rewrite <- Hth.
Qed.

Section ink.
Context `{!WidgetInk W} `{!WidgetInkLaws w W}.

(** One turn of the loop of [draw]. *)
Lemma draw_item_ink i bbox ws p0 self :
  kept w p0 self ->
  exists cs self',
    match ws !! i with
    | Some widget => draw_widget Pos.default widget bbox
    | None => io_ret tt
    end self = (ROk tt, self') /\
    sent self' = sent self ++ cs /\
    Screen.theme self' = Screen.theme self /\
    Forall (fun pc => frame_ink [(i, bbox)] ws (Screen.theme self) pc.1)
      (inked (Pen.run p0 (sent self)) cs) /\
    kept w p0 self'.
Proof.
  intros Hk.
  assert (exists cs self', io_ret tt self = (ROk tt, self') /\
            sent self' = sent self ++ cs /\
            Screen.theme self' = Screen.theme self /\
            Forall (fun pc => frame_ink [(i, bbox)] ws (Screen.theme self) pc.1)
              (inked (Pen.run p0 (sent self)) cs) /\ kept w p0 self') as Hret.
  { exists [], self. rewrite app_nil_r. split_and!; done || constructor. }
  destruct (ws !! i) as [x|] eqn:Hx; [|exact Hret].
  destruct (cells self bbox) as [c|] eqn:Hc;
    [|unfold draw_widget; by rewrite Hc].
  destruct (draw_widget_ink Pos.default x bbox c p0 self Hk Hc)
    as (cs & self' & E & Hs & Hth & Hw & Hk').
  exists cs, self'. split_and!; try done.
  eapply Forall_impl; [exact Hw|]. intros [p cmd] Hp.
  exists i, x, bbox. split; [set_solver|done].
Qed.

(** The loop of [draw]. *)
Lemma draw_loop_ink wbs ws p0 self :
  kept w p0 self ->
  exists cs self',
    io_for wbs (fun wb =>
      match ws !! wb.1 with
      | Some widget => draw_widget Pos.default widget wb.2
      | None => io_ret tt
      end) self = (ROk tt, self') /\
    sent self' = sent self ++ cs /\
    Screen.theme self' = Screen.theme self /\
    Forall (fun pc => frame_ink wbs ws (Screen.theme self) pc.1)
      (inked (Pen.run p0 (sent self)) cs) /\
    kept w p0 self'.
Proof.
  revert self. induction wbs as [|[i bbox] wbs IH]; intros self Hk.
  { exists [], self. rewrite app_nil_r. split_and!; done || constructor. }
  destruct (draw_item_ink i bbox ws p0 self Hk)
    as (cs1 & s1 & E1 & Hs1 & Hth1 & Hw1 & Hk1).
  destruct (IH s1 Hk1) as (cs2 & s2 & E2 & Hs2 & Hth2 & Hw2 & Hk2).
  exists (cs1 ++ cs2), s2. cbn [io_for fst snd].
  rewrite (io_bind_ROk _ _ _ _ _ E1). split; [done|].
  split; [by rewrite Hs2, Hs1, app_assoc|]. split; [congruence|].
  split; [|done]. rewrite inked_app, <- pen_run_app, <- Hs1.
  rewrite Hth1 in Hw2.
  apply Forall_app. split; (eapply Forall_impl; [eassumption|]);
    intros [p cmd] (j & x & b & Hin & Hx & Hp); exists j, x, b;
    (split; [set_solver|done]).
Qed.

(** [draw]: the style commands and the clearing write nothing. *)
Lemma draw_frame_ink wbs ws p0 self :
  kept w p0 self ->
  exists cs self',
    draw wbs ws self = (ROk tt, self') /\
    sent self' = sent self ++ cs /\
    Forall (fun pc => frame_ink wbs ws (Screen.theme self) pc.1)
      (inked (Pen.run p0 (sent self)) cs) /\
    kept w p0 self'.
Proof.
  intros Hk.
  destruct (set_style_kept w _ p0 self
              (theme_steady (Screen.theme self) StyleGroup_Enabled) Hk)
    as (s1 & Hq1 & _ & Hk1).
  destruct (queues_clear s1 (proj1 Hk1)) as (s2 & Hq2 & Hst2).
  pose proof (kept_queues w _ p0 s1 _ s2 Hk1 Hq2 eq_refl Hst2) as Hk2.
  destruct (draw_loop_ink wbs ws p0 s2 Hk2)
    as (cs & s3 & E3 & Hs3 & Hth3 & Hw3 & Hk3).
  destruct (flush_kept w p0 s3 Hk3) as (s4 & E4 & Hs4 & Hk4).
  pose proof (queues_seq _ _ _ _ _ _ _ Hq1 Hq2) as (E12 & He12 & _).
  exists ((style_cmds (Screen.style self)
             (Theme_style (Screen.theme self) StyleGroup_Enabled) ++ [ClearAll])
          ++ cs), s4.
  split; [|split; [|split; [|done]]].
  - unfold draw. cbv zeta. unfold io_bind in E12 |- *.
    destruct (Screen.set_style _ self) as [[[]|?] s1']; [|done].
    destruct (Screen.clear s1') as [[[]|?] s2']; [|done].
    injection E12 as ->. by rewrite E3, E4.
  - rewrite Hs4, Hs3, (emits_sent _ _ _ He12). symmetry. apply app_assoc.
  - rewrite inked_app, <- pen_run_app, <- (emits_sent _ _ _ He12).
    rewrite inked_app, inked_style_cmds. cbn [inked prints app].
    replace (Screen.theme self) with (Screen.theme s2); [done|].
    destruct He12 as (_ & _ & _ & _ & _ & ? & _). done.
Qed.

End ink.

Lemma draw_keeps_pen wbs ws : keeps w (draw wbs ws).
Proof.
  intros p0 self Hk. unfold draw. cbv zeta.
  refine (keeps_bind w _ _ _ _ p0 self Hk);
    [apply keeps_set_style, theme_steady|].
  apply keeps_bind; [by apply keeps_one|].
  apply keeps_bind; [|apply keeps_bind; [apply keeps_flush|apply keeps_ret]].
  apply keeps_for. intros [i bbox]. cbn [fst snd].
  destruct (ws !! i); [apply draw_widget_keeps|apply keeps_ret].
Qed.

(** What the event loop keeps of a screen keeps the pen. *)
Lemma kept_same_screen p0 self self' :
  kept w p0 self -> same_screen self self' -> kept w p0 self'.
Proof.
  intros Hk (Ho & _ & Hs & _). unfold kept, synced, sent in *.
  by rewrite Ho, Hs.
Qed.

(** [step]: the frame keeps the pen, and the wait for an action sends
    nothing. *)
Lemma step_keeps_pen `{!Widget W} area self stream ws p0 :
  kept w p0 self -> kept w p0 (step area self stream ws).1.1.2.
Proof.
  intros Hk. unfold step.
  destruct (draw_keeps_pen (area (Screen.bbox self) (Screen.theme self)) ws
              p0 self Hk) as (self' & -> & Hk').
  eapply kept_same_screen; [exact Hk'|apply wait_action_screen].
Qed.

(** The loop of the program: every frame keeps the pen. *)
Lemma step_future_keeps_pen `{!Widget W} g self stream ws p0 :
  kept w p0 self -> kept w p0 (GridFutures.step_future g self stream ws).1.1.2.
Proof.
  intros Hk. unfold GridFutures.step_future.
  destruct (GridBoxes.all_bounds ws); [by apply step_keeps_pen|done].
Qed.

Lemma step_loop_keeps_pen `{!Widget W} fuel g self stream ws p0 r self' rest :
  kept w p0 self ->
  GridFutures.step_loop fuel g self stream ws = Some (r, self', rest) ->
  kept w p0 self'.
Proof.
  revert self stream ws.
  induction fuel as [|fuel IH]; intros self stream ws Hk; [done|].
  cbn [GridFutures.step_loop].
  pose proof (step_future_keeps_pen g self stream ws p0 Hk) as Hk1.
  destruct (GridFutures.step_future g self stream ws)
    as [[[[|[[| |]|e]|p] self1] ws1] rest1]; cbn in Hk1;
    try (by intros [= <- <- <-]); by apply IH.
Qed.

(** The loop of [grid.rs]: a frame and an event. *)
Lemma main_loop_keeps_pen `{!Widget W} fuel self stream ws p0 r self' rest :
  kept w p0 self ->
  GridRs.main_loop fuel self stream ws = Some (r, self', rest) ->
  kept w p0 self'.
Proof.
  revert self stream.
  induction fuel as [|fuel IH]; intros self stream Hk; [done|].
  cbn [GridRs.main_loop].
  destruct (GridRs.layout _ ws) as [[wbs|e]|p]; try (by intros [= <- <- <-]).
  destruct (draw_keeps_pen wbs ws p0 self Hk) as (s1 & E & Hk1).
  unfold GridRs.render. rewrite E.
  pose proof (kept_same_screen p0 s1 _ Hk1 (proj1 (event_screen s1 stream)))
    as Hk2.
  destruct (GridRs.event s1 stream) as [[[[ev|e]|] s2] rest2]; cbn in Hk2;
    try (by intros [= <- <- <-]).
  destruct ev; try case_decide; try (by intros [= <- <- <-]); by apply IH.
Qed.

End frame.

(** ** Theorems *)

(** C11. [set_style] on a terminal that does not fail, whose pen is the
    one of the style the screen remembers: it succeeds and records the
    style, and the pen is the one of the new style exactly when the
    appearances are compatible, that is, when no switch is on in both
    and the weight does not go from bold to thin or from thin to
    bold.  The colors of the pen are those of the new style in every
    case. *)
Theorem set_style_shows p0 st self :
  Term.reliable (Screen.out self) -> synced p0 self ->
  plain (current (Screen.style self)) -> plain (TextStyle.appearance st) ->
  exists self',
    queues (Screen.set_style st) self (style_cmds (Screen.style self) st) self' /\
    Screen.style self' = Some st /\
    (synced p0 self' <->
     compatible (current (Screen.style self)) (TextStyle.appearance st)) /\
    Pen.bg (Pen.run p0 (sent self')) = Some (TextStyle.background st) /\
    Pen.fg (Pen.run p0 (sent self')) = Some (TextStyle.foreground st).
Proof.
  intros Hr Hs Hc Hp.
  destruct (set_style_synced p0 st self Hr Hs Hc Hp) as (self' & Hq & ? & ?).
  exists self'. split_and!; try done; by eapply set_style_colors.
Qed.

(** C27. A switch that stays on is lost: when the current style and the
    new style both have italic on (or underline, reverse, strike
    through), [set_style] succeeds and records the new style, and the
    terminal writes without that switch afterwards, because
    [Appearance::changed] sends the reset along with the switch and
    the terminal library writes the resets last. *)
Theorem set_style_loses_switch p0 st0 st self x :
  Term.reliable (Screen.out self) -> Screen.style self = Some st0 ->
  synced p0 self ->
  plain (TextStyle.appearance st0) -> plain (TextStyle.appearance st) ->
  x ∈ Appearance.attributes (TextStyle.appearance st0) ->
  x ∈ Appearance.attributes (TextStyle.appearance st) ->
  exists self',
    Screen.set_style st self = (ROk tt, self') /\
    Screen.style self' = Some st /\
    x ∉ Pen.lit (Pen.run p0 (sent self')).
Proof. apply set_style_unlit. Qed.

(** A frame keeps the pen: with a theme whose styles have no switch
    on and use one weight besides normal, and widgets that keep the
    pen when they draw, [draw] on a terminal that does not fail
    succeeds, and at the end of the frame the terminal writes in the
    style the screen remembers (the proof keeps this before and after
    every widget, by the rules of [keeps]). *)
Theorem draw_synced `{TH : Themes} {W : Type} `{!WidgetDraw W} (w : Weight.t)
    `{!ThemeSteady w} `{!WidgetPenLaws w W} wbs (ws : list W) p0 self :
  kept w p0 self ->
  exists self', draw wbs ws self = (ROk tt, self') /\ kept w p0 self'.
Proof. exact (draw_keeps_pen w wbs ws p0 self). Qed.

(** C16. The loop of the program keeps the pen: with a theme whose styles
    have no switch on and use one weight besides normal, and widgets
    that keep the pen when they draw, the loop of [step_future] on a
    terminal that does not fail ends, given a frame of fuel for each
    item of the event stream and one more, and when it ends the
    terminal writes in the style the screen remembers. *)
Theorem step_loop_synced `{TH : Themes} {W : Type} `{!Widget W}
    `{!WidgetDraw W} (w : Weight.t) `{!ThemeSteady w} `{!WidgetPenLaws w W}
    fuel g (ws : list W) stream p0 self :
  (length stream < fuel)%nat -> kept w p0 self ->
  exists r self' rest,
    GridFutures.step_loop fuel g self stream ws = Some (r, self', rest) /\
    kept w p0 self'.
Proof.
  intros Hfuel Hk.
  destruct (step_loop_fuel fuel g self stream ws Hfuel) as [[[r self'] rest] E].
  exists r, self', rest. split; [done|].
  exact (step_loop_keeps_pen w fuel g self stream ws p0 r self' rest Hk E).
Qed.

(** C17. The text of a frame is written in the styles of its widgets:
    with a theme of steady styles and widgets that keep the pen and
    write in their own style (a label in the style of its group, a
    button in the style of its state), [draw] on a terminal that does
    not fail, whose pen is the one of the style the screen remembers,
    succeeds, and every character it sends is written with the pen of
    the style of a widget of the layout; the style commands and the
    clearing of the screen write nothing. *)
Theorem draw_written `{TH : Themes} {W : Type} `{!WidgetDraw W}
    `{!WidgetInk W} (w : Weight.t) `{!ThemeSteady w} `{!WidgetPenLaws w W}
    `{!WidgetInkLaws w W} wbs (ws : list W) p0 self :
  kept w p0 self ->
  exists cs self',
    draw wbs ws self = (ROk tt, self') /\
    sent self' = sent self ++ cs /\
    Forall (fun pc => frame_ink wbs ws (Screen.theme self) pc.1)
      (inked (Pen.run p0 (sent self)) cs) /\
    kept w p0 self'.
Proof. exact (draw_frame_ink w wbs ws p0 self). Qed.

(** ** Concrete instances *)

#[export] Instance sample_themes_steady w : @ThemeSteady sample_themes w.
Proof. intros th g. apply steady_default. Qed.

(** A theme whose styles are italic. *)
Definition italic_themes : Themes := {|
  StyleGroup := unit;
  StyleGroup_Enabled := tt;
  Theme_default := sample_theme;
  Theme_style th _ := italic_style;
|}.

(** Bold and thin text in the default colors. *)
Definition bold_style : TextStyle.t :=
  TextStyle.with_appearance TextStyle.default
    (Appearance.with_weight Appearance.default Weight.Bold).

Definition thin_style : TextStyle.t :=
  TextStyle.with_appearance TextStyle.default
    (Appearance.with_weight Appearance.default Weight.Thin).

(** Under the italic theme the label of a frame is written without
    italic: [draw] sets the style of the theme, and sets it again for
    the widget. *)
Example italic_frame_unlit :
  let r := @draw italic_themes _ (@Label_draw italic_themes one_line)
             [(0%nat, BBox.new 0 0 10 1)] [Label.new "note"] sample_screen in
  r.1 = ROk tt /\ Screen.style r.2 = Some italic_style /\
  Term.written (Screen.out r.2) =
    [SetBackgroundColor (Black INormal); SetForegroundColor (White IBright);
     SetAttributes {[Attribute.Italic]}; ClearAll;
     SetAttributes {[Attribute.Italic; Attribute.NoItalic]};
     MoveTo 0 0; PrintStr "note"] /\
  Pen.lit (Pen.run Pen.fresh (sent r.2)) = ∅.
Proof. intros. compute_done. Qed.

(** A frame with two buttons, the second one pressed: each text with
    the pen it is written with. *)
Example frame_two_buttons_ink :
  let bs := [Button.new "yes";
             Button.set_state (Button.new "no") Button.Pressed] in
  let r := @draw sample_themes _ (@Button_draw sample_themes plain_text)
             sample_boxes bs sample_screen in
  inked Pen.fresh (sent r.2) =
    [(Pen.mk (Some (Black INormal)) (Some (White IBright)) ∅, PrintStr "yes");
     (Pen.mk (Some (Yellow INormal)) (Some (Black INormal)) ∅, PrintStr "no")].
Proof. intros. compute_done. Qed.

(** From bold to thin the terminal is left with both on. *)
Example bold_then_thin :
  let r := (Screen.set_style bold_style;;
            Screen.set_style thin_style)%io sample_screen in
  r.1 = ROk tt /\ Screen.style r.2 = Some thin_style /\
  Pen.lit (Pen.run Pen.fresh (sent r.2)) = {[Attribute.Bold; Attribute.Dim]}.
Proof. intros. compute_done. Qed.

(** After a [set_style] that fails between the two colors the screen
    remembers the former style and the terminal has the new
    background; setting the former style again sends nothing, and the
    background stays. *)
Example set_style_failure_stale :
  let st := TextStyle.with_background TextStyle.default (Yellow INormal) in
  let start := Screen.set_out sample_screen
                 (Term.mk (20, 1) true [] [] [None; None; None; Some 5]) in
  let s1 := (Screen.set_style TextStyle.default start).2 in
  let r2 := Screen.set_style (TextStyle.with_foreground st (Red INormal)) s1 in
  let r3 := Screen.set_style TextStyle.default r2.2 in
  synced Pen.fresh s1 /\
  r2.1 = RErr (Error.Crossterm 5) /\ Screen.style r2.2 = Some TextStyle.default /\
  r3.1 = ROk tt /\ sent r3.2 = sent r2.2 /\
  Screen.style r3.2 = Some TextStyle.default /\
  Pen.bg (Pen.run Pen.fresh (sent r3.2)) = Some (Yellow INormal).
Proof. intros. compute_done. Qed.

(** The attributes a terminal has on when the screen is made stay on:
    [new] and the first [set_style] reset none. *)
Example pen_inherited :
  let p0 := Pen.mk None None {[Attribute.Underlined]} in
  let r := Screen.set_style TextStyle.default sample_screen in
  r.1 = ROk tt /\ Pen.lit (Pen.run p0 (sent r.2)) = {[Attribute.Underlined]}.
Proof. intros. compute_done. Qed.

Lemma set_style_shows_witness :
  Term.reliable (Screen.out sample_screen) /\ synced Pen.fresh sample_screen /\
  plain (current (Screen.style sample_screen)) /\
  plain (TextStyle.appearance italic_style) /\
  exists self',
    queues (Screen.set_style italic_style) sample_screen
      (style_cmds (Screen.style sample_screen) italic_style) self' /\
    Screen.style self' = Some italic_style /\
    (synced Pen.fresh self' <->
     compatible (current (Screen.style sample_screen))
       (TextStyle.appearance italic_style)) /\
    Pen.bg (Pen.run Pen.fresh (sent self'))
      = Some (TextStyle.background italic_style) /\
    Pen.fg (Pen.run Pen.fresh (sent self'))
      = Some (TextStyle.foreground italic_style).
Proof.
  split; [by constructor|]. split; [done|]. do 2 (split; [compute_done|]).
  apply (set_style_shows Pen.fresh italic_style sample_screen);
    [by constructor|done|compute_done..].
Defined.

Lemma set_style_loses_switch_witness :
  let self := (Screen.set_style italic_style sample_screen).2 in
  Term.reliable (Screen.out self) /\ Screen.style self = Some italic_style /\
  synced Pen.fresh self /\ plain (TextStyle.appearance italic_style) /\
  Attribute.Italic ∈ Appearance.attributes (TextStyle.appearance italic_style) /\
  exists self',
    Screen.set_style italic_style self = (ROk tt, self') /\
    Screen.style self' = Some italic_style /\
    Attribute.Italic ∉ Pen.lit (Pen.run Pen.fresh (sent self')).
Proof.
  intros self. split; [by constructor|]. split; [done|].
  do 3 (split; [compute_done|]).
  apply (set_style_loses_switch Pen.fresh italic_style italic_style self);
    [by constructor|done|compute_done..].
Defined.

Lemma step_loop_synced_witness :
  (length [StreamEnd] < 5)%nat /\ kept Weight.Bold Pen.fresh fresh_screen /\
  exists r self' rest,
    @GridFutures.step_loop sample_themes Label.t
      (@Label_widget Debug ascii_width) (@Label_draw sample_themes one_line)
      5 futures_grid fresh_screen [StreamEnd]
      [Label.new "."; Label.new "#"; Label.new "left"; Label.new "right"]
    = Some (r, self', rest) /\
    kept Weight.Bold Pen.fresh self'.
Proof.
  assert (kept Weight.Bold Pen.fresh fresh_screen) as Hk.
  { split; [by constructor|]. split; [compute_done|apply steady_default]. }
  split; [cbn; lia|]. split; [exact Hk|].
  apply (@step_loop_synced sample_themes Label.t
           (@Label_widget Debug ascii_width) (@Label_draw sample_themes one_line)
           Weight.Bold (sample_themes_steady _)
           (@Label_pen_laws sample_themes one_line _)
           5 futures_grid _ [StreamEnd] Pen.fresh fresh_screen); [cbn; lia|exact Hk].
Defined.

Lemma draw_written_witness :
  kept Weight.Bold Pen.fresh sample_screen /\
  exists cs self',
    @draw sample_themes _ (@Button_draw sample_themes plain_text)
      sample_boxes two_buttons sample_screen = (ROk tt, self') /\
    sent self' = sent sample_screen ++ cs /\
    Forall (fun pc =>
              @frame_ink sample_themes _ (@Button_ink sample_themes)
                sample_boxes two_buttons (Screen.theme sample_screen) pc.1)
      (inked (Pen.run Pen.fresh (sent sample_screen)) cs) /\
    kept Weight.Bold Pen.fresh self'.
Proof.
  assert (kept Weight.Bold Pen.fresh sample_screen) as Hk.
  { split; [by constructor|]. split; [done|apply steady_default]. }
  split; [exact Hk|].
  exact (@draw_written sample_themes _ (@Button_draw sample_themes plain_text)
           (@Button_ink sample_themes) Weight.Bold (sample_themes_steady _)
           (@Button_pen_laws sample_themes plain_text plain_text_pen_laws _)
           (@Button_ink_laws sample_themes plain_text plain_text_pen_laws _)
           sample_boxes two_buttons Pen.fresh sample_screen Hk).
Defined.

Lemma draw_synced_witness :
  kept Weight.Bold Pen.fresh sample_screen /\
  exists self',
    @draw sample_themes _ (@Button_draw sample_themes plain_text)
      sample_boxes two_buttons sample_screen = (ROk tt, self') /\
    kept Weight.Bold Pen.fresh self'.
Proof.
  assert (kept Weight.Bold Pen.fresh sample_screen) as Hk.
  { split; [by constructor|]. split; [done|apply steady_default]. }
  split; [exact Hk|].
  exact (@draw_synced sample_themes _ (@Button_draw sample_themes plain_text)
           Weight.Bold (sample_themes_steady _)
           (@Button_pen_laws sample_themes plain_text plain_text_pen_laws _)
           sample_boxes two_buttons Pen.fresh sample_screen Hk).
Defined.
